(** * ADG: automatic diagram generator

    A shallow embedding of the generation pipeline of ADG (the script
    [adg.py], the helper module [methods.py] and the package module
    [adg/diag.py]) together with the properties stated about it.

    Conventions.
    - A Python list of lists of integers is a [list (list Z)]; indexing
      [m[i][j]] is a lookup that may fail, the failure standing for Python's
      [IndexError].
    - A function whose Python body can raise returns an [option].
    - [for] loops with [break] are written with [Py.for_each]; the loop body
      says whether the loop goes on ([Continue]) or stops ([Break]).
    - A list that the Python code edits in place is threaded as the loop
      state. *)

From Stdlib Require Import ZArith Lia Ascii String DecimalString DecimalPos
  DecimalZ.
From stdpp Require Import list sorting strings gmap.

Open Scope Z_scope.

(** ** Python control flow *)

Module Py.

Inductive ctl (S : Type) : Type :=
  | Continue (s : S)
  | Break (s : S).
Arguments Continue {S} s.
Arguments Break {S} s.

(** [for x in xs: body], the state [s] holds the variables the body assigns.
    [None] is an exception raised by the body. *)
Fixpoint for_each {A S : Type} (xs : list A)
    (body : A → S → option (ctl S)) (s : S) : option S :=
  match xs with
  | [] => Some s
  | x :: xs' =>
      match body x s with
      | None => None
      | Some (Continue s') => for_each xs' body s'
      | Some (Break s') => Some s'
      end
  end.

(** [range(n)] and [range(a, b)] *)
Definition range (n : nat) : list nat := seq 0 n.
Definition range2 (a b : nat) : list nat := seq a (b - a).

(** [range(hi, lo, -1)] for [lo] one below a natural number:
    [range_down n k] is [range(n - 1, k - 1, -1)], that is
    [n-1, n-2, ..., k]. *)
Definition range_down (n k : nat) : list nat := reverse (seq k (n - k)).

(** [enumerate(xs)] *)
Definition enumerate {A : Type} (xs : list A) : list (nat * A) :=
  imap (λ i x, (i, x)) xs.

(** [itertools.permutations(pool, len(pool))]: tuples in lexicographic order
    of positions; [fuel] is the number of elements still to choose. *)
Fixpoint permutations_from (fuel : nat) (pool : list nat) : list (list nat) :=
  match fuel with
  | O => [[]]
  | S fuel =>
      seq 0 (length pool) ≫= λ i,
        match pool !! i with
        | Some x => (x ::.) <$> permutations_from fuel (delete i pool)
        | None => []
        end
  end.
Definition itertools_permutations (pool : list nat) : list (list nat) :=
  permutations_from (length pool) pool.

(** [itertools.combinations_with_replacement(range(n), 2)] *)
Definition combinations_with_replacement_2 (n : nat) : list (nat * nat) :=
  seq 0 n ≫= λ i, (λ j, (i, j)) <$> seq i (n - i).

(** Comparison of Python lists: the first position where the elements
    differ decides, a proper prefix is smaller. *)
Fixpoint list_leb {A : Type} `{EqDecision A} (ltb : A → A → bool)
    (a b : list A) : bool :=
  match a, b with
  | [], _ => true
  | _ :: _, [] => false
  | x :: a', y :: b' =>
      if bool_decide (x = y) then list_leb ltb a' b' else ltb x y
  end.
Definition list_ltb {A : Type} `{EqDecision A} (ltb : A → A → bool)
    (a b : list A) : bool :=
  list_leb ltb a b && negb (bool_decide (a = b)).

(** The values [elem] takes in
    [elem = 1; while elem + degree <= deg_max: ...; elem += 1]. *)
Definition while_elems (degree deg_max : Z) : list Z :=
  Z.of_nat <$> seq 1 (Z.to_nat (deg_max - degree)).

(** A non-empty string is true. *)
Definition truthy (s : string) : bool := negb (bool_decide (s = ""%string)).

(** [list(string.ascii_lowercase)] *)
Definition ascii_lowercase : list string :=
  ["a"; "b"; "c"; "d"; "e"; "f"; "g"; "h"; "i"; "j"; "k"; "l"; "m";
   "n"; "o"; "p"; "q"; "r"; "s"; "t"; "u"; "v"; "w"; "x"; "y"; "z"]%string.

(** [l[a:b]] for [0 <= a] and [0 <= b], and [l[a:-k]] for [0 < k]. *)
Definition slice {A : Type} (a b : nat) (l : list A) : list A :=
  drop a (take b l).
Definition slice_minus {A : Type} (a k : nat) (l : list A) : list A :=
  drop a (take (length l - k) l).

(** [l.index(x)]; [ValueError] when [x] is not in [l]. *)
Definition index {A : Type} `{EqDecision A} (x : A) (l : list A)
    : option nat :=
  fst <$> list_find (λ y, y = x) l.

(** [pat in s] for strings. *)
Fixpoint contains (pat : string) (s : string) : bool :=
  String.prefix pat s ||
  match s with
  | EmptyString => false
  | String _ s' => contains pat s'
  end.

(** [s.replace(pat, rep)] for a non-empty [pat]: the occurrences are
    replaced from the left, without overlap. [skip] counts the characters of
    an occurrence still to pass. *)
Fixpoint replace_from (pat rep : string) (skip : nat) (s : string) : string :=
  match s with
  | EmptyString => EmptyString
  | String c s' =>
      match skip with
      | S k => replace_from pat rep k s'
      | O =>
          if String.prefix pat s
          then (rep +:+ replace_from pat rep (String.length pat - 1) s')%string
          else String c (replace_from pat rep 0 s')
      end
  end.
Definition replace (pat rep : string) (s : string) : string :=
  replace_from pat rep 0 s.

(** [s.strip(' ')] *)
Fixpoint lstrip_space (s : string) : string :=
  match s with
  | String " " s' => lstrip_space s'
  | _ => s
  end.
Definition strip_space (s : string) : string :=
  String.rev (lstrip_space (String.rev (lstrip_space s))).

(** The tab of ['\t']. *)
Definition tab : string := String (ascii_of_nat 9) "".

(** [l[-k:]] for [0 < k]. *)
Definition slice_last {A : Type} (k : nat) (l : list A) : list A :=
  drop (length l - k) l.

(** [int(c)] for a string of one character: the value of a decimal digit,
    [ValueError] for another character. *)
Definition int_char (c : ascii) : option Z :=
  let n := nat_of_ascii c in
  if bool_decide (48 ≤ n ≤ 57)%nat then Some (Z.of_nat n - 48) else None.

(** [s[i]]; [IndexError] past the end. *)
Definition getchar (i : nat) (s : string) : option ascii := String.get i s.

End Py.

(** ** Adjacency matrices *)

Abbreviation matrix := (list (list Z)).

(** [m[i][j]] *)
Definition getitem2 (m : matrix) (i j : nat) : option Z :=
  row ← m !! i; row !! j.

(** [m[i][j] = x] *)
Definition setitem2 (m : matrix) (i j : nat) (x : Z) : option matrix :=
  row ← m !! i;
  if bool_decide (j < length row)%nat
  then Some (<[i := <[j := x]> row]> m)
  else None.

(** Order of matrices as Python compares nested lists. *)
Definition row_leb (a b : list Z) : bool := Py.list_leb Z.ltb a b.
Definition row_ltb (a b : list Z) : bool := Py.list_ltb Z.ltb a b.
Definition matrix_leb (a b : matrix) : bool := Py.list_leb row_ltb a b.

(** [l.sort(reverse=True)] on a list of matrices. *)
Definition matrix_ge (a b : matrix) : Prop := matrix_leb b a = true.
#[global] Instance matrix_ge_dec : RelDecision matrix_ge :=
  λ a b, decide (matrix_leb b a = true).
Definition sort_reverse (l : list matrix) : list matrix :=
  merge_sort matrix_ge l.

(** [uniq = []; for i in l: if i not in uniq: uniq.append(i)] *)
Definition uniq (l : list matrix) : list matrix :=
  foldl (λ acc i, if bool_decide (i ∈ acc) then acc else acc ++ [i]) [] l.

(** A square matrix of size [n]. *)
Definition square (n : nat) (m : matrix) : Prop :=
  length m = n ∧ Forall (λ row, length row = n) m.

(** * NumPy integers *)

Module Np.

(** Arithmetic on the entries of an integer array is 64-bit two's
    complement. *)
Definition wrap (z : Z) : Z := (z + 2 ^ 63) mod 2 ^ 64 - 2 ^ 63.
Definition add (a b : Z) : Z := wrap (a + b).
Definition sub (a b : Z) : Z := wrap (a - b).

(** [fmt % value] for [fmt = '%d'] (and ['%i']). *)
Definition fmt_d (z : Z) : string := NilZero.string_of_int (Z.to_int z).

(** [fmt % value] for [fmt = '%.18e'], the default of [savetxt], on an
    integer: one digit, a point, eighteen digits, the exponent with two
    digits at least. The digits are exact for the integers a double
    represents with at most nineteen digits. *)
Definition digits (z : Z) : list ascii :=
  list_ascii_of_string (NilZero.string_of_uint (N.to_uint (Z.abs_N z))).
Definition fmt_18e (z : Z) : string :=
  let ds := digits z in
  let exponent := Z.of_nat (length ds - 1) in
  ((if bool_decide (z < 0) then "-" else "")
   +:+ string_of_list_ascii (take 1 ds) +:+ "."
   +:+ string_of_list_ascii (take 18 (drop 1 ds ++ replicate 18 "0"%char))
   +:+ "e+" +:+ (if bool_decide (exponent < 10) then "0" else "")
   +:+ fmt_d exponent)%string.

(** [savetxt(f, m, fmt=fmt)]: the values of a row separated by one space,
    every row ended by a newline. *)
Fixpoint join (sep : string) (l : list string) : string :=
  match l with
  | [] => ""
  | x :: l' =>
      match l' with
      | [] => x
      | _ :: _ => x +:+ sep +:+ join sep l'
      end
  end.
Definition newline : string := String (ascii_of_nat 10) "".
Definition savetxt (fmt : Z → string) (m : matrix) : string :=
  foldr (λ row out, join " " (fmt <$> row) +:+ newline +:+ out) "" m.

(** [a.sum()] on entries whose sum does not wrap. *)
Definition sum (a : list Z) : Z := foldr Z.add 0 a.

End Np.

(** * NetworkX multigraphs

    The part of [networkx.MultiDiGraph] the program uses: the nodes in
    insertion order, the node attribute ['operator'], and the edges, one entry
    per parallel edge, with the edge attribute ['anomalous'] (absent on the
    edges built from a matrix). The library functions are modelled by their
    documented results. *)

Module Nx.

Record edge : Type := Edge {
  src : nat;
  dst : nat;
  anomalous : option bool
}.

Record MultiDiGraph : Type := Graph {
  nodes : list nat;
  operator : gmap nat bool;
  edges : list edge
}.

Definition number_of_nodes (g : MultiDiGraph) : nat := length (nodes g).
Definition number_of_edges (g : MultiDiGraph) : nat := length (edges g).

(** [g.number_of_edges(u, v)] *)
Definition edges_between (g : MultiDiGraph) (u v : nat) : list edge :=
  filter (λ e, src e = u ∧ dst e = v) (edges g).
Definition number_of_edges_between (g : MultiDiGraph) (u v : nat) : nat :=
  length (edges_between g u v).

Definition in_degree (g : MultiDiGraph) (v : nat) : nat :=
  length (filter (λ e, dst e = v) (edges g)).
Definition out_degree (g : MultiDiGraph) (v : nat) : nat :=
  length (filter (λ e, src e = v) (edges g)).
(** [g.degree(v)]: a self-loop counts twice. *)
Definition degree (g : MultiDiGraph) (v : nat) : nat :=
  in_degree g v + out_degree g v.

(** [g.node[n]['operator'] = b]; [KeyError] when [n] is not a node. *)
Definition set_operator (g : MultiDiGraph) (n : nat) (b : bool)
    : option MultiDiGraph :=
  if bool_decide (n ∈ nodes g)
  then Some (Graph (nodes g) (<[n := b]> (operator g)) (edges g))
  else None.

(** [g.add_edge(u, v, anomalous=a, weight=1)]: missing end points become
    nodes. *)
Definition add_node (ns : list nat) (n : nat) : list nat :=
  if bool_decide (n ∈ ns) then ns else ns ++ [n].
Definition add_edge (g : MultiDiGraph) (u v : nat) (a : option bool)
    : MultiDiGraph :=
  Graph (add_node (add_node (nodes g) u) v) (operator g)
        (edges g ++ [Edge u v a]).

(** The graph that
    [from_numpy_matrix(A, create_using=MultiDiGraph(), parallel_edges=True)]
    builds from a square integer matrix with one row at least: nodes
    [0 .. n-1], and [A[u][v]] parallel edges from [u] to [v]. *)
Definition from_numpy_matrix (A : matrix) : MultiDiGraph :=
  Graph (seq 0 (length A)) ∅
    (mjoin (imap (λ u row,
       mjoin (imap (λ v a, replicate (Z.to_nat a) (Edge u v None)) row)) A)).

(** The call of [from_numpy_matrix] on the array of a list of lines. The
    array of a list without lines has one dimension, and [n, m = A.shape]
    raises [ValueError]; an array that is not square raises
    [NetworkXError]. *)
Definition from_numpy_matrix_checked (A : matrix) : option MultiDiGraph :=
  if bool_decide (A ≠ [] ∧ square (length A) A)
  then Some (from_numpy_matrix A) else None.

(** [to_numpy_matrix(g, dtype=int)]: rows and columns in node order, an
    entry is the number of parallel edges (each has weight 1). *)
Definition to_numpy_matrix (g : MultiDiGraph) : matrix :=
  (λ u, (λ v, Z.of_nat (number_of_edges_between g u v)) <$> nodes g)
    <$> nodes g.

(** *** Weak connectivity *)

Definition neighbours (g : MultiDiGraph) (u : nat) : list nat :=
  edges g ≫= λ e,
    (if bool_decide (src e = u) then [dst e] else [])
    ++ (if bool_decide (dst e = u) then [src e] else []).

Fixpoint reachable (g : MultiDiGraph) (fuel : nat) (seen : list nat)
    : list nat :=
  match fuel with
  | O => seen
  | S fuel =>
      reachable g fuel
        (foldl (λ acc u, foldl add_node acc (neighbours g u)) seen seen)
  end.

(** The weakly connected component of [u]; every node of a component is
    reached within [number_of_nodes] rounds. *)
Definition component (g : MultiDiGraph) (u : nat) : list nat :=
  reachable g (number_of_nodes g) [u].

Definition number_weakly_connected_components (g : MultiDiGraph) : nat :=
  length (foldl (λ reps u,
            if existsb (λ r, bool_decide (u ∈ component g r)) reps
            then reps else reps ++ [u]) [] (nodes g)).

(** *** Isomorphism

    [DiGraphMatcher(g1, g2, node_match, edge_match).is_isomorphic()] answers
    whether a bijection between the nodes exists under which matched nodes
    pass [node_match] and matched node pairs carry the same number of
    parallel edges and pass [edge_match]. The model searches all the
    bijections: [vl] is the node data compared, [el] the data compared on a
    pair of nodes. *)
Definition mapping_ok {V E : Type} `{EqDecision V, EqDecision E}
    (vl : MultiDiGraph → nat → V) (el : MultiDiGraph → nat → nat → E)
    (g1 g2 : MultiDiGraph) (mapping : list (nat * nat)) : bool :=
  forallb (λ uu : nat * nat,
    bool_decide (vl g1 uu.1 = vl g2 uu.2)
    && forallb (λ vv : nat * nat,
         bool_decide (el g1 uu.1 vv.1 = el g2 uu.2 vv.2)) mapping) mapping.

Definition is_isomorphic_by {V E : Type} `{EqDecision V, EqDecision E}
    (vl : MultiDiGraph → nat → V) (el : MultiDiGraph → nat → nat → E)
    (g1 g2 : MultiDiGraph) : bool :=
  bool_decide (length (nodes g1) = length (nodes g2))
  && existsb (λ p, mapping_ok vl el g1 g2 (zip (nodes g1) p))
       (permutations (nodes g2)).

(** [categorical_node_match('operator', False)] compares
    [data.get('operator', False)]. *)
Definition operator_or_false (g : MultiDiGraph) (u : nat) : bool :=
  default false (operator g !! u).

(** No [node_match]. *)
Definition no_node_data (g : MultiDiGraph) (u : nat) : unit := ().

(** [categorical_multiedge_match('anomalous', False)] compares the sets
    [{data.get('anomalous', False)}] over the parallel edges; the matcher
    compares the number of parallel edges besides. *)
Definition anomalous_flags (g : MultiDiGraph) (u v : nat) : bool * bool :=
  (existsb (λ e, default false (anomalous e)) (edges_between g u v),
   existsb (λ e, negb (default false (anomalous e))) (edges_between g u v)).
Definition multiedge_data (g : MultiDiGraph) (u v : nat)
    : nat * (bool * bool) :=
  (number_of_edges_between g u v, anomalous_flags g u v).

(** [is_isomorphic(g1, g2)] and [is_isomorphic(g1, g2, node_match=nm)] with
    [nm = categorical_node_match('operator', False)]. *)
Definition is_isomorphic (g1 g2 : MultiDiGraph) : bool :=
  is_isomorphic_by no_node_data number_of_edges_between g1 g2.
Definition is_isomorphic_operator (g1 g2 : MultiDiGraph) : bool :=
  is_isomorphic_by operator_or_false number_of_edges_between g1 g2.
(** [DiGraphMatcher(g1, g2, node_match=op_nm, edge_match=anom_em)] *)
Definition is_isomorphic_operator_anomalous (g1 g2 : MultiDiGraph) : bool :=
  is_isomorphic_by operator_or_false multiedge_data g1 g2.

(** The row of a node in [incidence_matrix]: its place in [G.nodes()]. *)
Definition node_index (g : MultiDiGraph) (u : nat) : option nat :=
  Py.index u (nodes g).

(** One column of [- incidence_matrix(g, oriented=True)]: 1 in the row of
    the source and -1 in the row of the target of the edge; a self-loop
    gives a zero column. The columns follow [g.edges()], which for a graph
    built from a matrix is the order of the list of edges. *)
Definition incidence_column (g : MultiDiGraph) (e : edge)
    : option (list Z) :=
  let zero := replicate (number_of_nodes g) 0 in
  if bool_decide (src e = dst e) then Some zero
  else
    ui ← node_index g (src e);
    vi ← node_index g (dst e);
    Some (<[vi := -1]> (<[ui := 1]> zero)).
Definition incidence (g : MultiDiGraph) : option (list (list Z)) :=
  mapM (incidence_column g) (edges g).

(** [generate_edgelist(g, data=False)]: one line [u v] for every edge. *)
Definition generate_edgelist (g : MultiDiGraph) : list string :=
  (λ e, Np.fmt_d (Z.of_nat (src e)) +:+ " "
        +:+ Np.fmt_d (Z.of_nat (dst e)))%string <$> edges g.

End Nx.

(** * The script [adg.py] *)

Module Adg.

(** The flag [test] computed for one matrix by [no_loop]. The [and] of the
    source does not evaluate [matrix[j][i]] when [matrix[i][j]] is zero, and
    [break] leaves the inner loop only. *)
Definition no_loop_test (m : matrix) : option bool :=
  row0 ← m !! 0%nat;
  Py.for_each (Py.range (length row0)) (λ i test,
    test' ← Py.for_each (Py.range (i + 1)) (λ j test,
      a ← getitem2 m i j;
      if bool_decide (a ≠ 0) then
        b ← getitem2 m j i;
        if bool_decide (b ≠ 0) then Some (Py.Break false)
        else Some (Py.Continue test)
      else Some (Py.Continue test)) test;
    Some (Py.Continue test')) true.

(** [no_loop(matrices)] *)
Definition no_loop (matrices : list matrix) : option (list matrix) :=
  Py.for_each matrices (λ m acc,
    test ← no_loop_test m;
    Some (Py.Continue (if test : bool then acc ++ [m] else acc))) [].

(** One vertex-degree test of the script: [False] when the degree is not 2
    or 4 and (three-body forces are off or the degree is not 6). *)
Definition degree_ok (three_N : bool) (degree : Z) : bool :=
  negb (bool_decide (degree ≠ 2) && bool_decide (degree ≠ 4)
        && (bool_decide (three_N = false) || bool_decide (degree ≠ 6))).

(** The flag [test] computed for one matrix by [check_degree]. *)
Definition check_degree_test (m : matrix) (three_N : bool) : option bool :=
  row0 ← m !! 0%nat;
  Py.for_each (Py.range (length row0)) (λ i test,
    degree ← Py.for_each (Py.range (length row0)) (λ j degree,
      a ← getitem2 m i j;
      b ← getitem2 m j i;
      Some (Py.Continue (degree + (a + b)))) 0;
    if bool_decide (degree ≠ 2) && bool_decide (degree ≠ 4) then
      if bool_decide (three_N = false) || bool_decide (degree ≠ 6)
      then Some (Py.Break false)
      else Some (Py.Continue test)
    else Some (Py.Continue test)) true.

(** [check_degree(matrices, three_N)] *)
Definition check_degree (matrices : list matrix) (three_N : bool)
    : option (list matrix) :=
  Py.for_each matrices (λ m acc,
    test ← check_degree_test m three_N;
    Some (Py.Continue (if test : bool then acc ++ [m] else acc))) [].

(** [seed(n)] *)
Definition seed (n : nat) : list (list nat) :=
  Py.itertools_permutations (Py.range n).

(** The flag [test] of [g]: no row [n] at position [i] has [n[i] == 1]. *)
Definition g_test (m : matrix) : option bool :=
  Py.for_each (Py.enumerate m) (λ '(i, n) test,
    x ← n !! i;
    if bool_decide (x = 1) then Some (Py.Break false)
    else Some (Py.Continue test)) true.

(** [g(matrices)] *)
Definition g (matrices : list matrix) : option (list matrix) :=
  Py.for_each matrices (λ m traceless,
    test ← g_test m;
    Some (Py.Continue (if test : bool then traceless ++ [m] else traceless)))
    [].

(** The loop [for i, line in enumerate(other): for j, elem in
    enumerate(line): matrix[i][j] += elem] of [diagram_generation]. *)
Definition add_into (m other : matrix) : option matrix :=
  Py.for_each (Py.enumerate other) (λ '(i, line) m,
    m' ← Py.for_each (Py.enumerate line) (λ '(j, elem) m,
      x ← getitem2 m i j;
      m' ← setitem2 m i j (x + elem);
      Some (Py.Continue m')) m;
    Some (Py.Continue m')) m.

(** [diagram_generation(n)] *)
Definition diagram_generation (n : nat) : option (list matrix) :=
  let seeds := seed n in
  let all : list matrix :=
    (λ k : list nat,
       (λ j : nat,
          (λ i : nat, if bool_decide (i ≠ j) then 0 else 1) <$> Py.range n)
       <$> k) <$> seeds in
  traceless ← g all;
  let coeffs := Py.combinations_with_replacement_2 (length traceless) in
  double ← Py.for_each coeffs (λ coef double,
    m0 ← traceless !! coef.1;
    m1 ← traceless !! coef.2;
    m ← add_into m0 m1;
    Some (Py.Continue (double ++ [m]))) [];
  let doubleUniq := uniq double in
  Some (sort_reverse doubleUniq).

(** [empty_mat] of the BMBPT generators. *)
Definition empty_mat (p_order : nat) : matrix :=
  replicate p_order (replicate p_order 0).

(** One pass of the generators over [temp_matrices]: every matrix is kept,
    and when [guard] holds for it, followed by its copies with the entry
    [(i, j)] set to [elem], for [elem] from 1 while [elem + degree] does not
    exceed [deg_max]. *)
Definition branch (temp_matrices : list matrix) (deg_max : Z)
    (guard : matrix → option bool) (degree : matrix → option Z)
    (i j : nat) : option (list matrix) :=
  Py.for_each temp_matrices (λ mat matrices,
    let matrices := matrices ++ [mat] in
    go ← guard mat;
    if go : bool then
      deg ← degree mat;
      matrices' ← Py.for_each (Py.while_elems deg deg_max) (λ elem matrices,
        temp_mat ← setitem2 mat i j elem;
        Some (Py.Continue (matrices ++ [temp_mat]))) matrices;
      Some (Py.Continue matrices')
    else Some (Py.Continue matrices)) [].

(** [for k in range(0, p_order): vert_degree += mat[k][vertex] +
    mat[vertex][k]], in either order of the two terms. *)
Definition vert_degree (p_order : nat) (mat : matrix) (vertex : nat)
    : option Z :=
  Py.for_each (Py.range2 0 p_order) (λ k vert_degree,
    a ← getitem2 mat k vertex;
    b ← getitem2 mat vertex k;
    Some (Py.Continue (vert_degree + (a + b)))) 0.
Definition vert_degree' (p_order : nat) (mat : matrix) (vertex : nat)
    : option Z :=
  Py.for_each (Py.range2 0 p_order) (λ k vert_degree,
    a ← getitem2 mat vertex k;
    b ← getitem2 mat k vertex;
    Some (Py.Continue (vert_degree + (a + b)))) 0.

(** The degree filters inside the generators: [test] is cleared when the
    degree is not 2 or 4 and (three-body forces are off or it is not 6). *)
Definition keep_degree (matrices : list matrix) (three_N : bool)
    (degree : matrix → option Z) : option (list matrix) :=
  Py.for_each matrices (λ m ok,
    d ← degree m;
    let test :=
      if bool_decide (d ≠ 2) && bool_decide (d ≠ 4) then
        if bool_decide (three_N = false) || bool_decide (d ≠ 6)
        then false else true
      else true in
    Some (Py.Continue (if test then ok ++ [m] else ok))) [].

(** The two passes for the pair [(vertex, sum_index)]. *)
Definition branch_pair (p_order : nat) (deg_max : Z)
    (temp_matrices : list matrix) (vertex sum_index : nat)
    : option (list matrix) :=
  matrices ← branch temp_matrices deg_max
    (λ mat, x ← getitem2 mat vertex sum_index; Some (bool_decide (x = 0)))
    (λ mat, vert_degree p_order mat vertex) sum_index vertex;
  branch matrices deg_max
    (λ mat, x ← getitem2 mat sum_index vertex; Some (bool_decide (x = 0)))
    (λ mat, vert_degree' p_order mat vertex) vertex sum_index.

(** The body of [for vertex in ...] shared by the two generators. The state
    is [(matrices, temp_matrices)]. *)
Definition vertex_step (p_order : nat) (deg_max : Z) (three_N : bool)
    (vertex : nat) (st : list matrix * list matrix)
    : option (list matrix * list matrix) :=
  st' ← Py.for_each (Py.range2 (vertex + 1) p_order) (λ sum_index st,
    matrices ← branch_pair p_order deg_max st.2 vertex sum_index;
    Some (Py.Continue (matrices, matrices))) st;
  deg_vertex_ok ← keep_degree st'.2 three_N
    (λ m, Py.for_each (Py.range2 0 p_order) (λ i degree,
       a ← getitem2 m i vertex;
       b ← getitem2 m vertex i;
       Some (Py.Continue (degree + (a + b)))) 0);
  Some (deg_vertex_ok, deg_vertex_ok).

(** The end of the two generators. *)
Definition finish (matrices : list matrix) (three_N : bool)
    : option (list matrix) :=
  good_degree ← check_degree matrices three_N;
  mat_wo_loops ← no_loop good_degree;
  Some (sort_reverse (uniq mat_wo_loops)).

(** [BMBPT_generation(p_order, three_N)] *)
Definition BMBPT_generation (p_order : nat) (three_N : bool)
    : option (list matrix) :=
  let deg_max := if three_N then 6 else 4 in
  st ← Py.for_each (Py.range2 1 p_order) (λ i0 st,
    matrices ← branch st.2 deg_max (λ _, Some true)
      (λ mat, Py.for_each (Py.range2 1 p_order) (λ k j0_degree,
         a ← getitem2 mat k 0;
         Some (Py.Continue (j0_degree + a))) 0) i0 0;
    Some (Py.Continue (matrices, matrices))) ([], [empty_mat p_order]);
  deg_j0_ok ← keep_degree st.2 three_N
    (λ m, Py.for_each (Py.range2 1 p_order) (λ i degree,
       a ← getitem2 m i 0;
       Some (Py.Continue (degree + a))) 0);
  st ← Py.for_each (Py.range2 1 p_order) (λ vertex st,
    st' ← vertex_step p_order deg_max three_N vertex st;
    Some (Py.Continue st')) (deg_j0_ok, deg_j0_ok);
  finish st.1 three_N.

(** [BMBPT_Norm_generation(p_order, three_N)]; with [p_order = 0] the name
    [matrices] is unbound at the end. *)
Definition BMBPT_Norm_generation (p_order : nat) (three_N : bool)
    : option (list matrix) :=
  let deg_max := if three_N then 6 else 4 in
  st ← Py.for_each (Py.range p_order) (λ vertex st,
    st' ← vertex_step p_order deg_max three_N vertex
            (default [] st.1, st.2);
    Some (Py.Continue (Some st'.1, st'.2))) (None, [empty_mat p_order]);
  matrices ← st.1;
  finish matrices three_N.

(** *** The main part of the script *)

(** Lines 310-318: the dispatch on [theory]; after ["Invalid theory"] the
    name [diagrams] is unbound. [three_N] and [norm] are read from the user
    for BMBPT only. *)
Definition generate (theory : string) (norder : nat) (three_N norm : bool)
    : option (list matrix) :=
  if bool_decide (theory = "MBPT"%string) then diagram_generation norder
  else if bool_decide (theory = "BMBPT"%string) then
    if norm then BMBPT_Norm_generation norder three_N
    else BMBPT_generation norder three_N
  else None.

(** Lines 322-329: the text written to [Diagrams.list]. *)
Definition diagrams_list_text (diagrams : list matrix) : string :=
  foldr (λ '(i, diagram) out,
      ("Diagram n: " +:+ Np.fmt_d (Z.of_nat i)
       +:+ Np.savetxt Np.fmt_18e diagram
       +:+ Np.newline +:+ out)%string)
    ""%string (Py.enumerate diagrams).

(** Lines 332-340: the graphs, then the weakly connected ones, for
    matrices from which [from_numpy_matrix] builds a graph. *)
Definition connected_graphs (diagrams : list matrix)
    : list Nx.MultiDiGraph :=
  filter (λ diag, Nx.number_weakly_connected_components diag = 1%nat)
    (Nx.from_numpy_matrix <$> diagrams).

(** Lines 332-334: the graphs of all the matrices; the call of
    [from_numpy_matrix] raises on the array without lines that the
    generators return at order 0. *)
Definition graphs (diagrams : list matrix)
    : option (list Nx.MultiDiGraph) :=
  mapM Nx.from_numpy_matrix_checked diagrams.

(** Lines 346-348: every node gets [operator = False], then node 0 gets
    [operator = True]. *)
Definition label_operator (diag : Nx.MultiDiGraph)
    : option Nx.MultiDiGraph :=
  diag' ← Py.for_each (Nx.nodes diag) (λ node diag,
    diag' ← Nx.set_operator diag node false;
    Some (Py.Continue diag')) diag;
  Nx.set_operator diag' 0 true.

(** Lines 341-364: the isomorphism reduction, run for BMBPT only. *)
Definition isomorphism_reduction (G : list Nx.MultiDiGraph) (norm : bool)
    : option (list Nx.MultiDiGraph) :=
  Py.for_each G (λ diag G1,
    diag ← (if bool_decide (norm = false) then label_operator diag
            else Some diag);
    match G1 with
    | [] => Some (Py.Continue (G1 ++ [diag]))
    | _ =>
        test ← Py.for_each G1 (λ good_diag test,
          if norm then
            if Nx.is_isomorphic diag good_diag then Some (Py.Break false)
            else Some (Py.Continue test)
          else
            if Nx.is_isomorphic_operator diag good_diag
            then Some (Py.Break false)
            else Some (Py.Continue test)) true;
        Some (Py.Continue (if test : bool then G1 ++ [diag] else G1))
    end) [].

(** Lines 378-385: the split on the maximal degree. *)
Definition max_deg (diag : Nx.MultiDiGraph) : nat :=
  foldl (λ max_deg node, Nat.max max_deg (Nx.degree diag node)) 0%nat
    (Nx.nodes diag).

(** Lines 386-413: the flags [(test_HF, test_EHF)] of one diagram. *)
Definition hf_tests (diag : Nx.MultiDiGraph) : bool * bool :=
  foldl (λ '(test_HF, test_EHF) node,
      if bool_decide (Nx.degree diag node = 2%nat) then
        (false, if bool_decide (node ≠ 0%nat) then false else test_EHF)
      else (test_HF, test_EHF))
    (true, true) (Nx.nodes diag).

Record classes : Type := Classes {
  HF : list Nx.MultiDiGraph;
  EHF : list Nx.MultiDiGraph;
  noHF : list Nx.MultiDiGraph
}.

Definition split_canonical (Gk : list Nx.MultiDiGraph) (norm : bool)
    : classes :=
  foldl (λ c diag,
      let '(test_HF, test_EHF) := hf_tests diag in
      if test_HF then Classes (HF c ++ [diag]) (EHF c) (noHF c)
      else if bool_decide (test_EHF = false) || norm
        then Classes (HF c) (EHF c) (noHF c ++ [diag])
        else Classes (HF c) (EHF c ++ [diag]) (noHF c))
    (Classes [] [] []) Gk.

(** What the script holds after line 422. *)
Record result : Type := Result {
  G : list Nx.MultiDiGraph;
  two_body : classes;
  three_body : classes
}.

Definition run (theory : string) (norder : nat) (three_N_answer norm_answer
    : bool) : option result :=
  let is_bmbpt := bool_decide (theory = "BMBPT"%string) in
  let three_N := is_bmbpt && three_N_answer in
  let norm := is_bmbpt && norm_answer in
  diagrams ← generate theory norder three_N norm;
  G ← graphs diagrams;
  let G :=
    filter (λ diag, Nx.number_weakly_connected_components diag = 1%nat) G in
  if is_bmbpt then
    G ← isomorphism_reduction G norm;
    let G3 := filter (λ diag, max_deg diag = 6%nat) G in
    let G2 := filter (λ diag, max_deg diag ≠ 6%nat) G in
    let c2 := split_canonical G2 norm in
    let c3 := split_canonical G3 norm in
    Some (Result (HF c2 ++ EHF c2 ++ noHF c2 ++ HF c3 ++ EHF c3 ++ noHF c3)
            c2 c3)
  else Some (Result G (Classes [] [] []) (Classes [] [] [])).

(** The flag [test] of [v0_specs]: the first line holds zeros only. *)
Definition v0_specs_test (m : matrix) : option bool :=
  line ← m !! 0%nat;
  Py.for_each (Py.range (length line)) (λ i test,
    x ← line !! i;
    if bool_decide (x ≠ 0) then Some (Py.Break false)
    else Some (Py.Continue test)) true.

(** [v0_specs(matrices)] *)
Definition v0_specs (matrices : list matrix) : option (list matrix) :=
  Py.for_each matrices (λ m v0_specs_ok,
    test ← v0_specs_test m;
    Some (Py.Continue
            (if test : bool then v0_specs_ok ++ [m] else v0_specs_ok))) [].

(** [line_label_h(n)] and [line_label_p(n)], for the column numbers [n]
    the script calls them with. *)
Definition line_label_h (n : nat) : option string :=
  let labels := Py.ascii_lowercase in
  let labels := Py.slice 0 15 labels in
  labels !! n.
Definition line_label_p (n : nat) : option string :=
  let labels := Py.ascii_lowercase in
  let labels := Py.slice_minus 15 1 labels in
  labels !! n.

(** The numbers the script holds after the classification (lines
    415-422), with [numdiag]. *)
Record counts : Type := Counts {
  numdiag : nat;
  nb_2 : nat;
  nb_2_HF : nat;
  nb_2_EHF : nat;
  nb_2_noHF : nat;
  nb_3 : nat;
  nb_3_HF : nat;
  nb_3_EHF : nat;
  nb_3_noHF : nat
}.

(** Lines 415-422 and 365; [nb_2] and [nb_3] are the lengths of [G2] and
    [G3], the lists split into the three lists of each kind. *)
Definition count (r : result) : counts :=
  Counts (length (G r))
    (length (HF (two_body r)) + length (EHF (two_body r))
     + length (noHF (two_body r)))
    (length (HF (two_body r))) (length (EHF (two_body r)))
    (length (noHF (two_body r)))
    (length (HF (three_body r)) + length (EHF (three_body r))
     + length (noHF (three_body r)))
    (length (HF (three_body r))) (length (EHF (three_body r)))
    (length (noHF (three_body r))).

(** Lines 637-649: the numbers written at the top of [result.tex] for
    BMBPT. *)
Definition write_counts (norm three_N : bool) (c : counts) : list string :=
  let nl2 := (Np.newline +:+ Np.newline)%string in
  [("Valid diagrams: " +:+ Np.fmt_d (Z.of_nat (numdiag c)) +:+ nl2)%string;
   ("2N valid diagrams: " +:+ Np.fmt_d (Z.of_nat (nb_2 c)) +:+ nl2)%string;
   ("2N canonical diagrams for the energy: "
      +:+ Np.fmt_d (Z.of_nat (nb_2_HF c)) +:+ nl2)%string]
  ++ (if bool_decide (norm = false) then
        [("2N canonical diagrams for a generic operator only: "
            +:+ Np.fmt_d (Z.of_nat (nb_2_EHF c)) +:+ nl2)%string]
      else [])
  ++ [("2N non-canonical diagrams: "
         +:+ Np.fmt_d (Z.of_nat (nb_2_noHF c)) +:+ nl2)%string]
  ++ (if three_N then
        [("3N valid diagrams: "
            +:+ Np.fmt_d (Z.of_nat (nb_3 c)) +:+ nl2)%string;
         ("3N canonical diagrams for the energy: "
            +:+ Np.fmt_d (Z.of_nat (nb_3_HF c)) +:+ nl2)%string]
        ++ (if bool_decide (norm = false) then
              [("3N canonical diagrams for a generic operator only: "
                  +:+ Np.fmt_d (Z.of_nat (nb_3_EHF c)) +:+ nl2)%string]
            else [])
        ++ [("3N non-canonical diagrams: "
               +:+ Np.fmt_d (Z.of_nat (nb_3_noHF c)) +:+ nl2)%string]
      else []).

(** The titles written between the diagrams. *)
Definition title_2_first : string :=
  ("\section{Two-body diagrams}"
   +:+ "\subsection{Two-body energy canonical diagrams}" +:+ Np.newline)%string.
Definition title_2_EHF : string :=
  ("\subsection{Two-body canonical diagrams for a generic operator only}"
   +:+ Np.newline)%string.
Definition title_2_noHF : string :=
  ("\subsection{Two-body non-canonical diagrams}" +:+ Np.newline)%string.
Definition title_3_first : string :=
  ("\section{Three-body diagrams}" +:+ Np.newline
   +:+ "\subsection{Three-body energy canonical diagrams}"
   +:+ Np.newline)%string.
Definition title_3_EHF : string :=
  ("\subsection{Three-body canonical diagrams for a generic operator only}"
   +:+ Np.newline)%string.
Definition title_3_noHF : string :=
  ("\subsection{Three-body non-canonical diagrams}" +:+ Np.newline)%string.

(** Lines 662-673: the titles written before the diagram [i_diag], for
    BMBPT. *)
Definition titles_before (norm three_N : bool) (c : counts) (i_diag : nat)
    : list string :=
  (if bool_decide (i_diag = nb_2_HF c) && bool_decide (norm = false)
   then [title_2_EHF]
   else if bool_decide (i_diag = (nb_2_HF c + nb_2_EHF c)%nat)
   then [title_2_noHF] else [])
  ++ (if three_N then
        if bool_decide (i_diag = nb_2 c) then [title_3_first]
        else if bool_decide (i_diag = (nb_2 c + nb_3_HF c)%nat)
                && bool_decide (norm = false)
        then [title_3_EHF]
        else if bool_decide (i_diag = (nb_2 c + nb_3_HF c + nb_3_EHF c)%nat)
        then [title_3_noHF] else []
      else []).

(** [diag_exp] of lines 653 and 675; a list too short is an
    [IndexError]. *)
Definition diag_exp (nedges_eq : list Z) (phases mat_els denoms : list string)
    (i_diag : nat) : option string :=
  n ← nedges_eq !! i_diag;
  phase ← phases !! i_diag;
  mat_el ← mat_els !! i_diag;
  denom ← denoms !! i_diag;
  Some ("\dfrac{1}{" +:+ Np.fmt_d n +:+ "}" +:+ phase +:+ "\sum{\dfrac{"
        +:+ mat_el +:+ "}{" +:+ denom +:+ "}}" +:+ Np.newline)%string.

(** Lines 637-683: what is written to [result.tex] after the preamble, one
    string for every call of [write]. [diag_files i] is the content of
    [Diagrams/diag_i.tex], [None] when the file cannot be opened. *)
Definition write_result (theory : string) (norm three_N pdiag pdraw : bool)
    (c : counts) (nedges_eq : list Z) (phases mat_els denoms : list string)
    (diag_files : nat → option string) : option (list string) :=
  let begeq := ("\begin{equation}" +:+ Np.newline)%string in
  let endeq := ("\end{equation}" +:+ Np.newline)%string in
  let enddoc := "\end{document}"%string in
  let out := if bool_decide (theory = "BMBPT"%string)
             then write_counts norm three_N c else [] in
  if (negb pdiag || negb pdraw) && bool_decide (theory = "MBPT"%string) then
    out ← Py.for_each (Py.range2 0 (numdiag c)) (λ i_diag out,
      e ← diag_exp nedges_eq phases mat_els denoms i_diag;
      Some (Py.Continue (out ++ [begeq; e; endeq]))) out;
    Some (out ++ [enddoc])
  else
    let out := if bool_decide (theory = "BMBPT"%string)
               then out ++ [title_2_first] else out in
    out ← Py.for_each (Py.range2 0 (numdiag c)) (λ i_diag out,
      let out := if bool_decide (theory = "BMBPT"%string)
                 then out ++ titles_before norm three_N c i_diag else out in
      out ← (if bool_decide (theory = "MBPT"%string) then
               e ← diag_exp nedges_eq phases mat_els denoms i_diag;
               Some (out ++ [begeq; e; endeq])
             else Some out);
      let out := out ++ [(Np.newline +:+ "\begin{center}" +:+ Np.newline)%string]
      in
      content ← diag_files i_diag;
      Some (Py.Continue
              (out ++ [content;
                       ("\end{center}" +:+ Np.newline +:+ Np.newline)%string])))
      out;
    Some (out ++ [enddoc]).

(** The label of the line in column [col], of type ['h'] or ['p']. *)
Definition line_label (type_edg : list string) (col : nat) : option string :=
  t ← type_edg !! col;
  if bool_decide (t = "h"%string) then line_label_h col
  else line_label_p col.

(** Lines 455-462: the types of the columns and the number of holes. *)
Definition edge_types (incidence : list (list Z)) (ncol : nat)
    : option (Z * list string) :=
  Py.for_each (Py.range ncol) (λ col '(n_holes, type_edg),
    flat ← incidence !! col;
    i_plus ← Py.index 1 flat;
    i_minus ← Py.index (-1) flat;
    if bool_decide (i_plus < i_minus)%nat
    then Some (Py.Continue (n_holes + 1, type_edg ++ ["h"%string]))
    else Some (Py.Continue (n_holes, type_edg ++ ["p"%string])))
    (0, []).

(** Lines 465-478: [bra] and [ket] of the vertex in row [row]. *)
Definition bra_ket (incidence : list (list Z)) (type_edg : list string)
    (ncol row : nat) : option (string * string) :=
  Py.for_each (Py.range ncol) (λ col '(bra, ket),
    x ← incidence !! col ≫= (.!! row);
    bra ← (if bool_decide (x = 1) then
             l ← line_label type_edg col; Some (bra +:+ l)%string
           else Some bra);
    ket ← (if bool_decide (x = -1) then
             l ← line_label type_edg col; Some (ket +:+ l)%string
           else Some ket);
    Some (Py.Continue (bra, ket))) (""%string, ""%string).

(** Lines 464-481: the matrix elements of a diagram. *)
Definition mat_element (incidence : list (list Z)) (type_edg : list string)
    (nrow ncol : nat) : option string :=
  Py.for_each (Py.range nrow) (λ row braket,
    '(bra, ket) ← bra_ket incidence type_edg ncol row;
    Some (Py.Continue
            (braket +:+ "\braket{" +:+ bra +:+ "|H|" +:+ ket +:+ "}")%string))
    ""%string.

(** Lines 482-500: the energy denominators. *)
Definition denominator (incidence : list (list Z)) (type_edg : list string)
    (nrow ncol : nat) : option string :=
  denom ← Py.for_each (Py.range2 1 nrow) (λ row denom,
    let denom := (denom +:+ "(")%string in
    denom ← Py.for_each (Py.range ncol) (λ col denom,
      column ← incidence !! col;
      let val_test := Np.sum (take row column) in
      denom ← (if bool_decide (val_test = 1) then
                 l ← line_label type_edg col; Some (denom +:+ " +E_" +:+ l)%string
               else Some denom);
      denom ← (if bool_decide (val_test = -1) then
                 l ← line_label type_edg col; Some (denom +:+ "-E_" +:+ l)%string
               else Some denom);
      Some (Py.Continue denom)) denom;
    Some (Py.Continue (denom +:+ ")")%string)) ""%string;
  let denom := if Py.contains "( +" denom
               then Py.replace "( +" "(" denom else denom in
  Some (Py.strip_space denom).

(** Lines 446-509 for one diagram: the matrix elements, the denominator,
    the phase and the symmetry factor. *)
Record expression : Type := Expression {
  mat_el : string;
  denom : string;
  phase : string;
  nedges_eq : Z
}.

Definition expression_of (diag : Nx.MultiDiGraph) : option expression :=
  incidence ← Nx.incidence diag;
  let nrow := Nx.number_of_nodes diag in
  let ncol := Nx.number_of_edges diag in
  '(n_holes, type_edg) ← edge_types incidence ncol;
  braket ← mat_element incidence type_edg nrow ncol;
  denom ← denominator incidence type_edg nrow ncol;
  let phase := ("(-1)^{" +:+ Np.fmt_d n_holes +:+ "+l}")%string in
  let n_sym := (length incidence - length (remove_dups incidence))%nat in
  Some (Expression braket denom phase (2 ^ Z.of_nat n_sym)).

(** Lines 441-509: the expressions of all the diagrams. *)
Definition expressions (G : list Nx.MultiDiGraph) : option (list expression) :=
  mapM expression_of G.

(** Lines 550-559 of [feynmf_generator]: the matrix of the numbers of
    propagators, read back from the lines of the list of edges. The first
    and the third character of a line are taken for the two vertices. *)
Definition oriented_adj_mat (diag : Nx.MultiDiGraph) (p_order : nat)
    : option matrix :=
  let oriented_adj_mat := replicate p_order (replicate p_order 0) in
  Py.for_each (Nx.generate_edgelist diag) (λ line oriented_adj_mat,
    c ← Py.getchar 0 line;
    i ← Py.int_char c;
    c ← Py.getchar 2 line;
    j ← Py.int_char c;
    x ← getitem2 oriented_adj_mat (Z.to_nat i) (Z.to_nat j);
    oriented_adj_mat ← setitem2 oriented_adj_mat (Z.to_nat i) (Z.to_nat j)
                         (x + 1);
    Some (Py.Continue oriented_adj_mat)) oriented_adj_mat.

(** One line of a propagator, from [v_j] to [v_i]. *)
Definition fmf_line (prop dir : string) (j i : nat) : string :=
  ("\fmf{" +:+ prop +:+ dir +:+ "}{v" +:+ Np.fmt_d (Z.of_nat j) +:+ ","
   +:+ "v" +:+ Np.fmt_d (Z.of_nat i) +:+ "}" +:+ Np.newline)%string.

(** Lines 563-595 of [feynmf_generator]: what is written for the entry
    [oriented_adj_mat[i][j]], here [a_ij], with [a_ji] the entry
    [oriented_adj_mat[j][i]]. *)
Definition pair_writes (prop : string) (i j : nat) (a_ij a_ji : Z)
    : list string :=
  if bool_decide (Z.abs (Z.of_nat i - Z.of_nat j) = 1)
     && bool_decide (a_ij ≠ 0) then
    if bool_decide (a_ij = 1) then
      if bool_decide (a_ji ≠ 1) then [fmf_line prop "" j i]
      else [fmf_line prop ",right=0.5" j i]
    else
      [fmf_line prop ",right=0.5" j i; fmf_line prop ",left=0.5" j i]
      ++ (if bool_decide (a_ij = 3) then [fmf_line prop "" j i]
          else if bool_decide (4 ≤ a_ij) then
            [fmf_line prop ",right=0.75" j i;
             fmf_line prop ",left=0.75" j i]
            ++ (if bool_decide (5 ≤ a_ij) then
                  [fmf_line prop ",right=0.9" j i]
                  ++ (if bool_decide (a_ij = 6)
                      then [fmf_line prop ",left=0.9" j i] else [])
                else [])
          else [])
  else if bool_decide (i ≠ j) && bool_decide (a_ij ≠ 0) then
    if bool_decide (a_ij = 1) && bool_decide (a_ji = 2)
    then [fmf_line prop ",right=0.75" j i]
    else
      [fmf_line prop ",right=0.6" j i]
      ++ (if bool_decide (a_ij ≠ 1) then
            [fmf_line prop ",left=0.6" j i]
            ++ (if bool_decide (a_ij ≠ 2) then
                  [fmf_line prop ",right=0.75" j i]
                  ++ (if bool_decide (a_ij ≠ 3) then
                        [fmf_line prop ",left=0.75" j i]
                        ++ (if bool_decide (a_ij ≠ 4)
                            then [fmf_line prop ",right=0.9" j i] else [])
                      else [])
                else [])
          else [])
  else [].

(** Lines 561-595: the propagators of all the pairs of vertices. *)
Definition draw_lines (prop : string) (p_order : nat)
    (oriented_adj_mat : matrix) : option (list string) :=
  Py.for_each (Py.range p_order) (λ i out,
    out ← Py.for_each (Py.range p_order) (λ j out,
      a_ij ← getitem2 oriented_adj_mat i j;
      a_ji ← getitem2 oriented_adj_mat j i;
      Some (Py.Continue (out ++ pair_writes prop i j a_ij a_ji))) out;
    Some (Py.Continue out)) [].

(** Lines 532-548: the frame and the vertices. *)
Definition vertex_writes (theory : string) (norm : bool) (p_order : nat)
    (begin_file : string) : list string :=
  let nl := Np.newline in
  let v (i : Z) := ("v" +:+ Np.fmt_d i)%string in
  let circle :=
    "\fmfv{d.shape=circle,d.filled=full,d.size=3thick}{"%string in
  [begin_file;
   ("\fmftop{" +:+ v (Z.of_nat p_order - 1) +:+ "}\fmfbottom{v0}" +:+ nl)%string;
   (if bool_decide (theory = "BMBPT"%string) && bool_decide (norm = false)
    then ("\fmfv{d.shape=square,d.filled=full,d.size=3thick}{v0}" +:+ nl)%string
    else (circle +:+ "v0}" +:+ nl)%string);
   (circle +:+ v (Z.of_nat p_order - 1) +:+ "}" +:+ nl)%string]
  ++ (if bool_decide (2 < p_order)%nat then
        [("\fmf{phantom}{v0,v1}" +:+ nl)%string]
        ++ (Py.range2 1 (p_order - 2) ≫= λ vertex,
              [("\fmf{phantom}{" +:+ v (Z.of_nat vertex) +:+ ","
                +:+ v (Z.of_nat vertex + 1) +:+ "}" +:+ nl)%string;
               (circle +:+ v (Z.of_nat vertex) +:+ "}" +:+ nl)%string])
        ++ [(circle +:+ v (Z.of_nat p_order - 2) +:+ "}" +:+ nl)%string;
            ("\fmf{phantom}{" +:+ v (Z.of_nat p_order - 2) +:+ ","
             +:+ v (Z.of_nat p_order - 1) +:+ "}" +:+ nl)%string;
            ("\fmffreeze" +:+ nl)%string]
      else []).

(** [feynmf_generator(diag, theory, diag_name)] with the global [norm]: the
    strings written to the file [diag_name.tex], one for every call of
    [write]; [None] when an exception stops the function. Below order 2 a
    message is printed and the file stays empty. *)
Definition feynmf_generator (norm : bool) (diag : Nx.MultiDiGraph)
    (theory diag_name : string) : option (list string) :=
  let nl := Np.newline in
  let p_order := Nx.number_of_nodes diag in
  let diag_size := Np.fmt_d (20 * Z.of_nat p_order) in
  let theories := ["MBPT"; "BMBPT"; "SCGF"]%string in
  th_index ← Py.index theory theories;
  let prop_types := ["half_prop"; "prop_pm"; "double_arrow"]%string in
  prop ← prop_types !! th_index;
  let begin_file :=
    ("\parbox{" +:+ diag_size +:+ "pt}{\begin{fmffile}{" +:+ diag_name
     +:+ "}" +:+ nl +:+ "\begin{fmfgraph*}(" +:+ diag_size +:+ ","
     +:+ diag_size +:+ ")" +:+ nl)%string in
  let end_file :=
    ("\end{fmfgraph*}" +:+ nl +:+ "\end{fmffile}}" +:+ nl +:+ nl)%string in
  if bool_decide (2 ≤ p_order)%nat then
    let out := vertex_writes theory norm p_order begin_file in
    oriented_adj_mat ← oriented_adj_mat diag p_order;
    lines ← draw_lines prop p_order oriented_adj_mat;
    Some (out ++ lines ++ [end_file])
  else Some [].

End Adg.

(** * The module [methods.py] *)

Module Methods.

(** The flag [test_no_loop] of [no_loop], the same double loop as in the
    script. *)
Definition no_loop_test (m : matrix) : option bool :=
  row0 ← m !! 0%nat;
  Py.for_each (Py.range (length row0)) (λ ind_i test,
    test' ← Py.for_each (Py.range (ind_i + 1)) (λ ind_j test,
      a ← getitem2 m ind_i ind_j;
      if bool_decide (a ≠ 0) then
        b ← getitem2 m ind_j ind_i;
        if bool_decide (b ≠ 0) then Some (Py.Break false)
        else Some (Py.Continue test)
      else Some (Py.Continue test)) test;
    Some (Py.Continue test')) true.

(** [no_loop(matrices)] edits the list in place, from the last index down;
    the result is the list after the call. *)
Definition no_loop (matrices : list matrix) : option (list matrix) :=
  Py.for_each (Py.range_down (length matrices) 0) (λ i_mat matrices,
    m ← matrices !! i_mat;
    test_no_loop ← no_loop_test m;
    Some (Py.Continue
            (if test_no_loop : bool then matrices else delete i_mat matrices)))
    matrices.

(** [sum(... for index in xrange(len(matrices[i_mat][0])))] of
    [check_vertex_degree]. *)
Definition vertex_degree (m : matrix) (vertex_id : nat) : option Z :=
  row0 ← m !! 0%nat;
  Py.for_each (Py.range (length row0)) (λ index acc,
    a ← getitem2 m index vertex_id;
    b ← getitem2 m vertex_id index;
    Some (Py.Continue (acc + (a + b)))) 0.

(** [check_vertex_degree(matrices, three_N_use, vertex_id)], in place. *)
Definition check_vertex_degree (matrices : list matrix) (three_N_use : bool)
    (vertex_id : nat) : option (list matrix) :=
  Py.for_each (Py.range_down (length matrices) 0) (λ i_mat matrices,
    m ← matrices !! i_mat;
    vertex_degree ← vertex_degree m vertex_id;
    if bool_decide (vertex_degree ≠ 2) && bool_decide (vertex_degree ≠ 4) then
      if negb three_N_use || bool_decide (vertex_degree ≠ 6)
      then Some (Py.Continue (delete i_mat matrices))
      else Some (Py.Continue matrices)
    else Some (Py.Continue matrices)) matrices.

(** [label_vertices(diagrams_list, theory_type, study_norm)]; the graphs
    are edited in place, the result is the list after the call. *)
Definition label_vertices (diagrams_list : list Nx.MultiDiGraph)
    (theory_type : string) (study_norm : bool)
    : option (list Nx.MultiDiGraph) :=
  Py.for_each diagrams_list (λ diagram out,
    diagram ← Py.for_each (Nx.nodes diagram) (λ node diagram,
      diagram' ← Nx.set_operator diagram node false;
      Some (Py.Continue diagram')) diagram;
    diagram ← (if bool_decide (theory_type = "BMBPT"%string)
                  && negb study_norm
               then Nx.set_operator diagram 0 true
               else Some diagram);
    Some (Py.Continue (out ++ [diagram]))) [].

(** The flag [test_traceless] of [no_trace], the test of [g] in the
    script. *)
Definition no_trace_test (m : matrix) : option bool :=
  Py.for_each (Py.enumerate m) (λ '(ind_i, n) test_traceless,
    x ← n !! ind_i;
    if bool_decide (x = 1) then Some (Py.Break false)
    else Some (Py.Continue test_traceless)) true.

(** [no_trace(matrices)] *)
Definition no_trace (matrices : list matrix) : option (list matrix) :=
  Py.for_each matrices (λ m traceless_matrices,
    test ← no_trace_test m;
    Some (Py.Continue (if test : bool then traceless_matrices ++ [m]
                       else traceless_matrices))) [].

(** [check_degree(matrices, three_N_use)], in place: the matrix at [i_mat]
    is deleted at the first vertex whose degree is not allowed. *)
Definition check_degree (matrices : list matrix) (three_N_use : bool)
    : option (list matrix) :=
  Py.for_each (Py.range_down (length matrices) 0) (λ i_mat matrices,
    m ← matrices !! i_mat;
    row0 ← m !! 0%nat;
    matrices' ← Py.for_each (Py.range (length row0)) (λ ind_i matrices,
      degree ← Py.for_each (Py.range (length row0)) (λ ind_j acc,
        a ← getitem2 m ind_i ind_j;
        b ← getitem2 m ind_j ind_i;
        Some (Py.Continue (acc + (a + b)))) 0;
      if bool_decide (degree ≠ 2) && bool_decide (degree ≠ 4) then
        if negb three_N_use || bool_decide (degree ≠ 6)
        then Some (Py.Break (delete i_mat matrices))
        else Some (Py.Continue matrices)
      else Some (Py.Continue matrices)) matrices;
    Some (Py.Continue matrices')) matrices.

(** [empty_matrix_generation(size)] *)
Definition empty_matrix_generation (size : nat) : matrix :=
  foldl (λ empty_matrix line,
      foldl (λ empty_matrix element,
          alter (λ row, row ++ [0]) line empty_matrix)
        (empty_matrix ++ [[]]) (Py.range size))
    [] (Py.range size).

(** Lines 147-172 of [feynmf_generator]: the propagators from [vert_i] to
    [vert_j]. The [while] loop runs with [props_left_to_draw] from its
    value down to 1; from 7 on none of the three tests on the number
    holds, and no value follows [right=] or [left=]. *)
Definition draw_pair (start_diag : Nx.MultiDiGraph) (propa : string)
    (vert_i vert_j : nat) (out : string) : string :=
  let nl := Np.newline in
  let ends :=
    ("}{v" +:+ Np.fmt_d (Z.of_nat vert_i) +:+ "," +:+ "v"
     +:+ Np.fmt_d (Z.of_nat vert_j) +:+ "}" +:+ nl)%string in
  let adjacent :=
    bool_decide (Z.abs (Z.of_nat vert_i - Z.of_nat vert_j) = 1) in
  let props_left_to_draw :=
    Nx.number_of_edges_between start_diag vert_i vert_j in
  let '(props_left_to_draw, out) :=
    if bool_decide (props_left_to_draw `mod` 2 = 1)%nat && adjacent then
      let out := (out +:+ "\fmf{" +:+ propa)%string in
      let out :=
        if bool_decide
             (Nx.number_of_edges_between start_diag vert_j vert_i = 1)%nat
        then (out +:+ ",right=0.5")%string else out in
      let out := (out +:+ ends)%string in
      ((props_left_to_draw - 1)%nat, out)
    else (props_left_to_draw, out) in
  foldl (λ out props_left_to_draw,
    let out := (out +:+ "\fmf{" +:+ propa +:+ ",")%string in
    let out :=
      if bool_decide (props_left_to_draw `mod` 2 = 1)%nat
      then (out +:+ "right=")%string else (out +:+ "left=")%string in
    let out :=
      if bool_decide (props_left_to_draw = 6%nat)
         || bool_decide (props_left_to_draw = 5%nat)
      then (out +:+ "0.9")%string
      else if bool_decide (props_left_to_draw = 4%nat)
              || bool_decide (props_left_to_draw = 3%nat)
      then (out +:+ "0.75")%string
      else if bool_decide (props_left_to_draw = 2%nat)
              || bool_decide (props_left_to_draw = 1%nat)
      then (if adjacent then (out +:+ "0.5")%string
            else (out +:+ "0.6")%string)
      else out in
    (out +:+ ends)%string) out (Py.range_down (props_left_to_draw + 1) 1).

(** [feynmf_generator]: the text written to the file [diagram_name.tex];
    [None] when an exception stops the function. *)
Definition feynmf_generator (start_diag : Nx.MultiDiGraph)
    (theory_type diagram_name : string) : option string :=
  let nl := Np.newline in
  let p_order := Nx.number_of_nodes start_diag in
  let diag_size := Np.fmt_d (20 * Z.of_nat p_order) in
  let theories := ["MBPT"; "BMBPT"; "SCGF"]%string in
  let prop_types := ["half_prop"; "prop_pm"; "double_arrow"]%string in
  i ← Py.index theory_type theories;
  propa ← prop_types !! i;
  let begin_file :=
    ("\parbox{" +:+ diag_size +:+ "pt}{\begin{fmffile}{" +:+ diagram_name
     +:+ "}" +:+ nl +:+ "\begin{fmfgraph*}(" +:+ diag_size +:+ ","
     +:+ diag_size +:+ ")" +:+ nl)%string in
  let out := begin_file in
  let out :=
    (out +:+ "\fmftop{v" +:+ Np.fmt_d (Z.of_nat p_order - 1)
     +:+ "}\fmfbottom{v0}" +:+ nl)%string in
  out ← Py.for_each (Py.range (p_order - 1)) (λ vert out,
    let out :=
      (out +:+ "\fmf{phantom}{v" +:+ Np.fmt_d (Z.of_nat vert) +:+ ",v"
       +:+ Np.fmt_d (Z.of_nat vert + 1) +:+ "}" +:+ nl)%string in
    op ← Nx.operator start_diag !! vert;
    let out :=
      if op : bool
      then (out +:+ "\fmfv{d.shape=square,d.filled=full,d.size=3thick")%string
      else (out +:+ "\fmfv{d.shape=circle,d.filled=full,d.size=3thick")%string
    in
    Some (Py.Continue
            (out +:+ "}{v" +:+ Np.fmt_d (Z.of_nat vert) +:+ "}" +:+ nl)%string))
    out;
  let out :=
    (out +:+ "\fmfv{d.shape=circle,d.filled=full,d.size=3thick}")%string in
  let out :=
    (out +:+ "{v" +:+ Np.fmt_d (Z.of_nat p_order - 1) +:+ "}" +:+ nl)%string in
  let out := (out +:+ "\fmffreeze" +:+ nl)%string in
  let out :=
    foldl (λ out vert_i,
      foldl (λ out vert_j, draw_pair start_diag propa vert_i vert_j out)
        out (Nx.nodes start_diag)) out (Nx.nodes start_diag) in
  Some (out +:+ "\end{fmfgraph*}" +:+ nl +:+ "\end{fmffile}}" +:+ nl)%string.

End Methods.

(** * The module [adg/diag.py] *)

Module Diag.

(** The tuple [authorized_deg] of [check_vertex_degree]. *)
Definition authorized_deg (three_body_use canonical_only : bool)
    (vertex_id : nat) : list Z :=
  ([4] ++ (if three_body_use then [6] else []))
  ++ (if negb canonical_only || bool_decide (vertex_id = 0%nat)
      then [2] else []).

(** The number [vertex_degree] of [check_vertex_degree]: the sum over
    [range(matrix.shape[0])], then the diagonal entry taken off once. The
    matrix is an integer array. *)
Definition vertex_degree (m : matrix) (vertex_id : nat) : option Z :=
  total ← Py.for_each (Py.range (length m)) (λ index acc,
    a ← getitem2 m index vertex_id;
    b ← getitem2 m vertex_id index;
    Some (Py.Continue (Np.add acc (Np.add a b)))) 0;
  d ← getitem2 m vertex_id vertex_id;
  Some (Np.sub total d).

(** [check_vertex_degree(matrices, three_body_use, nbody_max_observable,
    canonical_only, vertex_id)], in place. *)
Definition check_vertex_degree (matrices : list matrix)
    (three_body_use : bool) (nbody_max_observable : Z)
    (canonical_only : bool) (vertex_id : nat) : option (list matrix) :=
  Py.for_each (Py.range_down (length matrices) 0) (λ i_mat matrices,
    m ← matrices !! i_mat;
    vertex_degree ← vertex_degree m vertex_id;
    if bool_decide (vertex_id ≠ 0%nat)
         && negb (bool_decide
                    (vertex_degree
                       ∈ authorized_deg three_body_use canonical_only vertex_id))
       || bool_decide (vertex_id = 0%nat)
          && bool_decide (vertex_degree > 2 * nbody_max_observable)
    then Some (Py.Continue (delete i_mat matrices))
    else Some (Py.Continue matrices)) matrices.

(** [label_vertices(graphs_list, theory_type)]; the graphs are edited in
    place, the result is the list after the call. The condition of the [if]
    is [theory_type == "BMBPT" or "PBMBPT"], whose second operand is a
    string taken as a truth value. *)
Definition label_vertices (graphs_list : list Nx.MultiDiGraph)
    (theory_type : string) : option (list Nx.MultiDiGraph) :=
  Py.for_each graphs_list (λ graph out,
    graph ← Py.for_each (Nx.nodes graph) (λ node graph,
      graph' ← Nx.set_operator graph node false;
      Some (Py.Continue graph')) graph;
    graph ← (if bool_decide (theory_type = "BMBPT"%string)
                || Py.truthy "PBMBPT"
             then Nx.set_operator graph 0 true
             else Some graph);
    Some (Py.Continue (out ++ [graph]))) [].

(** [create_checkable_diagram(pbmbpt_graph)]; reading ['anomalous'] on an
    edge without the attribute is a [KeyError]. The order of the edges of a
    graph is not observed by the program. *)
Definition create_checkable_diagram (pbmbpt_graph : Nx.MultiDiGraph)
    : option Nx.MultiDiGraph :=
  props_to_add ← Py.for_each (Nx.edges pbmbpt_graph) (λ prop props_to_add,
    a ← Nx.anomalous prop;
    if (a : bool) && negb (bool_decide (Nx.src prop = Nx.dst prop))
    then Some (Py.Continue (props_to_add ++ [(Nx.dst prop, Nx.src prop)]))
    else Some (Py.Continue props_to_add)) [];
  Some (foldl (λ doubled_graph prop,
          Nx.add_edge doubled_graph prop.1 prop.2 (Some true))
        pbmbpt_graph props_to_add).

(** Tuples [(in, out)] as Python orders them. *)
Definition io_le (a b : nat * nat) : Prop :=
  (a.1 < b.1)%nat ∨ (a.1 = b.1 ∧ (a.2 ≤ b.2)%nat).
#[global] Instance io_le_dec : RelDecision io_le :=
  λ a b, or_dec (decide (a.1 < b.1)%nat)
           (and_dec (decide (a.1 = b.1)) (decide (a.2 ≤ b.2)%nat)).

(** The class [Diagram]. [projected] tells whether the object is an
    instance of the subclass [adg.pbmbpt.ProjectedBmbptDiagram], the one
    [isinstance] test of this module that the model keeps; the
    [TimeStructureDiagram] objects and their [perms] are left out. *)
Record Diagram : Type := mkDiagram {
  graph : Nx.MultiDiGraph;
  unsort_degrees : list nat;
  degrees : list nat;
  unsort_io_degrees : list (nat * nat);
  io_degrees : list (nat * nat);
  max_degree : nat;
  tags : list Z;
  projected : bool
}.

(** [Diagram.__init__(nx_graph)]; [self.degrees[-1]] fails on a graph
    without nodes. *)
Definition Diagram_init (nx_graph : Nx.MultiDiGraph) : option Diagram :=
  let unsort_degrees := Nx.degree nx_graph <$> Nx.nodes nx_graph in
  let degrees := merge_sort Nat.le unsort_degrees in
  let unsort_io_degrees :=
    (λ node, (Nx.in_degree nx_graph node, Nx.out_degree nx_graph node))
      <$> Nx.nodes nx_graph in
  let io_degrees := merge_sort io_le unsort_io_degrees in
  max_degree ← last degrees;
  Some (mkDiagram nx_graph unsort_degrees degrees unsort_io_degrees
          io_degrees max_degree [0] false).

(** The test made on a pair of diagrams by
    [topologically_distinct_diagrams]: equal [io_degrees], then the matcher
    chosen by the class of the first diagram. *)
Definition same_topology (diag comp_diag : Diagram) : option bool :=
  if bool_decide (io_degrees diag = io_degrees comp_diag) then
    if projected diag then
      doubled_graph ← create_checkable_diagram (graph diag);
      doubled_comp_diag ← create_checkable_diagram (graph comp_diag);
      Some (Nx.is_isomorphic_operator_anomalous doubled_graph
              doubled_comp_diag)
    else Some (Nx.is_isomorphic_operator (graph diag) (graph comp_diag))
  else Some false.

(** [diagrams[i_diag].tags += diagrams[i_comp_diag].tags] *)
Definition add_tags (diag comp_diag : Diagram) : Diagram :=
  mkDiagram (graph diag) (unsort_degrees diag) (degrees diag)
    (unsort_io_degrees diag) (io_degrees diag) (max_degree diag)
    (tags diag ++ tags comp_diag) (projected diag).

(** The inner loop of [topologically_distinct_diagrams] for the diagram at
    [i_diag]: the later diagrams are compared from the last one down; at the
    first one with the same topology its tags are added to the diagram at
    [i_diag], it is deleted, and the loop stops. *)
Definition merge_first_match (i_diag : nat) (diagrams : list Diagram)
    : option (list Diagram) :=
  Py.for_each (Py.range_down (length diagrams) (i_diag + 1))
    (λ i_comp_diag diagrams,
      diag ← diagrams !! i_diag;
      comp_diag ← diagrams !! i_comp_diag;
      same ← same_topology diag comp_diag;
      if same : bool then
        Some (Py.Break
                (delete i_comp_diag
                   (<[i_diag := add_tags diag comp_diag]> diagrams)))
      else Some (Py.Continue diagrams)) diagrams.

(** [topologically_distinct_diagrams(diagrams)]; the list is edited in
    place and returned. *)
Definition topologically_distinct_diagrams (diagrams : list Diagram)
    : option (list Diagram) :=
  Py.for_each (Py.range_down (length diagrams) 0) (λ i_diag diagrams,
    diagrams' ← merge_first_match i_diag diagrams;
    Some (Py.Continue diagrams')) diagrams.

(** [print_adj_matrices(directory, diagrams)]: the text written to
    [adjacency_matrices.txt]. *)
Definition print_adj_matrices (diagrams : list Diagram) : string :=
  foldr (λ '(idx, diagram) out,
      ("Diagram n: " +:+ Np.fmt_d (Z.of_nat idx + 1) +:+ Np.newline
       +:+ Np.savetxt Np.fmt_d (Nx.to_numpy_matrix (graph diagram))
       +:+ Np.newline +:+ out)%string)
    ""%string (Py.enumerate diagrams).

(** The flag [test_traceless] of [no_trace]: no line has a non-zero entry
    on the diagonal. *)
Definition no_trace_test (m : matrix) : option bool :=
  Py.for_each (Py.enumerate m) (λ '(ind_i, line) test_traceless,
    x ← line !! ind_i;
    if bool_decide (x ≠ 0) then Some (Py.Break false)
    else Some (Py.Continue test_traceless)) true.

(** [no_trace(matrices)] *)
Definition no_trace (matrices : list matrix) : option (list matrix) :=
  Py.for_each matrices (λ m traceless_matrices,
    test ← no_trace_test m;
    Some (Py.Continue (if test : bool then traceless_matrices ++ [m]
                       else traceless_matrices))) [].

(** [propagator_style]: the entry of the dictionary [line_styles];
    [KeyError] for another name. *)
Definition propagator_style (prop_type : string) : option string :=
  let nl := Np.newline in
  if bool_decide (prop_type = "prop_pm"%string) then
    Some ("\fmfcmd{style_def prop_pm expr p =" +:+ nl
          +:+ "draw_plain p;" +:+ nl +:+ "shrink(.7);" +:+ nl
          +:+ Py.tab +:+ "cfill (marrow (p, .25));" +:+ nl
          +:+ Py.tab +:+ "cfill (marrow (p, .75))" +:+ nl
          +:+ "endshrink;" +:+ nl +:+ "enddef;}" +:+ nl)%string
  else if bool_decide (prop_type = "prop_mm"%string) then
    Some ("\fmfcmd{style_def prop_mm expr p =" +:+ nl
          +:+ "draw_plain p;" +:+ nl +:+ "shrink(.7);" +:+ nl
          +:+ Py.tab +:+ "cfill (marrow (p, .75));" +:+ nl
          +:+ Py.tab +:+ "cfill (marrow (reverse p, .75))" +:+ nl
          +:+ "endshrink;" +:+ nl +:+ "enddef;}" +:+ nl)%string
  else if bool_decide (prop_type = "half_prop"%string) then
    Some ("\fmfcmd{style_def half_prop expr p =" +:+ nl
          +:+ "draw_plain p;" +:+ nl +:+ "shrink(.7);" +:+ nl
          +:+ Py.tab +:+ "cfill (marrow (p, .5))" +:+ nl
          +:+ "endshrink;" +:+ nl +:+ "enddef;}" +:+ nl)%string
  else None.

(** [vertex_positions]: [graph.node[vert]['operator']] raises [KeyError]
    for a vertex without the attribute. *)
Definition vertex_positions (graph : Nx.MultiDiGraph) (order : nat)
    : option string :=
  let nl := Np.newline in
  let v (i : Z) := ("v" +:+ Np.fmt_d i)%string in
  let positions :=
    ("\fmftop{" +:+ v (Z.of_nat order - 1) +:+ "}\fmfbottom{v0}" +:+ nl)%string
  in
  positions ← Py.for_each (Py.range (order - 1)) (λ vert positions,
    op ← Nx.operator graph !! vert;
    Some (Py.Continue
      (positions
       +:+ "\fmf{phantom}{" +:+ v (Z.of_nat vert) +:+ ","
       +:+ v (Z.of_nat vert + 1) +:+ "}" +:+ nl
       +:+ (if op : bool
            then "\fmfv{d.shape=square,d.filled=full,d.size=3thick"
            else "\fmfv{d.shape=circle,d.filled=full,d.size=3thick")
       +:+ "}{" +:+ v (Z.of_nat vert) +:+ "}" +:+ nl)%string)) positions;
  Some (positions
        +:+ "\fmfv{d.shape=circle,d.filled=full,d.size=3thick}{"
        +:+ v (Z.of_nat order - 1) +:+ "}" +:+ nl
        +:+ "\fmffreeze" +:+ nl)%string.

(** [self_contractions]. The test [if [nx.selfloop_edges(graph)]:] is on a
    list of one element, which is true for every graph.
    [prop[3]['anomalous']] raises [KeyError] on a self-loop without the
    attribute, [positions[key]] raises [IndexError] from the third anomalous
    self-loop of a vertex on. *)
Definition self_contractions (graph : Nx.MultiDiGraph) : option string :=
  let nl := Np.newline in
  let instructions := ""%string in
  style ← propagator_style "half_prop";
  let instructions := (instructions +:+ style)%string in
  instructions ← Py.for_each (Nx.nodes graph) (λ vert instructions,
    let props_to_draw :=
      filter (λ e, Nx.src e = Nx.dst e ∧ Nx.src e = vert) (Nx.edges graph) in
    let positions := ["15pt"; "-15pt"]%string in
    '(key, instructions) ←
      Py.for_each props_to_draw (λ prop '(key, instructions),
        a ← Nx.anomalous prop;
        if a : bool then
          let a_name :=
            ("a" +:+ Np.fmt_d (Z.of_nat vert)
             +:+ Np.fmt_d (Z.of_nat key))%string in
          pos ← positions !! key;
          Some (Py.Continue
            (S key,
             (instructions
              +:+ "\fmfv{}{" +:+ a_name +:+ "}" +:+ nl
              +:+ "\fmffixed{(" +:+ pos +:+ ",0)}{v"
              +:+ Np.fmt_d (Z.of_nat vert) +:+ "," +:+ a_name +:+ "}" +:+ nl
              +:+ "\fmf{half_prop,right}{" +:+ a_name +:+ ",v"
              +:+ Np.fmt_d (Z.of_nat vert) +:+ "}" +:+ nl
              +:+ "\fmf{half_prop,left}{" +:+ a_name +:+ ",v"
              +:+ Np.fmt_d (Z.of_nat vert) +:+ "}" +:+ nl)%string))
        else Some (Py.Continue (key, instructions)))
        (0%nat, instructions);
    Some (Py.Continue instructions)) instructions;
  Some (instructions +:+ "\fmffreeze" +:+ nl)%string.

(** The directions of the propagators. *)
Definition directions : list string :=
  [",left=0.9"; ",left=0.75"; ",left=0.6"; ",left=0.5"; "";
   ",right=0.5"; ",right=0.6"; ",right=0.75"; ",right=0.9"]%string.

(** Lines 304-315 of [feynmf_generator]: the directions kept for [n]
    propagators between two vertices, [adjacent] telling whether
    [vert_j - vert_i] is 1. *)
Definition props_dir (adjacent : bool) (n : nat) : list string :=
  let props_dir :=
    if negb adjacent then Py.slice 0 3 directions ++ Py.slice_last 3 directions
    else
      let props_dir :=
        Py.slice 0 2 directions ++ Py.slice 3 6 directions
        ++ Py.slice_last 2 directions in
      if negb (bool_decide (n `mod` 2 = 1)%nat)
      then Py.slice 0 3 props_dir ++ Py.slice_last 3 props_dir
      else drop 1 props_dir in
  if bool_decide (n < 5)%nat then
    let props_dir := Py.slice_minus 1 1 props_dir in
    if bool_decide (n < 3)%nat then Py.slice_minus 1 1 props_dir
    else props_dir
  else props_dir.

(** ['anomalous' in prop[3] and prop[3]['anomalous']] *)
Definition is_anomalous (prop : Nx.edge) : bool :=
  match Nx.anomalous prop with
  | Some a => a
  | None => false
  end.

(** One of the three loops of lines 318-336: the propagators that pass
    [test] are written by [line] with the next direction, [IndexError]
    when the directions are used up. *)
Definition draw_props (test : Nx.edge → bool) (line : string → string)
    (props_dir : list string) (props_to_draw : list Nx.edge)
    (st : nat * string) : option (nat * string) :=
  Py.for_each props_to_draw (λ prop '(key, out),
    if test prop then
      dir ← props_dir !! key;
      Some (Py.Continue (S key, (out +:+ line dir)%string))
    else Some (Py.Continue (key, out))) st.

(** The propagators between two vertices: the edges that leave [vert_i],
    then those that leave [vert_j], that end on one of the two and are no
    self-loop. *)
Definition props_between (graph : Nx.MultiDiGraph) (vert_i vert_j : nat)
    : list Nx.edge :=
  filter (λ e, (Nx.dst e = vert_i ∨ Nx.dst e = vert_j) ∧ Nx.src e ≠ Nx.dst e)
    (filter (λ e, Nx.src e = vert_i) (Nx.edges graph)
     ++ filter (λ e, Nx.src e = vert_j) (Nx.edges graph)).

(** Lines 297-336 of [feynmf_generator]: the propagators between every
    vertex and the vertices after it in the list of the nodes. *)
Definition draw_propagators (graph : Nx.MultiDiGraph) (propa : string)
    (out : string) : option string :=
  let nl := Np.newline in
  Py.for_each (Nx.nodes graph) (λ vert_i out,
    out ← Py.for_each (drop (vert_i + 1) (Nx.nodes graph)) (λ vert_j out,
      let props_to_draw := props_between graph vert_i vert_j in
      let props_dir :=
        props_dir (bool_decide (Z.of_nat vert_j - Z.of_nat vert_i = 1))
          (length props_to_draw) in
      let vi := ("v" +:+ Np.fmt_d (Z.of_nat vert_i))%string in
      let vj := ("v" +:+ Np.fmt_d (Z.of_nat vert_j))%string in
      let key := 0%nat in
      st ← draw_props
             (λ prop, bool_decide (Nx.dst prop < Nx.src prop)%nat
                      && negb (is_anomalous prop))
             (λ dir, "\fmf{" +:+ propa +:+ dir +:+ "}{" +:+ vj +:+ ","
                     +:+ vi +:+ "}" +:+ nl)%string
             props_dir props_to_draw (key, out);
      st ← draw_props
             (λ prop, bool_decide (Nx.src prop < Nx.dst prop)%nat
                      && negb (is_anomalous prop))
             (λ dir, "\fmf{" +:+ propa +:+ dir +:+ "}{" +:+ vi +:+ ","
                     +:+ vj +:+ "}" +:+ nl)%string
             props_dir props_to_draw st;
      st ← draw_props is_anomalous
             (λ dir, "\fmf{prop_mm" +:+ dir +:+ "}{" +:+ vi +:+ ","
                     +:+ vj +:+ "}" +:+ nl)%string
             props_dir props_to_draw st;
      Some (Py.Continue st.2)) out;
    Some (Py.Continue out)) out.

(** [feynmf_generator]: the text written to the file [diagram_name.tex];
    [None] when an exception stops the function. *)
Definition feynmf_generator (graph : Nx.MultiDiGraph)
    (theory_type diagram_name : string) : option string :=
  let nl := Np.newline in
  let p_order := Nx.number_of_nodes graph in
  let diag_size := Np.fmt_d (20 * Z.of_nat p_order) in
  let theories := ["MBPT"; "BMBPT"; "PBMBPT"]%string in
  let prop_types := ["half_prop"; "prop_pm"; "prop_pm"]%string in
  i ← Py.index theory_type theories;
  propa ← prop_types !! i;
  let out :=
    ("\parbox{" +:+ diag_size +:+ "pt}{\begin{fmffile}{" +:+ diagram_name
     +:+ "}" +:+ nl
     +:+ "\begin{fmfgraph*}(" +:+ diag_size +:+ "," +:+ diag_size +:+ ")"
     +:+ nl)%string in
  style ← propagator_style propa;
  let out := (out +:+ style)%string in
  out ← (if bool_decide (theory_type = "PBMBPT"%string)
         then style ← propagator_style "prop_mm"; Some (out +:+ style)%string
         else Some out);
  positions ← vertex_positions graph p_order;
  let out := (out +:+ positions)%string in
  out ← (if bool_decide (theory_type = "PBMBPT"%string)
         then instructions ← self_contractions graph;
              Some (out +:+ instructions)%string
         else Some out);
  out ← draw_propagators graph propa out;
  Some (out +:+ "\end{fmfgraph*}" +:+ nl +:+ "\end{fmffile}}" +:+ nl)%string.

(** The inner loop of [update_permutations]: every node of [perm] gets the
    value that the copy [dummy_nodes] holds for [mapping[node]];
    [KeyError] when [mapping] has no entry for the node or the copy none for
    its image. *)
Definition permute_nodes (mapping perm : gmap nat nat)
    : option (gmap nat nat) :=
  let dummy_nodes := perm in
  Py.for_each (map_to_list perm).*1 (λ node perm,
    image ← mapping !! node;
    value ← dummy_nodes !! image;
    Some (Py.Continue (<[node := value]> perm))) perm.

(** [update_permutations(comp_graph_perms, comp_graph_tag, mapping)]; the
    dictionary is edited in place, the result is its state after the
    call. *)
Definition update_permutations (comp_graph_perms : gmap nat (gmap nat nat))
    (comp_graph_tag : nat) (mapping : gmap nat nat)
    : option (gmap nat (gmap nat nat)) :=
  tagged ← comp_graph_perms !! comp_graph_tag;
  let identity := map_imap (λ key _, Some key) tagged in
  if bool_decide (mapping ≠ identity) then
    Py.for_each (map_to_list comp_graph_perms).*1 (λ graph_id perms,
      perm ← perms !! graph_id;
      perm ← permute_nodes mapping perm;
      Some (Py.Continue (<[graph_id := perm]> perms))) comp_graph_perms
  else Some comp_graph_perms.

End Diag.

(** * Reading the text back *)

Module Text.

(** [c in s] *)
Fixpoint occurs (c : ascii) (s : string) : bool :=
  match s with
  | EmptyString => false
  | String a s' => Ascii.eqb a c || occurs c s'
  end.

(** [s.split(c)] *)
Fixpoint split_on (c : ascii) (s : string) : list string :=
  match s with
  | EmptyString => [EmptyString]
  | String a s' =>
      if Ascii.eqb a c then EmptyString :: split_on c s'
      else match split_on c s' with
           | [] => [String a EmptyString]
           | t :: ts => String a t :: ts
           end
  end.

Definition lines (text : string) : list string :=
  split_on (ascii_of_nat 10) text.

Definition nonempty (s : string) : bool :=
  negb (bool_decide (s = EmptyString)).

Fixpoint take_while {A : Type} (f : A → bool) (l : list A) : list A :=
  match l with
  | [] => []
  | x :: l' => if f x then x :: take_while f l' else []
  end.

(** Modelled from the spec: the reader of the plain-text format, which is
    not part of these sources. A matrix block is read line by line up to the
    blank line; a line is cut at the spaces and every field is read as a
    decimal integer. *)
Definition read_int (field : string) : option Z :=
  Z.of_int <$> NilZero.int_of_string field.
Definition read_row (line : string) : option (list Z) :=
  mapM read_int (List.filter nonempty (split_on " " line)).
Definition read_matrix_block (text : string) : option matrix :=
  mapM read_row (take_while nonempty (lines text)).

End Text.

(** * Specification vocabulary *)

(** [filtered P l l']: [l'] is [l] with exactly the elements that do not
    satisfy [P] removed; the others stay, in order and unchanged. *)
Inductive filtered {A : Type} (P : A → Prop) : list A → list A → Prop :=
  | filtered_nil : filtered P [] []
  | filtered_keep x l l' : P x → filtered P l l' → filtered P (x :: l) (x :: l')
  | filtered_drop x l l' : ¬ P x → filtered P l l' → filtered P (x :: l) l'.

(** The loop rule in the words of the specification. *)
Definition nonzero_at (m : matrix) (i j : nat) : Prop :=
  ∃ a, getitem2 m i j = Some a ∧ a ≠ 0.
Definition has_two_cycle (m : matrix) : Prop :=
  ∃ i j, i ≠ j ∧ nonzero_at m i j ∧ nonzero_at m j i.
Definition has_self_loop (m : matrix) : Prop :=
  ∃ i, nonzero_at m i i.
Definition loop_free (m : matrix) : Prop :=
  ¬ has_two_cycle m ∧ ¬ has_self_loop m.

(** [m[i][j]] read as a number, for indices known to be in range. *)
Definition entry (m : matrix) (i j : nat) : Z := default 0 (getitem2 m i j).

(** The condition of the [if] of [no_loop], on a square matrix. *)
Definition pair_loops (m : matrix) (i j : nat) : bool :=
  bool_decide (entry m i j ≠ 0) && bool_decide (entry m j i ≠ 0).

(** Degrees of a vertex read off the adjacency matrix: the in-degree is a
    column sum, the out-degree a row sum. *)
Fixpoint Zsum (l : list Z) : Z :=
  match l with
  | [] => 0
  | x :: l => x + Zsum l
  end.
Definition in_degree (m : matrix) (v : nat) : Z :=
  Zsum ((λ i, entry m i v) <$> seq 0 (length m)).
Definition out_degree (m : matrix) (v : nat) : Z :=
  Zsum ((λ j, entry m v j) <$> seq 0 (length m)).
Definition total_degree (m : matrix) (v : nat) : Z :=
  in_degree m v + out_degree m v.

(** "exactly 2 or 4, or additionally 6 when three-body vertices are
    enabled" *)
Definition allowed_degree (three_body : bool) (d : Z) : Prop :=
  d = 2 ∨ d = 4 ∨ (three_body = true ∧ d = 6).

(** The degree rule for one vertex in the words of the specification: the
    distinguished vertex 0 is bounded by twice the observable rank, any
    other vertex has an allowed degree. *)
Definition spec_vertex_rule (three_body : bool) (rank : Z) (v : nat)
    (m : matrix) : Prop :=
  if decide (v = 0%nat) then total_degree m v ≤ 2 * rank
  else allowed_degree three_body (total_degree m v).

(** The rule [check_vertex_degree] of [adg/diag.py] applies for one vertex:
    a diagonal entry counts once, and degree 2 is allowed away from vertex 0
    only when [canonical_only] is off. *)
Definition diag_vertex_rule (three_body : bool) (rank : Z)
    (canonical_only : bool) (v : nat) (m : matrix) : Prop :=
  let d := total_degree m v - entry m v v in
  if decide (v = 0%nat) then d ≤ 2 * rank
  else d = 4 ∨ (three_body = true ∧ d = 6) ∨ (canonical_only = false ∧ d = 2).

(** Entries and size for which 64-bit sums do not wrap. *)
Definition small_entries (m : matrix) : Prop :=
  (Z.of_nat (length m) < 2 ^ 30) ∧
  Forall (Forall (λ a, - 2 ^ 31 ≤ a < 2 ^ 31)) m.

(** The rule of the script's [check_degree]: every vertex, vertex 0
    included, has an allowed degree. *)
Definition script_degree_rule (three_body : bool) (m : matrix) : Prop :=
  ∀ v, (v < length m)%nat → allowed_degree three_body (total_degree m v).

(** Permutation matrices: row [r] of the matrix of [k] has its one in
    column [k[r]]. *)
Definition perm_matrix (n : nat) (k : list nat) : matrix :=
  (λ j : nat, (λ i : nat, if bool_decide (i ≠ j) then 0 else 1) <$> seq 0 n)
    <$> k.
Definition matrix_add (a b : matrix) : matrix :=
  zip_with (zip_with Z.add) a b.
(** A permutation of [0 .. n-1] without fixed point. *)
Definition derangement (n : nat) (p : list nat) : Prop :=
  p ≡ₚ seq 0 n ∧ ∀ i, p !! i ≠ Some i.

(** The entry of a permutation matrix: 1 on the column of the one, else
    0. *)
Definition ind (i j : nat) : Z := if bool_decide (i ≠ j) then 0 else 1.

(** [pairwise R l]: [R] holds from every element of [l] to every later
    one. *)
Inductive pairwise {A : Type} (R : A → A → Prop) : list A → Prop :=
  | pairwise_nil : pairwise R []
  | pairwise_cons x l : Forall (R x) l → pairwise R l → pairwise R (x :: l).

(** No diagram of the list has the topology of a later one, for the test of
    [topologically_distinct_diagrams]. *)
Definition distinct_topology (l : list Diag.Diagram) : Prop :=
  pairwise (λ a b, Diag.same_topology a b = Some false) l.

(** All the tags of a list of diagrams. *)
Definition all_tags (l : list Diag.Diagram) : list Z :=
  mjoin (Diag.tags <$> l).

(** Isomorphism of graphs with data: [pairs] relates the nodes of [g1] to
    the nodes of [g2], every node once; matched nodes carry the same node
    data [vl], matched pairs of nodes the same data [el]. *)
Definition isomorphism {V E : Type}
    (vl : Nx.MultiDiGraph → nat → V) (el : Nx.MultiDiGraph → nat → nat → E)
    (g1 g2 : Nx.MultiDiGraph) (pairs : list (nat * nat)) : Prop :=
  pairs.*1 ≡ₚ Nx.nodes g1 ∧ pairs.*2 ≡ₚ Nx.nodes g2
  ∧ ∀ uu vv, uu ∈ pairs → vv ∈ pairs →
      vl g1 uu.1 = vl g2 uu.2 ∧ el g1 uu.1 vv.1 = el g2 uu.2 vv.2.
Definition isomorphic {V E : Type}
    (vl : Nx.MultiDiGraph → nat → V) (el : Nx.MultiDiGraph → nat → nat → E)
    (g1 g2 : Nx.MultiDiGraph) : Prop :=
  ∃ pairs, isomorphism vl el g1 g2 pairs.

(** The list [unsort_io_degrees] of a graph. *)
Definition io_degree_list (g : Nx.MultiDiGraph) : list (nat * nat) :=
  (λ node, (Nx.in_degree g node, Nx.out_degree g node)) <$> Nx.nodes g.

(** A graph as NetworkX keeps it: no node twice, the end points of the edges
    are nodes. *)
Definition well_formed_graph (g : Nx.MultiDiGraph) : Prop :=
  NoDup (Nx.nodes g)
  ∧ Forall (λ e, Nx.src e ∈ Nx.nodes g ∧ Nx.dst e ∈ Nx.nodes g) (Nx.edges g).

(** A diagram of the class told by [pb] ([true] for
    [ProjectedBmbptDiagram]); the propagators of a projected diagram all
    carry the attribute ['anomalous']. *)
Definition checkable (pb : bool) (d : Diag.Diagram) : Prop :=
  Diag.projected d = pb
  ∧ (pb = true →
     Forall (λ e, is_Some (Nx.anomalous e)) (Nx.edges (Diag.graph d))).

(** Besides, [io_degrees] is the value computed by [Diagram.__init__] from
    the graph, which is as NetworkX keeps it. *)
Definition well_formed (pb : bool) (d : Diag.Diagram) : Prop :=
  checkable pb d
  ∧ Diag.io_degrees d = merge_sort Diag.io_le (io_degree_list (Diag.graph d))
  ∧ well_formed_graph (Diag.graph d).

(** The numbers of anomalous and of other propagators from [u] to [v]. *)
Definition edge_kinds (g : Nx.MultiDiGraph) (u v : nat) : nat * nat :=
  (length (filter (λ e, Nx.anomalous e = Some true) (Nx.edges_between g u v)),
   length (filter (λ e, Nx.anomalous e ≠ Some true) (Nx.edges_between g u v))).


(** The propagators added by [create_checkable_diagram], as pairs. *)
Definition reversed_anomalous (es : list Nx.edge) : list (nat * nat) :=
  es ≫= λ e,
    if default false (Nx.anomalous e)
       && negb (bool_decide (Nx.src e = Nx.dst e))
    then [(Nx.dst e, Nx.src e)] else [].

(** What the test of the canonicalizer decides on diagrams of class [pb]. *)
Definition same_topology_rel (pb : bool) (a b : Diag.Diagram) : Prop :=
  Diag.io_degrees a = Diag.io_degrees b
  ∧ if pb then
      ∃ ga gb,
        Diag.create_checkable_diagram (Diag.graph a) = Some ga
        ∧ Diag.create_checkable_diagram (Diag.graph b) = Some gb
        ∧ isomorphic Nx.operator_or_false Nx.multiedge_data ga gb
    else isomorphic Nx.operator_or_false Nx.number_of_edges_between
           (Diag.graph a) (Diag.graph b).

(** The data compared by the matcher on the graph built by
    [create_checkable_diagram], from the numbers of propagators of the
    diagram's own graph in the two directions. *)
Definition doubled_data (same : bool) (k kr : nat * nat)
    : nat * (bool * bool) :=
  let extra := if same then 0%nat else kr.1 in
  ((k.1 + k.2 + extra)%nat,
   (bool_decide (0 < k.1 + extra)%nat, bool_decide (0 < k.2)%nat)).

(** What a labelled graph looks like when vertex 0 is marked exactly when
    [mark] holds: the nodes and the edges are those of [g], every node has
    the attribute, true on vertex 0 under [mark] only. *)
Definition labelled (mark : bool) (g g' : Nx.MultiDiGraph) : Prop :=
  Nx.nodes g' = Nx.nodes g ∧ Nx.edges g' = Nx.edges g
  ∧ ∀ u, Nx.operator g' !! u
         = if decide (u ∈ Nx.nodes g)
           then Some (mark && bool_decide (u = 0%nat))
           else Nx.operator g !! u.

(** The test and the labelling of the reduction loop of the script, for
    the two values of [norm]. *)
Definition script_iso (norm : bool) (a b : Nx.MultiDiGraph) : bool :=
  if norm then Nx.is_isomorphic a b else Nx.is_isomorphic_operator a b.
Definition script_label (norm : bool) (g : Nx.MultiDiGraph)
    : option Nx.MultiDiGraph :=
  if bool_decide (norm = false) then Adg.label_operator g else Some g.
(** Isomorphism as the script tests it: the operator flag counts outside
    norm-kernel mode only. *)
Definition script_isomorphic (norm : bool) (a b : Nx.MultiDiGraph) : Prop :=
  if norm then isomorphic Nx.no_node_data Nx.number_of_edges_between a b
  else isomorphic Nx.operator_or_false Nx.number_of_edges_between a b.

(** The three MBPT diagrams of order 3 as [Diagram] objects, used as a
    concrete input. *)
Definition mbpt3_diagrams : list Diag.Diagram :=
  default [] (mapM (λ m, Diag.Diagram_init (Nx.from_numpy_matrix m))
    [[[0; 2; 0]; [0; 0; 2]; [2; 0; 0]];
     [[0; 1; 1]; [1; 0; 1]; [1; 1; 0]];
     [[0; 0; 2]; [2; 0; 0]; [0; 2; 0]]]).
Definition mbpt3_graphs : list Nx.MultiDiGraph :=
  Diag.graph <$> mbpt3_diagrams.

(** The line written for one row of a matrix, and the header line of the
    block with number [k]. *)
Definition row_text (row : list Z) : string :=
  Np.join " " (Np.fmt_d <$> row).
Definition header_text (k : Z) : string :=
  ("Diagram n: " +:+ Np.fmt_d k)%string.

(** The order-2 MBPT scenario with two edges and vertices of degree 2. *)
Definition mbpt2_as_stated : Prop :=
  ∃ r g,
    Adg.run "MBPT" 2 false false = Some r ∧ Adg.G r = [g]
    ∧ Nx.number_of_edges g = 2%nat
    ∧ ∀ v, v ∈ Nx.nodes g → Nx.degree g v = 2%nat.

(** The order-3 MBPT scenario with three pairwise non-isomorphic diagrams. *)
Definition mbpt3_as_stated : Prop :=
  ∃ r g1 g2 g3,
    Adg.run "MBPT" 3 false false = Some r ∧ Adg.G r = [g1; g2; g3]
    ∧ Forall (λ g, Nx.number_weakly_connected_components g = 1%nat)
        [g1; g2; g3]
    ∧ Nx.is_isomorphic g1 g2 = false
    ∧ Nx.is_isomorphic g1 g3 = false
    ∧ Nx.is_isomorphic g2 g3 = false.

(** Every entry of the matrix is a natural number. *)
Definition nonnegative (m : matrix) : Prop :=
  Forall (Forall (λ a, 0 ≤ a)) m.

(** Projected diagrams on two vertices, used as a concrete input: two
    ordinary propagators, one ordinary and one anomalous propagator, and
    two ordinary propagators again. *)
Definition projected_diagram (kinds : list bool) : Diag.Diagram :=
  let g := Nx.Graph [0; 1]%nat ∅
             ((λ a, Nx.Edge 0 1 (Some a)) <$> kinds) in
  Diag.mkDiagram g (Nx.degree g <$> Nx.nodes g)
    (merge_sort Nat.le (Nx.degree g <$> Nx.nodes g))
    (io_degree_list g) (merge_sort Diag.io_le (io_degree_list g))
    (default 0%nat (last (merge_sort Nat.le (Nx.degree g <$> Nx.nodes g))))
    [0] true.
Definition projected_diagrams : list Diag.Diagram :=
  projected_diagram <$> [[false; false]; [false; true]; [false; false]].



(** The diagonal of a matrix, as far as its rows reach. *)
Definition diagonal (m : matrix) : list Z :=
  imap (λ i row, default 0 (row !! i)) m.

(** The first line of the matrix holds zeros only. *)
Definition first_line_zero (m : matrix) : Prop :=
  Forall (λ x, x = 0) (default [] (m !! 0%nat)).

(** A filter whose test may raise: the elements that pass, when no test
    raises. *)
Fixpoint filter_opt {A : Type} (test : A → option bool) (l : list A)
    : option (list A) :=
  match l with
  | [] => Some []
  | x :: l =>
      t ← test x;
      r ← filter_opt test l;
      Some (if t : bool then x :: r else r)
  end.

(** What the generators of BMBPT matrices keep true of every matrix they
    hold: it is square of size [n], its entries are natural numbers, and,
    for the operator kernels ([op]), its first line is zero. *)
Definition bmbpt_shape (op : bool) (n : nat) (m : matrix) : Prop :=
  square n m ∧ nonnegative m ∧ (op = true → first_line_zero m).

(** A strict total order given as a boolean test. *)
Record strict_total {A : Type} (ltb : A → A → bool) : Prop := {
  strict_irrefl : ∀ x, ltb x x = false;
  strict_trans : ∀ x y z, ltb x y = true → ltb y z = true → ltb x z = true;
  strict_total_ne : ∀ x y, x ≠ y → ltb x y = true ∨ ltb y x = true
}.

(** [a] comes before [b] in a list sorted with [reverse=True] and without
    duplicates: [a > b] as Python compares nested lists. *)
Definition matrix_gt (a b : matrix) : Prop := matrix_leb b a = true ∧ a ≠ b.

(** The two conditions of the classification of the script: no vertex has
    degree 2; no vertex other than vertex 0 has degree 2. *)
Definition no_degree_two (g : Nx.MultiDiGraph) : Prop :=
  Forall (λ v, Nx.degree g v ≠ 2%nat) (Nx.nodes g).
Definition degree_two_at_zero_only (g : Nx.MultiDiGraph) : Prop :=
  Forall (λ v, Nx.degree g v = 2%nat → v = 0%nat) (Nx.nodes g).

(** The classes of the script: two-body or three-body (a vertex of degree
    6 is the mark of the latter), and canonical for the energy, canonical
    for a generic operator only, or non-canonical. *)
Inductive canonical_class : Type := Energy | OperatorOnly | NonCanonical.
#[global] Instance canonical_class_eq_dec : EqDecision canonical_class.
Proof. solve_decision. Defined.
Definition class_of (norm : bool) (g : Nx.MultiDiGraph)
    : bool * canonical_class :=
  (bool_decide (Adg.max_deg g = 6%nat),
   if decide (no_degree_two g) then Energy
   else if decide (degree_two_at_zero_only g ∧ norm = false)
        then OperatorOnly else NonCanonical).
(** The list the script holds for a class: [G2_HF], [G2_EHF], [G2_noHF],
    [G3_HF], [G3_EHF], [G3_noHF]. *)
Definition class_list (r : Adg.result) (k : bool * canonical_class)
    : list Nx.MultiDiGraph :=
  let c := if k.1 then Adg.three_body r else Adg.two_body r in
  match k.2 with
  | Energy => Adg.HF c
  | OperatorOnly => Adg.EHF c
  | NonCanonical => Adg.noHF c
  end.

(** Weak connectivity in words: two vertices are adjacent when a propagator
    joins them in either direction; a graph is weakly connected when it has
    a vertex and every two vertices are joined by a chain of adjacent
    vertices. *)
Definition adjacent (g : Nx.MultiDiGraph) (u v : nat) : Prop :=
  ∃ e, e ∈ Nx.edges g
       ∧ ((Nx.src e = u ∧ Nx.dst e = v) ∨ (Nx.src e = v ∧ Nx.dst e = u)).


(** The entry of the column of an edge in the row [row], for the rows
    [ui] of its source and [vi] of its target. *)
Definition column_entry (ui vi row : nat) : Z :=
  if decide (row = vi) then -1 else if decide (row = ui) then 1 else 0.

(** The rows of the two ends of an edge, as defaults. *)
Definition source_row (g : Nx.MultiDiGraph) (e : Nx.edge) : nat :=
  default 0%nat (Nx.node_index g (Nx.src e)).
Definition target_row (g : Nx.MultiDiGraph) (e : Nx.edge) : nat :=
  default 0%nat (Nx.node_index g (Nx.dst e)).

(** A graph as NetworkX keeps it, without self-loop. *)
Definition loopless (g : Nx.MultiDiGraph) : Prop :=
  well_formed_graph g ∧ Forall (λ e, Nx.src e ≠ Nx.dst e) (Nx.edges g).

(** A line is a hole line when it goes from a row to a later row. *)
Definition hole_line (g : Nx.MultiDiGraph) (e : Nx.edge) : bool :=
  bool_decide (source_row g e < target_row g e)%nat.
Definition line_type (g : Nx.MultiDiGraph) (e : Nx.edge) : string :=
  if hole_line g e then "h"%string else "p"%string.
(** The label of the line [e] in column [col]. *)
Definition label_of (g : Nx.MultiDiGraph) (col : nat) (e : Nx.edge)
    : option string :=
  if hole_line g e then Adg.line_label_h col else Adg.line_label_p col.
(** The columns of the incidence matrix of a graph without self-loop. *)
Definition columns (g : Nx.MultiDiGraph) (es : list Nx.edge)
    : list (list Z) :=
  (λ e, column_entry (source_row g e) (target_row g e)
          <$> seq 0 (Nx.number_of_nodes g)) <$> es.

(** The self-loops of a vertex, in the order of the edges. *)
Definition self_loops (g : Nx.MultiDiGraph) (vert : nat) : list Nx.edge :=
  filter (λ e, Nx.src e = Nx.dst e ∧ Nx.src e = vert) (Nx.edges g).

(** The self-loops of a vertex can be drawn: they all carry the attribute
    ['anomalous'], and at most two of them are anomalous. *)
Definition drawable_self_loops (g : Nx.MultiDiGraph) (vert : nat) : Prop :=
  Forall (λ e, is_Some (Nx.anomalous e)) (self_loops g vert)
  ∧ (length (filter (λ e, Nx.anomalous e = Some true) (self_loops g vert))
     ≤ 2)%nat.

(** The directions written for [n] propagators from a vertex to another
    one, in the order of the lines: [adjacent] tells whether the two
    vertices are consecutive, [back_one] whether exactly one propagator
    comes back. *)
Definition direction_value (adjacent : bool) (k : nat) : string :=
  if bool_decide (5 ≤ k ≤ 6)%nat then "0.9"
  else if bool_decide (3 ≤ k ≤ 4)%nat then "0.75"
  else if bool_decide (1 ≤ k ≤ 2)%nat then (if adjacent then "0.5" else "0.6")
  else "".
Definition direction (adjacent : bool) (k : nat) : string :=
  ("," +:+ (if Nat.odd k then "right=" else "left=")
   +:+ direction_value adjacent k)%string.
Definition pair_directions (adjacent back_one : bool) (n : nat)
    : list string :=
  if Nat.odd n && adjacent
  then (if back_one then ",right=0.5"%string else ""%string)
       :: (direction adjacent <$> reverse (seq 1 (n - 1)))
  else direction adjacent <$> reverse (seq 1 n).

(** The lines of the file for a list of directions. *)
Definition pair_lines (propa : string) (vert_i vert_j : nat)
    (dirs : list string) : string :=
  foldr (λ dir text,
    ("\fmf{" +:+ propa +:+ dir +:+ "}{v" +:+ Np.fmt_d (Z.of_nat vert_i)
     +:+ "," +:+ "v" +:+ Np.fmt_d (Z.of_nat vert_j) +:+ "}" +:+ Np.newline
     +:+ text)%string) ""%string dirs.

(** The permutation [perm] after [mapping]: a node goes where [perm] sends
    its image under [mapping]. *)
Definition permuted (mapping perm : gmap nat nat) : gmap nat nat :=
  map_imap (λ node _, mapping !! node ≫= (perm !!.)) perm.

(** [mapping] sends the nodes of [perm] to nodes of [perm]. *)
Definition maps_nodes (mapping perm : gmap nat nat) : Prop :=
  map_Forall (λ node _,
    is_Some (mapping !! node ≫= (perm !!.))) perm.

(** The matrix of the numbers of edges between the vertices below
    [p_order]. *)
Definition edge_counts (g : Nx.MultiDiGraph) (p_order : nat) : matrix :=
  (λ u, (λ v, Z.of_nat (Nx.number_of_edges_between g u v))
          <$> seq 0 p_order) <$> seq 0 p_order.

(** Both ends of the edge are vertices below [p_order] with a name of one
    digit. *)
Definition one_digit_edge (p_order : nat) (e : Nx.edge) : Prop :=
  (Nx.src e < p_order ∧ Nx.src e < 10 ∧ Nx.dst e < p_order ∧ Nx.dst e < 10)%nat.

(* ================================================================== *)
(** * Theorems *)
(* ================================================================== *)

(** ** Loops *)

Section for_each_facts.
Context {A S : Type}.
Implicit Types (xs : list A) (s : S).

(** A loop whose body never raises and never breaks is a left fold. *)
Lemma for_each_continue xs (body : A → S → option (Py.ctl S)) (f : A → S → S) s :
  (∀ x s, x ∈ xs → body x s = Some (Py.Continue (f x s))) →
  Py.for_each xs body s = Some (foldl (λ s x, f x s) s xs).
Proof.
  revert s. induction xs as [|x xs IH]; intros s Hb; simpl; [done|].
  rewrite Hb by left. apply IH. intros y t Hy. apply Hb. by right.
Qed.

Lemma for_each_ext xs (body1 body2 : A → S → option (Py.ctl S)) s :
  (∀ x s, body1 x s = body2 x s) →
  Py.for_each xs body1 s = Py.for_each xs body2 s.
Proof.
  intros Hb. revert s. induction xs as [|x xs IH]; intros s; simpl; [done|].
  rewrite Hb. destruct (body2 x s) as [[]|]; auto.
Qed.
End for_each_facts.

(** A loop over a flag that is only ever cleared, with [break] on clearing. *)
Lemma for_each_flag_break {A} (xs : list A) (c : A → bool) body (test : bool) :
(∀ x t, x ∈ xs →
   body x t = Some (if c x then Py.Break false else Py.Continue t)) →
Py.for_each xs body test = Some (if existsb c xs then false else test).
Proof.
revert test. induction xs as [|x xs IH]; intros test Hb; simpl; [done|].
rewrite Hb by left. destruct (c x); simpl; [done|].
apply IH. intros y t Hy. apply Hb. by right.
Qed.

Lemma for_each_flag {A} (xs : list A) (c : A → bool) body (test : bool) :
(∀ x t, x ∈ xs →
   body x t = Some (Py.Continue (if c x then false else t))) →
Py.for_each xs body test = Some (if existsb c xs then false else test).
Proof.
revert test. induction xs as [|x xs IH]; intros test Hb; simpl; [done|].
rewrite Hb by left. rewrite IH by (intros y t Hy; apply Hb; by right).
by destruct (c x), (existsb c xs).
Qed.

(** ** Filtering *)

Section filtered_facts.
Context {A : Type} (P : A → Prop).

Lemma filtered_app l1 l1' l2 l2' :
  filtered P l1 l1' → filtered P l2 l2' → filtered P (l1 ++ l2) (l1' ++ l2').
Proof. induction 1; intros; simpl; eauto using @filtered. Qed.

Lemma filtered_sublist l l' : filtered P l l' → sublist l' l.
Proof. induction 1; eauto using sublist. Qed.

Lemma filtered_elem_of l l' x : filtered P l l' → x ∈ l' ↔ x ∈ l ∧ P x.
Proof.
  induction 1 as [|y l l' Hy _ IH|y l l' Hy _ IH];
    rewrite ?elem_of_cons, ?IH.
  - split; [by intros ?%elem_of_nil|by intros [?%elem_of_nil _]].
  - split; [intros [->|[]]; auto|intros [[->|] ?]; auto].
  - split; [intros []; auto|intros [[->|] ?]; [done|auto]].
Qed.

Lemma filtered_fun l l1 l2 : filtered P l l1 → filtered P l l2 → l1 = l2.
Proof.
  intros H1. revert l2.
  induction H1; inversion 1; subst; try done; f_equal; eauto.
Qed.

(** The accumulating loop of the script: [acc.append(x)] when the test
    holds. *)
Lemma for_each_append (test : A → option bool) l acc :
  Forall (λ x, ∃ t, test x = Some t ∧ (t = true ↔ P x)) l →
  ∃ l', Py.for_each l (λ x acc,
          t ← test x;
          Some (Py.Continue (if t : bool then acc ++ [x] else acc))) acc
        = Some (acc ++ l') ∧ filtered P l l'.
Proof.
  intros Hl. revert acc.
  induction Hl as [|x l (t & Ht & HP) _ IH]; intros acc; simpl.
  - exists []. by rewrite app_nil_r; eauto using @filtered.
  - rewrite Ht. simpl. destruct t.
    + destruct (IH (acc ++ [x])) as (l' & -> & Hf).
      exists (x :: l'). rewrite <-app_assoc. split; [done|].
      constructor; [by apply HP|done].
    + destruct (IH acc) as (l' & -> & Hf).
      exists l'. split; [done|]. apply filtered_drop; [|done].
      rewrite <-HP. done.
Qed.

(** The in-place loop of the modules: [del l[i]] from the last index down
    when the test fails. *)
Lemma for_each_delete (test : A → option bool) pre suf :
  Forall (λ x, ∃ t, test x = Some t ∧ (t = true ↔ P x)) pre →
  ∃ pre', Py.for_each (Py.range_down (length pre) 0) (λ i l,
            x ← l !! i;
            t ← test x;
            Some (Py.Continue (if t : bool then l else delete i l)))
            (pre ++ suf)
          = Some (pre' ++ suf) ∧ filtered P pre pre'.
Proof.
  revert suf. induction pre as [|x pre IH] using rev_ind; intros suf Hl.
  - exists []. split; [done|constructor].
  - apply Forall_app in Hl as [Hpre Hx].
    apply Forall_singleton in Hx as (t & Ht & HP).
    unfold Py.range_down in *.
    rewrite length_app, Nat.add_1_r, Nat.sub_0_r. simpl length.
    rewrite seq_S, reverse_snoc. simpl.
    rewrite <-app_assoc. simpl.
    rewrite list_lookup_middle by done. simpl. rewrite Ht. simpl.
    destruct t.
    + destruct (IH (x :: suf) Hpre) as (pre' & Hrun & Hf).
      rewrite Nat.sub_0_r in Hrun. rewrite Hrun.
      exists (pre' ++ [x]). rewrite <-app_assoc. split; [done|].
      apply filtered_app; [done|].
      apply filtered_keep; [by apply HP|constructor].
    + rewrite delete_middle.
      destruct (IH suf Hpre) as (pre' & Hrun & Hf).
      rewrite Nat.sub_0_r in Hrun. rewrite Hrun.
      exists pre'. split; [done|].
      rewrite <-(app_nil_r pre'). apply filtered_app; [done|].
      apply filtered_drop; [|constructor]. rewrite <-HP. done.
Qed.
End filtered_facts.

(** ** Square matrices *)

Lemma square_getitem2 n m i j :
  square n m → (i < n)%nat → (j < n)%nat → getitem2 m i j = Some (entry m i j).
Proof.
  intros [Hlen Hrows] Hi Hj. unfold entry, getitem2.
  destruct (lookup_lt_is_Some_2 m i) as [row Hrow]; [lia|].
  rewrite Hrow. simpl.
  rewrite Forall_forall in Hrows.
  assert (length row = n) as Hr
    by (apply Hrows, list_elem_of_lookup; eauto).
  destruct (lookup_lt_is_Some_2 row j) as [a Ha]; [lia|].
  by rewrite Ha.
Qed.

Lemma getitem2_square_lt n m i j a :
  square n m → getitem2 m i j = Some a → (i < n)%nat ∧ (j < n)%nat.
Proof.
  intros [Hlen Hrows]. unfold getitem2.
  destruct (m !! i) as [row|] eqn:Hrow; simpl; [|done].
  intros Ha. split.
  - apply lookup_lt_Some in Hrow. lia.
  - rewrite Forall_forall in Hrows.
    assert (length row = n) as Hr
      by (apply Hrows, list_elem_of_lookup; eauto).
    apply lookup_lt_Some in Ha. lia.
Qed.

Lemma square_row0 n m :
  (0 < n)%nat → square n m → ∃ row0, m !! 0%nat = Some row0 ∧ length row0 = n.
Proof.
  intros Hn [Hlen Hrows].
  destruct (lookup_lt_is_Some_2 m 0) as [row Hrow]; [lia|].
  exists row. split; [done|].
  rewrite Forall_forall in Hrows.
  apply Hrows, list_elem_of_lookup; eauto.
Qed.

(** ** The loop rule *)

Lemma no_loop_test_square n m :
  (0 < n)%nat → square n m →
  Adg.no_loop_test m =
    Some (negb (existsb (λ i, existsb (pair_loops m i) (seq 0 (i + 1)))
                  (seq 0 n))).
Proof.
  intros Hn Hsq. unfold Adg.no_loop_test.
  destruct (square_row0 n m Hn Hsq) as (row0 & -> & Hrow0). simpl.
  rewrite Hrow0. unfold Py.range.
  rewrite (for_each_flag _
    (λ i, existsb (pair_loops m i) (seq 0 (i + 1)))).
  { by destruct (existsb _ _). }
  intros i t Hi. apply elem_of_seq in Hi.
  rewrite (for_each_flag_break _ (pair_loops m i)); [done|].
  intros j t' Hj. apply elem_of_seq in Hj.
  rewrite !(square_getitem2 n) by (done || lia). simpl.
  unfold pair_loops.
  by destruct (bool_decide (entry m i j ≠ 0)),
    (bool_decide (entry m j i ≠ 0)).
Qed.

Lemma nonzero_at_entry n m i j :
  square n m →
  nonzero_at m i j ↔ (i < n)%nat ∧ (j < n)%nat ∧ entry m i j ≠ 0.
Proof.
  intros Hsq. split.
  - intros (a & Ha & Hnz).
    destruct (getitem2_square_lt _ _ _ _ _ Hsq Ha) as [Hi Hj].
    rewrite (square_getitem2 n) in Ha by done.
    injection Ha as ->. done.
  - intros (Hi & Hj & Hnz). exists (entry m i j).
    by rewrite (square_getitem2 n).
Qed.

Lemma pair_loops_loop_free n m :
  square n m →
  existsb (λ i, existsb (pair_loops m i) (seq 0 (i + 1))) (seq 0 n) = false
  ↔ loop_free m.
Proof.
  intros Hsq. rewrite <-not_true_iff_false, existsb_exists.
  unfold loop_free, has_two_cycle, has_self_loop.
  setoid_rewrite existsb_exists. setoid_rewrite in_seq.
  setoid_rewrite (nonzero_at_entry n m _ _ Hsq).
  unfold pair_loops. setoid_rewrite andb_true_iff.
  setoid_rewrite bool_decide_eq_true.
  split.
  - intros Hno. split.
    + intros (i & j & Hij & (Hi & Hj & Ha) & (_ & _ & Hb)).
      destruct (decide (j < i)%nat).
      * apply Hno. exists i. split; [lia|]. exists j. split; [lia|done].
      * apply Hno. exists j. split; [lia|]. exists i. split; [lia|done].
    + intros (i & Hi & _ & Ha).
      apply Hno. exists i. split; [lia|]. exists i. split; [lia|done].
  - intros [Hcyc Hself] (i & Hi & j & Hj & Ha & Hb).
    destruct (decide (i = j)) as [->|Hij].
    + apply Hself. exists j. split; [lia|]. split; [lia|done].
    + apply Hcyc. exists i, j. split; [done|].
      split; (split; [lia|]; split; [lia|done]).
Qed.

Lemma no_loop_test_spec m :
  (∃ n, (0 < n)%nat ∧ square n m) →
  ∃ t, Adg.no_loop_test m = Some t ∧ (t = true ↔ loop_free m).
Proof.
  intros (n & Hn & Hsq). eexists. split; [by apply (no_loop_test_square n)|].
  rewrite negb_true_iff. by apply (pair_loops_loop_free n).
Qed.

(** C8. The loop rule removes exactly the adjacency matrices that contain a
    directed 2-cycle (both [m[i][j]] and [m[j][i]] non-zero for some
    [i ≠ j]) or a non-zero diagonal entry; every other matrix is retained,
    in order and unmodified. This holds for the function of the script and
    for the in-place one of [methods.py], on every list of non-empty square
    matrices, and neither raises. *)
Theorem no_loop_removes_exactly_loops (matrices : list matrix) :
  Forall (λ m, ∃ n, (0 < n)%nat ∧ square n m) matrices →
  ∃ kept,
    Adg.no_loop matrices = Some kept ∧
    Methods.no_loop matrices = Some kept ∧
    filtered loop_free matrices kept.
Proof.
  intros Hsq.
  assert (Forall (λ m, ∃ t, Adg.no_loop_test m = Some t
                            ∧ (t = true ↔ loop_free m)) matrices) as Htest.
  { eapply Forall_impl; [exact Hsq|]. intros m. apply no_loop_test_spec. }
  destruct (for_each_append loop_free Adg.no_loop_test matrices [] Htest)
    as (kept & Hrun & Hf).
  destruct (for_each_delete loop_free Adg.no_loop_test matrices [] Htest)
    as (kept' & Hrun' & Hf').
  rewrite (filtered_fun _ _ _ _ Hf' Hf), !app_nil_r in Hrun'.
  exists kept. split; [exact Hrun|]. split; [exact Hrun'|exact Hf].
Qed.

Lemma no_loop_removes_exactly_loops_witness :
  ∃ kept,
    Adg.no_loop [[[0; 2]; [0; 0]]; [[0; 1]; [3; 0]]; [[1; 0]; [0; 0]]]
      = Some kept ∧
    Methods.no_loop [[[0; 2]; [0; 0]]; [[0; 1]; [3; 0]]; [[1; 0]; [0; 0]]]
      = Some kept ∧
    filtered loop_free
      [[[0; 2]; [0; 0]]; [[0; 1]; [3; 0]]; [[1; 0]; [0; 0]]] kept.
Proof.
  apply (no_loop_removes_exactly_loops
           [[[0; 2]; [0; 0]]; [[0; 1]; [3; 0]]; [[1; 0]; [0; 0]]]).
  repeat constructor; exists 2%nat; (split; [lia|]);
    (split; [reflexivity|repeat constructor]).
Defined.

(** ** The degree rule *)

Example diag_check_vertex_degree_doctest :
  Diag.check_vertex_degree
    [[[0; 1; 2]; [1; 0; 1]; [0; 2; 0]];
     [[2; 0; 2]; [1; 2; 3]; [1; 0; 0]];
     [[0; 1; 3]; [2; 0; 8]; [2; 1; 0]]] true 3 false 0
  = Some [[[0; 1; 2]; [1; 0; 1]; [0; 2; 0]];
          [[2; 0; 2]; [1; 2; 3]; [1; 0; 0]]]
  ∧ Diag.check_vertex_degree
    [[[0; 1; 2]; [1; 0; 1]; [0; 2; 0]];
     [[2; 0; 2]; [1; 2; 3]; [1; 0; 0]]] false 2 false 0
  = Some [[[0; 1; 2]; [1; 0; 1]; [0; 2; 0]]].
Proof. split; reflexivity. Qed.

Lemma Zsum_fmap_add {A} (f g : A → Z) l :
  Zsum ((λ x, f x + g x) <$> l) = Zsum (f <$> l) + Zsum (g <$> l).
Proof. induction l as [|x l IH]; csimpl; lia. Qed.

Lemma Zsum_fmap_ext {A} (f g : A → Z) l :
  (∀ x, x ∈ l → f x = g x) → Zsum (f <$> l) = Zsum (g <$> l).
Proof.
  induction l as [|x l IH]; intros Hfg; csimpl; [done|].
  rewrite Hfg by left. rewrite IH; [done|]. intros y Hy. apply Hfg. by right.
Qed.

Lemma for_each_sum {A} (xs : list A) (f : A → Z) body acc :
  (∀ x a, x ∈ xs → body x a = Some (Py.Continue (a + f x))) →
  Py.for_each xs body acc = Some (acc + Zsum (f <$> xs)).
Proof.
  revert acc. induction xs as [|x xs IH]; intros acc Hb; csimpl.
  - f_equal. lia.
  - rewrite Hb by left. rewrite IH by (intros y a Hy; apply Hb; by right).
    f_equal. lia.
Qed.

Lemma wrap_small z : - 2 ^ 63 ≤ z < 2 ^ 63 → Np.wrap z = z.
Proof. intros Hz. unfold Np.wrap. rewrite Z.mod_small; lia. Qed.

Lemma for_each_sum_wrap {A} (xs : list A) (f : A → Z) body acc :
  (∀ x, x ∈ xs → - 2 ^ 32 ≤ f x ≤ 2 ^ 32) →
  (∀ x a, x ∈ xs →
     body x a = Some (Py.Continue (Np.add a (Np.wrap (f x))))) →
  - 2 ^ 63 ≤ acc - 2 ^ 32 * Z.of_nat (length xs) →
  acc + 2 ^ 32 * Z.of_nat (length xs) < 2 ^ 63 →
  Py.for_each xs body acc = Some (acc + Zsum (f <$> xs))
  ∧ Z.abs (Zsum (f <$> xs)) ≤ 2 ^ 32 * Z.of_nat (length xs).
Proof.
  revert acc. induction xs as [|x xs IH]; intros acc Hf Hb Hlo Hhi;
    csimpl in *.
  - split; [f_equal|]; lia.
  - rewrite Hb by left.
    assert (- 2 ^ 32 ≤ f x ≤ 2 ^ 32) as Hx by (apply Hf; by left).
    unfold Np.add. rewrite (wrap_small (f x)) by lia.
    rewrite (wrap_small (acc + f x)) by lia.
    destruct (IH (acc + f x)) as [-> Hsum].
    + intros y Hy. apply Hf. by right.
    + intros y a Hy. apply Hb. by right.
    + lia.
    + lia.
    + split; [f_equal|]; lia.
Qed.

Lemma entry_small m i j :
  small_entries m → - 2 ^ 31 ≤ entry m i j < 2 ^ 31.
Proof.
  intros [_ Hm]. unfold entry, getitem2.
  destruct (m !! i) as [row|] eqn:Hrow; simpl; [|lia].
  destruct (row !! j) as [a|] eqn:Ha; simpl; [|lia].
  rewrite Forall_forall in Hm.
  specialize (Hm row (list_elem_of_lookup_2 _ _ _ Hrow)).
  rewrite Forall_forall in Hm.
  exact (Hm a (list_elem_of_lookup_2 _ _ _ Ha)).
Qed.

Lemma total_degree_sum m v :
  Zsum ((λ i, entry m i v + entry m v i) <$> seq 0 (length m))
  = total_degree m v.
Proof. by rewrite Zsum_fmap_add. Qed.

Lemma total_degree_sum_out_in m v :
  Zsum ((λ j, entry m v j + entry m j v) <$> seq 0 (length m))
  = total_degree m v.
Proof. rewrite Zsum_fmap_add. apply Z.add_comm. Qed.

Lemma diag_vertex_degree_square n m v :
  square n m → small_entries m → (v < n)%nat →
  Diag.vertex_degree m v = Some (total_degree m v - entry m v v).
Proof.
  intros Hsq Hsmall Hv. unfold Diag.vertex_degree.
  pose proof Hsq as [Hlen _]. pose proof Hsmall as [Hn _].
  destruct (for_each_sum_wrap (seq 0 (length m))
    (λ i, entry m i v + entry m v i)
    (λ index acc,
       a ← getitem2 m index v; b ← getitem2 m v index;
       Some (Py.Continue (Np.add acc (Np.add a b)))) 0) as [Hrun Hbound].
  - intros i _. pose proof (entry_small m i v Hsmall).
    pose proof (entry_small m v i Hsmall). lia.
  - intros i a Hi. apply elem_of_seq in Hi.
    rewrite !(square_getitem2 n) by (done || lia). done.
  - rewrite length_seq. lia.
  - rewrite length_seq. lia.
  - unfold Py.range. rewrite Hrun. simpl.
    rewrite (square_getitem2 n) by done. simpl.
    rewrite total_degree_sum in *. rewrite length_seq in Hbound.
    pose proof (entry_small m v v Hsmall).
    unfold Np.sub. rewrite wrap_small by lia. done.
Qed.

Lemma diag_vertex_rule_test tb rank canon v d :
  (bool_decide (v ≠ 0%nat)
     && negb (bool_decide (d ∈ Diag.authorized_deg tb canon v))
   || bool_decide (v = 0%nat) && bool_decide (d > 2 * rank)) = false
  ↔ if decide (v = 0%nat) then d ≤ 2 * rank
     else d = 4 ∨ (tb = true ∧ d = 6) ∨ (canon = false ∧ d = 2).
Proof.
  unfold Diag.authorized_deg.
  destruct (decide (v = 0%nat)) as [->|Hv].
  - rewrite (bool_decide_eq_false_2 (0%nat ≠ 0%nat)) by auto.
    rewrite (bool_decide_eq_true_2 (0%nat = 0%nat)) by done. simpl.
    rewrite bool_decide_eq_false. lia.
  - rewrite (bool_decide_eq_true_2 (v ≠ 0%nat)) by done.
    rewrite (bool_decide_eq_false_2 (v = 0%nat)) by done. simpl.
    rewrite orb_false_r, negb_false_iff, bool_decide_eq_true.
    destruct tb, canon; simpl;
      rewrite ?elem_of_cons, ?elem_of_nil; intuition congruence.
Qed.

Lemma diag_check_vertex_degree_filtered matrices tb rank canon v :
  Forall (λ m, ∃ n, square n m ∧ small_entries m ∧ (v < n)%nat) matrices →
  ∃ kept,
    Diag.check_vertex_degree matrices tb rank canon v = Some kept
    ∧ filtered (diag_vertex_rule tb rank canon v) matrices kept.
Proof.
  intros Hms.
  destruct (for_each_delete (diag_vertex_rule tb rank canon v)
    (λ m, d ← Diag.vertex_degree m v;
          Some (negb (bool_decide (v ≠ 0%nat)
             && negb (bool_decide (d ∈ Diag.authorized_deg tb canon v))
           || bool_decide (v = 0%nat) && bool_decide (d > 2 * rank))))
    matrices []) as (kept & Hrun & Hf).
  { eapply Forall_impl; [exact Hms|]. intros m (n & Hsq & Hsmall & Hv).
    rewrite (diag_vertex_degree_square n) by done. simpl.
    eexists. split; [done|].
    rewrite negb_true_iff. apply diag_vertex_rule_test. }
  exists kept. split; [|done].
  rewrite !app_nil_r in Hrun. rewrite <-Hrun.
  unfold Diag.check_vertex_degree. apply for_each_ext. intros i l.
  destruct (l !! i) as [m|]; simpl; [|done].
  destruct (Diag.vertex_degree m v) as [d|]; simpl; [|done].
  by destruct (_ || _).
Qed.

Lemma degree_ok_allowed tb d : Adg.degree_ok tb d = true ↔ allowed_degree tb d.
Proof.
  unfold Adg.degree_ok, allowed_degree.
  destruct tb; repeat case_bool_decide; simpl; split; intros H';
    try done; try discriminate.
  all: try (destruct H' as [?|[?|[? ?]]]; done || lia).
  all: destruct (decide (d = 2)); [by left|right];
    (destruct (decide (d = 4)); [by left|right]); split; [done|lia].
Qed.

Lemma adg_check_degree_test_square n m three_N :
  (0 < n)%nat → square n m →
  Adg.check_degree_test m three_N =
    Some (negb (existsb (λ i, negb (Adg.degree_ok three_N (total_degree m i)))
                  (seq 0 n))).
Proof.
  intros Hn Hsq. unfold Adg.check_degree_test.
  pose proof Hsq as [Hlen _]. subst n.
  destruct (square_row0 _ m Hn Hsq) as (row0 & -> & Hrow0). simpl.
  rewrite Hrow0. unfold Py.range.
  rewrite (for_each_flag_break _
    (λ i, negb (Adg.degree_ok three_N (total_degree m i)))).
  { by destruct (existsb _ _). }
  intros i t Hi. apply elem_of_seq in Hi.
  rewrite (for_each_sum _ (λ j, entry m i j + entry m j i)).
  - rewrite total_degree_sum_out_in, Z.add_0_l. simpl.
    unfold Adg.degree_ok.
    by destruct (bool_decide (total_degree m i ≠ 2)),
      (bool_decide (total_degree m i ≠ 4)), (bool_decide (three_N = false)),
      (bool_decide (total_degree m i ≠ 6)).
  - intros j a Hj. apply elem_of_seq in Hj.
    by rewrite !(square_getitem2 (length m)) by (done || lia).
Qed.

Lemma adg_check_degree_test_spec m three_N :
  (∃ n, (0 < n)%nat ∧ square n m) →
  ∃ t, Adg.check_degree_test m three_N = Some t
       ∧ (t = true ↔ script_degree_rule three_N m).
Proof.
  intros (n & Hn & Hsq). eexists.
  split; [by apply (adg_check_degree_test_square n)|].
  rewrite negb_true_iff, <-not_true_iff_false, existsb_exists.
  pose proof Hsq as [Hlen _]. unfold script_degree_rule. rewrite Hlen.
  split.
  - intros Hno v Hv. apply degree_ok_allowed.
    destruct (Adg.degree_ok three_N (total_degree m v)) eqn:Hok; [done|].
    destruct Hno. exists v. rewrite in_seq, Hok. split; [lia|done].
  - intros Hall (v & Hv%in_seq & Hbad). apply negb_true_iff in Hbad.
    assert (Adg.degree_ok three_N (total_degree m v) = true) as Hok
      by (apply degree_ok_allowed, Hall; lia).
    congruence.
Qed.

Lemma methods_vertex_degree_square n m v :
  (v < n)%nat → square n m →
  Methods.vertex_degree m v = Some (total_degree m v).
Proof.
  intros Hv Hsq. unfold Methods.vertex_degree.
  pose proof Hsq as [Hlen _]. subst n.
  assert (0 < length m)%nat as Hn by lia.
  destruct (square_row0 _ m Hn Hsq) as (row0 & -> & Hrow0). simpl.
  rewrite Hrow0. unfold Py.range.
  rewrite (for_each_sum _ (λ i, entry m i v + entry m v i)).
  - by rewrite total_degree_sum, Z.add_0_l.
  - intros i a Hi. apply elem_of_seq in Hi.
    by rewrite !(square_getitem2 (length m)) by (done || lia).
Qed.

Lemma methods_check_vertex_degree_filtered matrices tb v :
  Forall (λ m, ∃ n, square n m ∧ (v < n)%nat) matrices →
  ∃ kept,
    Methods.check_vertex_degree matrices tb v = Some kept
    ∧ filtered (λ m, allowed_degree tb (total_degree m v)) matrices kept.
Proof.
  intros Hms.
  destruct (for_each_delete (λ m, allowed_degree tb (total_degree m v))
    (λ m, d ← Methods.vertex_degree m v; Some (Adg.degree_ok tb d))
    matrices []) as (kept & Hrun & Hf).
  { eapply Forall_impl; [exact Hms|]. intros m (n & Hsq & Hv).
    rewrite (methods_vertex_degree_square n) by done. simpl.
    eexists. split; [done|]. apply degree_ok_allowed. }
  exists kept. split; [|done].
  rewrite !app_nil_r in Hrun. rewrite <-Hrun.
  unfold Methods.check_vertex_degree. apply for_each_ext. intros i l.
  destruct (l !! i) as [m|]; simpl; [|done].
  destruct (Methods.vertex_degree m v) as [d|]; simpl; [|done].
  unfold Adg.degree_ok.
  by destruct (bool_decide (d ≠ 2)), (bool_decide (d ≠ 4)), tb,
    (bool_decide (d ≠ 6)).
Qed.

(** C3, as stated, fails on [adg/diag.py]: with [canonical_only] on, a
    matrix whose vertex 1 has total degree 2 satisfies the stated rule for
    that vertex and is removed all the same. *)
Lemma degree_rule_canonical_only_counterexample :
  spec_vertex_rule false 2 1 [[0; 2]; [0; 0]]
  ∧ Diag.check_vertex_degree [[[0; 2]; [0; 0]]] false 2 true 1 = Some []
  ∧ ¬ filtered (spec_vertex_rule false 2 1) [[[0; 2]; [0; 0]]] [].
Proof.
  assert (spec_vertex_rule false 2 1 [[0; 2]; [0; 0]]) as Hrule
    by (left; reflexivity).
  split; [exact Hrule|]. split; [reflexivity|].
  inversion 1; subst. contradiction.
Qed.

(** C3, amended. [check_vertex_degree] of [adg/diag.py], called for one
    vertex [v], keeps exactly the matrices in which, for [v ≠ 0], the degree
    of [v] (in-degree plus out-degree, a diagonal entry counted once) is 4,
    or 6 when three-body vertices are enabled, or 2 when [canonical_only] is
    off, and in which, for [v = 0], that degree is at most twice the maximum
    observable body rank. [check_vertex_degree] of [methods.py] keeps exactly
    the matrices whose vertex [v], vertex 0 included, has total degree 2 or
    4, or 6 with three-body vertices; [check_degree] of the script keeps
    exactly those in which every vertex has such a degree. *)
Theorem degree_rule_as_coded (matrices : list matrix)
    (three_body canonical_only : bool) (rank : Z) (v : nat) :
  Forall (λ m, ∃ n, square n m ∧ small_entries m ∧ (v < n)%nat) matrices →
  (∃ kept,
     Diag.check_vertex_degree matrices three_body rank canonical_only v
       = Some kept
     ∧ filtered (diag_vertex_rule three_body rank canonical_only v)
         matrices kept)
  ∧ (∃ kept,
       Methods.check_vertex_degree matrices three_body v = Some kept
       ∧ filtered (λ m, allowed_degree three_body (total_degree m v))
           matrices kept)
  ∧ (∃ kept,
       Adg.check_degree matrices three_body = Some kept
       ∧ filtered (script_degree_rule three_body) matrices kept).
Proof.
  intros Hms. split; [|split].
  - by apply diag_check_vertex_degree_filtered.
  - apply methods_check_vertex_degree_filtered.
    eapply Forall_impl; [exact Hms|]. intros m (n & ? & _ & ?). eauto.
  - destruct (for_each_append (script_degree_rule three_body)
      (λ m, Adg.check_degree_test m three_body) matrices []) as (kept & ? & ?).
    + eapply Forall_impl; [exact Hms|]. intros m (n & ? & _ & ?).
      apply adg_check_degree_test_spec. exists n. split; [lia|done].
    + exists kept. done.
Qed.

Lemma degree_rule_as_coded_witness :
  (∃ kept,
     Diag.check_vertex_degree
       [[[0; 2]; [0; 0]]; [[0; 4]; [0; 0]]; [[0; 3]; [0; 0]]] false 2 true 1
       = Some kept
     ∧ filtered (diag_vertex_rule false 2 true 1)
         [[[0; 2]; [0; 0]]; [[0; 4]; [0; 0]]; [[0; 3]; [0; 0]]] kept)
  ∧ (∃ kept,
       Methods.check_vertex_degree
         [[[0; 2]; [0; 0]]; [[0; 4]; [0; 0]]; [[0; 3]; [0; 0]]] false 1
         = Some kept
       ∧ filtered (λ m, allowed_degree false (total_degree m 1))
           [[[0; 2]; [0; 0]]; [[0; 4]; [0; 0]]; [[0; 3]; [0; 0]]] kept)
  ∧ (∃ kept,
       Adg.check_degree
         [[[0; 2]; [0; 0]]; [[0; 4]; [0; 0]]; [[0; 3]; [0; 0]]] false
         = Some kept
       ∧ filtered (script_degree_rule false)
           [[[0; 2]; [0; 0]]; [[0; 4]; [0; 0]]; [[0; 3]; [0; 0]]] kept).
Proof.
  apply (degree_rule_as_coded
           [[[0; 2]; [0; 0]]; [[0; 4]; [0; 0]]; [[0; 3]; [0; 0]]]
           false true 2 1).
  repeat constructor; exists 2%nat;
    (split; [split; [reflexivity|repeat constructor]|]);
    (split; [split; [reflexivity|repeat constructor; lia]|lia]).
Defined.

(** ** Vertex labelling *)

(** The loop [for node in graph: graph.node[node]['operator'] = False]. *)
Lemma label_false_loop (l : list nat) (g : Nx.MultiDiGraph) :
  (∀ u, u ∈ l → u ∈ Nx.nodes g) →
  ∃ g',
    Py.for_each l (λ node g,
      g' ← Nx.set_operator g node false; Some (Py.Continue g')) g = Some g'
    ∧ Nx.nodes g' = Nx.nodes g
    ∧ Nx.edges g' = Nx.edges g
    ∧ ∀ u, Nx.operator g' !! u
           = if decide (u ∈ l) then Some false else Nx.operator g !! u.
Proof.
  revert g. induction l as [|x l IH]; intros g Hl; simpl.
  - exists g. by split_and!.
  - unfold Nx.set_operator at 1.
    rewrite bool_decide_eq_true_2 by (apply Hl; left). simpl.
    destruct (IH (Nx.Graph (Nx.nodes g) (<[x:=false]> (Nx.operator g))
                    (Nx.edges g))) as (g' & Hrun & Hn & He & Hop).
    { intros u Hu. simpl. apply Hl. by right. }
    exists g'. split; [exact Hrun|]. split; [exact Hn|]. split; [exact He|].
    intros u. rewrite Hop. simpl.
    destruct (decide (u ∈ l)) as [Hu|Hu].
    + rewrite decide_True by (by right). done.
    + destruct (decide (u = x)) as [->|Hux].
      * rewrite decide_True by left. by rewrite lookup_insert_eq.
      * rewrite decide_False by (rewrite elem_of_cons; tauto).
        by rewrite lookup_insert_ne.
Qed.

Lemma label_one (mark : bool) (g : Nx.MultiDiGraph) :
  (mark = true → 0%nat ∈ Nx.nodes g) →
  ∃ g',
    (Py.for_each (Nx.nodes g) (λ node g,
       g' ← Nx.set_operator g node false; Some (Py.Continue g')) g
     ≫= λ g, if mark then Nx.set_operator g 0 true else Some g) = Some g'
    ∧ labelled mark g g'.
Proof.
  intros H0.
  destruct (label_false_loop (Nx.nodes g) g) as (g1 & -> & Hn & He & Hop);
    [done|]. simpl.
  destruct mark.
  - unfold Nx.set_operator. rewrite Hn.
    rewrite bool_decide_eq_true_2 by auto.
    eexists. split; [done|]. split_and!; simpl; try done.
    intros u. destruct (decide (u = 0%nat)) as [->|Hu0].
    + rewrite lookup_insert_eq. by rewrite decide_True by auto.
    + rewrite lookup_insert_ne by done. rewrite Hop.
      by rewrite bool_decide_eq_false_2.
  - exists g1. split; [done|]. split_and!; try done.
Qed.

Lemma label_list (mark : bool) (gs acc : list Nx.MultiDiGraph) :
  Forall (λ g, mark = true → 0%nat ∈ Nx.nodes g) gs →
  ∃ out,
    Py.for_each gs (λ g out,
      g ← Py.for_each (Nx.nodes g) (λ node g,
        g' ← Nx.set_operator g node false; Some (Py.Continue g')) g;
      g ← (if mark then Nx.set_operator g 0 true else Some g);
      Some (Py.Continue (out ++ [g]))) acc = Some (acc ++ out)
    ∧ Forall2 (labelled mark) gs out.
Proof.
  intros Hgs. revert acc.
  induction Hgs as [|g gs Hg _ IH]; intros acc; simpl.
  - exists []. by rewrite app_nil_r.
  - destruct (label_one mark g Hg) as (g' & Hrun & Hlab).
    destruct (Py.for_each (Nx.nodes g) _ g) as [g1|]; simpl in *; [|done].
    rewrite Hrun. simpl.
    destruct (IH (acc ++ [g'])) as (out & -> & Hall).
    exists (g' :: out). rewrite <-app_assoc. split; [done|].
    by constructor.
Qed.

(** The labelling of [methods.py] marks vertex 0 exactly for BMBPT outside
    norm-kernel mode, and leaves every other vertex unmarked. *)
Lemma methods_label_vertices_spec gs theory_type study_norm :
  Forall (λ g, 0%nat ∈ Nx.nodes g) gs →
  ∃ out,
    Methods.label_vertices gs theory_type study_norm = Some out
    ∧ Forall2 (labelled (bool_decide (theory_type = "BMBPT"%string)
                         && negb study_norm)) gs out.
Proof.
  intros Hgs.
  destruct (label_list (bool_decide (theory_type = "BMBPT"%string)
                        && negb study_norm) gs []) as (out & Hrun & Hall).
  { eapply Forall_impl; [exact Hgs|]. auto. }
  exists out. split; [|done]. exact Hrun.
Qed.

(** The labelling of the script, done for BMBPT outside norm-kernel mode. *)
Lemma adg_label_operator_spec g :
  0%nat ∈ Nx.nodes g →
  ∃ g', Adg.label_operator g = Some g' ∧ labelled true g g'.
Proof. intros H0. apply (label_one true g). auto. Qed.

(** The labelling of [adg/diag.py] marks vertex 0 whatever the theory. *)
Lemma diag_label_vertices_spec gs theory_type :
  Forall (λ g, 0%nat ∈ Nx.nodes g) gs →
  ∃ out,
    Diag.label_vertices gs theory_type = Some out
    ∧ Forall2 (labelled true) gs out.
Proof.
  intros Hgs.
  destruct (label_list true gs []) as (out & Hrun & Hall).
  { eapply Forall_impl; [exact Hgs|]. auto. }
  exists out. split; [|done]. etrans; [|exact Hrun].
  unfold Diag.label_vertices. apply for_each_ext. intros g acc.
  by rewrite orb_true_r.
Qed.

(** C7 fails on [adg/diag.py]: [label_vertices] called with the theory MBPT
    on the second-order MBPT graph sets the operator flag of vertex 0,
    where the labelling of [methods.py] on the same input leaves both
    vertices unmarked. *)
Theorem diag_label_vertices_marks_mbpt :
  ∃ g' g'',
    Diag.label_vertices [Nx.from_numpy_matrix [[0; 2]; [2; 0]]] "MBPT"
      = Some [g']
    ∧ Nx.operator g' !! 0%nat = Some true
    ∧ Nx.operator g' !! 1%nat = Some false
    ∧ Methods.label_vertices [Nx.from_numpy_matrix [[0; 2]; [2; 0]]] "MBPT"
        false = Some [g'']
    ∧ Nx.operator g'' !! 0%nat = Some false
    ∧ Nx.operator g'' !! 1%nat = Some false.
Proof. eexists _, _. repeat split; vm_compute; reflexivity. Qed.

(** ** The scenarios *)

(** C4, as stated, fails: the one diagram of order 2 has four edges and
    both vertices have total degree 4. *)
Lemma mbpt2_two_edges_counterexample : ¬ mbpt2_as_stated.
Proof.
  intros (r & g & Hrun & HG & Hedges & _).
  vm_compute in Hrun. injection Hrun as <-. simpl in HG.
  injection HG as <-. vm_compute in Hedges. discriminate.
Qed.

(** C4, amended. For order 2 and the theory MBPT the script outputs exactly
    one diagram; its adjacency matrix is [[0, 2], [2, 0]], so it has four
    edges (two parallel lines in each direction) and both vertices have
    in-degree 2, out-degree 2 and total degree 4. *)
Theorem mbpt2_one_diagram (three_N norm : bool) :
  ∃ r g,
    Adg.run "MBPT" 2 three_N norm = Some r ∧ Adg.G r = [g]
    ∧ Nx.nodes g = [0; 1]%nat
    ∧ Nx.to_numpy_matrix g = [[0; 2]; [2; 0]]
    ∧ Nx.number_of_edges g = 4%nat
    ∧ Nx.number_weakly_connected_components g = 1%nat
    ∧ ∀ v, v ∈ Nx.nodes g →
        Nx.in_degree g v = 2%nat ∧ Nx.out_degree g v = 2%nat
        ∧ Nx.degree g v = 4%nat.
Proof.
  eexists _, _. split; [by destruct three_N, norm; vm_compute|].
  split; [reflexivity|]. split_and!; try by vm_compute.
  intros v Hv. simpl in Hv.
  apply elem_of_cons in Hv as [->|Hv]; [by vm_compute|].
  apply elem_of_cons in Hv as [->|Hv]; [by vm_compute|].
  by apply elem_of_nil in Hv.
Qed.

(** C5, as stated, fails: the first and the third diagram of order 3 are
    isomorphic as directed multigraphs, by the bijection that exchanges the
    vertices 1 and 2. *)
Lemma mbpt3_isomorphic_pair_counterexample : ¬ mbpt3_as_stated.
Proof.
  intros (r & g1 & g2 & g3 & Hrun & HG & _ & _ & H13 & _).
  vm_compute in Hrun. injection Hrun as <-. simpl in HG.
  injection HG as <- <- <-. vm_compute in H13. discriminate.
Qed.

(** C5, amended. For order 3 and the theory MBPT the script outputs exactly
    three connected diagrams with pairwise different adjacency matrices. The
    script runs no isomorphism reduction for MBPT: the first and the third
    diagram are isomorphic as directed multigraphs (exchange the vertices 1
    and 2), the second one is isomorphic to neither. *)
Theorem mbpt3_three_diagrams (three_N norm : bool) :
  ∃ r g1 g2 g3,
    Adg.run "MBPT" 3 three_N norm = Some r ∧ Adg.G r = [g1; g2; g3]
    ∧ Forall (λ g, Nx.number_weakly_connected_components g = 1%nat)
        [g1; g2; g3]
    ∧ Nx.to_numpy_matrix g1 = [[0; 2; 0]; [0; 0; 2]; [2; 0; 0]]
    ∧ Nx.to_numpy_matrix g2 = [[0; 1; 1]; [1; 0; 1]; [1; 1; 0]]
    ∧ Nx.to_numpy_matrix g3 = [[0; 0; 2]; [2; 0; 0]; [0; 2; 0]]
    ∧ Nx.is_isomorphic g1 g2 = false
    ∧ Nx.is_isomorphic g2 g3 = false
    ∧ Nx.is_isomorphic g1 g3 = true
    ∧ Nx.mapping_ok Nx.no_node_data Nx.number_of_edges_between g1 g3
        [(0, 0); (1, 2); (2, 1)]%nat = true.
Proof.
  eexists _, _, _, _. split; [by destruct three_N, norm; vm_compute|].
  split; [reflexivity|]. split_and!; try by vm_compute.
  repeat constructor.
Qed.

(** C6. For order 2, the theory BMBPT, without three-body forces and
    outside norm-kernel mode, the script outputs exactly two diagrams, with
    different adjacency matrices and not isomorphic; one is canonical for
    the energy, one is non-canonical, none is canonical for a generic
    operator only, and there is no three-body diagram. *)
Theorem bmbpt2_two_diagrams :
  ∃ r g1 g2,
    Adg.run "BMBPT" 2 false false = Some r ∧ Adg.G r = [g1; g2]
    ∧ Nx.to_numpy_matrix g1 = [[0; 0]; [4; 0]]
    ∧ Nx.to_numpy_matrix g2 = [[0; 0]; [2; 0]]
    ∧ Nx.is_isomorphic_operator g1 g2 = false
    ∧ Nx.is_isomorphic_operator g2 g1 = false
    ∧ Adg.HF (Adg.two_body r) = [g1]
    ∧ Adg.EHF (Adg.two_body r) = []
    ∧ Adg.noHF (Adg.two_body r) = [g2]
    ∧ Adg.three_body r = Adg.Classes [] [] [].
Proof.
  eexists _, _, _. split; [by vm_compute|].
  split; [reflexivity|]. split_and!; by vm_compute.
Qed.

(** ** The MBPT enumerator *)

Lemma permutations_from_Permutation fuel pool k :
  length pool = fuel → k ∈ Py.permutations_from fuel pool → k ≡ₚ pool.
Proof.
  revert pool k. induction fuel as [|fuel IH]; intros pool k Hlen; simpl.
  - destruct pool; [|done]. by intros ->%list_elem_of_singleton.
  - intros (i & Hk & Hi)%list_elem_of_bind.
    destruct (pool !! i) as [x|] eqn:Hx; [|by apply elem_of_nil in Hk].
    apply list_elem_of_fmap in Hk as (k' & -> & Hk').
    apply IH in Hk'.
    + rewrite Hk'. symmetry. by apply delete_Permutation.
    + rewrite length_delete by eauto. lia.
Qed.

Lemma seed_Permutation n k : k ∈ Adg.seed n → k ≡ₚ seq 0 n.
Proof. apply permutations_from_Permutation. done. Qed.

(** A loop that appends one computed value per element. *)
Lemma for_each_collect {A B} (f : A → option B) xs acc out :
  Py.for_each xs (λ x acc, y ← f x; Some (Py.Continue (acc ++ [y]))) acc
    = Some out →
  ∃ ys, out = acc ++ ys ∧ Forall2 (λ x y, f x = Some y) xs ys.
Proof.
  revert acc. induction xs as [|x xs IH]; intros acc; simpl.
  - intros [= <-]. exists []. by rewrite app_nil_r.
  - destruct (f x) as [y|] eqn:Hy; simpl; [|done].
    intros (ys & -> & Hall)%IH. exists (y :: ys).
    rewrite <-app_assoc. split; [done|]. by constructor.
Qed.

Lemma for_each_collect_total {A B} (f : A → option B) xs acc :
  Forall (λ x, is_Some (f x)) xs →
  is_Some (Py.for_each xs
             (λ x acc, y ← f x; Some (Py.Continue (acc ++ [y]))) acc).
Proof.
  intros Hxs. revert acc.
  induction Hxs as [|x xs [y Hy] _ IH]; intros acc; simpl; [by eexists|].
  rewrite Hy. simpl. apply IH.
Qed.

(** The inner loop of [add_into] adds [line] to the row [i], from the
    column [off] on. *)
Lemma add_into_row i (line : list Z) (off : nat) (m : matrix) row :
  m !! i = Some row → length row = (off + length line)%nat →
  Py.for_each (imap (λ j elem, ((off + j)%nat, elem)) line)
    (λ '(j, elem) m,
       x ← getitem2 m i j;
       m' ← setitem2 m i j (x + elem);
       Some (Py.Continue m')) m
  = Some (<[i := take off row ++ zip_with Z.add (drop off row) line]> m).
Proof.
  revert off m row. induction line as [|e line IH]; intros off m row Hrow Hlen.
  - simpl in *. rewrite Nat.add_0_r in Hlen.
    rewrite drop_ge, take_ge, app_nil_r by lia.
    by rewrite list_insert_id.
  - rewrite imap_cons. cbn [Py.for_each]. rewrite Nat.add_0_r.
    simpl in Hlen.
    destruct (lookup_lt_is_Some_2 row off) as [x Hx]; [lia|].
    unfold getitem2 at 1. rewrite Hrow. simpl. rewrite Hx. simpl.
    unfold setitem2. rewrite Hrow. simpl.
    rewrite bool_decide_eq_true_2 by lia. simpl.
    rewrite (imap_ext _ (λ j elem, ((S off + j)%nat, elem)))
      by (intros; simpl; f_equal; lia).
    rewrite (IH (S off) _ (<[off := x + e]> row)).
    + rewrite list_insert_insert_eq. f_equal.
      rewrite take_insert_lt, drop_insert_lt by lia.
      rewrite (take_S_r _ _ x) by done.
      rewrite (drop_S row x off) by done. simpl.
      rewrite insert_app_r_alt by (rewrite length_take; lia).
      rewrite length_take, Nat.min_l, Nat.sub_diag by lia. simpl.
      by rewrite <-app_assoc.
    + apply list_lookup_insert_eq. by eapply lookup_lt_Some.
    + rewrite length_insert. lia.
Qed.

Lemma add_into_row_all i (line : list Z) (m : matrix) row :
  m !! i = Some row → length row = length line →
  Py.for_each (Py.enumerate line)
    (λ '(j, elem) m,
       x ← getitem2 m i j;
       m' ← setitem2 m i j (x + elem);
       Some (Py.Continue m')) m
  = Some (<[i := zip_with Z.add row line]> m).
Proof. intros Hrow Hlen. exact (add_into_row i line 0 m row Hrow Hlen). Qed.

Lemma add_into_rows (other : matrix) (off : nat) (m : matrix) :
  Forall2 (λ row line, length row = length line) (drop off m) other →
  Py.for_each (imap (λ i line, ((off + i)%nat, line)) other)
    (λ '(i, line) m,
       m' ← Py.for_each (Py.enumerate line) (λ '(j, elem) m,
               x ← getitem2 m i j;
               m' ← setitem2 m i j (x + elem);
               Some (Py.Continue m')) m;
       Some (Py.Continue m')) m
  = Some (take off m ++ matrix_add (drop off m) other).
Proof.
  revert off m. induction other as [|line other IH]; intros off m Hshape.
  - apply Forall2_nil_inv_r in Hshape. simpl. rewrite Hshape.
    unfold matrix_add. simpl. rewrite app_nil_r.
    f_equal. symmetry. apply take_ge.
    destruct (decide (length m ≤ off)%nat); [done|].
    assert (length (drop off m) = 0%nat) as Hl by (by rewrite Hshape).
    rewrite length_drop in Hl. lia.
  - apply Forall2_cons_inv_r in Hshape as (row & rest & Hrl & Hrest & Hdrop).
    assert (m !! off = Some row) as Hrow.
    { rewrite <-(Nat.add_0_r off), <-lookup_drop, Hdrop. done. }
    assert (drop (S off) m = rest) as Hdrop'.
    { replace (S off) with (off + 1)%nat by lia.
      by rewrite <-drop_drop, Hdrop. }
    rewrite imap_cons. cbn [Py.for_each]. rewrite Nat.add_0_r.
    rewrite (add_into_row_all off line m row) by done. simpl.
    rewrite (imap_ext _ (λ i line, ((S off + i)%nat, line)))
      by (intros; simpl; f_equal; lia).
    rewrite IH.
    + f_equal. rewrite drop_insert_lt by lia.
      rewrite take_insert_lt by lia.
      rewrite Hdrop, Hdrop'. unfold matrix_add. simpl.
      rewrite (take_S_r _ _ row) by done.
      rewrite insert_app_r_alt by (rewrite length_take; lia).
      apply lookup_lt_Some in Hrow.
      rewrite length_take, Nat.min_l, Nat.sub_diag by lia. simpl.
      by rewrite <-app_assoc.
    + rewrite drop_insert_lt by lia. by rewrite Hdrop'.
Qed.

Lemma add_into_matrix_add (m other : matrix) :
  Forall2 (λ row line, length row = length line) m other →
  Adg.add_into m other = Some (matrix_add m other).
Proof.
  intros Hshape. exact (add_into_rows other 0 m Hshape).
Qed.

Lemma g_test_spec (m : matrix) :
  (∀ i row, m !! i = Some row → (i < length row)%nat) →
  ∃ t, Adg.g_test m = Some t ∧ (t = true ↔ ∀ i, getitem2 m i i ≠ Some 1).
Proof.
  intros Hrows. unfold Adg.g_test.
  rewrite (for_each_flag_break _
    (λ ir : nat * list Z, bool_decide (ir.2 !! ir.1 = Some 1))).
  - eexists. split; [done|].
    destruct (existsb _ _) eqn:Hex.
    + split; [done|]. intros Hall.
      apply existsb_exists in Hex as ([i row] & Hin & Hc).
      apply list_elem_of_In, elem_of_lookup_imap in Hin
        as (i' & row' & [= -> ->] & Hrow).
      apply bool_decide_eq_true in Hc. simpl in Hc.
      destruct (Hall i'). unfold getitem2. by rewrite Hrow.
    + split; [|done]. intros _ i Hi.
      apply not_true_iff_false in Hex. apply Hex, existsb_exists.
      unfold getitem2 in Hi.
      destruct (m !! i) as [row|] eqn:Hrow; simpl in Hi; [|done].
      exists (i, row). split.
      * apply list_elem_of_In, elem_of_lookup_imap. eauto.
      * by apply bool_decide_eq_true.
  - intros [i row] t (i' & row' & [= -> ->] & Hrow)%elem_of_lookup_imap.
    destruct (lookup_lt_is_Some_2 row' i') as [x Hx]; [by eapply Hrows|].
    simpl. rewrite Hx. simpl.
    destruct (decide (x = 1)) as [->|Hx1].
    + by rewrite !bool_decide_eq_true_2.
    + rewrite !bool_decide_eq_false_2; [done|congruence|done].
Qed.

Lemma uniq_elem_of (l : list matrix) m : m ∈ uniq l → m ∈ l.
Proof.
  unfold uniq.
  assert (∀ acc, m ∈ foldl (λ acc i,
            if bool_decide (i ∈ acc) then acc else acc ++ [i]) acc l →
          m ∈ acc ∨ m ∈ l) as Hgen.
  { induction l as [|x l IH]; intros acc; simpl; [by left|].
    intros [Hm|Hm]%IH; [|right; by right].
    case_bool_decide; [by left|].
    apply elem_of_app in Hm as [Hm|Hm%list_elem_of_singleton];
      [by left|right; subst; left]. }
  intros [Hm%elem_of_nil|Hm]%Hgen; done.
Qed.

Lemma sort_reverse_elem_of (l : list matrix) m : m ∈ sort_reverse l ↔ m ∈ l.
Proof. unfold sort_reverse. by rewrite merge_sort_Permutation. Qed.

(** *** Permutation matrices *)

Lemma perm_matrix_square n k : length k = n → square n (perm_matrix n k).
Proof.
  intros Hk. split.
  - unfold perm_matrix. by rewrite length_fmap.
  - apply Forall_fmap, Forall_true. intros j. simpl.
    by rewrite length_fmap, length_seq.
Qed.

Lemma getitem2_perm_matrix n k i j ki :
  k !! i = Some ki → (j < n)%nat →
  getitem2 (perm_matrix n k) i j = Some (ind j ki).
Proof.
  intros Hki Hj. unfold getitem2, perm_matrix.
  rewrite list_lookup_fmap, Hki. simpl.
  rewrite list_lookup_fmap, lookup_seq_lt by done. done.
Qed.

Lemma matrix_add_square n a b :
  square n a → square n b → square n (matrix_add a b).
Proof.
  intros [Ha Hra] [Hb Hrb]. split.
  - unfold matrix_add. rewrite length_zip_with. lia.
  - apply Forall_forall. intros row Hrow.
    apply list_elem_of_lookup in Hrow as [i Hi].
    unfold matrix_add in Hi. rewrite lookup_zip_with in Hi.
    destruct (a !! i) as [ra|] eqn:Hai; simpl in Hi; [|done].
    destruct (b !! i) as [rb|] eqn:Hbi; simpl in Hi; [|done].
    injection Hi as <-. rewrite length_zip_with.
    rewrite Forall_forall in Hra, Hrb.
    rewrite (Hra ra), (Hrb rb) by (eapply list_elem_of_lookup_2; eauto). lia.
Qed.

Lemma entry_matrix_add n a b i j :
  square n a → square n b → (i < n)%nat → (j < n)%nat →
  entry (matrix_add a b) i j = entry a i j + entry b i j.
Proof.
  intros Ha Hb Hi Hj.
  pose proof (square_getitem2 n a i j Ha Hi Hj) as Haij.
  pose proof (square_getitem2 n b i j Hb Hi Hj) as Hbij.
  unfold entry at 1. unfold getitem2 in *. unfold matrix_add.
  rewrite lookup_zip_with.
  destruct (a !! i) as [ra|]; simpl in *; [|done].
  destruct (b !! i) as [rb|]; simpl in *; [|done].
  rewrite lookup_zip_with, Haij, Hbij. done.
Qed.

Lemma entry_perm_matrix n k i j ki :
  k !! i = Some ki → (j < n)%nat → entry (perm_matrix n k) i j = ind j ki.
Proof.
  intros Hki Hj. unfold entry.
  by rewrite (getitem2_perm_matrix n k i j ki).
Qed.

#[global] Instance Zsum_Permutation : Proper ((≡ₚ) ==> (=)) Zsum.
Proof. induction 1; simpl; lia. Qed.

Lemma Zsum_ind (l : list nat) (a : nat) :
  NoDup l → a ∈ l → Zsum ((λ x, ind a x) <$> l) = 1.
Proof.
  assert (∀ l, a ∉ l → Zsum ((λ x, ind a x) <$> l) = 0) as Hout.
  { intros l'. induction l' as [|x l' IH]; intros Hnin; csimpl; [done|].
    apply not_elem_of_cons in Hnin as [Hax Hnin]. rewrite IH by done.
    unfold ind. by rewrite bool_decide_eq_true_2. }
  induction 1 as [|x l Hx Hnd IH]; intros Ha; csimpl.
  - by apply elem_of_nil in Ha.
  - apply elem_of_cons in Ha as [->|Ha].
    + rewrite Hout by done. unfold ind.
      rewrite bool_decide_eq_false_2; [done|]. by intros [].
    + rewrite IH by done. unfold ind.
      rewrite bool_decide_eq_true_2; [done|]. by intros ->.
Qed.

Lemma ind_sym i j : ind i j = ind j i.
Proof. unfold ind. repeat case_bool_decide; done || congruence. Qed.

Lemma fmap_lookup_seq {A} `{Inhabited A} {B} (f : A → B) (l : list A) :
  (λ i, f (l !!! i)) <$> seq 0 (length l) = f <$> l.
Proof.
  apply list_eq. intros i. rewrite !list_lookup_fmap.
  destruct (decide (i < length l)%nat) as [Hi|Hi].
  - rewrite lookup_seq_lt by done. simpl.
    destruct (lookup_lt_is_Some_2 l i Hi) as [x Hx].
    by rewrite Hx, (list_lookup_total_correct _ _ _ Hx).
  - rewrite lookup_seq_ge by lia. by rewrite lookup_ge_None_2 by lia.
Qed.

(** Row and column sums of the sum of two permutation matrices. *)
Lemma perm_sum_degrees n p q v :
  p ≡ₚ seq 0 n → q ≡ₚ seq 0 n → (v < n)%nat →
  let m := matrix_add (perm_matrix n p) (perm_matrix n q) in
  in_degree m v = 2 ∧ out_degree m v = 2.
Proof.
  intros Hp Hq Hv m.
  assert (length p = n) as Hlp by (by rewrite Hp, length_seq).
  assert (length q = n) as Hlq by (by rewrite Hq, length_seq).
  assert (square n m) as Hm
    by (by apply matrix_add_square; apply perm_matrix_square).
  pose proof Hm as [Hlm _].
  assert (∀ i j, (i < n)%nat → (j < n)%nat →
            entry m i j = ind j (p !!! i) + ind j (q !!! i)) as Hentry.
  { intros i j Hi Hj. unfold m.
    rewrite (entry_matrix_add n) by (done || by apply perm_matrix_square).
    destruct (lookup_lt_is_Some_2 p i) as [pi Hpi]; [lia|].
    destruct (lookup_lt_is_Some_2 q i) as [qi Hqi]; [lia|].
    rewrite (entry_perm_matrix n p i j pi), (entry_perm_matrix n q i j qi)
      by done.
    by rewrite (list_lookup_total_correct _ _ _ Hpi),
      (list_lookup_total_correct _ _ _ Hqi). }
  split.
  - unfold in_degree. rewrite Hlm.
    rewrite (Zsum_fmap_ext _ (λ i, ind v (p !!! i) + ind v (q !!! i)))
      by (intros i Hi%elem_of_seq; apply Hentry; lia).
    rewrite Zsum_fmap_add.
    rewrite <-Hlp at 1. rewrite <-Hlq at 1.
    rewrite (fmap_lookup_seq (λ x, ind v x) p),
      (fmap_lookup_seq (λ x, ind v x) q).
    rewrite Hp, Hq.
    rewrite !Zsum_ind; [done|apply NoDup_seq|apply elem_of_seq; lia].
  - unfold out_degree. rewrite Hlm.
    assert ((p !!! v) < n ∧ (q !!! v) < n)%nat as [Hpv Hqv].
    { split.
      - assert (p !!! v ∈ seq 0 n) as Hin
          by (rewrite <-Hp; apply list_elem_of_lookup_total_2; lia).
        apply elem_of_seq in Hin. lia.
      - assert (q !!! v ∈ seq 0 n) as Hin
          by (rewrite <-Hq; apply list_elem_of_lookup_total_2; lia).
        apply elem_of_seq in Hin. lia. }
    rewrite (Zsum_fmap_ext _ (λ j, ind (p !!! v) j + ind (q !!! v) j)).
    + rewrite Zsum_fmap_add.
      rewrite !Zsum_ind; [done|apply NoDup_seq|apply elem_of_seq; lia
                          |apply NoDup_seq|apply elem_of_seq; lia].
    + intros j Hj%elem_of_seq. rewrite Hentry by lia.
      by rewrite (ind_sym j), (ind_sym j).
Qed.

Lemma entry_perm_sum n p q i j :
  length p = n → length q = n → (i < n)%nat → (j < n)%nat →
  entry (matrix_add (perm_matrix n p) (perm_matrix n q)) i j
  = ind j (p !!! i) + ind j (q !!! i).
Proof.
  intros Hlp Hlq Hi Hj.
  rewrite (entry_matrix_add n) by (done || by apply perm_matrix_square).
  destruct (lookup_lt_is_Some_2 p i) as [pi Hpi]; [lia|].
  destruct (lookup_lt_is_Some_2 q i) as [qi Hqi]; [lia|].
  rewrite (entry_perm_matrix n p i j pi), (entry_perm_matrix n q i j qi)
    by done.
  by rewrite (list_lookup_total_correct _ _ _ Hpi),
    (list_lookup_total_correct _ _ _ Hqi).
Qed.

Lemma square_same_shape n a b :
  square n a → square n b →
  Forall2 (λ row line : list Z, length row = length line) a b.
Proof.
  intros [Ha Hra] [Hb Hrb]. apply Forall2_same_length_lookup_2.
  - lia.
  - intros i ra rb Hai Hbi. rewrite Forall_forall in Hra, Hrb.
    rewrite (Hra ra), (Hrb rb) by (eapply list_elem_of_lookup_2; eauto).
    done.
Qed.

(** The matrices that [g] keeps among those of [seed(n)] are the matrices
    of the derangements. *)
Lemma traceless_derangement n (m : matrix) :
  m ∈ (perm_matrix n <$> Adg.seed n) →
  (∀ i, getitem2 m i i ≠ Some 1) →
  ∃ p, derangement n p ∧ m = perm_matrix n p.
Proof.
  intros (p & -> & Hp%seed_Permutation)%list_elem_of_fmap Hdiag.
  exists p. split; [|done]. split; [done|].
  intros i Hi. apply (Hdiag i).
  assert (i < n)%nat as Hin.
  { apply lookup_lt_Some in Hi. by rewrite Hp, length_seq in Hi. }
  rewrite (getitem2_perm_matrix n p i i i) by done.
  unfold ind. by rewrite bool_decide_eq_false_2 by (by intros []).
Qed.

Lemma combinations_with_replacement_2_lt n i j :
  (i, j) ∈ Py.combinations_with_replacement_2 n → (i < n)%nat ∧ (j < n)%nat.
Proof.
  intros (i' & Hij & Hi%elem_of_seq)%list_elem_of_bind.
  apply list_elem_of_fmap in Hij as (j' & [= -> ->] & Hj%elem_of_seq). lia.
Qed.

(** The matrices of [diagram_generation(n)], read as matrices. *)
Lemma diagram_generation_sums (n : nat) :
  ∃ out,
    Adg.diagram_generation n = Some out
    ∧ ∀ m, m ∈ out →
        (∃ p q, derangement n p ∧ derangement n q
                ∧ m = matrix_add (perm_matrix n p) (perm_matrix n q))
        ∧ square n m
        ∧ ∀ v, (v < n)%nat →
            in_degree m v = 2 ∧ out_degree m v = 2 ∧ total_degree m v = 4
            ∧ entry m v v = 0
            ∧ ∀ u, (u < n)%nat →
                entry m v u = 0 ∨ entry m v u = 1 ∨ entry m v u = 2.
Proof.
  unfold Adg.diagram_generation.
  change ((λ k : list nat, _) <$> Adg.seed n)
    with (perm_matrix n <$> Adg.seed n).
  set (P := λ m : matrix, ∀ i, getitem2 m i i ≠ Some 1).
  destruct (for_each_append P Adg.g_test (perm_matrix n <$> Adg.seed n) [])
    as (traceless & Hg & Hfilt).
  { apply Forall_forall.
    intros m (p & -> & Hp%seed_Permutation)%list_elem_of_fmap.
    apply g_test_spec. intros i row Hrow.
    assert (length p = n) as Hlp by (by rewrite Hp, length_seq).
    destruct (perm_matrix_square n p Hlp) as [Hlen Hrows].
    rewrite Forall_forall in Hrows.
    rewrite (Hrows row) by (by eapply list_elem_of_lookup_2).
    apply lookup_lt_Some in Hrow. lia. }
  unfold Adg.g. rewrite Hg. simpl.
  assert (∀ m, m ∈ traceless → ∃ p, derangement n p ∧ m = perm_matrix n p)
    as Htr.
  { intros m [Hin HP]%(filtered_elem_of _ _ _ _ Hfilt).
    by apply traceless_derangement. }
  set (f := λ coef : nat * nat,
         m0 ← traceless !! coef.1; m1 ← traceless !! coef.2;
         Adg.add_into m0 m1).
  set (coeffs := Py.combinations_with_replacement_2 (length traceless)).
  assert (∀ coef m, f coef = Some m →
            ∃ p q, derangement n p ∧ derangement n q
                   ∧ m = matrix_add (perm_matrix n p) (perm_matrix n q))
    as Hf.
  { intros coef m. unfold f.
    destruct (traceless !! coef.1) as [m0|] eqn:H0; simpl; [|done].
    destruct (traceless !! coef.2) as [m1|] eqn:H1; simpl; [|done].
    destruct (Htr m0) as (p & Hp & ->); [by eapply list_elem_of_lookup_2|].
    destruct (Htr m1) as (q & Hq & ->); [by eapply list_elem_of_lookup_2|].
    rewrite add_into_matrix_add.
    - intros [= <-]. eauto.
    - destruct Hp as [Hp _], Hq as [Hq _].
      apply (square_same_shape n); apply perm_matrix_square;
        by rewrite ?Hp, ?Hq, length_seq. }
  assert (Forall (λ coef, is_Some (f coef)) coeffs) as Htotal.
  { apply Forall_forall. intros [i j] [Hi Hj]%combinations_with_replacement_2_lt.
    unfold f. simpl.
    destruct (lookup_lt_is_Some_2 traceless i Hi) as [m0 H0].
    destruct (lookup_lt_is_Some_2 traceless j Hj) as [m1 H1].
    rewrite H0, H1. simpl.
    destruct (Htr m0) as (p & [Hp _] & ->); [by eapply list_elem_of_lookup_2|].
    destruct (Htr m1) as (q & [Hq _] & ->); [by eapply list_elem_of_lookup_2|].
    rewrite add_into_matrix_add; [by eexists|].
    apply (square_same_shape n); apply perm_matrix_square;
      by rewrite ?Hp, ?Hq, length_seq. }
  destruct (for_each_collect_total f coeffs [] Htotal) as [double Hdouble].
  rewrite (for_each_ext _ _
    (λ coef acc, y ← f coef; Some (Py.Continue (acc ++ [y])))).
  2:{ intros coef acc. unfold f.
      destruct (traceless !! coef.1); simpl; [|done].
      by destruct (traceless !! coef.2). }
  fold coeffs. rewrite Hdouble. simpl.
  apply for_each_collect in Hdouble as (ys & -> & Hys). simpl.
  eexists. split; [done|].
  intros m Hm%sort_reverse_elem_of%uniq_elem_of.
  apply list_elem_of_lookup in Hm as [c Hc].
  destruct (Forall2_lookup_r _ _ _ _ _ Hys Hc) as (coef & _ & Hcoef).
  destruct (Hf coef m Hcoef) as (p & q & [Hp Hpfix] & [Hq Hqfix] & ->).
  assert (length p = n) as Hlp by (by rewrite Hp, length_seq).
  assert (length q = n) as Hlq by (by rewrite Hq, length_seq).
  split; [by exists p, q|].
  split; [by apply matrix_add_square; apply perm_matrix_square|].
  intros v Hv.
  destruct (perm_sum_degrees n p q v Hp Hq Hv) as [Hin Hout].
  split; [done|]. split; [done|].
  split; [unfold total_degree; lia|].
  split.
  - rewrite (entry_perm_sum n) by done. unfold ind.
    rewrite !bool_decide_eq_true_2; [done| |].
    + intros Heq. apply (Hqfix v). rewrite Heq at 2.
      apply list_lookup_lookup_total_lt. lia.
    + intros Heq. apply (Hpfix v). rewrite Heq at 2.
      apply list_lookup_lookup_total_lt. lia.
  - intros u Hu. rewrite (entry_perm_sum n) by done. unfold ind.
    repeat case_bool_decide; lia.
Qed.

(** ** Degrees of the graph of a matrix *)

Lemma filter_mjoin_length {A} (P : A → Prop) `{∀ x, Decision (P x)}
    (ls : list (list A)) :
  length (filter P (mjoin ls)) = sum_list ((λ l, length (filter P l)) <$> ls).
Proof.
  induction ls as [|l ls IH]; [done|]. csimpl.
  by rewrite filter_app, length_app, IH.
Qed.

Lemma filter_replicate_length {A} (P : A → Prop) `{∀ x, Decision (P x)}
    (k : nat) (x : A) :
  length (filter P (replicate k x)) = if decide (P x) then k else 0%nat.
Proof.
  induction k as [|k IH]; simpl; [by destruct (decide _)|].
  rewrite filter_cons. destruct (decide (P x)); simpl; by rewrite IH.
Qed.

Lemma row_edges_into (u v off : nat) (row : list Z) :
  sum_list ((λ l, length (filter (λ e, Nx.dst e = v) l)) <$>
    imap (λ w a, replicate (Z.to_nat a) (Nx.Edge u (off + w) None)) row)
  = match decide (off ≤ v)%nat with
    | left _ => Z.to_nat (default 0 (row !! (v - off)%nat))
    | right _ => 0%nat
    end.
Proof.
  revert off. induction row as [|a row IH]; intros off.
  { simpl. by destruct (decide _). }
  rewrite imap_cons. csimpl. rewrite filter_replicate_length. simpl.
  rewrite (imap_ext _ (λ w a, replicate (Z.to_nat a)
             (Nx.Edge u (S off + w) None))); last first.
  { intros i x _. simpl. do 2 f_equal. lia. }
  rewrite IH. destruct (decide (off ≤ v)%nat) as [Hle|Hgt].
  - destruct (decide (off + 0 = v)%nat) as [<-|Hne].
    + replace (off + 0 - off)%nat with 0%nat by lia. simpl.
      destruct (decide _); [lia|]. lia.
    + destruct (decide (S off ≤ v)%nat); [|lia].
      replace (v - off)%nat with (S (v - S off)) by lia. done.
  - destruct (decide (off + 0 = v)%nat); [lia|].
    destruct (decide (S off ≤ v)%nat); [lia|done].
Qed.

Lemma row_edges_from (u v off : nat) (row : list Z) :
  sum_list ((λ l, length (filter (λ e, Nx.src e = v) l)) <$>
    imap (λ w a, replicate (Z.to_nat a) (Nx.Edge u (off + w) None)) row)
  = if decide (u = v) then sum_list (Z.to_nat <$> row) else 0%nat.
Proof.
  revert off. induction row as [|a row IH]; intros off.
  { simpl. by destruct (decide _). }
  rewrite imap_cons. csimpl. rewrite filter_replicate_length. simpl.
  rewrite (imap_ext _ (λ w a, replicate (Z.to_nat a)
             (Nx.Edge u (S off + w) None))); last first.
  { intros i x _. simpl. do 2 f_equal. lia. }
  rewrite IH. by destruct (decide (u = v)).
Qed.

Lemma Zsum_to_nat (l : list Z) :
  Forall (λ a, 0 ≤ a) l → Z.of_nat (sum_list (Z.to_nat <$> l)) = Zsum l.
Proof.
  induction 1 as [|a l Ha _ IH]; [done|]. csimpl.
  rewrite Nat2Z.inj_add, IH. lia.
Qed.

Lemma edges_into (v off : nat) (rows : matrix) :
  nonnegative rows →
  Z.of_nat (sum_list ((λ l, length (filter (λ e, Nx.dst e = v) l)) <$>
    imap (λ u row,
      mjoin (imap (λ w a, replicate (Z.to_nat a)
                            (Nx.Edge (off + u) w None)) row)) rows))
  = Zsum ((λ i, entry rows i v) <$> seq 0 (length rows)).
Proof.
  intros Hpos. revert off.
  induction Hpos as [|row rows Hrow _ IH]; intros off; [done|].
  rewrite imap_cons. csimpl. rewrite Nat2Z.inj_add. f_equal.
  - rewrite filter_mjoin_length.
    pose proof (row_edges_into (off + 0) v 0 row) as Hr. simpl in Hr.
    rewrite Hr, Nat.sub_0_r. unfold entry, getitem2. simpl.
    destruct (row !! v) as [a|] eqn:Ha; simpl; [|done].
    apply Z2Nat.id. rewrite Forall_forall in Hrow.
    apply Hrow. by eapply list_elem_of_lookup_2.
  - rewrite <-fmap_S_seq, <-list_fmap_compose.
    rewrite (imap_ext _ (λ u row, mjoin (imap (λ w a,
               replicate (Z.to_nat a) (Nx.Edge (S off + u) w None)) row)));
      last first.
    { intros i x _. simpl. f_equal. apply imap_ext. intros. do 2 f_equal. lia. }
    by rewrite IH.
Qed.

Lemma edges_from (v off : nat) (rows : matrix) :
  nonnegative rows →
  Z.of_nat (sum_list ((λ l, length (filter (λ e, Nx.src e = v) l)) <$>
    imap (λ u row,
      mjoin (imap (λ w a, replicate (Z.to_nat a)
                            (Nx.Edge (off + u) w None)) row)) rows))
  = match decide (off ≤ v)%nat with
    | left _ => Zsum (default [] (rows !! (v - off)%nat))
    | right _ => 0
    end.
Proof.
  intros Hpos. revert off.
  induction Hpos as [|row rows Hrow _ IH]; intros off.
  { simpl. by destruct (decide _). }
  rewrite imap_cons. csimpl. rewrite Nat2Z.inj_add.
  rewrite (imap_ext _ (λ u row, mjoin (imap (λ w a,
             replicate (Z.to_nat a) (Nx.Edge (S off + u) w None)) row)));
    last first.
  { intros i x _. simpl. f_equal. apply imap_ext. intros. do 2 f_equal. lia. }
  rewrite IH, filter_mjoin_length.
  pose proof (row_edges_from (off + 0) v 0 row) as Hr. simpl in Hr.
  rewrite Hr. destruct (decide (off ≤ v)%nat) as [Hle|Hgt].
  - destruct (decide (off + 0 = v)%nat) as [<-|Hne].
    + replace (off + 0 - off)%nat with 0%nat by lia. simpl.
      destruct (decide _); [lia|]. rewrite Zsum_to_nat by done. lia.
    + destruct (decide (S off ≤ v)%nat); [|lia].
      replace (v - off)%nat with (S (v - S off)) by lia. done.
  - destruct (decide (off + 0 = v)%nat); [lia|].
    destruct (decide (S off ≤ v)%nat); [lia|done].
Qed.

Lemma from_numpy_matrix_in_degree (m : matrix) (v : nat) :
  nonnegative m →
  Z.of_nat (Nx.in_degree (Nx.from_numpy_matrix m) v) = in_degree m v.
Proof.
  intros Hpos. unfold Nx.in_degree, Nx.from_numpy_matrix, in_degree. simpl.
  rewrite filter_mjoin_length. by apply (edges_into v 0).
Qed.

Lemma from_numpy_matrix_out_degree (n : nat) (m : matrix) (v : nat) :
  nonnegative m → square n m → (v < n)%nat →
  Z.of_nat (Nx.out_degree (Nx.from_numpy_matrix m) v) = out_degree m v.
Proof.
  intros Hpos [Hlen Hrows] Hv.
  unfold Nx.out_degree, Nx.from_numpy_matrix, out_degree. simpl.
  rewrite filter_mjoin_length, (edges_from v 0) by done. simpl.
  rewrite Nat.sub_0_r.
  destruct (lookup_lt_is_Some_2 m v) as [row Hrow]; [lia|].
  rewrite Hrow. simpl.
  assert (length row = length m) as Hl.
  { rewrite Forall_forall in Hrows. rewrite (Hrows row), Hlen; [done|].
    by eapply list_elem_of_lookup_2. }
  rewrite <-Hl. unfold entry, getitem2. rewrite Hrow. simpl.
  clear. induction row as [|a row IH]; [done|]. simpl.
  rewrite <-fmap_S_seq, <-list_fmap_compose. f_equal. exact IH.
Qed.

Lemma square_nonnegative (n : nat) (m : matrix) :
  square n m →
  (∀ v u, (v < n)%nat → (u < n)%nat → 0 ≤ entry m v u) →
  nonnegative m.
Proof.
  intros [Hlen Hrows] Hpos. apply Forall_forall. intros row Hrow.
  apply Forall_forall. intros a Ha.
  apply list_elem_of_lookup in Hrow as [i Hi].
  apply list_elem_of_lookup in Ha as [j Hj].
  assert (length row = n) as Hl.
  { rewrite Forall_forall in Hrows. apply Hrows.
    by eapply list_elem_of_lookup_2. }
  pose proof (lookup_lt_Some _ _ _ Hi). pose proof (lookup_lt_Some _ _ _ Hj).
  specialize (Hpos i j ltac:(lia) ltac:(lia)).
  unfold entry, getitem2 in Hpos. rewrite Hi in Hpos. simpl in Hpos.
  by rewrite Hj in Hpos.
Qed.

(** C10. [diagram_generation(n)] returns for every [n], and every matrix it
    returns is the elementwise sum of the matrices of two permutations of
    [0 .. n-1] without fixed point; consequently it is square of size [n],
    every vertex has in-degree 2 and out-degree 2 (total degree 4), in the
    matrix and in the graph built from it, every entry is 0, 1 or 2, and
    the diagonal is zero. *)
Theorem mbpt_enumerator_invariant (n : nat) :
  ∃ out,
    Adg.diagram_generation n = Some out
    ∧ ∀ m, m ∈ out →
        (∃ p q, derangement n p ∧ derangement n q
                ∧ m = matrix_add (perm_matrix n p) (perm_matrix n q))
        ∧ square n m
        ∧ ∀ v, (v < n)%nat →
            in_degree m v = 2 ∧ out_degree m v = 2 ∧ total_degree m v = 4
            ∧ Nx.in_degree (Nx.from_numpy_matrix m) v = 2%nat
            ∧ Nx.out_degree (Nx.from_numpy_matrix m) v = 2%nat
            ∧ Nx.degree (Nx.from_numpy_matrix m) v = 4%nat
            ∧ entry m v v = 0
            ∧ ∀ u, (u < n)%nat →
                entry m v u = 0 ∨ entry m v u = 1 ∨ entry m v u = 2.
Proof.
  destruct (diagram_generation_sums n) as (out & Hout & Hall).
  exists out. split; [done|]. intros m Hm.
  destruct (Hall m Hm) as (Hsum & Hsq & Hdeg). split_and!; [done..|].
  intros v Hv. destruct (Hdeg v Hv) as (Hin & Hout' & Htot & Hdiag & Hent).
  assert (nonnegative m) as Hpos.
  { apply (square_nonnegative n); [done|]. intros i j Hi Hj.
    destruct (Hdeg i Hi) as (_ & _ & _ & _ & Hij).
    destruct (Hij j Hj) as [->| [->| ->]]; lia. }
  pose proof (from_numpy_matrix_in_degree m v Hpos) as Hgin.
  pose proof (from_numpy_matrix_out_degree n m v Hpos Hsq Hv) as Hgout.
  unfold Nx.degree. split_and!; try done; lia.
Qed.

(** ** The canonicalizer of [adg/diag.py]: the loops *)

Lemma pairwise_app_inv {A} (R : A → A → Prop) l1 l2 :
  pairwise R (l1 ++ l2) →
  pairwise R l1 ∧ pairwise R l2 ∧ Forall (λ a, Forall (R a) l2) l1.
Proof.
  induction l1 as [|x l1 IH]; simpl.
  - intros H. split; [constructor|]. split; [done|constructor].
  - inversion 1 as [|? ? Hx Hl]; subst.
    apply Forall_app in Hx as [Hx1 Hx2].
    destruct (IH Hl) as (H1 & H2 & H12).
    split; [by constructor|]. split; [done|]. by constructor.
Qed.

Lemma pairwise_app {A} (R : A → A → Prop) l1 l2 :
  pairwise R l1 → pairwise R l2 → Forall (λ a, Forall (R a) l2) l1 →
  pairwise R (l1 ++ l2).
Proof.
  induction 1 as [|x l1 Hx Hl IH]; simpl; [done|].
  intros H2 H12. apply Forall_cons in H12 as [Hx2 H12].
  constructor; [by apply Forall_app|by apply IH].
Qed.

Lemma pairwise_delete_middle {A} (R : A → A → Prop) l1 x l2 :
  pairwise R (l1 ++ x :: l2) → pairwise R (l1 ++ l2).
Proof.
  intros (H1 & H2 & H12)%pairwise_app_inv.
  inversion H2; subst. apply pairwise_app; [done..|].
  eapply Forall_impl; [exact H12|]. intros a Ha. simpl in Ha.
  by apply Forall_cons in Ha as [_ ?].
Qed.


Lemma same_topology_add_tags_l a x b :
  Diag.same_topology (Diag.add_tags a x) b = Diag.same_topology a b.
Proof. done. Qed.

Lemma same_topology_add_tags_r a b x :
  Diag.same_topology a (Diag.add_tags b x) = Diag.same_topology a b.
Proof. done. Qed.

(** The inner loop: either no later diagram has the topology of [d] and the
    list is unchanged, or the last such diagram [c] is deleted and its tags
    are appended to those of [d]. *)
Lemma merge_first_match_spec pre d rest post :
  Forall (λ c, is_Some (Diag.same_topology d c)) rest →
  ∃ out,
    Py.for_each (reverse (seq (S (length pre)) (length rest)))
      (λ i_comp_diag diagrams,
        diag ← diagrams !! length pre;
        comp_diag ← diagrams !! i_comp_diag;
        same ← Diag.same_topology diag comp_diag;
        if same : bool then
          Some (Py.Break
                  (delete i_comp_diag
                     (<[length pre := Diag.add_tags diag comp_diag]>
                        diagrams)))
        else Some (Py.Continue diagrams)) (pre ++ d :: rest ++ post)
    = Some out
    ∧ ((Forall (λ c, Diag.same_topology d c = Some false) rest
        ∧ out = pre ++ d :: rest ++ post)
       ∨ ∃ r1 c r2,
           rest = r1 ++ c :: r2
           ∧ Diag.same_topology d c = Some true
           ∧ Forall (λ c, Diag.same_topology d c = Some false) r2
           ∧ out = pre ++ Diag.add_tags d c :: r1 ++ r2 ++ post).
Proof.
  revert post. induction rest as [|c rest IH] using rev_ind; intros post Htot.
  - simpl. eexists. split; [done|]. left. split; [constructor|done].
  - apply Forall_app in Htot as [Htot Hc].
    apply Forall_singleton in Hc as [t Ht].
    rewrite length_app, Nat.add_1_r, seq_S, reverse_snoc.
    cbn [Py.for_each].
    rewrite (list_lookup_middle pre _ d (length pre)) by done.
    cbn [mbind option_bind].
    assert ((pre ++ d :: (rest ++ [c]) ++ post)
              !! (S (length pre) + length rest)%nat = Some c) as Hlook.
    { rewrite lookup_app_r by lia.
      replace (S (length pre) + length rest - length pre)%nat
        with (S (length rest)) by lia. simpl.
      rewrite <-app_assoc. by apply list_lookup_middle. }
    rewrite Hlook. cbn [mbind option_bind]. rewrite Ht. cbn [mbind option_bind].
    destruct t.
    + eexists. split; [done|]. right. exists rest, c, [].
      split; [done|]. split; [done|]. split; [constructor|].
      rewrite insert_app_r_alt, Nat.sub_diag by lia. simpl.
      replace (S (length pre + length rest))
        with (length (pre ++ Diag.add_tags d c :: rest))
        by (rewrite length_app; simpl; lia).
      replace (pre ++ Diag.add_tags d c :: (rest ++ [c]) ++ post)
        with ((pre ++ Diag.add_tags d c :: rest) ++ c :: post)
        by (by rewrite <-!app_assoc).
      rewrite delete_middle. by rewrite <-app_assoc.
    + rewrite <-(app_assoc rest). simpl.
      destruct (IH (c :: post) Htot) as (out & -> & Hout).
      exists out. split; [done|].
      destruct Hout as [[Hall ->]|(r1 & c0 & r2 & -> & Hc0 & Hr2 & ->)].
      * left. split; [|done].
        apply Forall_app. split; [done|]. by apply Forall_singleton.
      * right. exists r1, c0, (r2 ++ [c]).
        split; [by rewrite <-?app_assoc|]. split; [done|].
        split; [apply Forall_app; split; [done|by apply Forall_singleton]|].
        by rewrite <-?app_assoc.
Qed.

Lemma merge_first_match_at pre d suf :
  Diag.merge_first_match (length pre) (pre ++ d :: suf)
  = Py.for_each (reverse (seq (S (length pre)) (length suf)))
      (λ i_comp_diag diagrams,
        diag ← diagrams !! length pre;
        comp_diag ← diagrams !! i_comp_diag;
        same ← Diag.same_topology diag comp_diag;
        if same : bool then
          Some (Py.Break
                  (delete i_comp_diag
                     (<[length pre := Diag.add_tags diag comp_diag]>
                        diagrams)))
        else Some (Py.Continue diagrams)) (pre ++ d :: suf ++ []).
Proof.
  unfold Diag.merge_first_match, Py.range_down.
  rewrite app_nil_r, length_app. simpl.
  replace (length pre + S (length suf) - (length pre + 1))%nat
    with (length suf) by lia.
  by rewrite Nat.add_1_r.
Qed.

Lemma all_tags_app l1 l2 : all_tags (l1 ++ l2) = all_tags l1 ++ all_tags l2.
Proof. unfold all_tags. by rewrite fmap_app, join_app. Qed.

Lemma all_tags_cons d l : all_tags (d :: l) = Diag.tags d ++ all_tags l.
Proof. done. Qed.

Section canonicalizer_loops.
Context (D : Diag.Diagram → Prop).
Hypothesis D_add_tags : ∀ a c, D a → D (Diag.add_tags a c).
Hypothesis same_total :
  ∀ a b, D a → D b → is_Some (Diag.same_topology a b).
Hypothesis same_euclid :
  ∀ a b c, D a → D b → D c →
    Diag.same_topology a b = Some true →
    Diag.same_topology a c = Some true →
    Diag.same_topology c b = Some true.

(** One round of the outer loop on [pre ++ d :: suf], where [suf] is
    already reduced. *)
Lemma merge_first_match_round pre d suf :
  D d → Forall D suf → distinct_topology suf →
  ∃ suf',
    Diag.merge_first_match (length pre) (pre ++ d :: suf)
      = Some (pre ++ suf')
    ∧ distinct_topology suf' ∧ Forall D suf'
    ∧ all_tags suf' ≡ₚ all_tags (d :: suf)
    ∧ (Diag.graph <$> suf') `sublist_of` (Diag.graph <$> d :: suf)
    ∧ (Forall (λ c, Diag.same_topology d c = Some false) suf
       → suf' = d :: suf).
Proof.
  intros Hd Hsuf Hdist. rewrite merge_first_match_at.
  destruct (merge_first_match_spec pre d suf []) as (out & -> & Hout).
  { eapply Forall_impl; [exact Hsuf|]. intros c Hc. by apply same_total. }
  destruct Hout as [[Hall ->]|(r1 & c & r2 & -> & Hc & Hr2 & ->)].
  - exists (d :: suf). rewrite app_nil_r. split; [done|].
    split; [by constructor|]. split; [by constructor|]. done.
  - exists (Diag.add_tags d c :: r1 ++ r2). rewrite app_nil_r.
    split; [done|].
    apply Forall_app in Hsuf as [HDr1 HDcr2].
    apply Forall_cons in HDcr2 as [HDc HDr2].
    pose proof Hdist as (Hp1 & Hp2 & Hp12)%pairwise_app_inv.
    assert (Forall (λ c', Diag.same_topology d c' = Some false) r1) as Hr1.
    { apply Forall_forall. intros c' Hc'.
      rewrite Forall_forall in HDr1, Hp12.
      destruct (same_total d c' Hd (HDr1 c' Hc')) as [[] Ht]; [|done].
      pose proof (same_euclid d c c' Hd HDc (HDr1 c' Hc') Hc Ht) as Hcc.
      specialize (Hp12 c' Hc'). apply Forall_cons in Hp12 as [Hf _].
      congruence. }
    split_and!.
    + constructor; [|by eapply pairwise_delete_middle].
      apply Forall_app. split.
      * eapply Forall_impl; [exact Hr1|]. intros c' Hc'.
        by rewrite same_topology_add_tags_l.
      * eapply Forall_impl; [exact Hr2|]. intros c' Hc'.
        by rewrite same_topology_add_tags_l.
    + constructor; [by apply D_add_tags|]. by apply Forall_app.
    + rewrite !all_tags_cons, !all_tags_app, all_tags_cons. simpl.
      rewrite <-!app_assoc. f_equiv.
      rewrite !app_assoc. f_equiv. apply Permutation_app_comm.
    + rewrite !fmap_cons, !fmap_app, fmap_cons. simpl.
      apply sublist_skip, sublist_app; [done|]. by apply sublist_cons.
    + intros Hall. apply Forall_app in Hall as [_ Hall].
      apply Forall_cons in Hall as [Hall _]. congruence.
Qed.

(** The outer loop over the indices of [pre], from the last one down. *)
Lemma topologically_distinct_loop pre suf :
  Forall D pre → Forall D suf → distinct_topology suf →
  ∃ out,
    Py.for_each (reverse (seq 0 (length pre))) (λ i_diag diagrams,
      diagrams' ← Diag.merge_first_match i_diag diagrams;
      Some (Py.Continue diagrams')) (pre ++ suf) = Some out
    ∧ distinct_topology out ∧ Forall D out
    ∧ all_tags out ≡ₚ all_tags (pre ++ suf)
    ∧ (Diag.graph <$> out) `sublist_of` (Diag.graph <$> pre ++ suf).
Proof.
  revert suf. induction pre as [|d pre IH] using rev_ind;
    intros suf Hpre Hsuf Hdist.
  - simpl. exists suf. by split_and!.
  - apply Forall_app in Hpre as [Hpre Hd].
    apply Forall_inv in Hd.
    rewrite length_app, Nat.add_1_r, seq_S, reverse_snoc, <-app_assoc.
    cbn [Py.for_each app Nat.add].
    destruct (merge_first_match_round pre d suf Hd Hsuf Hdist)
      as (suf' & -> & Hdist' & HD' & Htags & Hgraphs & _).
    cbn [mbind option_bind].
    destruct (IH suf' Hpre HD' Hdist') as (out & -> & ? & ? & Ht & Hg).
    exists out. split_and!; try done.
    + rewrite Ht, !all_tags_app, Htags. done.
    + etrans; [exact Hg|]. rewrite !fmap_app.
      by apply sublist_app.
Qed.


End canonicalizer_loops.

(** ** Graph isomorphism *)

Lemma fmap_Permutation_reorder {A B} (f : A → B) (l : list A) (k : list B) :
  f <$> l ≡ₚ k → ∃ l', l' ≡ₚ l ∧ f <$> l' = k.
Proof.
  intros Hp. symmetry in Hp.
  destruct (Permutation_map_inv f l Hp) as (l' & Hk & Hl).
  exists l'. split; [by symmetry|]. by rewrite Hk.
Qed.

Section isomorphism_facts.
Context {V E : Type} `{EqDecision V, EqDecision E}.
Context (vl : Nx.MultiDiGraph → nat → V).
Context (el : Nx.MultiDiGraph → nat → nat → E).

Lemma mapping_ok_spec g1 g2 (pairs : list (nat * nat)) :
  Nx.mapping_ok vl el g1 g2 pairs = true
  ↔ ∀ uu vv, uu ∈ pairs → vv ∈ pairs →
      vl g1 uu.1 = vl g2 uu.2 ∧ el g1 uu.1 vv.1 = el g2 uu.2 vv.2.
Proof.
  unfold Nx.mapping_ok. rewrite forallb_forall. split.
  - intros Hall uu vv Huu Hvv.
    specialize (Hall uu (proj1 (list_elem_of_In _ _) Huu)).
    apply andb_true_iff in Hall as [Hv He].
    apply bool_decide_eq_true in Hv. split; [done|].
    rewrite forallb_forall in He.
    specialize (He vv (proj1 (list_elem_of_In _ _) Hvv)).
    by apply bool_decide_eq_true in He.
  - intros Hall uu Huu%list_elem_of_In. apply andb_true_iff. split.
    + apply bool_decide_eq_true. by apply (Hall uu uu).
    + apply forallb_forall. intros vv Hvv%list_elem_of_In.
      apply bool_decide_eq_true. by apply (Hall uu vv).
Qed.

(** The search over the bijections decides the relation. *)
Lemma is_isomorphic_by_spec g1 g2 :
  Nx.is_isomorphic_by vl el g1 g2 = true ↔ isomorphic vl el g1 g2.
Proof.
  unfold Nx.is_isomorphic_by.
  rewrite andb_true_iff, bool_decide_eq_true, existsb_exists. split.
  - intros (Hlen & p & Hp%list_elem_of_In%permutations_Permutation & Hok).
    exists (zip (Nx.nodes g1) p).
    assert (length p = length (Nx.nodes g1)) as Hlp by (by rewrite <-Hp).
    split; [by rewrite fst_zip by lia|].
    split; [by rewrite snd_zip by lia|].
    by apply mapping_ok_spec.
  - intros (pairs & H1 & H2 & Hall).
    destruct (fmap_Permutation_reorder fst pairs (Nx.nodes g1) H1)
      as (pairs' & Hpp & Hfst).
    split.
    + by rewrite <-H1, <-H2, !length_fmap.
    + exists (pairs'.*2). split.
      * apply list_elem_of_In, permutations_Permutation.
        by rewrite Hpp.
      * rewrite <-Hfst, zip_fst_snd. apply mapping_ok_spec.
        intros uu vv Huu Hvv. apply Hall; by rewrite <-Hpp.
Qed.

Lemma isomorphic_refl g : isomorphic vl el g g.
Proof.
  exists (zip (Nx.nodes g) (Nx.nodes g)).
  split; [by rewrite fst_zip|]. split; [by rewrite snd_zip|].
  assert (∀ ww, ww ∈ zip (Nx.nodes g) (Nx.nodes g) → ww.1 = ww.2) as Hdiag.
  { intros [u u'] (i & Hi)%list_elem_of_lookup.
    apply lookup_zip_with_Some in Hi as (? & ? & [= -> ->] & Hu & Hu').
    simpl. congruence. }
  intros [u u'] [v v'] Hu%Hdiag Hv%Hdiag. simpl in *. by subst.
Qed.

Lemma isomorphic_sym g1 g2 : isomorphic vl el g1 g2 → isomorphic vl el g2 g1.
Proof.
  intros (pairs & H1 & H2 & Hall).
  exists (prod_swap <$> pairs). split_and!.
  - rewrite <-list_fmap_compose. by rewrite <-H2.
  - rewrite <-list_fmap_compose. by rewrite <-H1.
  - intros uu vv (uu' & -> & Huu)%list_elem_of_fmap
      (vv' & -> & Hvv)%list_elem_of_fmap.
    destruct (Hall uu' vv' Huu Hvv) as [Hv He].
    destruct uu', vv'. simpl in *. done.
Qed.

Lemma isomorphic_trans g1 g2 g3 :
  isomorphic vl el g1 g2 → isomorphic vl el g2 g3 →
  isomorphic vl el g1 g3.
Proof.
  intros (pairs1 & H1 & H2 & Hall1) (pairs2 & H2' & H3 & Hall2).
  destruct (fmap_Permutation_reorder fst pairs2 (pairs1.*2))
    as (pairs2' & Hpp & Hfst); [by rewrite H2, H2'|].
  assert (length pairs2' = length pairs1) as Hlen.
  { by rewrite <-(length_fmap fst pairs2'), Hfst, length_fmap. }
  exists (zip (pairs1.*1) (pairs2'.*2)). split_and!.
  - rewrite fst_zip by (rewrite !length_fmap; lia). done.
  - rewrite snd_zip by (rewrite !length_fmap; lia). by rewrite Hpp.
  - assert (∀ ww, ww ∈ zip (pairs1.*1) (pairs2'.*2) →
              ∃ mid, (ww.1, mid) ∈ pairs1 ∧ (mid, ww.2) ∈ pairs2) as Hmid.
    { intros [u w] (i & Hi)%list_elem_of_lookup.
      apply lookup_zip_with_Some in Hi as (u' & w' & [= -> ->] & Hu & Hw).
      rewrite list_lookup_fmap in Hu, Hw.
      destruct (pairs1 !! i) as [[u v]|] eqn:Hp1; simpl in Hu; [|done].
      destruct (pairs2' !! i) as [[v' w]|] eqn:Hp2; simpl in Hw; [|done].
      injection Hu as ->. injection Hw as ->.
      assert (v' = v) as ->.
      { assert ((pairs2'.*1) !! i = (pairs1.*2) !! i) as Heq by (by rewrite Hfst).
        rewrite !list_lookup_fmap, Hp1, Hp2 in Heq. by injection Heq. }
      exists v. simpl. split; [by eapply list_elem_of_lookup_2|].
      rewrite <-Hpp. by eapply list_elem_of_lookup_2. }
    intros uu vv (mu & Hu1 & Hu2)%Hmid (mv & Hv1 & Hv2)%Hmid.
    destruct (Hall1 _ _ Hu1 Hv1) as [Hva Hea].
    destruct (Hall2 _ _ Hu2 Hv2) as [Hvb Heb]. simpl in *.
    split; congruence.
Qed.

End isomorphism_facts.

(** ** The test of the canonicalizer *)

Lemma create_checkable_props es acc :
  Forall (λ e, is_Some (Nx.anomalous e)) es →
  Py.for_each es (λ prop props_to_add,
    a ← Nx.anomalous prop;
    if (a : bool) && negb (bool_decide (Nx.src prop = Nx.dst prop))
    then Some (Py.Continue (props_to_add ++ [(Nx.dst prop, Nx.src prop)]))
    else Some (Py.Continue props_to_add)) acc
  = Some (acc ++ reversed_anomalous es).
Proof.
  intros Hes. revert acc.
  induction Hes as [|e es [a Ha] _ IH]; intros acc; csimpl.
  - by rewrite app_nil_r.
  - rewrite Ha. simpl.
    destruct (a && negb (bool_decide (Nx.src e = Nx.dst e))); simpl.
    + rewrite IH. by rewrite <-app_assoc.
    + by rewrite IH.
Qed.

Lemma create_checkable_diagram_total g :
  Forall (λ e, is_Some (Nx.anomalous e)) (Nx.edges g) →
  Diag.create_checkable_diagram g
  = Some (foldl (λ dg prop, Nx.add_edge dg prop.1 prop.2 (Some true)) g
            (reversed_anomalous (Nx.edges g))).
Proof.
  intros Hes. unfold Diag.create_checkable_diagram.
  by rewrite (create_checkable_props _ [] Hes).
Qed.

Lemma same_topology_spec pb a b :
  checkable pb a → checkable pb b →
  ∃ t, Diag.same_topology a b = Some t
       ∧ (t = true ↔ same_topology_rel pb a b).
Proof.
  intros (Hpa & Hea) (Hpb & Heb).
  unfold Diag.same_topology, same_topology_rel. rewrite Hpa.
  case_bool_decide as Hio.
  2:{ exists false. split; [done|]. split; [done|]. by intros [? _]. }
  destruct pb.
  - rewrite !create_checkable_diagram_total by auto. simpl.
    eexists. split; [done|].
    unfold Nx.is_isomorphic_operator_anomalous.
    rewrite is_isomorphic_by_spec. split.
    + intros Hiso. split; [done|]. eauto.
    + intros [_ (ga & gb & [= <-] & [= <-] & Hiso)]. done.
  - eexists. split; [done|].
    unfold Nx.is_isomorphic_operator. rewrite is_isomorphic_by_spec.
    split; [by split|by intros [_ ?]].
Qed.

Lemma same_topology_rel_sym pb a b :
  same_topology_rel pb a b → same_topology_rel pb b a.
Proof.
  intros [Hio Hiso]. split; [done|]. destruct pb.
  - destruct Hiso as (ga & gb & Ha & Hb & Hiso).
    exists gb, ga. split_and!; try done. by apply isomorphic_sym.
  - by apply isomorphic_sym.
Qed.

Lemma same_topology_rel_trans pb a b c :
  same_topology_rel pb a b → same_topology_rel pb b c →
  same_topology_rel pb a c.
Proof.
  intros [Hio1 Hiso1] [Hio2 Hiso2]. split; [congruence|]. destruct pb.
  - destruct Hiso1 as (ga & gb & Ha & Hb & Hiso1).
    destruct Hiso2 as (gb' & gc & Hb' & Hc & Hiso2).
    assert (gb' = gb) as -> by congruence.
    exists ga, gc. split_and!; try done. by eapply isomorphic_trans.
  - by eapply isomorphic_trans.
Qed.

Lemma checkable_add_tags pb a c :
  checkable pb a → checkable pb (Diag.add_tags a c).
Proof. done. Qed.


Lemma same_topology_total pb a b :
  checkable pb a → checkable pb b → is_Some (Diag.same_topology a b).
Proof.
  intros Ha Hb. destruct (same_topology_spec pb a b Ha Hb) as (t & Ht & _).
  by exists t.
Qed.

Lemma same_topology_true pb a b :
  checkable pb a → checkable pb b →
  Diag.same_topology a b = Some true ↔ same_topology_rel pb a b.
Proof.
  intros Ha Hb. destruct (same_topology_spec pb a b Ha Hb) as (t & Ht & Hrel).
  rewrite Ht, <-Hrel. split; [by intros [= ->]|by intros ->].
Qed.

Lemma same_topology_euclid pb a b c :
  checkable pb a → checkable pb b → checkable pb c →
  Diag.same_topology a b = Some true →
  Diag.same_topology a c = Some true →
  Diag.same_topology c b = Some true.
Proof.
  intros Ha Hb Hc Hab%(same_topology_true pb) Hac%(same_topology_true pb);
    try done.
  apply (same_topology_true pb); try done.
  eapply same_topology_rel_trans; [|exact Hab].
  by apply same_topology_rel_sym.
Qed.

(** ** Isomorphic graphs have the same degrees *)








Section isomorphism_degrees.
Context {V : Type} (vl : Nx.MultiDiGraph → nat → V).
Context (g1 g2 : Nx.MultiDiGraph) (pairs : list (nat * nat)).
Hypothesis Hg1 : well_formed_graph g1.
Hypothesis Hg2 : well_formed_graph g2.
Hypothesis Hiso : isomorphism vl Nx.number_of_edges_between g1 g2 pairs.




End isomorphism_degrees.

#[global] Instance io_le_total : Total Diag.io_le.
Proof. intros [a1 a2] [b1 b2]. unfold Diag.io_le. simpl. lia. Qed.
#[global] Instance io_le_trans : Transitive Diag.io_le.
Proof.
  intros [a1 a2] [b1 b2] [c1 c2]. unfold Diag.io_le. simpl. lia.
Qed.
#[global] Instance io_le_antisymm : AntiSymm (=) Diag.io_le.
Proof.
  intros [a1 a2] [b1 b2]. unfold Diag.io_le. simpl.
  intros ? ?. f_equal; lia.
Qed.


(** ** The graph with the anomalous propagators doubled *)

Lemma foldl_add_edge g (props : list (nat * nat)) :
  Forall (λ p, p.1 ∈ Nx.nodes g ∧ p.2 ∈ Nx.nodes g) props →
  foldl (λ dg prop, Nx.add_edge dg prop.1 prop.2 (Some true)) g props
  = Nx.Graph (Nx.nodes g) (Nx.operator g)
      (Nx.edges g ++ ((λ p, Nx.Edge p.1 p.2 (Some true)) <$> props)).
Proof.
  intros Hprops. revert g Hprops.
  induction props as [|p props IH]; intros g Hprops; csimpl.
  - rewrite app_nil_r. by destruct g.
  - apply Forall_cons in Hprops as [[Hp1 Hp2] Hprops].
    assert (Nx.add_edge g p.1 p.2 (Some true)
            = Nx.Graph (Nx.nodes g) (Nx.operator g)
                (Nx.edges g ++ [Nx.Edge p.1 p.2 (Some true)])) as ->.
    { unfold Nx.add_edge, Nx.add_node.
      rewrite (bool_decide_eq_true_2 (p.1 ∈ Nx.nodes g)) by done.
      by rewrite bool_decide_eq_true_2. }
    rewrite IH by done. simpl. by rewrite <-app_assoc.
Qed.

Lemma reversed_anomalous_nodes g :
  well_formed_graph g →
  Forall (λ p, p.1 ∈ Nx.nodes g ∧ p.2 ∈ Nx.nodes g)
    (reversed_anomalous (Nx.edges g)).
Proof.
  intros [_ Hes]. apply Forall_forall.
  intros p (e & Hp & He)%list_elem_of_bind.
  rewrite Forall_forall in Hes. destruct (Hes e He) as [Hs Hd].
  destruct (_ && _); [|by apply elem_of_nil in Hp].
  apply list_elem_of_singleton in Hp as ->. done.
Qed.

Lemma create_checkable_diagram_graph g :
  well_formed_graph g →
  Forall (λ e, is_Some (Nx.anomalous e)) (Nx.edges g) →
  Diag.create_checkable_diagram g
  = Some (Nx.Graph (Nx.nodes g) (Nx.operator g)
            (Nx.edges g
             ++ ((λ p, Nx.Edge p.1 p.2 (Some true))
                   <$> reversed_anomalous (Nx.edges g)))).
Proof.
  intros Hg Hes. rewrite create_checkable_diagram_total by done.
  by rewrite foldl_add_edge by (by apply reversed_anomalous_nodes).
Qed.

Lemma existsb_length_filter {A} (f : A → bool) (P : A → Prop)
    `{∀ x, Decision (P x)} (l : list A) :
  (∀ x, f x = true ↔ P x) →
  existsb f l = bool_decide (0 < length (filter P l))%nat.
Proof.
  intros HfP. induction l as [|x l IH]; [done|].
  cbn [existsb]. rewrite filter_cons. destruct (decide (P x)) as [HP|HP].
  - rewrite (proj2 (HfP x) HP).
    symmetry. apply bool_decide_eq_true_2. simpl. lia.
  - destruct (f x) eqn:Hfx; [by apply HfP in Hfx|]. done.
Qed.

Lemma length_filter_split {A} (P : A → Prop) `{∀ x, Decision (P x)}
    (l : list A) :
  length l = (length (filter P l) + length (filter (λ x, ¬ P x) l))%nat.
Proof. by rewrite <-length_app, filter_app_complement. Qed.

(** The propagators added from [u] to [v]: one for every anomalous
    propagator from [v] to [u], when [u] and [v] differ. *)
Lemma reversed_anomalous_between (es : list Nx.edge) u v :
  filter (λ e, Nx.src e = u ∧ Nx.dst e = v)
    ((λ p, Nx.Edge p.1 p.2 (Some true)) <$> reversed_anomalous es)
  = replicate
      (if bool_decide (u = v) then 0
       else length (filter (λ e, Nx.anomalous e = Some true)
                      (filter (λ e, Nx.src e = v ∧ Nx.dst e = u) es)))
      (Nx.Edge u v (Some true)).
Proof.
  induction es as [|e es IH]; csimpl.
  - by case_bool_decide.
  - rewrite fmap_app, filter_app, IH. clear IH.
    rewrite (filter_cons (λ e, Nx.src e = v ∧ Nx.dst e = u)).
    destruct e as [s d a]. simpl.
    destruct (decide (s = v ∧ d = u)) as [[-> ->]|Hne]; simpl.
    + rewrite (bool_decide_ext (v = u) (u = v)) by done.
      case_bool_decide as Huv; simpl.
      * by rewrite andb_false_r.
      * rewrite andb_true_r, filter_cons. simpl.
        destruct a as [[]|]; simpl; [|done..].
        rewrite filter_cons. simpl. by rewrite decide_True by done.
    + destruct (default false a && negb (bool_decide (s = d))); simpl;
        [|done].
      rewrite filter_cons. simpl. rewrite decide_False by tauto. done.
Qed.

Lemma multiedge_data_doubled g u v :
  Nx.multiedge_data
    (Nx.Graph (Nx.nodes g) (Nx.operator g)
       (Nx.edges g
        ++ ((λ p, Nx.Edge p.1 p.2 (Some true))
              <$> reversed_anomalous (Nx.edges g)))) u v
  = doubled_data (bool_decide (u = v)) (edge_kinds g u v) (edge_kinds g v u).
Proof.
  unfold Nx.multiedge_data, Nx.anomalous_flags, Nx.number_of_edges_between,
    Nx.edges_between, doubled_data, edge_kinds, Nx.edges_between. simpl.
  rewrite filter_app, reversed_anomalous_between.
  set (eb := filter (λ e, Nx.src e = u ∧ Nx.dst e = v) (Nx.edges g)).
  set (extra := if bool_decide (u = v) then 0%nat else _).
  rewrite length_app, length_replicate, !existsb_app.
  rewrite (length_filter_split (λ e, Nx.anomalous e = Some true) eb).
  rewrite (existsb_length_filter _ (λ e, Nx.anomalous e = Some true) eb).
  2:{ intros [? ? [[]|]]; simpl; split; done || congruence. }
  rewrite (existsb_length_filter _ (λ e, Nx.anomalous e ≠ Some true) eb).
  2:{ intros [? ? [[]|]]; simpl; split; done || congruence. }
  f_equal. f_equal.
  - destruct extra as [|n]; simpl.
    + rewrite orb_false_r. by rewrite Nat.add_0_r.
    + rewrite orb_true_r. symmetry. apply bool_decide_eq_true_2. lia.
  - assert (existsb (λ e, negb (default false (Nx.anomalous e)))
              (replicate extra (Nx.Edge u v (Some true))) = false) as ->.
    { induction extra; simpl; done. }
    by rewrite orb_false_r.
Qed.

Lemma pairs_injective (pairs : list (nat * nat)) uu vv :
  NoDup (pairs.*1) → NoDup (pairs.*2) → uu ∈ pairs → vv ∈ pairs →
  uu.1 = vv.1 ↔ uu.2 = vv.2.
Proof.
  intros H1 H2 (i & Hi)%list_elem_of_lookup (j & Hj)%list_elem_of_lookup.
  split; intros Heq.
  - assert (i = j) as ->; [|congruence].
    apply (NoDup_lookup _ _ _ uu.1 H1); rewrite list_lookup_fmap.
    + by rewrite Hi.
    + by rewrite Hj, Heq.
  - assert (i = j) as ->; [|congruence].
    apply (NoDup_lookup _ _ _ uu.2 H2); rewrite list_lookup_fmap.
    + by rewrite Hi.
    + by rewrite Hj, Heq.
Qed.



(** ** The reduction loop of the script *)

Lemma script_iso_spec norm a b :
  script_iso norm a b = true ↔ script_isomorphic norm a b.
Proof. destruct norm; apply is_isomorphic_by_spec. Qed.


Lemma isomorphism_reduction_step norm G :
  Adg.isomorphism_reduction G norm
  = Py.for_each G (λ diag G1,
      diag ← script_label norm diag;
      Some (Py.Continue
              (if existsb (script_iso norm diag) G1 then G1
               else G1 ++ [diag]))) [].
Proof.
  unfold Adg.isomorphism_reduction.
  apply for_each_ext. intros diag G1. unfold script_label.
  destruct (if bool_decide (norm = false) then _ else _) as [d|]; simpl;
    [|done].
  destruct G1 as [|good G1]; [done|].
  rewrite (for_each_flag_break _ (script_iso norm d)).
  - simpl. by destruct (script_iso norm d good || _).
  - intros x t _. unfold script_iso.
    destruct norm; [by destruct (Nx.is_isomorphic d x)|].
    by destruct (Nx.is_isomorphic_operator d x).
Qed.

(** Labelling a labelled graph changes nothing. *)
Lemma labelled_fixed mark g g' g'' :
  labelled mark g g' → labelled mark g' g'' → g'' = g'.
Proof.
  intros (Hn & He & Hop) (Hn' & He' & Hop').
  destruct g' as [n' o' e'], g'' as [n'' o'' e'']. simpl in *. subst.
  f_equal. apply map_eq. intros u. rewrite Hop', Hop.
  by case_decide.
Qed.

Lemma script_label_total norm g :
  (norm = false → 0%nat ∈ Nx.nodes g) →
  ∃ g', script_label norm g = Some g'
        ∧ script_label norm g' = Some g'
        ∧ Nx.nodes g' = Nx.nodes g ∧ Nx.edges g' = Nx.edges g.
Proof.
  intros H0. unfold script_label. destruct norm.
  - by exists g.
  - rewrite bool_decide_eq_true_2 by done.
    destruct (adg_label_operator_spec g (H0 eq_refl)) as (g' & Hg' & Hlab).
    destruct (adg_label_operator_spec g') as (g'' & Hg'' & Hlab').
    { destruct Hlab as [-> _]. auto. }
    exists g'. split; [done|].
    rewrite Hg'', (labelled_fixed _ _ _ _ Hlab Hlab').
    by destruct Hlab as (? & ? & _).
Qed.



(** ** The canonicalizer: the claims *)



Lemma topologically_distinct_diagrams_unfold diagrams :
  Diag.topologically_distinct_diagrams diagrams
  = Py.for_each (reverse (seq 0 (length diagrams))) (λ i_diag diagrams,
      diagrams' ← Diag.merge_first_match i_diag diagrams;
      Some (Py.Continue diagrams')) diagrams.
Proof.
  unfold Diag.topologically_distinct_diagrams, Py.range_down.
  by rewrite Nat.sub_0_r.
Qed.

Lemma length_all_tags l :
  length (all_tags l) = sum_list (length ∘ Diag.tags <$> l).
Proof.
  unfold all_tags. induction l as [|d l IH]; csimpl; [done|].
  by rewrite length_app, IH.
Qed.

(** C2. The canonicalizer conserves tags: on diagrams of one class, it
    returns, the tags of the output are the tags of the input up to their
    order (none is lost, none is duplicated), so that when every input
    diagram carries exactly one tag the lengths of the output tag lists sum
    to the number of input diagrams; and a round of the inner loop either
    leaves the list as it is or deletes one later diagram [c] and appends
    its tags to those of the earlier diagram [d] it was compared with. *)
Theorem canonicalizer_conserves_tags (pb : bool)
    (diagrams : list Diag.Diagram) :
  Forall (checkable pb) diagrams →
  (∃ out,
     Diag.topologically_distinct_diagrams diagrams = Some out
     ∧ all_tags out ≡ₚ all_tags diagrams
     ∧ (Forall (λ d, length (Diag.tags d) = 1%nat) diagrams →
        sum_list (length ∘ Diag.tags <$> out) = length diagrams))
  ∧ ∀ pre d suf,
      diagrams = pre ++ d :: suf →
      ∃ out,
        Diag.merge_first_match (length pre) (pre ++ d :: suf) = Some out
        ∧ (out = pre ++ d :: suf
           ∨ ∃ r1 c r2,
               suf = r1 ++ c :: r2
               ∧ Diag.tags (Diag.add_tags d c) = Diag.tags d ++ Diag.tags c
               ∧ out = pre ++ Diag.add_tags d c :: r1 ++ r2).
Proof.
  intros HD. split.
  - destruct (topologically_distinct_loop (checkable pb)
                (checkable_add_tags pb) (same_topology_total pb)
                (same_topology_euclid pb) diagrams [])
      as (out & Hrun & _ & _ & Htags & _); [done|constructor..|].
    rewrite app_nil_r in Hrun, Htags.
    exists out. rewrite topologically_distinct_diagrams_unfold.
    split; [exact Hrun|]. split; [done|].
    intros Hone. rewrite <-length_all_tags, Htags, length_all_tags.
    clear -Hone. induction Hone as [|d l Hd _ IH]; csimpl; [done|].
    by rewrite Hd, IH.
  - intros pre d suf ->.
    apply Forall_app in HD as [_ [Hd Hsuf]%Forall_cons].
    rewrite merge_first_match_at.
    destruct (merge_first_match_spec pre d suf []) as (out & -> & Hout).
    { eapply Forall_impl; [exact Hsuf|]. intros c Hc.
      by apply (same_topology_total pb). }
    exists out. split; [done|].
    destruct Hout as [[_ ->]|(r1 & c & r2 & -> & _ & _ & ->)].
    + left. by rewrite app_nil_r.
    + right. exists r1, c, r2. by rewrite app_nil_r.
Qed.

Lemma checkable_plain l :
  Forall (λ d, Diag.projected d = false) l → Forall (checkable false) l.
Proof. intros Hl. eapply Forall_impl; [exact Hl|]. intros d Hd. by split. Qed.

Lemma canonicalizer_conserves_tags_witness :
  (∃ out,
     Diag.topologically_distinct_diagrams mbpt3_diagrams = Some out
     ∧ all_tags out ≡ₚ all_tags mbpt3_diagrams
     ∧ (Forall (λ d, length (Diag.tags d) = 1%nat) mbpt3_diagrams →
        sum_list (length ∘ Diag.tags <$> out) = length mbpt3_diagrams))
  ∧ ∀ pre d suf,
      mbpt3_diagrams = pre ++ d :: suf →
      ∃ out,
        Diag.merge_first_match (length pre) (pre ++ d :: suf) = Some out
        ∧ (out = pre ++ d :: suf
           ∨ ∃ r1 c r2,
               suf = r1 ++ c :: r2
               ∧ Diag.tags (Diag.add_tags d c) = Diag.tags d ++ Diag.tags c
               ∧ out = pre ++ Diag.add_tags d c :: r1 ++ r2).
Proof.
  apply (canonicalizer_conserves_tags false mbpt3_diagrams).
  apply checkable_plain, (bool_decide_unpack _). by vm_compute.
Defined.

(** On the three MBPT diagrams of order 3 the canonicalizer merges the third
    into the first. *)
Example canonicalizer_mbpt3 :
  ∃ d1 d2,
    Diag.topologically_distinct_diagrams mbpt3_diagrams = Some [d1; d2]
    ∧ Diag.tags d1 = [0; 0] ∧ Diag.tags d2 = [0]
    ∧ Nx.to_numpy_matrix (Diag.graph d1)
      = [[0; 2; 0]; [0; 0; 2]; [2; 0; 0]]
    ∧ Nx.to_numpy_matrix (Diag.graph d2)
      = [[0; 1; 1]; [1; 0; 1]; [1; 1; 0]].
Proof. eexists _, _. split_and!; by vm_compute. Qed.


Lemma well_formed_plain l :
  Forall (λ d,
    Diag.projected d = false
    ∧ Diag.io_degrees d
      = merge_sort Diag.io_le (io_degree_list (Diag.graph d))
    ∧ NoDup (Nx.nodes (Diag.graph d))
    ∧ Forall (λ e, Nx.src e ∈ Nx.nodes (Diag.graph d)
                   ∧ Nx.dst e ∈ Nx.nodes (Diag.graph d))
        (Nx.edges (Diag.graph d))) l →
  Forall (well_formed false) l.
Proof.
  intros Hl. eapply Forall_impl; [exact Hl|].
  intros d (Hp & Hio & Hnd & Hes). by repeat split.
Qed.


Lemma well_formed_projected l :
  Forall (λ d,
    Diag.projected d = true
    ∧ Forall (λ e, is_Some (Nx.anomalous e)) (Nx.edges (Diag.graph d))
    ∧ Diag.io_degrees d
      = merge_sort Diag.io_le (io_degree_list (Diag.graph d))
    ∧ NoDup (Nx.nodes (Diag.graph d))
    ∧ Forall (λ e, Nx.src e ∈ Nx.nodes (Diag.graph d)
                   ∧ Nx.dst e ∈ Nx.nodes (Diag.graph d))
        (Nx.edges (Diag.graph d))) l →
  Forall (well_formed true) l.
Proof.
  intros Hl. eapply Forall_impl; [exact Hl|].
  intros d (Hp & Han & Hio & Hnd & Hes). by repeat split.
Qed.


(** The hypotheses of the canonicalizer's properties hold of projected
    diagrams too: on the three diagrams above the third is merged into the
    first, and the second, which differs by the anomalous propagator only,
    is kept. *)
Lemma projected_diagrams_reduced :
  Forall (well_formed true) projected_diagrams
  ∧ ∃ d1 d2,
      Diag.topologically_distinct_diagrams projected_diagrams = Some [d1; d2]
      ∧ Diag.tags d1 = [0; 0] ∧ Diag.tags d2 = [0]
      ∧ Diag.graph d1 = Diag.graph (projected_diagram [false; false])
      ∧ Diag.graph d2 = Diag.graph (projected_diagram [false; true]).
Proof.
  split.
  - apply well_formed_projected, (bool_decide_unpack _). by vm_compute.
  - eexists _, _. split; [by vm_compute|]. by split_and!.
Qed.

(** ** The text of the adjacency matrices *)

Lemma string_app_nil (b : string) : ("" +:+ b = b)%string.
Proof. reflexivity. Qed.

Lemma string_app_cons x (a b : string) :
  (String x a +:+ b = String x (a +:+ b))%string.
Proof. reflexivity. Qed.

Lemma string_app_assoc (a b c : string) :
  ((a +:+ b) +:+ c = a +:+ (b +:+ c))%string.
Proof.
  induction a as [|x a IH]; [done|].
  by rewrite !string_app_cons, IH.
Qed.

Lemma occurs_app c (a b : string) :
  Text.occurs c (a +:+ b) = Text.occurs c a || Text.occurs c b.
Proof.
  induction a as [|x a IH]; [done|].
  rewrite string_app_cons. simpl. by rewrite IH, orb_assoc.
Qed.

Lemma split_on_no_sep c (t : string) :
  Text.occurs c t = false → Text.split_on c t = [t].
Proof.
  induction t as [|a t IH]; simpl; [done|].
  intros [Ha Ht]%orb_false_iff. by rewrite Ha, IH.
Qed.

Lemma split_on_app_sep c (t s : string) :
  Text.occurs c t = false →
  Text.split_on c (t +:+ String c s) = t :: Text.split_on c s.
Proof.
  induction t as [|a t IH].
  - intros _. rewrite string_app_nil. simpl. by rewrite Ascii.eqb_refl.
  - rewrite string_app_cons. simpl.
    intros [Ha Ht]%orb_false_iff. by rewrite Ha, IH.
Qed.

(** The decimal digits of a number contain neither a space nor a newline. *)
Lemma string_of_uint_no_sep (c : ascii) d :
  c = " "%char ∨ c = ascii_of_nat 10 →
  Text.occurs c (NilEmpty.string_of_uint d) = false.
Proof. intros [->| ->]; induction d; simpl; done. Qed.

Lemma fmt_d_no_sep (c : ascii) z :
  c = " "%char ∨ c = ascii_of_nat 10 → Text.occurs c (Np.fmt_d z) = false.
Proof.
  intros Hc. unfold Np.fmt_d, NilZero.string_of_int, NilZero.string_of_uint.
  destruct (Z.to_int z) as [d|d].
  - destruct d; try by apply (string_of_uint_no_sep c _ Hc).
    by destruct Hc as [->| ->].
  - simpl. rewrite orb_false_iff. split; [by destruct Hc as [->| ->]|].
    destruct d; try by apply (string_of_uint_no_sep c _ Hc).
    by destruct Hc as [->| ->].
Qed.

Lemma fmt_d_nonempty z : Text.nonempty (Np.fmt_d z) = true.
Proof.
  unfold Np.fmt_d, NilZero.string_of_int, NilZero.string_of_uint.
  destruct (Z.to_int z) as [d|d]; [|done].
  by destruct d.
Qed.

Lemma read_int_fmt_d z : Text.read_int (Np.fmt_d z) = Some z.
Proof.
  unfold Text.read_int, Np.fmt_d.
  rewrite NilZero.isi.
  - simpl. by rewrite DecimalZ.of_to.
  - destruct z; simpl; try done.
    intros [= H]. by apply DecimalPos.Unsigned.to_uint_nonnil in H.
  - destruct z; simpl; try done.
    intros [= H]. by apply DecimalPos.Unsigned.to_uint_nonnil in H.
Qed.

Lemma join_cons_cons sep (x y : string) l :
  Np.join sep (x :: y :: l) = (x +:+ sep +:+ Np.join sep (y :: l))%string.
Proof. done. Qed.

Lemma join_no_sep c sep (ts : list string) :
  Text.occurs c sep = false →
  Forall (λ t, Text.occurs c t = false) ts →
  Text.occurs c (Np.join sep ts) = false.
Proof.
  intros Hsep. induction 1 as [|x ts Hx Hts IH]; [done|].
  destruct ts as [|y ts]; [done|].
  rewrite join_cons_cons, !occurs_app, Hx, Hsep, IH. done.
Qed.

Lemma join_nonempty sep (ts : list string) :
  ts ≠ [] → Forall (λ t, Text.nonempty t = true) ts →
  Text.nonempty (Np.join sep ts) = true.
Proof.
  intros Hne Hts. destruct Hts as [|x ts Hx Hts]; [done|].
  destruct ts as [|y ts]; [done|].
  rewrite join_cons_cons. by destruct x.
Qed.

Lemma split_join (ts : list string) :
  ts ≠ [] → Forall (λ t, Text.occurs " " t = false) ts →
  Text.split_on " " (Np.join " " ts) = ts.
Proof.
  intros Hne Hts. induction Hts as [|x ts Hx Hts IH]; [done|].
  destruct ts as [|y ts]; [by apply split_on_no_sep|].
  rewrite join_cons_cons.
  change (" " +:+ Np.join " " (y :: ts))%string
    with (String " " (Np.join " " (y :: ts))).
  rewrite split_on_app_sep by done. by rewrite IH.
Qed.

Lemma read_row_row_text (row : list Z) :
  row ≠ [] → Text.read_row (row_text row) = Some row.
Proof.
  intros Hne. unfold Text.read_row, row_text.
  rewrite split_join.
  - assert (List.filter Text.nonempty (Np.fmt_d <$> row) = Np.fmt_d <$> row)
      as ->.
    { clear Hne. induction row as [|z row IH]; csimpl; [done|].
      by rewrite fmt_d_nonempty, IH. }
    apply mapM_Some. clear Hne.
    induction row as [|z row IH]; csimpl; constructor; [|done].
    apply read_int_fmt_d.
  - by destruct row.
  - apply Forall_fmap, Forall_true. intros z. apply fmt_d_no_sep. by left.
Qed.

Lemma row_text_no_newline row :
  Text.occurs (ascii_of_nat 10) (row_text row) = false.
Proof.
  apply join_no_sep; [done|].
  apply Forall_fmap, Forall_true. intros z. apply fmt_d_no_sep. by right.
Qed.

Lemma row_text_nonempty row :
  row ≠ [] → Text.nonempty (row_text row) = true.
Proof.
  intros Hne. apply join_nonempty; [by destruct row|].
  apply Forall_fmap, Forall_true. intros z. apply fmt_d_nonempty.
Qed.

(** The lines of the text written by [savetxt] with ['%d']. *)
Lemma lines_savetxt (m : matrix) (rest : string) :
  Text.lines (Np.savetxt Np.fmt_d m +:+ rest)
  = (row_text <$> m) ++ Text.lines rest.
Proof.
  induction m as [|row m IH]; csimpl; [done|].
  rewrite !string_app_assoc.
  change (Np.newline +:+ (Np.savetxt Np.fmt_d m +:+ rest))%string
    with (String (ascii_of_nat 10) (Np.savetxt Np.fmt_d m +:+ rest)).
  unfold Text.lines in *.
  rewrite split_on_app_sep by apply row_text_no_newline.
  by rewrite IH.
Qed.

Lemma take_while_rows (m : matrix) (l : list string) :
  Forall (λ row, row ≠ []) m →
  Text.take_while Text.nonempty ((row_text <$> m) ++ EmptyString :: l)
  = row_text <$> m.
Proof.
  induction 1 as [|row m Hrow _ IH]; csimpl; [done|].
  by rewrite row_text_nonempty, IH.
Qed.

(** Reading back the block of a matrix without empty row. *)
Lemma read_matrix_block_savetxt (m : matrix) :
  Forall (λ row, row ≠ []) m →
  Text.read_matrix_block (Np.savetxt Np.fmt_d m +:+ Np.newline) = Some m.
Proof.
  intros Hm. unfold Text.read_matrix_block.
  rewrite lines_savetxt.
  change (Text.lines Np.newline) with [EmptyString; EmptyString].
  rewrite take_while_rows by done.
  apply mapM_Some. induction Hm as [|row m Hrow _ IH]; csimpl; constructor;
    [|done].
  by apply read_row_row_text.
Qed.

Lemma to_numpy_matrix_rows g :
  Forall (λ row, row ≠ []) (Nx.to_numpy_matrix g).
Proof.
  unfold Nx.to_numpy_matrix. apply Forall_fmap, Forall_forall.
  intros u Hu. simpl. destruct (Nx.nodes g); [by apply elem_of_nil in Hu|].
  done.
Qed.

Lemma header_text_no_newline k :
  Text.occurs (ascii_of_nat 10) (header_text k) = false.
Proof.
  unfold header_text. rewrite occurs_app, fmt_d_no_sep by (by right). done.
Qed.

Lemma print_adj_matrices_lines_from (off : nat) (ds : list Diag.Diagram) :
  Text.lines
    (foldr (λ '(idx, diagram) out,
        ("Diagram n: " +:+ Np.fmt_d (Z.of_nat idx + 1) +:+ Np.newline
         +:+ Np.savetxt Np.fmt_d (Nx.to_numpy_matrix (Diag.graph diagram))
         +:+ Np.newline +:+ out)%string)
       ""%string (imap (λ i d, ((off + i)%nat, d)) ds))
  = mjoin (imap (λ i d,
             header_text (Z.of_nat (off + i) + 1)
             :: (row_text <$> Nx.to_numpy_matrix (Diag.graph d))
             ++ [EmptyString]) ds)
    ++ [EmptyString].
Proof.
  revert off. induction ds as [|d ds IH]; intros off; [done|].
  rewrite !imap_cons. cbn [foldr mjoin list_join].
  rewrite (imap_ext _ (λ i d, ((S off + i)%nat, d)))
    by (intros; simpl; f_equal; lia).
  rewrite (imap_ext (_ ∘ S)
    (λ i d, header_text (Z.of_nat (S off + i) + 1)
            :: (row_text <$> Nx.to_numpy_matrix (Diag.graph d))
            ++ [EmptyString]))
    by (intros; simpl; do 3 f_equal; lia).
  rewrite <-(string_app_assoc "Diagram n: ").
  fold (header_text (Z.of_nat (off + 0) + 1)).
  match goal with
  | |- context [(Np.newline +:+ ?r)%string] =>
      change (Np.newline +:+ r)%string with (String (ascii_of_nat 10) r)
  end.
  unfold Text.lines.
  rewrite split_on_app_sep by apply header_text_no_newline.
  fold (Text.lines
          (Np.savetxt Np.fmt_d (Nx.to_numpy_matrix (Diag.graph d))
           +:+ Np.newline
           +:+ foldr (λ '(idx, diagram) out,
                 ("Diagram n: " +:+ Np.fmt_d (Z.of_nat idx + 1) +:+ Np.newline
                  +:+ Np.savetxt Np.fmt_d
                        (Nx.to_numpy_matrix (Diag.graph diagram))
                  +:+ Np.newline +:+ out)%string)
               ""%string (imap (λ i d, ((S off + i)%nat, d)) ds))).
  rewrite lines_savetxt.
  match goal with
  | |- context [Text.lines (Np.newline +:+ ?r)%string] =>
      change (Text.lines (Np.newline +:+ r)%string)
        with (EmptyString :: Text.lines r)
  end.
  rewrite IH. simpl. by rewrite <-!app_assoc.
Qed.

(** The text written by [print_adj_matrices] of [adg/diag.py]: one block per
    diagram, made of a header line with the number of the diagram (from 1),
    one line per row of the adjacency matrix with the entries in decimal
    separated by a space, and an empty line; and the block of a matrix reads
    back to the matrix. *)
Lemma print_adj_matrices_format_round_trip (diagrams : list Diag.Diagram) :
  Text.lines (Diag.print_adj_matrices diagrams)
  = mjoin (imap (λ idx d,
             header_text (Z.of_nat idx + 1)
             :: (row_text <$> Nx.to_numpy_matrix (Diag.graph d))
             ++ [EmptyString]) diagrams)
    ++ [EmptyString]
  ∧ ∀ d, d ∈ diagrams →
      Text.read_matrix_block
        (Np.savetxt Np.fmt_d (Nx.to_numpy_matrix (Diag.graph d))
         +:+ Np.newline)
      = Some (Nx.to_numpy_matrix (Diag.graph d)).
Proof.
  split.
  - apply (print_adj_matrices_lines_from 0 diagrams).
  - intros d _. apply read_matrix_block_savetxt, to_numpy_matrix_rows.
Qed.

(** C9 fails on the script: for the one diagram of MBPT at order 2 the text
    written to [Diagrams.list] has no header line of its own (the first row
    of the matrix follows the index on the same line, the header being
    written without a newline), and the entries are written in the
    ['%.18e'] format, which is not an integer; the block does not read back.
    [print_adj_matrices] of [adg/diag.py] writes the same diagram as a
    header line, two lines of integers and an empty line, and its block
    reads back to the matrix. *)
Theorem diagrams_list_text_breaks_format :
  ∃ d,
    Diag.Diagram_init (Nx.from_numpy_matrix [[0; 2]; [2; 0]]) = Some d
    ∧ Text.lines (Adg.diagrams_list_text [[[0; 2]; [2; 0]]])
      = ["Diagram n: 00.000000000000000000e+00 2.000000000000000000e+00";
         "2.000000000000000000e+00 0.000000000000000000e+00"; ""; ""]%string
    ∧ Text.read_int "2.000000000000000000e+00" = None
    ∧ Text.read_matrix_block
        (Np.savetxt Np.fmt_18e [[0; 2]; [2; 0]] +:+ Np.newline) = None
    ∧ Text.lines (Diag.print_adj_matrices [d])
      = ["Diagram n: 1"; "0 2"; "2 0"; ""; ""]%string
    ∧ Text.read_matrix_block
        (Np.savetxt Np.fmt_d (Nx.to_numpy_matrix (Diag.graph d))
         +:+ Np.newline) = Some [[0; 2]; [2; 0]].
Proof. eexists. split_and!; by vm_compute. Qed.

(** ** The filters on matrices *)


Lemma filter_opt_app {A} (test : A → option bool) l1 l2 :
  filter_opt test (l1 ++ l2)
  = r2 ← filter_opt test l2; r1 ← filter_opt test l1; Some (r1 ++ r2).
Proof.
  induction l1 as [|x l1 IH]; simpl.
  - by destruct (filter_opt test l2).
  - rewrite IH. destruct (test x) as [t|]; simpl;
      destruct (filter_opt test l2); simpl; try done.
    by destruct (filter_opt test l1); simpl; destruct t.
Qed.

Lemma filter_opt_Some {A} (test : A → option bool) (P : A → Prop)
    `{∀ x, Decision (P x)} l :
  Forall (λ x, test x = Some (bool_decide (P x))) l →
  filter_opt test l = Some (filter P l).
Proof.
  induction 1 as [|x l Hx _ IH]; simpl; [done|].
  rewrite Hx, IH. simpl. rewrite filter_cons.
  by destruct (decide (P x)); [rewrite bool_decide_true|rewrite bool_decide_false].
Qed.

Lemma filter_opt_None {A} (test : A → option bool) l x :
  x ∈ l → test x = None → filter_opt test l = None.
Proof.
  intros Hx Hn. induction Hx as [x l|x y l Hx IH]; simpl.
  - by rewrite Hn.
  - rewrite IH by done. by destruct (test y).
Qed.

(** The copying filter loop of the script. *)
Lemma for_each_append_filter_opt {A} (test : A → option bool) l acc :
  Py.for_each l (λ x acc,
    t ← test x;
    Some (Py.Continue (if t : bool then acc ++ [x] else acc))) acc
  = r ← filter_opt test l; Some (acc ++ r).
Proof.
  revert acc. induction l as [|x l IH]; intros acc; simpl.
  - by rewrite app_nil_r.
  - destruct (test x) as [t|]; simpl; [|done]. rewrite IH.
    destruct (filter_opt test l) as [r|]; simpl; [|done].
    destruct t; [by rewrite <-app_assoc|done].
Qed.

(** The in-place filter loop of the modules. *)
Lemma for_each_delete_filter_opt {A} (test : A → option bool) pre suf :
  Py.for_each (Py.range_down (length pre) 0) (λ i l,
    x ← l !! i;
    t ← test x;
    Some (Py.Continue (if t : bool then l else delete i l))) (pre ++ suf)
  = r ← filter_opt test pre; Some (r ++ suf).
Proof.
  revert suf. induction pre as [|x pre IH] using rev_ind; intros suf; [done|].
  unfold Py.range_down in *.
  rewrite length_app, Nat.add_1_r, Nat.sub_0_r. simpl length.
  rewrite seq_S, reverse_snoc. simpl.
  rewrite <-app_assoc. simpl.
  rewrite list_lookup_middle by done. simpl.
  rewrite filter_opt_app. simpl.
  destruct (test x) as [t|]; simpl; [|done].
  destruct t.
  - specialize (IH (x :: suf)). rewrite Nat.sub_0_r in IH. rewrite IH.
    destruct (filter_opt test pre); simpl; [|done].
    by rewrite <-app_assoc.
  - rewrite delete_middle.
    specialize (IH suf). rewrite Nat.sub_0_r in IH. rewrite IH.
    destruct (filter_opt test pre); simpl; [|done].
    by rewrite app_nil_r.
Qed.

(** The flag loops over the lines of a matrix: the flag is cleared at the
    first line whose diagonal entry satisfies [c]. *)
Lemma diagonal_flag_loop (c : Z → bool) (m : matrix) n :
  square n m →
  Py.for_each (Py.enumerate m) (λ '(i, line) test,
    x ← line !! i;
    if c x then Some (Py.Break false) else Some (Py.Continue test)) true
  = Some (negb (existsb c (diagonal m))).
Proof.
  intros [Hlen Hrows].
  rewrite (for_each_flag_break _
    (λ ir : nat * list Z, c (default 0 (ir.2 !! ir.1)))).
  - f_equal. unfold diagonal, Py.enumerate.
    assert (∀ (f : nat → list Z → nat * list Z) g,
      (∀ i r, g i r = default 0 ((f i r).2 !! (f i r).1)) →
      existsb (λ ir : nat * list Z, c (default 0 (ir.2 !! ir.1))) (imap f m)
      = existsb c (imap g m)) as Hgen.
    { clear. induction m as [|r m IH]; intros f g Hfg; [done|].
      rewrite !imap_cons. simpl. rewrite <-Hfg. f_equal.
      apply IH. intros i r'. apply Hfg. }
    by rewrite (Hgen _ (λ i row, default 0 (row !! i))).
  - intros [i row] t (i' & row' & [= -> ->] & Hrow)%elem_of_lookup_imap.
    rewrite Forall_forall in Hrows.
    assert (length row' = n) as Hr
      by (apply Hrows, list_elem_of_lookup; eauto).
    apply lookup_lt_Some in Hrow.
    destruct (lookup_lt_is_Some_2 row' i') as [x Hx]; [lia|].
    simpl. rewrite Hx. simpl. by destruct (c x).
Qed.


Lemma negb_existsb_Forall {A} (c : A → bool) (P : A → Prop)
    `{∀ x, Decision (P x)} l :
  (∀ x, c x = negb (bool_decide (P x))) →
  negb (existsb c l) = bool_decide (Forall P l).
Proof.
  intros Hc. induction l as [|x l IH]; simpl; [done|].
  rewrite negb_orb, IH, Hc, negb_involutive, <-bool_decide_and.
  apply bool_decide_ext. by rewrite Forall_cons.
Qed.

Lemma diag_no_trace_test_square n m :
  square n m →
  Diag.no_trace_test m
  = Some (bool_decide (Forall (λ x, x = 0) (diagonal m))).
Proof.
  intros Hsq. unfold Diag.no_trace_test.
  rewrite <-(negb_existsb_Forall (λ x, bool_decide (x ≠ 0))).
  - by apply (diagonal_flag_loop (λ x, bool_decide (x ≠ 0)) m n).
  - intros x. destruct (decide (x = 0)) as [->|Hx].
    + by rewrite bool_decide_eq_false_2, bool_decide_eq_true_2 by auto.
    + by rewrite bool_decide_eq_true_2, bool_decide_eq_false_2.
Qed.

Lemma g_test_square n m :
  square n m →
  Adg.g_test m = Some (bool_decide (1 ∉ diagonal m)).
Proof.
  intros Hsq. unfold Adg.g_test.
  rewrite (diagonal_flag_loop (λ x, bool_decide (x = 1)) m n Hsq).
  f_equal. rewrite (negb_existsb_Forall _ (λ x, x ≠ 1)).
  - apply bool_decide_ext. rewrite Forall_forall. split.
    + intros Hall Hin. by apply (Hall 1).
    + intros Hnin x Hx ->. done.
  - intros x. destruct (decide (x = 1)) as [->|Hx].
    + by rewrite bool_decide_eq_true_2, bool_decide_eq_false_2 by auto.
    + by rewrite bool_decide_eq_false_2, bool_decide_eq_true_2.
Qed.

(** X1. [no_trace] of [adg/diag.py] on square matrices: exactly the
    matrices whose diagonal is zero everywhere are kept, in order. *)
Theorem diag_no_trace_keeps_zero_diagonal (matrices : list matrix) :
  Forall (λ m, ∃ n, square n m) matrices →
  Diag.no_trace matrices
  = Some (filter (λ m, Forall (λ x, x = 0) (diagonal m)) matrices).
Proof.
  intros Hsq. unfold Diag.no_trace.
  rewrite for_each_append_filter_opt.
  rewrite (filter_opt_Some _ (λ m, Forall (λ x, x = 0) (diagonal m))); [done|].
  eapply Forall_impl; [exact Hsq|].
  intros m [n Hm]. by apply (diag_no_trace_test_square n).
Qed.

Lemma diag_no_trace_keeps_zero_diagonal_witness :
  Diag.no_trace [[[0; 1]; [1; 0]]; [[0; 1]; [1; 2]]]
  = Some (filter (λ m, Forall (λ x, x = 0) (diagonal m))
            [[[0; 1]; [1; 0]]; [[0; 1]; [1; 2]]]).
Proof.
  apply diag_no_trace_keeps_zero_diagonal.
  repeat constructor; exists 2%nat; by repeat constructor.
Defined.

(** X2. [g] of the script and [no_trace] of [methods.py] are the same
    filter: on square matrices they keep exactly the matrices without a 1 on
    the diagonal, so a matrix with another non-zero diagonal entry stays.
    They agree with [no_trace] of [adg/diag.py] when the diagonals hold
    zeros and ones only. *)
Theorem g_keeps_diagonal_without_one (matrices : list matrix) :
  Forall (λ m, ∃ n, square n m) matrices →
  Adg.g matrices = Some (filter (λ m, 1 ∉ diagonal m) matrices)
  ∧ Methods.no_trace matrices = Adg.g matrices
  ∧ (Forall (λ m, Forall (λ x, x = 0 ∨ x = 1) (diagonal m)) matrices →
     Diag.no_trace matrices = Adg.g matrices).
Proof.
  intros Hsq.
  assert (Adg.g matrices = Some (filter (λ m, 1 ∉ diagonal m) matrices))
    as Hg.
  { unfold Adg.g. rewrite for_each_append_filter_opt.
    rewrite (filter_opt_Some _ (λ m, 1 ∉ diagonal m)); [done|].
    eapply Forall_impl; [exact Hsq|].
    intros m [n Hm]. by apply (g_test_square n). }
  split_and!; [done|done|].
  intros Hbits. rewrite Hg, diag_no_trace_keeps_zero_diagonal by done.
  f_equal. clear Hg Hsq.
  induction Hbits as [|m ms Hm _ IH]; [done|].
  rewrite !filter_cons, IH.
  destruct (decide (Forall (λ x, x = 0) (diagonal m))) as [Hz|Hz],
    (decide (1 ∉ diagonal m)) as [Ho|Ho]; try done.
  - destruct Ho. intros Hin. rewrite Forall_forall in Hz.
    by specialize (Hz 1 Hin).
  - destruct Hz. rewrite Forall_forall in Hm |- *.
    intros x Hx. destruct (Hm x Hx) as [->| ->]; [done|]. by destruct Ho.
Qed.

Lemma g_keeps_diagonal_without_one_witness :
  Adg.g [[[0; 1]; [1; 0]]; [[1; 0]; [0; 1]]; [[0; 0]; [0; 0]]]
    = Some (filter (λ m, 1 ∉ diagonal m)
              [[[0; 1]; [1; 0]]; [[1; 0]; [0; 1]]; [[0; 0]; [0; 0]]])
  ∧ Methods.no_trace [[[0; 1]; [1; 0]]; [[1; 0]; [0; 1]]; [[0; 0]; [0; 0]]]
    = Adg.g [[[0; 1]; [1; 0]]; [[1; 0]; [0; 1]]; [[0; 0]; [0; 0]]]
  ∧ (Forall (λ m, Forall (λ x, x = 0 ∨ x = 1) (diagonal m))
       [[[0; 1]; [1; 0]]; [[1; 0]; [0; 1]]; [[0; 0]; [0; 0]]] →
     Diag.no_trace [[[0; 1]; [1; 0]]; [[1; 0]; [0; 1]]; [[0; 0]; [0; 0]]]
     = Adg.g [[[0; 1]; [1; 0]]; [[1; 0]; [0; 1]]; [[0; 0]; [0; 0]]]).
Proof.
  apply g_keeps_diagonal_without_one.
  repeat constructor; exists 2%nat; by repeat constructor.
Defined.

(** The vertex loop of [check_degree] in [methods.py] deletes the matrix
    exactly when the test of the script fails. *)
Lemma methods_check_degree_inner (m : matrix) (three_N : bool) (w : nat)
    (xs : list nat) (i_mat : nat) (matrices : list matrix) :
  Py.for_each xs (λ ind_i matrices,
    degree ← Py.for_each (Py.range w) (λ ind_j acc,
      a ← getitem2 m ind_i ind_j;
      b ← getitem2 m ind_j ind_i;
      Some (Py.Continue (acc + (a + b)))) 0;
    if bool_decide (degree ≠ 2) && bool_decide (degree ≠ 4) then
      if negb three_N || bool_decide (degree ≠ 6)
      then Some (Py.Break (delete i_mat matrices))
      else Some (Py.Continue matrices)
    else Some (Py.Continue matrices)) matrices
  = t ← Py.for_each xs (λ i test,
      degree ← Py.for_each (Py.range w) (λ j degree,
        a ← getitem2 m i j;
        b ← getitem2 m j i;
        Some (Py.Continue (degree + (a + b)))) 0;
      if bool_decide (degree ≠ 2) && bool_decide (degree ≠ 4) then
        if bool_decide (three_N = false) || bool_decide (degree ≠ 6)
        then Some (Py.Break false)
        else Some (Py.Continue test)
      else Some (Py.Continue test)) true;
    Some (if t : bool then matrices else delete i_mat matrices).
Proof.
  replace (bool_decide (three_N = false)) with (negb three_N)
    by (by destruct three_N).
  induction xs as [|x xs IH]; simpl; [done|].
  destruct (Py.for_each (Py.range w) _ 0) as [degree|]; simpl; [|done].
  destruct (bool_decide (degree ≠ 2) && bool_decide (degree ≠ 4));
    [|exact IH].
  destruct (negb three_N || bool_decide (degree ≠ 6)); [done|exact IH].
Qed.

(** X3. The in-place filters of [methods.py] and the copying filters of the
    script are the same functions of the list: [check_degree] and [no_loop]
    return the same matrices in the same order on every input, and raise on
    the same inputs, although the former walk the list from its end. *)
Theorem in_place_filters_agree (matrices : list matrix) (three_N : bool) :
  Methods.check_degree matrices three_N = Adg.check_degree matrices three_N
  ∧ Methods.no_loop matrices = Adg.no_loop matrices.
Proof.
  split.
  - unfold Methods.check_degree, Adg.check_degree.
    rewrite for_each_append_filter_opt.
    pose proof (for_each_delete_filter_opt
      (λ m, Adg.check_degree_test m three_N) matrices []) as Hdel.
    rewrite !app_nil_r in Hdel.
    destruct (filter_opt _ matrices) as [r|] eqn:Hr; simpl in *.
    + rewrite app_nil_r in Hdel. rewrite <-Hdel.
      apply for_each_ext. intros i l.
      destruct (l !! i) as [m|]; simpl; [|done].
      unfold Adg.check_degree_test.
      destruct (m !! 0%nat) as [row0|]; simpl; [|done].
      rewrite methods_check_degree_inner.
      by destruct (Py.for_each (Py.range (length row0)) _ true).
    + rewrite <-Hdel.
      apply for_each_ext. intros i l.
      destruct (l !! i) as [m|]; simpl; [|done].
      unfold Adg.check_degree_test.
      destruct (m !! 0%nat) as [row0|]; simpl; [|done].
      rewrite methods_check_degree_inner.
      by destruct (Py.for_each (Py.range (length row0)) _ true).
  - unfold Methods.no_loop, Adg.no_loop.
    rewrite for_each_append_filter_opt.
    pose proof (for_each_delete_filter_opt Adg.no_loop_test matrices [])
      as Hdel.
    rewrite !app_nil_r in Hdel.
    change Methods.no_loop_test with Adg.no_loop_test.
    rewrite Hdel. destruct (filter_opt _ matrices); simpl; [|done].
    by rewrite app_nil_r.
Qed.

Lemma v0_specs_test_spec (m : matrix) :
  Adg.v0_specs_test m
  = if bool_decide (m = []) then None
    else Some (bool_decide (first_line_zero m)).
Proof.
  unfold Adg.v0_specs_test, first_line_zero.
  destruct m as [|line m]; [done|]. simpl.
  rewrite (for_each_flag_break _
    (λ i, bool_decide (default 0 (line !! i) ≠ 0))).
  - f_equal. unfold Py.range.
    transitivity (negb (existsb (λ x, bool_decide (x ≠ 0)) line)).
    + destruct (existsb _ (seq _ _)) eqn:E1, (existsb _ line) eqn:E2;
        try done; exfalso.
      * apply existsb_exists in E1 as (i & Hi & Hc).
        apply not_true_iff_false in E2. apply E2, existsb_exists.
        apply list_elem_of_In, elem_of_seq in Hi.
        destruct (lookup_lt_is_Some_2 line i) as [x Hx]; [lia|].
        rewrite Hx in Hc. exists x. split; [|done].
        by apply list_elem_of_In, list_elem_of_lookup_2 with i.
      * apply existsb_exists in E2 as (x & Hx & Hc).
        apply not_true_iff_false in E1. apply E1, existsb_exists.
        apply list_elem_of_In, list_elem_of_lookup in Hx as [i Hi].
        exists i. split; [|by rewrite Hi].
        apply list_elem_of_In, elem_of_seq.
        apply lookup_lt_Some in Hi. lia.
    + apply (negb_existsb_Forall _ (λ x, x = 0)).
      intros x. destruct (decide (x = 0)) as [->|Hx].
      * by rewrite bool_decide_eq_false_2, bool_decide_eq_true_2 by auto.
      * by rewrite bool_decide_eq_true_2, bool_decide_eq_false_2.
  - intros i t Hi%elem_of_seq.
    destruct (lookup_lt_is_Some_2 line i) as [x Hx]; [lia|].
    rewrite Hx. simpl. by destruct (bool_decide (x ≠ 0)).
Qed.

(** X4. [v0_specs] fails when the list holds a matrix without lines, and
    otherwise keeps, in order, exactly the matrices whose first line holds
    zeros only. *)
Theorem v0_specs_keeps_zero_first_line (matrices : list matrix) :
  Adg.v0_specs matrices
  = if bool_decide ([] ∈ matrices) then None
    else Some (filter first_line_zero matrices).
Proof.
  unfold Adg.v0_specs. rewrite for_each_append_filter_opt.
  destruct (decide ([] ∈ matrices)) as [Hin|Hnin].
  - rewrite bool_decide_eq_true_2 by done.
    by rewrite (filter_opt_None _ _ [] Hin).
  - rewrite bool_decide_eq_false_2 by done.
    rewrite (filter_opt_Some _ first_line_zero); [done|].
    apply Forall_forall. intros m Hm. rewrite v0_specs_test_spec.
    rewrite bool_decide_eq_false_2; [done|]. by intros ->.
Qed.

Lemma replicate_snoc {A} (n : nat) (x : A) :
  replicate n x ++ [x] = replicate (S n) x.
Proof. induction n as [|n IH]; simpl; [done|]. by rewrite IH. Qed.

Lemma empty_matrix_line (size : nat) (done_lines : matrix) (k : nat) :
  foldl (λ empty_matrix (element : nat),
      alter (λ row, row ++ [0]) (length done_lines) empty_matrix)
    (done_lines ++ [[]]) (seq k size)
  = done_lines ++ [replicate size 0].
Proof.
  enough (∀ j, foldl (λ empty_matrix (element : nat),
              alter (λ row, row ++ [0]) (length done_lines) empty_matrix)
            (done_lines ++ [replicate j 0]) (seq k size)
          = done_lines ++ [replicate (j + size) 0]) as H by apply (H 0%nat).
  revert k. induction size as [|size IH]; intros k j; simpl.
  - by rewrite Nat.add_0_r.
  - rewrite (alter_app_r_alt _ done_lines _ (length done_lines)) by done.
    rewrite Nat.sub_diag. simpl. rewrite replicate_snoc, (IH (S k) (S j)).
    by rewrite Nat.add_succ_r.
Qed.

Lemma empty_matrix_lines (size n : nat) (done_lines : matrix) :
  foldl (λ empty_matrix (line : nat),
      foldl (λ empty_matrix (element : nat),
          alter (λ row, row ++ [0]) line empty_matrix)
        (empty_matrix ++ [[]]) (Py.range size))
    done_lines (seq (length done_lines) n)
  = done_lines ++ replicate n (replicate size 0).
Proof.
  unfold Py.range.
  revert done_lines. induction n as [|n IH]; intros done_lines.
  - simpl. by rewrite app_nil_r.
  - cbn [seq foldl replicate]. rewrite empty_matrix_line.
    specialize (IH (done_lines ++ [replicate size 0])).
    rewrite length_app, Nat.add_1_r in IH. simpl in IH.
    by rewrite IH, <-app_assoc.
Qed.

(** X5. [empty_matrix_generation(size)] is the matrix of [size] lines of
    [size] zeros each, the matrix the generators of the script start
    from. *)
Theorem empty_matrix_generation_zeros (size : nat) :
  Methods.empty_matrix_generation size = Adg.empty_mat size
  ∧ square size (Methods.empty_matrix_generation size)
  ∧ ∀ i j, (i < size)%nat → (j < size)%nat →
      getitem2 (Methods.empty_matrix_generation size) i j = Some 0.
Proof.
  assert (Methods.empty_matrix_generation size
          = replicate size (replicate size 0)) as Heq.
  { unfold Methods.empty_matrix_generation.
    apply (empty_matrix_lines size size []). }
  rewrite Heq. split_and!; [done| |].
  - split; [by rewrite length_replicate|].
    apply Forall_replicate. by rewrite length_replicate.
  - intros i j Hi Hj. unfold getitem2.
    rewrite lookup_replicate_2 by done. simpl.
    by rewrite lookup_replicate_2.
Qed.

(** ** The generators of BMBPT matrices *)

Lemma for_each_invariant {A S} (J : S → Prop) (xs : list A)
    (body : A → S → option (Py.ctl S)) (s : S) :
  J s →
  (∀ x s, x ∈ xs → J s → ∃ s', body x s = Some (Py.Continue s') ∧ J s') →
  ∃ s', Py.for_each xs body s = Some s' ∧ J s'.
Proof.
  revert s. induction xs as [|x xs IH]; intros s Hs Hb; simpl; [by eauto|].
  destruct (Hb x s) as (s' & -> & Hs'); [by left|done|].
  apply IH; [done|]. intros y t Hy. apply Hb. by right.
Qed.

Lemma setitem2_shape op n m i j x :
  bmbpt_shape op n m → (i < n)%nat → (j < n)%nat →
  (op = true → i ≠ 0%nat) → 0 ≤ x →
  ∃ m', setitem2 m i j x = Some m' ∧ bmbpt_shape op n m'.
Proof.
  intros ([Hlen Hrows] & Hpos & Hfirst) Hi Hj Hop Hx. unfold setitem2.
  destruct (lookup_lt_is_Some_2 m i) as [row Hrow]; [lia|].
  rewrite Hrow. simpl.
  assert (length row = n) as Hr.
  { rewrite Forall_forall in Hrows. apply Hrows.
    by eapply list_elem_of_lookup_2. }
  rewrite bool_decide_eq_true_2 by lia.
  eexists. split; [done|]. split_and!.
  - split; [by rewrite length_insert|].
    apply Forall_insert; [done|]. by rewrite length_insert.
  - apply Forall_insert; [done|]. apply Forall_insert; [|done].
    unfold nonnegative in Hpos. rewrite Forall_forall in Hpos.
    apply Hpos. by eapply list_elem_of_lookup_2.
  - intros Hopt. unfold first_line_zero.
    rewrite list_lookup_insert_ne by (by apply Hop).
    by apply Hfirst.
Qed.

Lemma while_elems_positive degree deg_max elem :
  elem ∈ Py.while_elems degree deg_max → 1 ≤ elem.
Proof.
  unfold Py.while_elems.
  intros (k & -> & Hk%elem_of_seq)%list_elem_of_fmap. lia.
Qed.

Lemma branch_shape op n temp_matrices deg_max guard degree i j :
  Forall (bmbpt_shape op n) temp_matrices →
  (∀ m, bmbpt_shape op n m → is_Some (guard m)) →
  (∀ m, bmbpt_shape op n m → is_Some (degree m)) →
  (i < n)%nat → (j < n)%nat → (op = true → i ≠ 0%nat) →
  ∃ out, Adg.branch temp_matrices deg_max guard degree i j = Some out
         ∧ Forall (bmbpt_shape op n) out.
Proof.
  intros Hms Hguard Hdegree Hi Hj Hop. unfold Adg.branch.
  apply (for_each_invariant (Forall (bmbpt_shape op n))); [done|].
  intros mat matrices Hmat Hacc.
  rewrite Forall_forall in Hms. specialize (Hms mat Hmat).
  destruct (Hguard mat Hms) as [go ->]. simpl.
  assert (Forall (bmbpt_shape op n) (matrices ++ [mat])) as Hacc'.
  { apply Forall_app. split; [done|]. by apply Forall_singleton. }
  destruct go; [|by eauto].
  destruct (Hdegree mat Hms) as [deg ->]. simpl.
  destruct (for_each_invariant (Forall (bmbpt_shape op n))
    (Py.while_elems deg deg_max)
    (λ elem matrices,
       temp_mat ← setitem2 mat i j elem;
       Some (Py.Continue (matrices ++ [temp_mat]))) (matrices ++ [mat]))
    as (out & -> & Hout); [done| |by eauto].
  intros elem acc Helem%while_elems_positive Hall.
  destruct (setitem2_shape op n mat i j elem) as (m' & -> & Hm');
    [done..|lia|].
  simpl. eexists. split; [done|].
  apply Forall_app. split; [done|]. by apply Forall_singleton.
Qed.

Lemma shape_getitem2 op n m i j :
  bmbpt_shape op n m → (i < n)%nat → (j < n)%nat →
  getitem2 m i j = Some (entry m i j).
Proof. intros (Hsq & _). by apply square_getitem2. Qed.

(** The sums of the generators are the degree of the vertex read off the
    matrix. *)
Lemma vert_degree_shape op n m vertex :
  bmbpt_shape op n m → (vertex < n)%nat →
  Adg.vert_degree n m vertex = Some (total_degree m vertex)
  ∧ Adg.vert_degree' n m vertex = Some (total_degree m vertex).
Proof.
  intros Hm Hv. pose proof Hm as ([Hlen _] & _).
  unfold Adg.vert_degree, Adg.vert_degree', Py.range2.
  rewrite Nat.sub_0_r. split.
  - rewrite (for_each_sum _ (λ k, entry m k vertex + entry m vertex k)).
    + f_equal. rewrite <-Hlen, total_degree_sum. lia.
    + intros k a Hk%elem_of_seq.
      by rewrite !(shape_getitem2 op n) by (done || lia).
  - rewrite (for_each_sum _ (λ k, entry m vertex k + entry m k vertex)).
    + f_equal. rewrite <-Hlen, total_degree_sum_out_in. lia.
    + intros k a Hk%elem_of_seq.
      by rewrite !(shape_getitem2 op n) by (done || lia).
Qed.

Lemma keep_degree_shape op n matrices three_N degree :
  Forall (bmbpt_shape op n) matrices →
  (∀ m, bmbpt_shape op n m → is_Some (degree m)) →
  ∃ out, Adg.keep_degree matrices three_N degree = Some out
         ∧ Forall (bmbpt_shape op n) out.
Proof.
  intros Hms Hdegree. unfold Adg.keep_degree.
  apply (for_each_invariant (Forall (bmbpt_shape op n))); [done|].
  intros m ok Hm Hok. rewrite Forall_forall in Hms.
  destruct (Hdegree m (Hms m Hm)) as [d ->]. simpl.
  eexists. split; [done|].
  destruct (if bool_decide (d ≠ 2) && bool_decide (d ≠ 4) then _ else _);
    [|done].
  apply Forall_app. split; [done|]. apply Forall_singleton. by apply Hms.
Qed.

Lemma branch_pair_shape op n deg_max temp_matrices vertex sum_index :
  Forall (bmbpt_shape op n) temp_matrices →
  (vertex < n)%nat → (sum_index < n)%nat →
  (op = true → vertex ≠ 0%nat ∧ sum_index ≠ 0%nat) →
  ∃ out, Adg.branch_pair n deg_max temp_matrices vertex sum_index = Some out
         ∧ Forall (bmbpt_shape op n) out.
Proof.
  intros Hms Hv Hs Hop. unfold Adg.branch_pair.
  destruct (branch_shape op n temp_matrices deg_max
    (λ mat, x ← getitem2 mat vertex sum_index; Some (bool_decide (x = 0)))
    (λ mat, Adg.vert_degree n mat vertex) sum_index vertex)
    as (mid & -> & Hmid); try done.
  - intros m Hm. by rewrite (shape_getitem2 op n).
  - intros m Hm. by rewrite (proj1 (vert_degree_shape op n m vertex Hm Hv)).
  - intros Hopt. by apply Hop.
  - simpl. apply (branch_shape op n); try done.
    + intros m Hm. by rewrite (shape_getitem2 op n).
    + intros m Hm.
      by rewrite (proj2 (vert_degree_shape op n m vertex Hm Hv)).
    + intros Hopt. by apply Hop.
Qed.

Lemma vertex_step_shape op n deg_max three_N vertex st :
  Forall (bmbpt_shape op n) st.2 →
  (vertex < n)%nat → (op = true → vertex ≠ 0%nat) →
  ∃ out, Adg.vertex_step n deg_max three_N vertex st = Some (out, out)
         ∧ Forall (bmbpt_shape op n) out.
Proof.
  intros Hst Hv Hop. unfold Adg.vertex_step.
  destruct (for_each_invariant
    (λ st : list matrix * list matrix, Forall (bmbpt_shape op n) st.2)
    (Py.range2 (vertex + 1) n)
    (λ sum_index st,
       matrices ← Adg.branch_pair n deg_max st.2 vertex sum_index;
       Some (Py.Continue (matrices, matrices))) st)
    as (st' & -> & Hst'); [done| |].
  - intros sum_index s Hs%elem_of_seq Hall.
    destruct (branch_pair_shape op n deg_max s.2 vertex sum_index)
      as (out & -> & Hout); [done|done|lia| |by simpl; eauto].
    intros Hopt. split; [by apply Hop|lia].
  - simpl.
    destruct (keep_degree_shape op n st'.2 three_N
      (λ m, Py.for_each (Py.range2 0 n) (λ i degree,
         a ← getitem2 m i vertex;
         b ← getitem2 m vertex i;
         Some (Py.Continue (degree + (a + b)))) 0))
      as (out & -> & Hout); [done| |by simpl; eauto].
    intros m Hm.
    destruct (vert_degree_shape op n m vertex Hm Hv) as [Hd _].
    unfold Adg.vert_degree in Hd. by rewrite Hd.
Qed.

Lemma uniq_elem_of_iff (l : list matrix) m : m ∈ uniq l ↔ m ∈ l.
Proof.
  split; [apply uniq_elem_of|]. unfold uniq.
  assert (∀ acc, m ∈ acc ∨ m ∈ l →
            m ∈ foldl (λ acc i,
              if bool_decide (i ∈ acc) then acc else acc ++ [i]) acc l)
    as Hgen.
  { induction l as [|x l IH]; intros acc; simpl.
    - by intros [?|?%elem_of_nil].
    - intros [Hm|[->|Hm]%elem_of_cons]; apply IH.
      + left. case_bool_decide; [done|]. apply elem_of_app. by left.
      + left. case_bool_decide; [done|]. apply elem_of_app. right. by left.
      + by right. }
  intros Hm. apply Hgen. by right.
Qed.

(** The end of the generators on square matrices: the matrices that are
    left are those that were there, have allowed degrees and no loop. *)
Lemma finish_spec n matrices three_N :
  (0 < n)%nat → Forall (square n) matrices →
  ∃ out, Adg.finish matrices three_N = Some out
         ∧ ∀ m, m ∈ out ↔
             m ∈ matrices ∧ script_degree_rule three_N m ∧ loop_free m.
Proof.
  intros Hn Hsq. unfold Adg.finish.
  destruct (for_each_append (script_degree_rule three_N)
    (λ m, Adg.check_degree_test m three_N) matrices [])
    as (good & Hgood & Hfg).
  { eapply Forall_impl; [exact Hsq|]. intros m Hm.
    apply adg_check_degree_test_spec. eauto. }
  unfold Adg.check_degree. rewrite Hgood. simpl.
  destruct (for_each_append loop_free Adg.no_loop_test good [])
    as (kept & Hkept & Hfk).
  { apply Forall_forall. intros m Hm.
    apply no_loop_test_spec. exists n. split; [done|].
    rewrite Forall_forall in Hsq. apply Hsq.
    by apply (filtered_elem_of _ _ _ _ Hfg). }
  unfold Adg.no_loop. rewrite Hkept. simpl.
  eexists. split; [done|]. intros m.
  rewrite sort_reverse_elem_of, uniq_elem_of_iff.
  rewrite (filtered_elem_of _ _ _ _ Hfk), (filtered_elem_of _ _ _ _ Hfg).
  tauto.
Qed.

Lemma empty_mat_shape op n : bmbpt_shape op n (Adg.empty_mat n).
Proof.
  unfold Adg.empty_mat. split_and!.
  - split; [by rewrite length_replicate|].
    apply Forall_replicate. by rewrite length_replicate.
  - apply Forall_replicate, Forall_replicate. lia.
  - intros _. unfold first_line_zero. destruct n as [|n]; simpl; [done|].
    constructor; [done|]. by apply Forall_replicate.
Qed.

(** The sum of the first column below the first line, the number of
    propagators that enter vertex 0. *)
Lemma first_column_sum op n m :
  bmbpt_shape op n m →
  is_Some (Py.for_each (Py.range2 1 n) (λ k j0_degree,
             a ← getitem2 m k 0;
             Some (Py.Continue (j0_degree + a))) 0).
Proof.
  intros Hm. rewrite (for_each_sum _ (λ k, entry m k 0)); [done|].
  intros k a Hk%elem_of_seq.
  by rewrite (shape_getitem2 op n) by (done || lia).
Qed.

Lemma first_line_zero_out_degree n m :
  square n m → first_line_zero m → out_degree m 0 = 0.
Proof.
  intros [Hlen Hrows] Hz. unfold out_degree, first_line_zero in *.
  rewrite (Zsum_fmap_ext _ (λ _, 0)).
  - generalize (seq 0 (length m)). intros l.
    induction l as [|x l IH]; csimpl; lia.
  - intros j Hj. unfold entry, getitem2.
    destruct (m !! 0%nat) as [row|]; simpl; [|done].
    destruct (row !! j) as [a|] eqn:Ha; simpl; [|done].
    simpl in Hz. rewrite Forall_forall in Hz. apply Hz.
    by eapply list_elem_of_lookup_2.
Qed.

(** The loops of [BMBPT_generation] before the final filters. *)
Lemma bmbpt_generation_loops n three_N deg_max :
  ∃ st,
    (deg_j0_ok ← (st ← Py.for_each (Py.range2 1 n) (λ i0 st,
          matrices ← Adg.branch st.2 deg_max (λ _, Some true)
            (λ mat, Py.for_each (Py.range2 1 n) (λ k j0_degree,
               a ← getitem2 mat k 0;
               Some (Py.Continue (j0_degree + a))) 0) i0 0;
          Some (Py.Continue (matrices, matrices)))
          ([], [Adg.empty_mat n]);
        Adg.keep_degree st.2 three_N
          (λ m, Py.for_each (Py.range2 1 n) (λ i degree,
             a ← getitem2 m i 0;
             Some (Py.Continue (degree + a))) 0));
     Py.for_each (Py.range2 1 n) (λ vertex st,
       st' ← Adg.vertex_step n deg_max three_N vertex st;
       Some (Py.Continue st')) (deg_j0_ok, deg_j0_ok)) = Some st
    ∧ Forall (bmbpt_shape true n) st.1.
Proof.
  destruct (for_each_invariant
    (λ st : list matrix * list matrix, Forall (bmbpt_shape true n) st.2)
    (Py.range2 1 n)
    (λ i0 st,
       matrices ← Adg.branch st.2 deg_max (λ _, Some true)
         (λ mat, Py.for_each (Py.range2 1 n) (λ k j0_degree,
            a ← getitem2 mat k 0;
            Some (Py.Continue (j0_degree + a))) 0) i0 0;
       Some (Py.Continue (matrices, matrices)))
    ([], [Adg.empty_mat n])) as (st1 & -> & Hst1).
  { apply Forall_singleton, empty_mat_shape. }
  { intros i0 st Hi0%elem_of_seq Hst.
    destruct (branch_shape true n st.2 deg_max (λ _, Some true)
      (λ mat, Py.for_each (Py.range2 1 n) (λ k j0_degree,
         a ← getitem2 mat k 0;
         Some (Py.Continue (j0_degree + a))) 0) i0 0)
      as (out & -> & Hout); try done; try lia.
    - intros m Hm. by apply (first_column_sum true).
    - simpl. eauto. }
  simpl.
  destruct (keep_degree_shape true n st1.2 three_N
    (λ m, Py.for_each (Py.range2 1 n) (λ i degree,
       a ← getitem2 m i 0;
       Some (Py.Continue (degree + a))) 0))
    as (ok & -> & Hok); [done| |].
  { intros m Hm. by apply (first_column_sum true). }
  simpl.
  destruct (for_each_invariant
    (λ st : list matrix * list matrix,
       Forall (bmbpt_shape true n) st.1 ∧ Forall (bmbpt_shape true n) st.2)
    (Py.range2 1 n)
    (λ vertex st,
       st' ← Adg.vertex_step n deg_max three_N vertex st;
       Some (Py.Continue st')) (ok, ok)) as (st & -> & Hst & _);
    [done| |by eauto].
  intros vertex st Hv%elem_of_seq [_ Hst].
  destruct (vertex_step_shape true n deg_max three_N vertex st)
    as (out & -> & Hout); [done|lia|lia|].
  simpl. eauto.
Qed.

(** X6. [BMBPT_generation(p_order, three_N)] returns for every order, and
    every matrix it returns is square of size [p_order] with natural
    numbers as entries, has a zero first line (no propagator leaves
    vertex 0), has no loop (no propagators in both directions between two
    vertices, zero diagonal), and gives every vertex, vertex 0 included, the
    degree 2 or 4, or 6 with three-body forces. *)
Theorem bmbpt_enumerator_invariant (p_order : nat) (three_N : bool) :
  ∃ out,
    Adg.BMBPT_generation p_order three_N = Some out
    ∧ ∀ m, m ∈ out →
        square p_order m ∧ nonnegative m ∧ first_line_zero m
        ∧ loop_free m ∧ script_degree_rule three_N m
        ∧ Nx.out_degree (Nx.from_numpy_matrix m) 0 = 0%nat.
Proof.
  destruct p_order as [|k].
  { exists []. split; [by destruct three_N; vm_compute|].
    by intros m ?%elem_of_nil. }
  set (n := S k).
  destruct (bmbpt_generation_loops n three_N (if three_N then 6 else 4))
    as (st & Hst & Hshape).
  unfold Adg.BMBPT_generation.
  destruct (Py.for_each (Py.range2 1 n) _ ([], [Adg.empty_mat n]))
    as [st1|]; simpl in *; [|done].
  destruct (Adg.keep_degree st1.2 three_N _) as [ok|]; simpl in *; [|done].
  rewrite Hst. simpl.
  destruct (finish_spec n st.1 three_N) as (out & -> & Hout); [lia| |].
  { eapply Forall_impl; [exact Hshape|]. by intros m (? & _). }
  exists out. split; [done|]. intros m (Hm & Hdeg & Hloop)%Hout.
  rewrite Forall_forall in Hshape.
  destruct (Hshape m Hm) as (Hsq & Hpos & Hfirst).
  split_and!; try done; [by apply Hfirst|].
  apply Nat2Z.inj.
  rewrite (from_numpy_matrix_out_degree n) by (done || lia).
  apply (first_line_zero_out_degree n); [done|by apply Hfirst].
Qed.

(** X7. [BMBPT_Norm_generation] raises for the order 0, where the name
    [matrices] is unbound after the empty loop; for every other order it
    returns, and every matrix it returns is square of size [p_order] with
    natural numbers as entries, has no loop, and gives every vertex the
    degree 2 or 4, or 6 with three-body forces. *)
Theorem bmbpt_norm_enumerator_invariant (p_order : nat) (three_N : bool) :
  match p_order with
  | O => Adg.BMBPT_Norm_generation 0 three_N = None
  | S _ =>
      ∃ out,
        Adg.BMBPT_Norm_generation p_order three_N = Some out
        ∧ ∀ m, m ∈ out →
            square p_order m ∧ nonnegative m
            ∧ loop_free m ∧ script_degree_rule three_N m
  end.
Proof.
  destruct p_order as [|k]; [done|].
  set (n := S k). set (deg_max := if three_N then 6 else 4).
  unfold Adg.BMBPT_Norm_generation. fold deg_max.
  unfold Py.range. unfold n at 1. cbn [seq Py.for_each].
  destruct (vertex_step_shape false n deg_max three_N 0
    ([], [Adg.empty_mat n])) as (out0 & Hout0 & Hshape0);
    [apply Forall_singleton, empty_mat_shape|lia|done|].
  simpl in Hout0 |- *. fold n. rewrite Hout0. simpl.
  destruct (for_each_invariant
    (λ st : option (list matrix) * list matrix,
       (∃ l, st.1 = Some l ∧ Forall (bmbpt_shape false n) l)
       ∧ Forall (bmbpt_shape false n) st.2)
    (seq 1 k)
    (λ vertex st,
       st' ← Adg.vertex_step n deg_max three_N vertex
               (default [] st.1, st.2);
       Some (Py.Continue (Some st'.1, st'.2))) (Some out0, out0))
    as (st & -> & (l & Hl & Hshape) & _).
  { split; [by eauto|done]. }
  { intros vertex st Hv%elem_of_seq [_ Hst].
    destruct (vertex_step_shape false n deg_max three_N vertex
      (default [] st.1, st.2)) as (out & -> & Hout); [done|lia|done|].
    simpl. eauto 10. }
  simpl. rewrite Hl. simpl.
  destruct (finish_spec n l three_N) as (out & -> & Hout); [lia| |].
  { eapply Forall_impl; [exact Hshape|]. by intros m (? & _). }
  exists out. split; [done|]. intros m (Hm & Hdeg & Hloop)%Hout.
  rewrite Forall_forall in Hshape.
  destruct (Hshape m Hm) as (Hsq & Hpos & _). done.
Qed.

(** ** The order of the generated matrices *)

Section list_order.
Context {A : Type} `{EqDecision A} (ltb : A → A → bool).
Hypothesis Hlt : strict_total ltb.

Lemma list_leb_refl (a : list A) : Py.list_leb ltb a a = true.
Proof.
  induction a as [|x a IH]; simpl; [done|].
  by rewrite bool_decide_eq_true_2.
Qed.

Lemma list_leb_total (a b : list A) :
  Py.list_leb ltb a b = true ∨ Py.list_leb ltb b a = true.
Proof.
  revert b. induction a as [|x a IH]; intros [|y b]; simpl; auto.
  destruct (decide (x = y)) as [->|Hxy].
  - rewrite !bool_decide_eq_true_2 by done. apply IH.
  - rewrite !bool_decide_eq_false_2 by auto.
    by apply (strict_total_ne _ Hlt).
Qed.

Lemma list_leb_antisymm (a b : list A) :
  Py.list_leb ltb a b = true → Py.list_leb ltb b a = true → a = b.
Proof.
  revert b. induction a as [|x a IH]; intros [|y b]; simpl; try done.
  destruct (decide (x = y)) as [->|Hxy].
  - rewrite !bool_decide_eq_true_2 by done. intros ??. f_equal. by apply IH.
  - rewrite !bool_decide_eq_false_2 by auto. intros Hxy' Hyx.
    pose proof (strict_trans _ Hlt _ _ _ Hxy' Hyx) as Hxx.
    by rewrite (strict_irrefl _ Hlt) in Hxx.
Qed.

Lemma list_leb_trans (a b c : list A) :
  Py.list_leb ltb a b = true → Py.list_leb ltb b c = true →
  Py.list_leb ltb a c = true.
Proof.
  revert b c. induction a as [|x a IH]; intros [|y b] [|z c]; simpl;
    try done.
  destruct (decide (x = y)) as [->|Hxy].
  - rewrite (bool_decide_eq_true_2 (y = y)) by done.
    destruct (decide (y = z)) as [->|Hyz].
    + rewrite !bool_decide_eq_true_2 by done. apply IH.
    + by rewrite !bool_decide_eq_false_2 by done.
  - rewrite (bool_decide_eq_false_2 (x = y)) by done. intros Hlxy.
    destruct (decide (y = z)) as [->|Hyz].
    + rewrite bool_decide_eq_true_2 by done.
      by rewrite bool_decide_eq_false_2 by done.
    + rewrite (bool_decide_eq_false_2 (y = z)) by done. intros Hlyz.
      pose proof (strict_trans _ Hlt _ _ _ Hlxy Hlyz) as Hxz.
      rewrite bool_decide_eq_false_2; [done|].
      intros ->. by rewrite (strict_irrefl _ Hlt) in Hxz.
Qed.

Lemma list_ltb_strict_total : strict_total (Py.list_ltb ltb).
Proof.
  unfold Py.list_ltb. split.
  - intros a. by rewrite list_leb_refl, bool_decide_eq_true_2.
  - intros a b c [Hab Hnab]%andb_true_iff [Hbc Hnbc]%andb_true_iff.
    apply andb_true_iff. split; [by eapply list_leb_trans|].
    apply negb_true_iff, bool_decide_eq_false. intros ->.
    apply negb_true_iff, bool_decide_eq_false in Hnab.
    apply Hnab. by apply list_leb_antisymm.
  - intros a b Hab.
    destruct (list_leb_total a b) as [H|H]; [left|right];
      rewrite H; simpl; apply negb_true_iff, bool_decide_eq_false; auto.
Qed.
End list_order.

Lemma Z_ltb_strict_total : strict_total Z.ltb.
Proof.
  split.
  - intros x. apply Z.ltb_irrefl.
  - intros x y z ?%Z.ltb_lt ?%Z.ltb_lt. apply Z.ltb_lt. lia.
  - intros x y Hxy. rewrite !Z.ltb_lt. lia.
Qed.

Lemma row_ltb_strict_total : strict_total row_ltb.
Proof. apply list_ltb_strict_total, Z_ltb_strict_total. Qed.

#[global] Instance matrix_ge_total : Total matrix_ge.
Proof.
  intros a b. unfold matrix_ge, matrix_leb.
  destruct (list_leb_total row_ltb row_ltb_strict_total a b); auto.
Qed.

#[global] Instance matrix_ge_trans : Transitive matrix_ge.
Proof.
  intros a b c Hab Hbc. unfold matrix_ge, matrix_leb in *.
  by apply (list_leb_trans row_ltb row_ltb_strict_total c b a).
Qed.

Lemma matrix_ge_antisymm a b : matrix_ge a b → matrix_ge b a → a = b.
Proof.
  intros Hab Hba. unfold matrix_ge, matrix_leb in *.
  by apply (list_leb_antisymm row_ltb row_ltb_strict_total).
Qed.

Lemma uniq_NoDup (l : list matrix) : NoDup (uniq l).
Proof.
  unfold uniq.
  enough (∀ acc, NoDup acc →
    NoDup (foldl (λ acc i,
             if bool_decide (i ∈ acc) then acc else acc ++ [i]) acc l))
    as H by apply H, NoDup_nil_2.
  induction l as [|x l IH]; intros acc Hacc; simpl; [done|].
  apply IH. case_bool_decide; [done|].
  apply NoDup_app. split_and!; [done| |apply NoDup_singleton].
  by intros y Hy ->%list_elem_of_singleton.
Qed.

(** A list sorted with [reverse=True] that has no duplicates decreases
    strictly. *)
Lemma sort_reverse_uniq_decreasing (l : list matrix) :
  StronglySorted matrix_gt (sort_reverse (uniq l))
  ∧ NoDup (sort_reverse (uniq l)).
Proof.
  assert (NoDup (sort_reverse (uniq l))) as Hnd.
  { unfold sort_reverse. rewrite merge_sort_Permutation. apply uniq_NoDup. }
  split; [|done].
  pose proof (StronglySorted_merge_sort matrix_ge (uniq l)) as Hs.
  fold (sort_reverse (uniq l)) in Hs.
  induction Hs as [|a k Hk IH Ha]; [constructor|].
  apply NoDup_cons in Hnd as [Hnin Hnd].
  constructor; [by apply IH|].
  rewrite Forall_forall in Ha |- *. intros b Hb.
  split; [by apply Ha|]. by intros ->.
Qed.

(** X8. The list of matrices returned by the generators ([diagram_generation]
    for MBPT, [BMBPT_generation] and [BMBPT_Norm_generation] for BMBPT)
    decreases strictly for the order in which Python compares nested lists:
    no matrix occurs twice, and a matrix is greater than every later
    one. *)
Theorem generated_matrices_decrease (theory : string) (norder : nat)
    (three_N norm : bool) (out : list matrix) :
  Adg.generate theory norder three_N norm = Some out →
  StronglySorted matrix_gt out ∧ NoDup out.
Proof.
  unfold Adg.generate. repeat case_bool_decide; [| |done].
  - unfold Adg.diagram_generation.
    destruct (Adg.g _) as [traceless|]; simpl; [|done].
    destruct (Py.for_each _ _ _) as [double|]; simpl; [|done].
    intros [= <-]. apply sort_reverse_uniq_decreasing.
  - destruct norm.
    + unfold Adg.BMBPT_Norm_generation.
      destruct (Py.for_each _ _ _) as [st|]; simpl; [|done].
      destruct (st.1) as [matrices|]; simpl; [|done].
      unfold Adg.finish.
      destruct (Adg.check_degree _ _) as [good|]; simpl; [|done].
      destruct (Adg.no_loop _) as [kept|]; simpl; [|done].
      intros [= <-]. apply sort_reverse_uniq_decreasing.
    + unfold Adg.BMBPT_generation.
      destruct (Py.for_each _ _ _) as [st1|]; simpl; [|done].
      destruct (Adg.keep_degree _ _ _) as [ok|]; simpl; [|done].
      destruct (Py.for_each _ _ _) as [st|]; simpl; [|done].
      unfold Adg.finish.
      destruct (Adg.check_degree _ _) as [good|]; simpl; [|done].
      destruct (Adg.no_loop _) as [kept|]; simpl; [|done].
      intros [= <-]. apply sort_reverse_uniq_decreasing.
Qed.

Lemma generated_matrices_decrease_witness :
  StronglySorted matrix_gt
    [[[0; 4]; [0; 0]]; [[0; 2]; [0; 0]]; [[0; 0]; [4; 0]]; [[0; 0]; [2; 0]]]
  ∧ NoDup
    [[[0; 4]; [0; 0]]; [[0; 2]; [0; 0]]; [[0; 0]; [4; 0]]; [[0; 0]; [2; 0]]].
Proof.
  apply (generated_matrices_decrease "BMBPT" 2 false true).
  vm_compute. reflexivity.
Defined.

(** ** From a matrix to its graph and back *)




Lemma length_matrix_edges (h : nat → nat → Nx.edge) (m : matrix) :
  nonnegative m →
  Z.of_nat (length (mjoin (imap (λ u row,
     mjoin (imap (λ v a, replicate (Z.to_nat a) (h u v)) row)) m)))
  = Zsum (Zsum <$> m).
Proof.
  intros Hpos. revert h.
  induction Hpos as [|row rows Hrow _ IH]; intros h; [done|].
  rewrite imap_cons. csimpl. rewrite length_app, Nat2Z.inj_add. f_equal.
  - generalize (h 0%nat). clear IH h. intros g. revert g.
    induction Hrow as [|a row Ha _ IH]; intros g; [done|].
    rewrite imap_cons. csimpl.
    rewrite length_app, length_replicate, Nat2Z.inj_add, Z2Nat.id by done.
    f_equal. apply (IH (g ∘ S)).
  - apply (IH (h ∘ S)).
Qed.



(** ** Labelling and the reduction of the script *)

Lemma for_each_raise {A S} (xs : list A) (body : A → S → option (Py.ctl S))
    (s : S) (x : A) :
  x ∈ xs → (∀ s, body x s = None) →
  (∀ y s s', body y s ≠ Some (Py.Break s')) →
  Py.for_each xs body s = None.
Proof.
  intros Hx Hnone Hbreak. revert s.
  induction Hx as [x xs|x y xs Hx IH]; intros s; simpl.
  - by rewrite Hnone.
  - destruct (body y s) as [[s'|s']|] eqn:Hy; [by apply IH| |done].
    by destruct (Hbreak y s s' Hy).
Qed.

Lemma label_false_loop_nodes (g : Nx.MultiDiGraph) :
  ∃ g',
    Py.for_each (Nx.nodes g) (λ node g,
      g' ← Nx.set_operator g node false; Some (Py.Continue g')) g = Some g'
    ∧ Nx.nodes g' = Nx.nodes g.
Proof.
  destruct (label_false_loop (Nx.nodes g) g) as (g' & Hrun & Hn & _);
    [done|]. eauto.
Qed.

Lemma Forall2_labelled_fixed mark gs out out' :
  Forall2 (labelled mark) gs out → Forall2 (labelled mark) out out' →
  out' = out.
Proof.
  intros H1. revert out'.
  induction H1 as [|g g' gs out Hg _ IH]; intros out' H2.
  - by apply Forall2_nil_inv_l in H2.
  - apply Forall2_cons_inv_l in H2 as (g'' & out'' & Hg' & H2 & ->).
    f_equal; [by eapply labelled_fixed|by apply IH].
Qed.

(** X10. [label_vertices] of [adg/diag.py] does not look at [theory_type]:
    it is [label_vertices] of [methods.py] called for BMBPT operator
    kernels. It raises exactly when some graph has no vertex 0; otherwise
    nodes and edges are kept, every vertex carries the flag, true on vertex
    0 only, and labelling the result again changes nothing. *)
Theorem label_vertices_needs_vertex_zero (gs : list Nx.MultiDiGraph)
    (theory_type : string) :
  Diag.label_vertices gs theory_type
    = Methods.label_vertices gs "BMBPT" false
  ∧ (Diag.label_vertices gs theory_type = None
     ↔ ∃ g, g ∈ gs ∧ 0%nat ∉ Nx.nodes g)
  ∧ ∀ out, Diag.label_vertices gs theory_type = Some out →
      Forall2 (labelled true) gs out
      ∧ Diag.label_vertices out theory_type = Some out.
Proof.
  split_and!.
  - unfold Diag.label_vertices, Methods.label_vertices.
    apply for_each_ext. intros g out.
    replace (bool_decide (theory_type = "BMBPT"%string) || Py.truthy "PBMBPT")
      with true by (by rewrite orb_true_r). done.
  - destruct (decide (Forall (λ g, 0%nat ∈ Nx.nodes g) gs)) as [Hall|Hex].
    + destruct (diag_label_vertices_spec gs theory_type Hall)
        as (out & -> & _).
      split; [done|]. intros (g & Hg & H0).
      rewrite Forall_forall in Hall. destruct H0. by apply Hall.
    + apply not_Forall_Exists in Hex; [|apply _].
      apply Exists_exists in Hex as (g & Hg & H0).
      split; [by eauto|]. intros _. unfold Diag.label_vertices.
      apply (for_each_raise _ _ _ g Hg).
      * intros out.
        destruct (label_false_loop_nodes g) as (g' & -> & Hn). simpl.
        rewrite orb_true_r. unfold Nx.set_operator.
        rewrite bool_decide_eq_false_2 by (by rewrite Hn). done.
      * intros y s s'. cbv beta.
        destruct (Py.for_each (Nx.nodes y) _ y) as [y'|]; simpl; [|done].
        rewrite orb_true_r. by destruct (Nx.set_operator y' 0 true).
  - intros out Hout.
    destruct (decide (Forall (λ g, 0%nat ∈ Nx.nodes g) gs)) as [Hall|Hex].
    + destruct (diag_label_vertices_spec gs theory_type Hall)
        as (out' & Hout' & Hlab).
      rewrite Hout in Hout'. injection Hout' as <-. split; [done|].
      destruct (diag_label_vertices_spec out theory_type)
        as (out' & Hout' & Hlab').
      { rewrite Forall_forall in Hall |- *. intros g' Hg'.
        apply list_elem_of_lookup in Hg' as [i Hi].
        destruct (Forall2_lookup_r _ _ _ _ _ Hlab Hi) as (g & Hg & Hl).
        destruct Hl as (-> & _). by eapply Hall, list_elem_of_lookup_2. }
      by rewrite Hout', (Forall2_labelled_fixed _ _ _ _ Hlab Hlab').
    + apply not_Forall_Exists in Hex; [|apply _].
      apply Exists_exists in Hex as (g & Hg & H0).
      unfold Diag.label_vertices in Hout.
      rewrite (for_each_raise _ _ _ g Hg) in Hout; [done| |].
      * intros s.
        destruct (label_false_loop_nodes g) as (g' & -> & Hn). simpl.
        rewrite orb_true_r. unfold Nx.set_operator.
        rewrite bool_decide_eq_false_2 by (by rewrite Hn). done.
      * intros y s s'. cbv beta.
        destruct (Py.for_each (Nx.nodes y) _ y) as [y'|]; simpl; [|done].
        rewrite orb_true_r. by destruct (Nx.set_operator y' 0 true).
Qed.

Lemma script_isomorphic_refl norm g : script_isomorphic norm g g.
Proof. destruct norm; apply isomorphic_refl. Qed.

Lemma isomorphism_reduction_keeps norm G acc :
  Forall (λ g, norm = false → 0%nat ∈ Nx.nodes g) G →
  ∃ labelled_G kept,
    mapM (script_label norm) G = Some labelled_G
    ∧ Py.for_each G (λ diag G1,
        diag ← script_label norm diag;
        Some (Py.Continue
                (if existsb (script_iso norm diag) G1 then G1
                 else G1 ++ [diag]))) acc = Some (acc ++ kept)
    ∧ sublist kept labelled_G
    ∧ (acc = [] → head kept = head labelled_G)
    ∧ ∀ g, g ∈ labelled_G →
        ∃ r, r ∈ acc ++ kept ∧ script_isomorphic norm g r.
Proof.
  intros HG. revert acc.
  induction HG as [|g G Hg _ IH]; intros acc.
  - exists [], []. rewrite app_nil_r. split_and!; try done.
    by intros g ?%elem_of_nil.
  - destruct (script_label_total norm g Hg) as (g' & Hg' & _).
    simpl. rewrite Hg'. simpl.
    destruct (existsb (script_iso norm g') acc) eqn:Hex.
    + destruct (IH acc) as (lG & kept & -> & -> & Hsub & Hhead & Hrep).
      exists (g' :: lG), kept. split_and!; try done.
      * by apply sublist_cons.
      * intros ->. done.
      * intros x [->|Hx]%elem_of_cons; [|by apply Hrep].
        apply existsb_exists in Hex as (r & Hr & Hiso).
        exists r. split; [|by apply script_iso_spec].
        apply elem_of_app. left. by apply list_elem_of_In.
    + destruct (IH (acc ++ [g'])) as (lG & kept & -> & -> & Hsub & _ & Hrep).
      exists (g' :: lG), (g' :: kept). rewrite <-app_assoc.
      split_and!; try done.
      * by apply sublist_skip.
      * intros x [->|Hx]%elem_of_cons.
        -- exists g'. split; [|apply script_isomorphic_refl].
           apply elem_of_app. right. left.
        -- destruct (Hrep x Hx) as (r & Hr & Hiso).
           exists r. split; [|done]. by rewrite <-app_assoc in Hr.
Qed.

(** X11. The isomorphism reduction of the script, on graphs that have a
    vertex 0 when vertex 0 is to be marked: the graphs it keeps are a
    subsequence of the (labelled) graphs it was given, the first graph is
    always kept, and every graph it was given is isomorphic, for the test of
    the mode, to a graph that is kept. *)
Theorem isomorphism_reduction_representatives (norm : bool)
    (G : list Nx.MultiDiGraph) :
  Forall (λ g, norm = false → 0%nat ∈ Nx.nodes g) G →
  ∃ labelled_G out,
    mapM (script_label norm) G = Some labelled_G
    ∧ Adg.isomorphism_reduction G norm = Some out
    ∧ sublist out labelled_G
    ∧ head out = head labelled_G
    ∧ ∀ g, g ∈ labelled_G → ∃ r, r ∈ out ∧ script_isomorphic norm g r.
Proof.
  intros HG. rewrite isomorphism_reduction_step.
  destruct (isomorphism_reduction_keeps norm G [] HG)
    as (lG & kept & HlG & Hrun & Hsub & Hhead & Hrep).
  exists lG, kept. split_and!; try done. by apply Hhead.
Qed.

Lemma isomorphism_reduction_representatives_witness :
  ∃ labelled_G out,
    mapM (script_label false) mbpt3_graphs = Some labelled_G
    ∧ Adg.isomorphism_reduction mbpt3_graphs false = Some out
    ∧ sublist out labelled_G
    ∧ head out = head labelled_G
    ∧ ∀ g, g ∈ labelled_G → ∃ r, r ∈ out ∧ script_isomorphic false g r.
Proof.
  apply (isomorphism_reduction_representatives false mbpt3_graphs).
  apply Forall_forall. intros g Hg _. revert g Hg. apply Forall_forall.
  apply (bool_decide_unpack _). by vm_compute.
Defined.

(** ** The classification of the script *)

Lemma hf_tests_spec (g : Nx.MultiDiGraph) :
  Adg.hf_tests g
  = (bool_decide (no_degree_two g), bool_decide (degree_two_at_zero_only g)).
Proof.
  unfold Adg.hf_tests, no_degree_two, degree_two_at_zero_only.
  generalize (Nx.nodes g). intros l.
  enough (∀ t1 t2,
    foldl (λ '(test_HF, test_EHF) node,
        if bool_decide (Nx.degree g node = 2%nat) then
          (false, if bool_decide (node ≠ 0%nat) then false else test_EHF)
        else (test_HF, test_EHF)) (t1, t2) l
    = (t1 && bool_decide (Forall (λ v, Nx.degree g v ≠ 2%nat) l),
       t2 && bool_decide (Forall (λ v, Nx.degree g v = 2%nat → v = 0%nat) l)))
    as H by apply H.
  induction l as [|x l IH]; intros t1 t2; simpl.
  - by rewrite !andb_true_r.
  - destruct (decide (Nx.degree g x = 2%nat)) as [Hx|Hx].
    + rewrite (bool_decide_eq_true_2 _ Hx).
      rewrite IH. simpl. f_equal.
      * rewrite bool_decide_eq_false_2; [by rewrite andb_false_r|].
        by intros [? _]%Forall_cons.
      * destruct (decide (x = 0%nat)) as [->|Hx0].
        -- rewrite (bool_decide_eq_false_2 (0%nat ≠ 0%nat)) by auto.
           f_equal. apply bool_decide_ext. rewrite Forall_cons. tauto.
        -- rewrite (bool_decide_eq_true_2 (x ≠ 0%nat)) by done. simpl.
           rewrite bool_decide_eq_false_2; [by rewrite andb_false_r|].
           intros [H0 _]%Forall_cons. auto.
    + rewrite (bool_decide_eq_false_2 _ Hx). rewrite IH. f_equal.
      * f_equal. apply bool_decide_ext. rewrite Forall_cons. tauto.
      * f_equal. apply bool_decide_ext. rewrite Forall_cons. tauto.
Qed.

Lemma split_canonical_spec (Gk : list Nx.MultiDiGraph) (norm : bool) :
  Adg.split_canonical Gk norm
  = Adg.Classes
      (filter no_degree_two Gk)
      (filter (λ g, ¬ no_degree_two g
                    ∧ degree_two_at_zero_only g ∧ norm = false) Gk)
      (filter (λ g, ¬ no_degree_two g
                    ∧ (¬ degree_two_at_zero_only g ∨ norm = true)) Gk).
Proof.
  unfold Adg.split_canonical.
  enough (∀ c,
    foldl (λ c diag,
        let '(test_HF, test_EHF) := Adg.hf_tests diag in
        if test_HF then Adg.Classes (Adg.HF c ++ [diag]) (Adg.EHF c) (Adg.noHF c)
        else if bool_decide (test_EHF = false) || norm
          then Adg.Classes (Adg.HF c) (Adg.EHF c) (Adg.noHF c ++ [diag])
          else Adg.Classes (Adg.HF c) (Adg.EHF c ++ [diag]) (Adg.noHF c))
      c Gk
    = Adg.Classes
        (Adg.HF c ++ filter no_degree_two Gk)
        (Adg.EHF c ++ filter (λ g, ¬ no_degree_two g
                      ∧ degree_two_at_zero_only g ∧ norm = false) Gk)
        (Adg.noHF c ++ filter (λ g, ¬ no_degree_two g
                      ∧ (¬ degree_two_at_zero_only g ∨ norm = true)) Gk))
    as H by apply (H (Adg.Classes [] [] [])).
  induction Gk as [|g Gk IH]; intros c.
  - simpl. rewrite !app_nil_r. by destruct c.
  - cbn [foldl]. rewrite !filter_cons, hf_tests_spec.
    destruct (decide (no_degree_two g)) as [H1|H1].
    + rewrite (bool_decide_eq_true_2 _ H1). rewrite IH. simpl.
      rewrite decide_False by tauto. rewrite decide_False by tauto.
      by rewrite <-app_assoc.
    + rewrite (bool_decide_eq_false_2 _ H1).
      destruct (decide (degree_two_at_zero_only g)) as [H2|H2].
      * rewrite (bool_decide_eq_true_2 _ H2).
        rewrite (bool_decide_eq_false_2 (true = false)) by done.
        destruct norm; simpl; rewrite IH; simpl.
        -- rewrite decide_False by (intros (_ & _ & ?); done).
           rewrite decide_True by auto. by rewrite <-app_assoc.
        -- rewrite decide_True by auto.
           rewrite decide_False by (intros [_ [?|?]]; done).
           by rewrite <-app_assoc.
      * rewrite (bool_decide_eq_false_2 _ H2).
        rewrite (bool_decide_eq_true_2 (false = false)) by done.
        simpl. rewrite IH. simpl.
        rewrite decide_False by tauto. rewrite decide_True by auto.
        by rewrite <-app_assoc.
Qed.

Lemma filter_partition3 {A} (P Q R : A → Prop)
    `{∀ x, Decision (P x), ∀ x, Decision (Q x), ∀ x, Decision (R x)}
    (l : list A) :
  (∀ x, (P x ∧ ¬ Q x ∧ ¬ R x) ∨ (¬ P x ∧ Q x ∧ ¬ R x)
        ∨ (¬ P x ∧ ¬ Q x ∧ R x)) →
  filter P l ++ filter Q l ++ filter R l ≡ₚ l.
Proof.
  intros Hpart. induction l as [|x l IH]; [done|].
  rewrite !filter_cons.
  specialize (Hpart x).
  destruct (decide (P x)), (decide (Q x)), (decide (R x)); try tauto; simpl.
  - by rewrite IH.
  - rewrite <-Permutation_middle. by rewrite IH.
  - rewrite app_assoc, <-Permutation_middle, <-app_assoc. by rewrite IH.
Qed.

Lemma filter_partition2 {A} (P : A → Prop) `{∀ x, Decision (P x)}
    (l : list A) :
  filter (λ x, ¬ P x) l ++ filter P l ≡ₚ l.
Proof.
  induction l as [|x l IH]; [done|].
  rewrite !filter_cons. destruct (decide (P x)).
  - rewrite decide_False by tauto. rewrite <-Permutation_middle.
    by rewrite IH.
  - rewrite decide_True by done. simpl. by rewrite IH.
Qed.

Lemma filter_ext_iff {A} (P Q : A → Prop)
    `{∀ x, Decision (P x), ∀ x, Decision (Q x)} (l : list A) :
  (∀ x, P x ↔ Q x) → filter P l = filter Q l.
Proof.
  intros HPQ. induction l as [|x l IH]; [done|].
  rewrite !filter_cons, IH.
  destruct (decide (P x)) as [HP|HP], (decide (Q x)) as [HQ|HQ]; try done.
  - destruct HQ. by apply HPQ.
  - destruct HP. by apply HPQ.
Qed.

Lemma split_canonical_class (three : bool) (norm : bool)
    (G0 : list Nx.MultiDiGraph) (k : canonical_class) :
  (let c := Adg.split_canonical
              (filter (λ g, bool_decide (Adg.max_deg g = 6%nat) = three) G0)
              norm in
   match k with
   | Energy => Adg.HF c
   | OperatorOnly => Adg.EHF c
   | NonCanonical => Adg.noHF c
   end) = filter (λ g, class_of norm g = (three, k)) G0.
Proof.
  cbv zeta. rewrite split_canonical_spec.
  destruct k; simpl; rewrite list_filter_filter; apply filter_ext_iff;
    intros g; unfold class_of;
    destruct (decide (no_degree_two g)),
      (decide (degree_two_at_zero_only g ∧ norm = false));
    destruct norm; intuition congruence.
Qed.

Lemma split_canonical_Permutation (Gk : list Nx.MultiDiGraph) (norm : bool) :
  Adg.HF (Adg.split_canonical Gk norm)
  ++ Adg.EHF (Adg.split_canonical Gk norm)
  ++ Adg.noHF (Adg.split_canonical Gk norm) ≡ₚ Gk.
Proof.
  rewrite split_canonical_spec. simpl. apply filter_partition3.
  intros g. destruct (decide (no_degree_two g)),
    (decide (degree_two_at_zero_only g)), norm; intuition congruence.
Qed.

Lemma graphs_Some (diagrams : list matrix) (G : list Nx.MultiDiGraph) :
  Adg.graphs diagrams = Some G → G = Nx.from_numpy_matrix <$> diagrams.
Proof.
  unfold Adg.graphs. intros HG%mapM_Some.
  induction HG as [|A g diagrams G Hg _ IH]; [done|].
  unfold Nx.from_numpy_matrix_checked in Hg.
  destruct (bool_decide _); [|done]. injection Hg as <-.
  by rewrite fmap_cons, IH.
Qed.

(** X12. The classification of the script for BMBPT neither loses nor
    repeats a diagram: each of the six lists holds, in order, exactly the
    diagrams of its class among those left by the isomorphism reduction,
    and the final list is the six lists one after the other. A diagram is
    three-body when some vertex has degree 6; it is canonical for the energy
    when no vertex has degree 2, canonical for a generic operator only when
    only vertex 0 has degree 2 and operator kernels are computed, and
    non-canonical otherwise; so in norm-kernel mode the operator-only
    lists are empty. *)
Theorem classification_partitions (norder : nat) (three_N norm : bool)
    (r : Adg.result) :
  Adg.run "BMBPT" norder three_N norm = Some r →
  ∃ diagrams G0,
    Adg.generate "BMBPT" norder three_N norm = Some diagrams
    ∧ Adg.isomorphism_reduction (Adg.connected_graphs diagrams) norm
      = Some G0
    ∧ (∀ k, class_list r k = filter (λ g, class_of norm g = k) G0)
    ∧ Adg.G r
      = class_list r (false, Energy) ++ class_list r (false, OperatorOnly)
        ++ class_list r (false, NonCanonical)
        ++ class_list r (true, Energy) ++ class_list r (true, OperatorOnly)
        ++ class_list r (true, NonCanonical)
    ∧ Adg.G r ≡ₚ G0
    ∧ (norm = true →
       class_list r (false, OperatorOnly) = []
       ∧ class_list r (true, OperatorOnly) = []).
Proof.
  unfold Adg.run.
  rewrite (bool_decide_eq_true_2 ("BMBPT" = "BMBPT")%string) by done.
  cbn [andb]. cbv zeta.
  destruct (Adg.generate "BMBPT" norder three_N norm) as [diagrams|];
    simpl; [|done].
  destruct (Adg.graphs diagrams) as [G|] eqn:HG; simpl; [|done].
  apply graphs_Some in HG as ->. fold (Adg.connected_graphs diagrams).
  destruct (Adg.isomorphism_reduction _ norm) as [G0|] eqn:Hred; simpl;
    [|done].
  intros [= <-]. exists diagrams, G0.
  assert (filter (λ diag, Adg.max_deg diag = 6%nat) G0
          = filter (λ g, bool_decide (Adg.max_deg g = 6%nat) = true) G0)
    as H3.
  { apply filter_ext_iff. intros g. by rewrite bool_decide_eq_true. }
  assert (filter (λ diag, Adg.max_deg diag ≠ 6%nat) G0
          = filter (λ g, bool_decide (Adg.max_deg g = 6%nat) = false) G0)
    as H2.
  { apply filter_ext_iff. intros g. by rewrite bool_decide_eq_false. }
  assert (∀ k, class_list
            (Adg.Result
               (Adg.HF (Adg.split_canonical
                  (filter (λ diag, Adg.max_deg diag ≠ 6%nat) G0) norm)
                ++ Adg.EHF (Adg.split_canonical
                  (filter (λ diag, Adg.max_deg diag ≠ 6%nat) G0) norm)
                ++ Adg.noHF (Adg.split_canonical
                  (filter (λ diag, Adg.max_deg diag ≠ 6%nat) G0) norm)
                ++ Adg.HF (Adg.split_canonical
                  (filter (λ diag, Adg.max_deg diag = 6%nat) G0) norm)
                ++ Adg.EHF (Adg.split_canonical
                  (filter (λ diag, Adg.max_deg diag = 6%nat) G0) norm)
                ++ Adg.noHF (Adg.split_canonical
                  (filter (λ diag, Adg.max_deg diag = 6%nat) G0) norm))
               (Adg.split_canonical
                  (filter (λ diag, Adg.max_deg diag ≠ 6%nat) G0) norm)
               (Adg.split_canonical
                  (filter (λ diag, Adg.max_deg diag = 6%nat) G0) norm)) k
          = filter (λ g, class_of norm g = k) G0) as Hclass.
  { intros [three k]. unfold class_list. simpl.
    destruct three.
    - rewrite H3. apply (split_canonical_class true).
    - rewrite H2. apply (split_canonical_class false). }
  split_and!; [done|done|exact Hclass|reflexivity| |].
  - simpl.
    set (G2 := filter (λ diag, Adg.max_deg diag ≠ 6%nat) G0).
    set (G3 := filter (λ diag, Adg.max_deg diag = 6%nat) G0).
    trans ((Adg.HF (Adg.split_canonical G2 norm)
            ++ Adg.EHF (Adg.split_canonical G2 norm)
            ++ Adg.noHF (Adg.split_canonical G2 norm))
           ++ (Adg.HF (Adg.split_canonical G3 norm)
               ++ Adg.EHF (Adg.split_canonical G3 norm)
               ++ Adg.noHF (Adg.split_canonical G3 norm))).
    { by rewrite <-!app_assoc. }
    rewrite !split_canonical_Permutation.
    apply filter_partition2.
  - intros ->. rewrite !Hclass. split.
    + clear. induction G0 as [|g G0 IH]; [done|].
      rewrite filter_cons, IH. unfold class_of.
      destruct (decide (no_degree_two g)); [by rewrite decide_False|].
      destruct (decide (degree_two_at_zero_only g ∧ true = false))
        as [[_ ?]|]; [done|]. by rewrite decide_False.
    + clear. induction G0 as [|g G0 IH]; [done|].
      rewrite filter_cons, IH. unfold class_of.
      destruct (decide (no_degree_two g)); [by rewrite decide_False|].
      destruct (decide (degree_two_at_zero_only g ∧ true = false))
        as [[_ ?]|]; [done|]. by rewrite decide_False.
Qed.

Lemma classification_partitions_witness :
  ∃ r,
    Adg.run "BMBPT" 2 false false = Some r
    ∧ ∃ diagrams G0,
        Adg.generate "BMBPT" 2 false false = Some diagrams
        ∧ Adg.isomorphism_reduction (Adg.connected_graphs diagrams) false
          = Some G0
        ∧ (∀ k, class_list r k = filter (λ g, class_of false g = k) G0)
        ∧ Adg.G r
          = class_list r (false, Energy) ++ class_list r (false, OperatorOnly)
            ++ class_list r (false, NonCanonical)
            ++ class_list r (true, Energy)
            ++ class_list r (true, OperatorOnly)
            ++ class_list r (true, NonCanonical)
        ∧ Adg.G r ≡ₚ G0
        ∧ (false = true →
           class_list r (false, OperatorOnly) = []
           ∧ class_list r (true, OperatorOnly) = []).
Proof.
  eexists. split; [vm_compute; reflexivity|].
  apply (classification_partitions 2 false false).
  vm_compute. reflexivity.
Defined.

(** ** The class [Diagram] *)

Lemma last_sorted_max (l : list nat) (m : nat) :
  StronglySorted Nat.le l → last l = Some m →
  m ∈ l ∧ ∀ x, x ∈ l → (x ≤ m)%nat.
Proof.
  intros Hs. revert m. induction Hs as [|x l Hs IH Hx]; intros m; [done|].
  destruct l as [|y l].
  - intros [= ->]. split; [left|].
    by intros z ->%list_elem_of_singleton.
  - change (last (x :: y :: l)) with (last (y :: l)). intros Hl.
    destruct (IH m Hl) as [Hm Hmax]. split; [by right|].
    intros z [->|Hz]%elem_of_cons; [|by apply Hmax].
    rewrite Forall_forall in Hx. by apply Hx.
Qed.

Lemma foldl_max_spec (f : nat → nat) (l : list nat) (a : nat) :
  (a ≤ foldl (λ m v, Nat.max m (f v)) a l)%nat
  ∧ (∀ v, v ∈ l → (f v ≤ foldl (λ m v, Nat.max m (f v)) a l)%nat)
  ∧ (foldl (λ m v, Nat.max m (f v)) a l = a
     ∨ ∃ v, v ∈ l ∧ f v = foldl (λ m v, Nat.max m (f v)) a l).
Proof.
  revert a. induction l as [|x l IH]; intros a; simpl.
  - split_and!; [done| |by left]. by intros v ?%elem_of_nil.
  - destruct (IH (Nat.max a (f x))) as (Ha & Hall & Hex). split_and!.
    + lia.
    + intros v [->|Hv]%elem_of_cons; [lia|by apply Hall].
    + destruct Hex as [Heq|(v & Hv & Heq)].
      * destruct (Nat.max_spec a (f x)) as [[? Hm]|[? Hm]].
        -- right. exists x. split; [left|]. lia.
        -- left. lia.
      * right. exists v. split; [by right|done].
Qed.

(** X13. [Diagram.__init__] raises on a graph without vertices (the last
    element of an empty tuple is read) and only then. Otherwise [degrees]
    and [io_degrees] are the degrees of the vertices in ascending order,
    [max_degree] is the largest degree of a vertex, the number that the
    classification of the script computes, and the diagram carries the
    single tag 0. *)
Theorem diagram_init_degrees (g : Nx.MultiDiGraph) :
  (Diag.Diagram_init g = None ↔ Nx.nodes g = [])
  ∧ ∀ d, Diag.Diagram_init g = Some d →
      Diag.graph d = g ∧ Diag.tags d = [0]
      ∧ Diag.unsort_degrees d = Nx.degree g <$> Nx.nodes g
      ∧ Diag.degrees d ≡ₚ Diag.unsort_degrees d
      ∧ StronglySorted Nat.le (Diag.degrees d)
      ∧ Diag.unsort_io_degrees d = io_degree_list g
      ∧ Diag.io_degrees d ≡ₚ Diag.unsort_io_degrees d
      ∧ StronglySorted Diag.io_le (Diag.io_degrees d)
      ∧ (∀ v, v ∈ Nx.nodes g → (Nx.degree g v ≤ Diag.max_degree d)%nat)
      ∧ (∃ v, v ∈ Nx.nodes g ∧ Nx.degree g v = Diag.max_degree d)
      ∧ Diag.max_degree d = Adg.max_deg g.
Proof.
  unfold Diag.Diagram_init.
  pose proof (merge_sort_Permutation Nat.le (Nx.degree g <$> Nx.nodes g))
    as Hperm.
  pose proof (StronglySorted_merge_sort Nat.le (Nx.degree g <$> Nx.nodes g))
    as Hsort.
  destruct (last (merge_sort Nat.le (Nx.degree g <$> Nx.nodes g)))
    as [m|] eqn:Hlast; simpl.
  - destruct (last_sorted_max _ m Hsort Hlast) as [Hm Hmax].
    rewrite Hperm in Hm.
    apply list_elem_of_fmap in Hm as (v & Hv & Hvin).
    split.
    + split; [done|]. intros Hn. rewrite Hn in Hvin.
      by apply elem_of_nil in Hvin.
    + intros d [= <-]. simpl.
      assert (∀ u, u ∈ Nx.nodes g → (Nx.degree g u ≤ m)%nat) as Hle.
      { intros u Hu. apply Hmax. rewrite Hperm.
        apply list_elem_of_fmap. eauto. }
      split_and!; [done|done|done|exact Hperm|exact Hsort|done
                  |apply merge_sort_Permutation
                  |apply StronglySorted_merge_sort; apply _|done| |].
      * exists v. by split.
      * unfold Adg.max_deg.
        destruct (foldl_max_spec (Nx.degree g) (Nx.nodes g) 0)
          as (_ & Hall & Hex).
        apply Nat.le_antisymm.
        -- rewrite Hv. by apply Hall.
        -- destruct Hex as [->|(u & Hu & <-)]; [lia|by apply Hle].
  - split; [|done]. split; [intros _|done].
    apply last_None in Hlast. rewrite Hlast in Hperm.
    apply Permutation_nil_l in Hperm. symmetry in Hperm.
    by apply fmap_nil_inv in Hperm.
Qed.

(** ** Doubling the anomalous propagators *)

Lemma filter_replicate {A} (P : A → Prop) `{∀ x, Decision (P x)}
    (k : nat) (x : A) :
  filter P (replicate k x) = if decide (P x) then replicate k x else [].
Proof.
  induction k as [|k IH]; simpl; [by destruct (decide _)|].
  rewrite filter_cons, IH. by destruct (decide (P x)).
Qed.

Lemma doubled_edge_kinds (g : Nx.MultiDiGraph) (u v : nat) :
  edge_kinds
    (Nx.Graph (Nx.nodes g) (Nx.operator g)
       (Nx.edges g
        ++ ((λ p, Nx.Edge p.1 p.2 (Some true))
              <$> reversed_anomalous (Nx.edges g)))) u v
  = ((edge_kinds g u v).1
     + (if bool_decide (u = v) then 0 else (edge_kinds g v u).1),
     (edge_kinds g u v).2)%nat.
Proof.
  unfold edge_kinds, Nx.edges_between. simpl.
  rewrite filter_app, reversed_anomalous_between, !filter_app.
  rewrite !length_app, !filter_replicate. simpl.
  rewrite length_replicate. f_equal. lia.
Qed.

(** X14. [create_checkable_diagram] raises exactly when some propagator has
    no attribute ['anomalous']. On a graph as NetworkX keeps it the result
    has the vertices and flags of the graph and its propagators, followed by
    one anomalous propagator from [v] to [u] for every anomalous propagator
    from [u] to [v] with [u ≠ v]: afterwards as many anomalous propagators
    go from [u] to [v] as from [v] to [u], the other propagators are as
    before, and a graph without anomalous propagator is returned as it
    is. *)
Theorem create_checkable_diagram_doubles (g : Nx.MultiDiGraph) :
  (Diag.create_checkable_diagram g = None
   ↔ ∃ e, e ∈ Nx.edges g ∧ Nx.anomalous e = None)
  ∧ (well_formed_graph g →
     ∀ g', Diag.create_checkable_diagram g = Some g' →
       Nx.nodes g' = Nx.nodes g ∧ Nx.operator g' = Nx.operator g
       ∧ Nx.edges g'
         = Nx.edges g ++ ((λ p, Nx.Edge p.1 p.2 (Some true))
                            <$> reversed_anomalous (Nx.edges g))
       ∧ (∀ u v, u ≠ v →
            (edge_kinds g' u v).1
            = ((edge_kinds g u v).1 + (edge_kinds g v u).1)%nat
            ∧ (edge_kinds g' u v).1 = (edge_kinds g' v u).1)
       ∧ (∀ u v, (edge_kinds g' u v).2 = (edge_kinds g u v).2)
       ∧ (∀ u, edge_kinds g' u u = edge_kinds g u u)
       ∧ (Forall (λ e, Nx.anomalous e ≠ Some true) (Nx.edges g) → g' = g)).
Proof.
  split.
  - destruct (decide (Forall (λ e, is_Some (Nx.anomalous e)) (Nx.edges g)))
      as [Hall|Hex].
    + rewrite (create_checkable_diagram_total g Hall).
      split; [done|]. intros (e & He & Hn).
      rewrite Forall_forall in Hall. destruct (Hall e He) as [a Ha].
      congruence.
    + apply not_Forall_Exists in Hex; [|apply _].
      apply Exists_exists in Hex as (e & He & Hn).
      assert (Nx.anomalous e = None) as Hnone.
      { destruct (Nx.anomalous e) eqn:E; [|done]. destruct Hn. eauto. }
      split; [by eauto|]. intros _. unfold Diag.create_checkable_diagram.
      rewrite (for_each_raise _ _ _ e He); [done| |].
      * intros s. by rewrite Hnone.
      * intros y s s'. destruct (Nx.anomalous y) as [a|]; simpl; [|done].
        by destruct (a && _).
  - intros Hwf g' Hg'.
    destruct (decide (Forall (λ e, is_Some (Nx.anomalous e)) (Nx.edges g)))
      as [Hall|Hex].
    + rewrite (create_checkable_diagram_graph g Hwf Hall) in Hg'.
      injection Hg' as <-.
      split_and!; try done.
      * intros u v Huv. rewrite !doubled_edge_kinds.
        rewrite !bool_decide_eq_false_2 by auto. simpl. split; [done|lia].
      * intros u v. by rewrite doubled_edge_kinds.
      * intros u. rewrite doubled_edge_kinds.
        rewrite bool_decide_eq_true_2 by done. simpl.
        unfold edge_kinds. simpl. f_equal. lia.
      * intros Hno.
        assert (reversed_anomalous (Nx.edges g) = []) as ->.
        { unfold reversed_anomalous. clear -Hno.
          induction Hno as [|e es He _ IH]; [done|]. csimpl.
          rewrite IH. destruct (Nx.anomalous e) as [[]|]; try done. }
        simpl. rewrite app_nil_r. by destruct g.
    + apply not_Forall_Exists in Hex; [|apply _].
      apply Exists_exists in Hex as (e & He & Hn).
      assert (Nx.anomalous e = None) as Hnone.
      { destruct (Nx.anomalous e) eqn:E; [|done]. destruct Hn. eauto. }
      unfold Diag.create_checkable_diagram in Hg'.
      rewrite (for_each_raise _ _ _ e He) in Hg'; [done| |].
      * intros s. by rewrite Hnone.
      * intros y s s'. destruct (Nx.anomalous y) as [a|]; simpl; [|done].
        by destruct (a && _).
Qed.

Lemma create_checkable_diagram_doubles_witness :
  (Diag.create_checkable_diagram
     (Diag.graph (projected_diagram [false; true])) = None
   ↔ ∃ e, e ∈ Nx.edges (Diag.graph (projected_diagram [false; true]))
          ∧ Nx.anomalous e = None)
  ∧ ∀ g', Diag.create_checkable_diagram
            (Diag.graph (projected_diagram [false; true])) = Some g' →
      Nx.nodes g' = [0; 1]%nat
      ∧ (edge_kinds g' 0 1).1 = (edge_kinds g' 1 0).1.
Proof.
  destruct (create_checkable_diagram_doubles
              (Diag.graph (projected_diagram [false; true]))) as [H1 H2].
  split; [exact H1|]. intros g' Hg'.
  destruct (H2 ltac:(apply (bool_decide_unpack _); by vm_compute) g' Hg')
    as (Hn & _ & _ & Hk & _).
  split; [exact Hn|]. by apply Hk.
Defined.

(** ** Representatives kept by the canonicalizer *)

Lemma same_topology_rel_refl pb a : checkable pb a → same_topology_rel pb a a.
Proof.
  intros [Hp Han]. split; [done|]. destruct pb.
  - rewrite (create_checkable_diagram_total (Diag.graph a)) by auto.
    eexists _, _. split_and!; [done..|]. apply isomorphic_refl.
  - apply isomorphic_refl.
Qed.

Lemma merge_first_match_cover pb pre d suf :
  checkable pb d → Forall (checkable pb) suf →
  ∃ suf',
    Diag.merge_first_match (length pre) (pre ++ d :: suf)
      = Some (pre ++ suf')
    ∧ Forall (checkable pb) suf'
    ∧ (Diag.graph <$> suf') `sublist_of` (Diag.graph <$> d :: suf)
    ∧ head (Diag.graph <$> suf') = Some (Diag.graph d)
    ∧ ∀ x, x ∈ d :: suf → ∃ r, r ∈ suf' ∧ same_topology_rel pb r x.
Proof.
  intros Hd Hsuf. rewrite merge_first_match_at.
  destruct (merge_first_match_spec pre d suf []) as (out & -> & Hout).
  { eapply Forall_impl; [exact Hsuf|]. intros c Hc.
    by apply (same_topology_total pb). }
  assert (∀ x, x ∈ d :: suf → checkable pb x) as Hchk.
  { intros x [->|Hx]%elem_of_cons; [done|].
    rewrite Forall_forall in Hsuf. by apply Hsuf. }
  destruct Hout as [[Hall ->]|(r1 & c & r2 & -> & Hc & Hr2 & ->)].
  - exists (d :: suf). rewrite app_nil_r. split_and!; try done.
    + by constructor.
    + intros x Hx. exists x. split; [done|].
      by apply same_topology_rel_refl, Hchk.
  - exists (Diag.add_tags d c :: r1 ++ r2). rewrite app_nil_r.
    apply Forall_app in Hsuf as [HDr1 HDcr2].
    apply Forall_cons in HDcr2 as [HDc HDr2].
    split_and!; try done.
    + constructor; [by apply checkable_add_tags|]. by apply Forall_app.
    + rewrite !fmap_cons, !fmap_app, fmap_cons. simpl.
      apply sublist_skip, sublist_app; [done|]. by apply sublist_cons.
    + intros x [->|[Hx|[->|Hx]%elem_of_cons]%elem_of_app]%elem_of_cons.
      * exists (Diag.add_tags d c). split; [left|].
        by apply (same_topology_rel_refl pb d).
      * exists x. split; [right; apply elem_of_app; by left|].
        apply same_topology_rel_refl, Hchk. right.
        apply elem_of_app. by left.
      * exists (Diag.add_tags d c). split; [left|].
        by apply (same_topology_true pb d c).
      * exists x. split; [right; apply elem_of_app; by right|].
        apply same_topology_rel_refl, Hchk. right.
        apply elem_of_app. right. by right.
Qed.

Lemma topologically_distinct_cover pb pre suf :
  Forall (checkable pb) pre → Forall (checkable pb) suf →
  ∃ out,
    Py.for_each (reverse (seq 0 (length pre))) (λ i_diag diagrams,
      diagrams' ← Diag.merge_first_match i_diag diagrams;
      Some (Py.Continue diagrams')) (pre ++ suf) = Some out
    ∧ (Diag.graph <$> out) `sublist_of` (Diag.graph <$> pre ++ suf)
    ∧ (pre ≠ [] → head (Diag.graph <$> out) = head (Diag.graph <$> pre))
    ∧ (pre = [] → out = suf)
    ∧ ∀ x, x ∈ pre ++ suf → ∃ r, r ∈ out ∧ same_topology_rel pb r x.
Proof.
  revert suf. induction pre as [|d pre IH] using rev_ind;
    intros suf Hpre Hsuf.
  - simpl. exists suf. split_and!; try done.
    intros x Hx. exists x. split; [done|].
    apply same_topology_rel_refl. rewrite Forall_forall in Hsuf.
    by apply Hsuf.
  - apply Forall_app in Hpre as [Hpre Hd]. apply Forall_inv in Hd.
    rewrite length_app, Nat.add_1_r, seq_S, reverse_snoc, <-app_assoc.
    cbn [Py.for_each app Nat.add].
    destruct (merge_first_match_cover pb pre d suf Hd Hsuf)
      as (suf' & -> & HD' & Hgraphs & Hhead & Hcov).
    cbn [mbind option_bind].
    destruct (IH suf' Hpre HD') as (out & -> & Hg & Hh & Hnil & Hc).
    exists out. split_and!; try done.
    + etrans; [exact Hg|]. rewrite !fmap_app. by apply sublist_app.
    + intros _. destruct pre as [|p pre].
      * rewrite (Hnil eq_refl). by rewrite Hhead.
      * rewrite Hh by done. done.
    + intros Hnil'. by destruct pre.
    + intros x [Hx|Hx]%elem_of_app.
      * apply Hc, elem_of_app. by left.
      * destruct (Hcov x Hx) as (y & Hy & Hyx).
        destruct (Hc y) as (r & Hr & Hry); [apply elem_of_app; by right|].
        exists r. split; [done|]. by eapply same_topology_rel_trans.
Qed.

(** X15. [topologically_distinct_diagrams] on diagrams of one class keeps a
    representative of every topology: the graphs of the diagrams that are
    left are a subsequence of the graphs given, the first diagram always
    stays, and every diagram given has the topology, for the test of the
    canonicalizer, of a diagram that is left. *)
Theorem canonicalizer_representatives (pb : bool)
    (diagrams : list Diag.Diagram) :
  Forall (checkable pb) diagrams →
  ∃ out,
    Diag.topologically_distinct_diagrams diagrams = Some out
    ∧ (Diag.graph <$> out) `sublist_of` (Diag.graph <$> diagrams)
    ∧ head (Diag.graph <$> out) = head (Diag.graph <$> diagrams)
    ∧ (length out ≤ length diagrams)%nat
    ∧ ∀ d, d ∈ diagrams → ∃ r, r ∈ out ∧ same_topology_rel pb r d.
Proof.
  intros HD. rewrite topologically_distinct_diagrams_unfold.
  destruct (topologically_distinct_cover pb diagrams [] HD)
    as (out & Hrun & Hg & Hh & Hnil & Hc); [constructor|].
  rewrite app_nil_r in Hrun, Hg. exists out. split_and!; try done.
  - destruct diagrams as [|d ds]; [by rewrite (Hnil eq_refl)|].
    by apply Hh.
  - apply sublist_length in Hg. by rewrite !length_fmap in Hg.
  - intros d Hd. apply Hc. by rewrite app_nil_r.
Qed.

Lemma canonicalizer_representatives_witness :
  ∃ out,
    Diag.topologically_distinct_diagrams projected_diagrams = Some out
    ∧ (Diag.graph <$> out) `sublist_of` (Diag.graph <$> projected_diagrams)
    ∧ head (Diag.graph <$> out) = head (Diag.graph <$> projected_diagrams)
    ∧ (length out ≤ length projected_diagrams)%nat
    ∧ ∀ d, d ∈ projected_diagrams →
        ∃ r, r ∈ out ∧ same_topology_rel true r d.
Proof.
  apply (canonicalizer_representatives true projected_diagrams).
  eapply Forall_impl;
    [apply well_formed_projected, (bool_decide_unpack _); by vm_compute|].
  by intros d (Hd & _).
Defined.

(** ** Weak connectivity *)






















Lemma from_numpy_matrix_well_formed n m :
  square n m → well_formed_graph (Nx.from_numpy_matrix m).
Proof.
  intros [Hlen Hrows]. split; simpl; [apply NoDup_seq|].
  apply Forall_forall. intros e He.
  apply list_elem_of_join in He as (es & He & Hes).
  apply elem_of_lookup_imap in Hes as (u & row & -> & Hrow).
  apply list_elem_of_join in He as (es & He & Hes).
  apply elem_of_lookup_imap in Hes as (v & a & -> & Ha).
  apply elem_of_replicate in He as [-> _]. simpl.
  rewrite !elem_of_seq.
  assert (length row = n) as Hr.
  { rewrite Forall_forall in Hrows. apply Hrows.
    by eapply list_elem_of_lookup_2. }
  apply lookup_lt_Some in Hrow, Ha. lia.
Qed.



(** ** The labels of the lines *)

Lemma NoDup_lookup_injective {A} (l : list A) i j x :
  NoDup l → l !! i = Some x → l !! j = Some x → i = j.
Proof. intros Hnd Hi Hj. by eapply NoDup_lookup. Qed.

(** X17. [line_label_h(n)] is defined exactly for [n < 15] and
    [line_label_p(n)] exactly for [n < 10] (an [IndexError] beyond); each
    gives different labels to different numbers, and no label of a hole
    line is the label of a particle line. *)
Theorem line_labels_bounds :
  (∀ n, is_Some (Adg.line_label_h n) ↔ (n < 15)%nat)
  ∧ (∀ n, is_Some (Adg.line_label_p n) ↔ (n < 10)%nat)
  ∧ (∀ n m s, Adg.line_label_h n = Some s →
       Adg.line_label_h m = Some s → n = m)
  ∧ (∀ n m s, Adg.line_label_p n = Some s →
       Adg.line_label_p m = Some s → n = m)
  ∧ (∀ n m s, Adg.line_label_h n = Some s → Adg.line_label_p m ≠ Some s).
Proof.
  assert (NoDup (Py.slice 0 15 Py.ascii_lowercase
                 ++ Py.slice_minus 15 1 Py.ascii_lowercase)) as Hnd.
  { apply (bool_decide_unpack _). by vm_compute. }
  apply NoDup_app in Hnd as (Hh & Hhp & Hp).
  split_and!.
  - intros n. unfold Adg.line_label_h. by rewrite lookup_lt_is_Some.
  - intros n. unfold Adg.line_label_p. by rewrite lookup_lt_is_Some.
  - intros n m s Hn Hm. by eapply (NoDup_lookup_injective _ n m s Hh).
  - intros n m s Hn Hm. by eapply (NoDup_lookup_injective _ n m s Hp).
  - intros n m s Hn Hm. apply (Hhp s).
    + by eapply list_elem_of_lookup_2.
    + by eapply list_elem_of_lookup_2.
Qed.

(** ** The result file of the script *)

(** X18. The titles of [result.tex] for BMBPT. The title of the two-body
    non-canonical diagrams is written before no diagram when operator
    kernels are computed and no two-body diagram is canonical for a generic
    operator only: the test for the operator-only title comes first and
    holds at the same index, so the non-canonical diagrams follow under the
    operator-only title. In the same way the three-body operator-only title
    is never written when no three-body diagram is canonical for the
    energy. Away from these coincidences, the non-canonical title is written
    before the first non-canonical diagram and nowhere else. The run for
    BMBPT at order 2 is such a case: its second diagram, which is
    non-canonical, comes under the operator-only title. *)
Theorem result_titles_shadowed (norm three_N : bool) (c : Adg.counts) :
  (norm = false → Adg.nb_2_EHF c = 0%nat →
   ∀ i_diag, Adg.title_2_noHF ∉ Adg.titles_before norm three_N c i_diag)
  ∧ (Adg.nb_3_HF c = 0%nat →
     ∀ i_diag, Adg.title_3_EHF ∉ Adg.titles_before norm three_N c i_diag)
  ∧ ((norm = true ∨ 0 < Adg.nb_2_EHF c)%nat →
     ∀ i_diag, Adg.title_2_noHF ∈ Adg.titles_before norm three_N c i_diag
               ↔ i_diag = (Adg.nb_2_HF c + Adg.nb_2_EHF c)%nat)
  ∧ ∃ r, Adg.run "BMBPT" 2 false false = Some r
         ∧ Adg.nb_2_HF (Adg.count r) = 1%nat
         ∧ Adg.nb_2_EHF (Adg.count r) = 0%nat
         ∧ Adg.nb_2_noHF (Adg.count r) = 1%nat
         ∧ Adg.titles_before false false (Adg.count r) 1
           = [Adg.title_2_EHF].
Proof.
  assert (Hne : ∀ a b : string, bool_decide (a = b) = false → a ≠ b)
    by (intros a b Hab; by apply bool_decide_eq_false in Hab).
  unfold Adg.titles_before. split_and!.
  - intros -> H0 i_diag. rewrite H0, Nat.add_0_r.
    rewrite (bool_decide_eq_true_2 (false = false)) by done.
    rewrite andb_true_r.
    destruct (bool_decide (i_diag = Adg.nb_2_HF c)); simpl;
      destruct three_N; repeat case_bool_decide; simpl;
      rewrite ?elem_of_cons, ?elem_of_nil;
      intros Hin; repeat destruct Hin as [Hin|Hin]; try done;
      revert Hin; by apply Hne.
  - intros H0 i_diag. rewrite H0, Nat.add_0_r.
    destruct three_N, norm; repeat case_bool_decide; simpl;
      rewrite ?elem_of_cons, ?elem_of_nil;
      intros Hin; repeat destruct Hin as [Hin|Hin]; try done;
      revert Hin; by apply Hne.
  - intros Hcase i_diag.
    destruct (decide (i_diag = (Adg.nb_2_HF c + Adg.nb_2_EHF c)%nat))
      as [->|Hi].
    + split; [done|]. intros _.
      rewrite (bool_decide_eq_true_2
                 (_ = (Adg.nb_2_HF c + Adg.nb_2_EHF c)%nat)) by done.
      apply elem_of_app. left.
      destruct Hcase as [->|Hpos].
      * rewrite andb_false_r. left.
      * rewrite (bool_decide_eq_false_2 (_ = Adg.nb_2_HF c)) by lia.
        left.
    + split; [|done].
      rewrite (bool_decide_eq_false_2 (i_diag = _ + _)%nat) by done.
      destruct three_N, norm; repeat case_bool_decide; simpl;
        rewrite ?elem_of_cons, ?elem_of_nil;
        intros Hin; repeat destruct Hin as [Hin|Hin]; try done;
        exfalso; revert Hin; by apply Hne.
  - eexists. split; [vm_compute; reflexivity|]. by split_and!.
Qed.

Lemma for_each_is_Some {A S} (xs : list A) (body : A → S → option (Py.ctl S))
    (ok : A → Prop) (s : S) :
  (∀ x s, ok x → ∃ s', body x s = Some (Py.Continue s')) →
  (∀ x s, ¬ ok x → body x s = None) →
  (∀ x, Decision (ok x)) →
  is_Some (Py.for_each xs body s) ↔ Forall ok xs.
Proof.
  intros Hok Hnok Hdec. revert s.
  induction xs as [|x xs IH]; intros s; simpl; [by split|].
  destruct (decide (ok x)) as [Hx|Hx].
  - destruct (Hok x s Hx) as [s' ->]. rewrite IH, Forall_cons. tauto.
  - rewrite (Hnok x s Hx). split; [by intros [? ?]|].
    by intros [? _]%Forall_cons.
Qed.

(** X19. The result file needs the files of the diagrams for BMBPT in every
    case: whether or not the drawing instructions were asked for, the
    files [diag_0.tex] ... are opened, and writing fails exactly when one
    of them cannot be opened. For MBPT the files are read only when both
    the instructions and their inclusion were asked for, and writing needs
    the expression of every diagram. *)
Theorem write_result_needs_files (theory : string)
    (norm three_N pdiag pdraw : bool) (c : Adg.counts) (nedges_eq : list Z)
    (phases mat_els denoms : list string) (diag_files : nat → option string) :
  is_Some (Adg.write_result theory norm three_N pdiag pdraw c nedges_eq
             phases mat_els denoms diag_files)
  ↔ ∀ i, (i < Adg.numdiag c)%nat →
      (theory = "MBPT"%string →
       is_Some (Adg.diag_exp nedges_eq phases mat_els denoms i))
      ∧ (theory = "MBPT"%string ∧ (pdiag = false ∨ pdraw = false)
         ∨ is_Some (diag_files i)).
Proof.
  unfold Adg.write_result. cbv zeta.
  set (out0 := if bool_decide (theory = "BMBPT"%string) then _ else _).
  destruct (decide (theory = "MBPT"%string)) as [->|Hth].
  - rewrite (bool_decide_eq_true_2 ("MBPT" = "MBPT")%string) by done.
    rewrite (bool_decide_eq_false_2 ("MBPT" = "BMBPT")%string) in * by done.
    rewrite andb_true_r.
    destruct (negb pdiag || negb pdraw) eqn:Hp.
    + match goal with |- is_Some (?l ≫= _) ↔ _ =>
        assert (is_Some l ↔ Forall (λ i,
          is_Some (Adg.diag_exp nedges_eq phases mat_els denoms i))
          (Py.range2 0 (Adg.numdiag c))) as Hloop end.
      { apply for_each_is_Some; [| |apply _].
        - intros i s [e ->]. simpl. eauto.
        - intros i s Hn. destruct (Adg.diag_exp _ _ _ _ i); [|done].
          destruct Hn. eauto. }
      rewrite Forall_forall in Hloop.
      split.
      * intros Hsome i Hi. split.
        -- intros _. apply Hloop; [|apply elem_of_seq; lia].
           destruct (Py.for_each _ _ out0); [eauto|by destruct Hsome].
        -- left. split; [done|]. destruct pdiag, pdraw; auto.
      * intros Hall.
        destruct (proj2 Hloop) as [out ->]; [|by simpl; eauto].
        intros i Hi%elem_of_seq. apply Hall; [lia|done].
    + apply orb_false_iff in Hp as [Hp1 Hp2].
      apply negb_false_iff in Hp1, Hp2. subst pdiag pdraw.
      match goal with |- is_Some (?l ≫= _) ↔ _ =>
        assert (is_Some l ↔ Forall (λ i,
          is_Some (Adg.diag_exp nedges_eq phases mat_els denoms i)
          ∧ is_Some (diag_files i))
          (Py.range2 0 (Adg.numdiag c))) as Hloop end.
      { apply for_each_is_Some; [| |apply _].
        - intros i s [[e ->] [f ->]]. simpl. eauto.
        - intros i s Hn.
          destruct (Adg.diag_exp _ _ _ _ i); simpl; [|done].
          destruct (diag_files i); simpl; [|done].
          destruct Hn. eauto. }
      rewrite Forall_forall in Hloop.
      split.
      * intros Hsome i Hi.
        destruct (proj1 Hloop) with i as [He Hf];
          [|apply elem_of_seq; lia|].
        { destruct (Py.for_each _ _ out0); [eauto|by destruct Hsome]. }
        split; [done|by right].
      * intros Hall.
        destruct (proj2 Hloop) as [out ->]; [|by simpl; eauto].
        intros i Hi%elem_of_seq.
        destruct (Hall i) as [He [[_ [?|?]]|Hf]]; [lia|done..|].
        split; [by apply He|done].
  - rewrite (bool_decide_eq_false_2 (theory = "MBPT"%string)) by done.
    rewrite andb_false_r.
    match goal with |- is_Some (?l ≫= _) ↔ _ =>
      assert (is_Some l ↔ Forall (λ i, is_Some (diag_files i))
        (Py.range2 0 (Adg.numdiag c))) as Hloop end.
    { apply for_each_is_Some; [| |apply _].
      - intros i s [f ->]. simpl. eauto.
      - intros i s Hn. simpl.
        destruct (diag_files i); simpl; [|done]. destruct Hn. eauto. }
    rewrite Forall_forall in Hloop.
    split.
    + intros Hsome i Hi. split; [done|]. right.
      apply Hloop; [|apply elem_of_seq; lia].
      match goal with |- is_Some ?l =>
        destruct l; [eauto|by destruct Hsome] end.
    + intros Hall.
      destruct (proj2 Hloop) as [out ->]; [|by simpl; eauto].
      intros i Hi%elem_of_seq.
      destruct (Hall i) as [_ [[? _]|Hf]]; [lia|done|done].
Qed.

(** ** The expressions of the MBPT diagrams *)

Lemma index_Some {A} `{EqDecision A} (x : A) (l : list A) (i : nat) :
  Py.index x l = Some i
  ↔ l !! i = Some x ∧ ∀ j y, l !! j = Some y → (j < i)%nat → y ≠ x.
Proof.
  unfold Py.index. split.
  - intros Hfind. apply fmap_Some in Hfind as ([i' y] & Hfind & ->).
    apply list_find_Some in Hfind as (Hi & -> & Hbefore). simpl.
    split; [done|]. intros j z Hj Hlt. by apply (Hbefore j).
  - intros [Hi Hbefore]. apply fmap_Some. exists (i, x). split; [|done].
    apply list_find_Some. split_and!; [done|done|].
    intros j z Hj Hlt. by apply (Hbefore j).
Qed.

Lemma index_NoDup (l : list nat) (x i : nat) :
  NoDup l → l !! i = Some x → Py.index x l = Some i.
Proof.
  intros Hnd Hi. apply index_Some. split; [done|].
  intros j y Hj Hlt ->.
  pose proof (NoDup_lookup l i j x Hnd Hi Hj). lia.
Qed.

Lemma index_is_Some {A} `{EqDecision A} (x : A) (l : list A) :
  x ∈ l → ∃ i, Py.index x l = Some i ∧ l !! i = Some x.
Proof.
  intros Hx. unfold Py.index.
  destruct (list_find_elem_of (λ y, y = x) l x Hx eq_refl) as [[i y] Hfind].
  rewrite Hfind. simpl. exists i. split; [done|].
  by apply list_find_Some in Hfind as (Hi & -> & _).
Qed.

Lemma column_entries (n ui vi : nat) :
  (ui < n)%nat → (vi < n)%nat →
  <[vi := -1]> (<[ui := 1]> (replicate n 0)) = column_entry ui vi <$> seq 0 n.
Proof.
  intros Hu Hv. apply list_eq. intros row.
  rewrite list_lookup_fmap. unfold column_entry.
  destruct (decide (row < n)%nat) as [Hr|Hr].
  - rewrite lookup_seq_lt by done. simpl.
    destruct (decide (row = vi)) as [->|Hrv].
    + rewrite list_lookup_insert_eq;
        [done|by rewrite length_insert, length_replicate].
    + rewrite list_lookup_insert_ne by done.
      destruct (decide (row = ui)) as [->|Hru].
      * rewrite list_lookup_insert_eq; [done|by rewrite length_replicate].
      * rewrite list_lookup_insert_ne by done.
        by rewrite lookup_replicate_2.
  - rewrite lookup_seq_ge by lia. simpl. apply lookup_ge_None.
    rewrite !length_insert, length_replicate. lia.
Qed.

Lemma column_index_plus (n ui vi : nat) :
  (ui < n)%nat → ui ≠ vi →
  Py.index 1 (column_entry ui vi <$> seq 0 n) = Some ui.
Proof.
  intros Hu Hne. apply index_Some. rewrite list_lookup_fmap. split.
  - rewrite lookup_seq_lt by done. simpl. unfold column_entry.
    rewrite decide_False by done. by rewrite decide_True.
  - intros j y. rewrite list_lookup_fmap.
    intros Hy Hlt. apply fmap_Some in Hy as (k & Hk%lookup_seq & ->).
    destruct Hk as [-> _]. simpl. unfold column_entry.
    destruct (decide (j = vi)); [done|].
    destruct (decide (j = ui)); [lia|done].
Qed.

Lemma column_index_minus (n ui vi : nat) :
  (vi < n)%nat →
  Py.index (-1) (column_entry ui vi <$> seq 0 n) = Some vi.
Proof.
  intros Hv. apply index_Some. rewrite list_lookup_fmap. split.
  - rewrite lookup_seq_lt by done. simpl. unfold column_entry.
    by rewrite decide_True.
  - intros j y. rewrite list_lookup_fmap.
    intros Hy Hlt. apply fmap_Some in Hy as (k & Hk%lookup_seq & ->).
    destruct Hk as [-> _]. simpl. unfold column_entry.
    destruct (decide (j = vi)); [lia|].
    destruct (decide (j = ui)); done.
Qed.

Lemma loopless_rows g e :
  loopless g → e ∈ Nx.edges g →
  Nx.node_index g (Nx.src e) = Some (source_row g e)
  ∧ Nx.node_index g (Nx.dst e) = Some (target_row g e)
  ∧ (source_row g e < Nx.number_of_nodes g)%nat
  ∧ (target_row g e < Nx.number_of_nodes g)%nat
  ∧ source_row g e ≠ target_row g e.
Proof.
  intros [[Hnd Hes] Hloops] He. rewrite Forall_forall in Hes, Hloops.
  destruct (Hes e He) as [Hs Hd]. pose proof (Hloops e He) as Hne.
  unfold source_row, target_row, Nx.node_index.
  destruct (index_is_Some _ _ Hs) as (ui & -> & Hui).
  destruct (index_is_Some _ _ Hd) as (vi & -> & Hvi). simpl.
  split_and!; try done.
  - by apply lookup_lt_Some in Hui.
  - by apply lookup_lt_Some in Hvi.
  - intros ->. congruence.
Qed.

Lemma incidence_spec g :
  loopless g →
  Nx.incidence g
  = Some ((λ e, column_entry (source_row g e) (target_row g e)
                  <$> seq 0 (Nx.number_of_nodes g)) <$> Nx.edges g).
Proof.
  intros Hg. unfold Nx.incidence. apply mapM_Some.
  apply Forall2_fmap_r, Forall_Forall2_diag, Forall_forall.
  intros e He.
  destruct (loopless_rows g e Hg He) as (Hs & Hd & Hu & Hv & Hne).
  destruct Hg as [_ Hloops]. rewrite Forall_forall in Hloops.
  unfold Nx.incidence_column.
  rewrite bool_decide_eq_false_2 by (by apply Hloops).
  rewrite Hs, Hd. simpl. f_equal. by apply column_entries.
Qed.

Lemma columns_lookup_middle g pre e suf :
  columns g (pre ++ e :: suf) !! length pre
  = Some (column_entry (source_row g e) (target_row g e)
            <$> seq 0 (Nx.number_of_nodes g)).
Proof.
  unfold columns. by rewrite list_lookup_fmap, list_lookup_middle.
Qed.

Lemma edge_types_loop g (pre suf : list Nx.edge) (n_holes : Z)
    (type_edg : list string) :
  Forall (λ e, (source_row g e < Nx.number_of_nodes g)%nat
               ∧ (target_row g e < Nx.number_of_nodes g)%nat
               ∧ source_row g e ≠ target_row g e) suf →
  Py.for_each (seq (length pre) (length suf)) (λ col '(n_holes, type_edg),
    flat ← columns g (pre ++ suf) !! col;
    i_plus ← Py.index 1 flat;
    i_minus ← Py.index (-1) flat;
    if bool_decide (i_plus < i_minus)%nat
    then Some (Py.Continue (n_holes + 1, type_edg ++ ["h"%string]))
    else Some (Py.Continue (n_holes, type_edg ++ ["p"%string])))
    (n_holes, type_edg)
  = Some (n_holes + Z.of_nat (length (filter (λ e, hole_line g e = true) suf)),
          type_edg ++ (line_type g <$> suf)).
Proof.
  intros Hsuf. revert pre n_holes type_edg.
  induction Hsuf as [|e suf (Hu & Hv & Hne) _ IH]; intros pre n_holes type_edg.
  - simpl. by rewrite Z.add_0_r, app_nil_r.
  - cbn [length seq Py.for_each].
    rewrite columns_lookup_middle. cbn [mbind option_bind].
    rewrite column_index_plus, column_index_minus by done.
    cbn [mbind option_bind].
    specialize (IH (pre ++ [e])).
    rewrite length_app, Nat.add_1_r, <-app_assoc in IH. simpl in IH.
    change (bool_decide (source_row g e < target_row g e)%nat)
      with (hole_line g e).
    destruct (hole_line g e) eqn:Hh; rewrite IH, filter_cons, fmap_cons.
    + rewrite decide_True by done. simpl.
      rewrite <-app_assoc. simpl. f_equal.
      f_equal; [lia|by unfold line_type; rewrite Hh].
    + rewrite decide_False by (by rewrite Hh). rewrite <-app_assoc. simpl.
      f_equal. f_equal. by unfold line_type; rewrite Hh.
Qed.

Lemma edge_types_spec g :
  loopless g →
  Adg.edge_types (columns g (Nx.edges g)) (Nx.number_of_edges g)
  = Some (Z.of_nat (length (filter (λ e, hole_line g e = true) (Nx.edges g))),
          line_type g <$> Nx.edges g).
Proof.
  intros Hg. unfold Adg.edge_types, Py.range, Nx.number_of_edges.
  pose proof (edge_types_loop g [] (Nx.edges g) 0 []) as Hloop.
  simpl in Hloop. rewrite Hloop; [done|].
  apply Forall_forall. intros e He.
  by destruct (loopless_rows g e Hg He) as (_ & _ & ? & ? & ?).
Qed.

Lemma line_label_spec g col e :
  Nx.edges g !! col = Some e →
  Adg.line_label (line_type g <$> Nx.edges g) col = label_of g col e.
Proof.
  intros He. unfold Adg.line_label, label_of, line_type.
  rewrite list_lookup_fmap, He. simpl. by destruct (hole_line g e).
Qed.

Lemma label_of_is_Some g col e :
  is_Some (label_of g col e)
  ↔ (col < (if hole_line g e then 15 else 10))%nat.
Proof.
  unfold label_of, Adg.line_label_h, Adg.line_label_p.
  destruct (hole_line g e); by rewrite lookup_lt_is_Some.
Qed.

Lemma columns_entry g col e row :
  Nx.edges g !! col = Some e → (row < Nx.number_of_nodes g)%nat →
  columns g (Nx.edges g) !! col ≫= (.!! row)
  = Some (column_entry (source_row g e) (target_row g e) row).
Proof.
  intros He Hrow. unfold columns. rewrite list_lookup_fmap, He. simpl.
  by rewrite list_lookup_fmap, lookup_seq_lt.
Qed.

Lemma for_each_continues {A S B} (xs : list A)
    (body : A → S → option (Py.ctl S)) (s : S) (k : S → option B) :
  (∀ x s, x ∈ xs → ∃ s', body x s = Some (Py.Continue s')) →
  (∀ s, is_Some (k s)) →
  is_Some (Py.for_each xs body s ≫= k).
Proof.
  intros Hb Hk.
  destruct (for_each_invariant (λ _, True) xs body s) as (s' & -> & _);
    [done| |by apply Hk].
  intros x t Hx _. destruct (Hb x t Hx) as [s' ->]. eauto.
Qed.

Lemma bra_ket_defined g row :
  (∀ col e, Nx.edges g !! col = Some e → is_Some (label_of g col e)) →
  (row < Nx.number_of_nodes g)%nat →
  is_Some (Adg.bra_ket (columns g (Nx.edges g))
             (line_type g <$> Nx.edges g) (Nx.number_of_edges g) row).
Proof.
  intros Hlab Hrow. unfold Adg.bra_ket.
  rewrite <-(bind_with_Some (Py.for_each _ _ _)).
  apply for_each_continues; [|by eauto].
  intros col [bra ket] Hcol%elem_of_seq.
  destruct (lookup_lt_is_Some_2 (Nx.edges g) col) as [e He];
    [unfold Nx.number_of_edges in Hcol; lia|].
  rewrite (columns_entry g col e row He Hrow). simpl.
  rewrite (line_label_spec g col e He).
  destruct (Hlab col e He) as [l ->]. simpl.
  destruct (bool_decide _), (bool_decide _); simpl; eauto.
Qed.

Lemma bra_ket_undefined g col e :
  loopless g → Nx.edges g !! col = Some e → label_of g col e = None →
  Adg.bra_ket (columns g (Nx.edges g)) (line_type g <$> Nx.edges g)
    (Nx.number_of_edges g) (source_row g e) = None.
Proof.
  intros Hg He Hnone.
  destruct (loopless_rows g e Hg (list_elem_of_lookup_2 _ _ _ He))
    as (_ & _ & Hu & Hv & Hne).
  unfold Adg.bra_ket. apply (for_each_raise _ _ _ col).
  - apply elem_of_seq. apply lookup_lt_Some in He.
    unfold Nx.number_of_edges. lia.
  - intros [bra ket].
    rewrite (columns_entry g col e _ He Hu). simpl.
    unfold column_entry. rewrite decide_False by done.
    rewrite decide_True by done. simpl.
    by rewrite (line_label_spec g col e He), Hnone.
  - intros c [bra ket] s'.
    destruct (columns g (Nx.edges g) !! c ≫= _) as [x|]; simpl; [|done].
    destruct (if bool_decide (x = 1) then _ else _) as [b|]; simpl; [|done].
    by destruct (if bool_decide (x = -1) then _ else _).
Qed.

Lemma mat_element_defined g :
  (∀ col e, Nx.edges g !! col = Some e → is_Some (label_of g col e)) →
  is_Some (Adg.mat_element (columns g (Nx.edges g))
             (line_type g <$> Nx.edges g)
             (Nx.number_of_nodes g) (Nx.number_of_edges g)).
Proof.
  intros Hlab. unfold Adg.mat_element.
  rewrite <-(bind_with_Some (Py.for_each _ _ _)).
  apply for_each_continues; [|by eauto].
  intros row braket Hrow%elem_of_seq.
  destruct (bra_ket_defined g row Hlab) as [[bra ket] ->]; [lia|].
  simpl. eauto.
Qed.

Lemma mat_element_undefined g col e :
  loopless g → Nx.edges g !! col = Some e → label_of g col e = None →
  Adg.mat_element (columns g (Nx.edges g)) (line_type g <$> Nx.edges g)
    (Nx.number_of_nodes g) (Nx.number_of_edges g) = None.
Proof.
  intros Hg He Hnone.
  destruct (loopless_rows g e Hg (list_elem_of_lookup_2 _ _ _ He))
    as (_ & _ & Hu & _).
  unfold Adg.mat_element. apply (for_each_raise _ _ _ (source_row g e)).
  - apply elem_of_seq. lia.
  - intros s. by rewrite (bra_ket_undefined g col e).
  - intros row s s'.
    by destruct (Adg.bra_ket _ _ _ row) as [[bra ket]|].
Qed.

Lemma denominator_defined g :
  (∀ col e, Nx.edges g !! col = Some e → is_Some (label_of g col e)) →
  is_Some (Adg.denominator (columns g (Nx.edges g))
             (line_type g <$> Nx.edges g)
             (Nx.number_of_nodes g) (Nx.number_of_edges g)).
Proof.
  intros Hlab. unfold Adg.denominator.
  apply for_each_continues; [|by eauto].
  intros row denom _. cbv zeta.
  assert (∀ o : option string, is_Some o →
    ∃ s', o ≫= (λ d, Some (Py.Continue (d +:+ ")")%string))
          = Some (Py.Continue s')) as Hk by (intros ? [? ->]; simpl; eauto).
  apply Hk.
  rewrite <-(bind_with_Some (Py.for_each _ _ _)).
  apply for_each_continues; [|by eauto].
  intros col d Hcol%elem_of_seq.
  destruct (lookup_lt_is_Some_2 (Nx.edges g) col) as [e He];
    [unfold Nx.number_of_edges in Hcol; lia|].
  unfold columns at 1. rewrite list_lookup_fmap, He. simpl.
  rewrite (line_label_spec g col e He).
  destruct (Hlab col e He) as [l ->]. simpl.
  destruct (bool_decide _), (bool_decide _); simpl; eauto.
Qed.

Lemma expression_of_defined g :
  loopless g →
  (∀ col e, Nx.edges g !! col = Some e → is_Some (label_of g col e)) →
  ∃ x, Adg.expression_of g = Some x
    ∧ Adg.phase x
      = ("(-1)^{" +:+
         Np.fmt_d (Z.of_nat (length (filter (λ e, hole_line g e = true)
                                        (Nx.edges g)))) +:+ "+l}")%string
    ∧ Adg.nedges_eq x
      = 2 ^ Z.of_nat (length (Nx.edges g)
                      - length (remove_dups (columns g (Nx.edges g)))).
Proof.
  intros Hg Hlab. unfold Adg.expression_of.
  rewrite (incidence_spec g Hg). fold (columns g (Nx.edges g)). simpl.
  rewrite (edge_types_spec g Hg). simpl.
  destruct (mat_element_defined g Hlab) as [braket ->]. simpl.
  destruct (denominator_defined g Hlab) as [denom ->]. simpl.
  eexists. split; [done|]. simpl. split; [done|].
  unfold columns at 1. by rewrite length_fmap.
Qed.

Lemma expression_of_undefined g col e :
  loopless g → Nx.edges g !! col = Some e → label_of g col e = None →
  Adg.expression_of g = None.
Proof.
  intros Hg He Hnone. unfold Adg.expression_of.
  rewrite (incidence_spec g Hg). fold (columns g (Nx.edges g)). simpl.
  rewrite (edge_types_spec g Hg). simpl.
  by rewrite (mat_element_undefined g col e Hg He Hnone).
Qed.


Lemma from_numpy_matrix_edge n m e :
  square n m → e ∈ Nx.edges (Nx.from_numpy_matrix m) →
  (Nx.src e < n)%nat ∧ (Nx.dst e < n)%nat
  ∧ 0 < entry m (Nx.src e) (Nx.dst e).
Proof.
  intros [Hlen Hrows] He. simpl in He.
  apply list_elem_of_join in He as (es & He & Hes).
  apply elem_of_lookup_imap in Hes as (u & row & -> & Hrow).
  apply list_elem_of_join in He as (es & He & Hes).
  apply elem_of_lookup_imap in Hes as (v & a & -> & Ha).
  apply elem_of_replicate in He as [-> Hpos]. simpl.
  assert (length row = n) as Hr.
  { rewrite Forall_forall in Hrows. apply Hrows.
    by eapply list_elem_of_lookup_2. }
  unfold entry, getitem2. rewrite Hrow. simpl. rewrite Ha. simpl.
  apply lookup_lt_Some in Hrow, Ha. lia.
Qed.

Lemma from_numpy_matrix_rows n m e :
  square n m → e ∈ Nx.edges (Nx.from_numpy_matrix m) →
  source_row (Nx.from_numpy_matrix m) e = Nx.src e
  ∧ target_row (Nx.from_numpy_matrix m) e = Nx.dst e.
Proof.
  intros Hm He. destruct (from_numpy_matrix_edge n m e Hm He) as (Hu & Hv & _).
  destruct Hm as [Hlen _].
  unfold source_row, target_row, Nx.node_index. simpl.
  assert (∀ u, (u < length m)%nat → Py.index u (seq 0 (length m)) = Some u)
    as Hi.
  { intros u Hlt. apply index_NoDup; [apply NoDup_seq|].
    by rewrite lookup_seq_lt. }
  by rewrite !Hi by lia.
Qed.

Lemma from_numpy_matrix_loopless n m :
  square n m → Forall (λ x, x = 0) (diagonal m) →
  loopless (Nx.from_numpy_matrix m).
Proof.
  intros Hm Hdiag. split; [by eapply from_numpy_matrix_well_formed|].
  apply Forall_forall. intros e He Heq.
  destruct (from_numpy_matrix_edge n m e Hm He) as (Hu & _ & Hpos).
  rewrite <-Heq in Hpos. destruct Hm as [Hlen _].
  destruct (lookup_lt_is_Some_2 m (Nx.src e)) as [row Hrow]; [lia|].
  rewrite Forall_forall in Hdiag.
  assert (default 0 (row !! Nx.src e) = 0) as H0.
  { apply Hdiag. unfold diagonal. apply elem_of_lookup_imap. eauto. }
  unfold entry, getitem2 in Hpos. rewrite Hrow in Hpos. simpl in Hpos. lia.
Qed.


Lemma hole_line_from_numpy_matrix n m e :
  square n m → e ∈ Nx.edges (Nx.from_numpy_matrix m) →
  hole_line (Nx.from_numpy_matrix m) e
  = bool_decide (Nx.src e < Nx.dst e)%nat.
Proof.
  intros Hm He. unfold hole_line.
  by destruct (from_numpy_matrix_rows n m e Hm He) as [-> ->].
Qed.




Lemma out_degree_row n m v row :
  square n m → m !! v = Some row → out_degree m v = Zsum row.
Proof.
  intros [Hlen Hrows] Hrow. unfold out_degree.
  assert (length row = length m) as Hl.
  { rewrite Forall_forall in Hrows. rewrite (Hrows row), Hlen; [done|].
    by eapply list_elem_of_lookup_2. }
  rewrite <-Hl. unfold entry, getitem2. rewrite Hrow. simpl.
  clear. induction row as [|a row IH]; [done|]. simpl.
  rewrite <-fmap_S_seq, <-list_fmap_compose. f_equal. exact IH.
Qed.

Lemma Zsum_rows_const (c : Z) (m : matrix) :
  Forall (λ row, Zsum row = c) m → Zsum (Zsum <$> m) = c * Z.of_nat (length m).
Proof. induction 1 as [|row m Hrow _ IH]; csimpl; lia. Qed.

Lemma from_numpy_matrix_edges_snoc (m : matrix) (row : list Z) :
  Nx.edges (Nx.from_numpy_matrix (m ++ [row]))
  = Nx.edges (Nx.from_numpy_matrix m)
    ++ mjoin (imap (λ v a, replicate (Z.to_nat a)
                             (Nx.Edge (length m) v None)) row).
Proof.
  simpl. rewrite imap_app, join_app. simpl.
  by rewrite Nat.add_0_r, app_nil_r.
Qed.

Lemma mbpt_expression_orders (n : nat) (out : list matrix) (m : matrix) :
  (0 < n)%nat →
  Adg.diagram_generation n = Some out → m ∈ out →
  is_Some (Adg.expression_of (Nx.from_numpy_matrix m)) ↔ (n ≤ 5)%nat.
Proof.
  intros _ Hout Hm.
  destruct (diagram_generation_sums n) as (out' & Hout' & Hall).
  assert (out' = out) as -> by congruence.
  destruct (Hall m Hm) as (_ & Hsq & Hdeg).
  assert (Forall (λ x, x = 0) (diagonal m)) as Hdiag.
  { apply Forall_forall. intros x Hx. unfold diagonal in Hx.
    apply elem_of_lookup_imap in Hx as (i & row & -> & Hrow).
    pose proof (lookup_lt_Some _ _ _ Hrow) as Hi.
    destruct Hsq as [Hlen _].
    destruct (Hdeg i) as (_ & _ & _ & H0 & _); [lia|].
    unfold entry, getitem2 in H0. by rewrite Hrow in H0. }
  assert (nonnegative m) as Hpos.
  { apply (square_nonnegative n); [done|]. intros v u Hv Hu.
    destruct (Hdeg v Hv) as (_ & _ & _ & _ & H012).
    destruct (H012 u Hu) as [->| [->| ->]]; lia. }
  assert (Forall (λ row, Zsum row = 2) m) as Hrows.
  { apply Forall_forall. intros row Hrow.
    apply list_elem_of_lookup in Hrow as [v Hrow].
    rewrite <-(out_degree_row n m v row Hsq Hrow).
    destruct Hsq as [Hlen _]. apply lookup_lt_Some in Hrow.
    by destruct (Hdeg v) as (_ & -> & _); [lia|]. }
  pose proof (from_numpy_matrix_loopless n m Hsq Hdiag) as Hg.
  split.
  - intros [x Hx].
    destruct (decide (n ≤ 5)%nat) as [|Hn]; [done|]. exfalso.
    destruct m as [|row0 m0 _] using rev_ind.
    { destruct Hsq as [Hlen _]. simpl in Hlen. lia. }
    apply Forall_app in Hrows as [Hrows0 [Hlast _]%Forall_cons].
    apply Forall_app in Hpos as [Hpos0 [Hposl _]%Forall_cons].
    assert (length m0 + 1 = n)%nat as Hlen0.
    { destruct Hsq as [Hlen _]. by rewrite length_app in Hlen. }
    pose proof (length_matrix_edges (λ u v, Nx.Edge u v None) m0 Hpos0) as He0.
    rewrite (Zsum_rows_const 2 m0 Hrows0) in He0.
    pose proof (length_matrix_edges (λ _ v, Nx.Edge (length m0) v None)
                  [row0] (Forall_cons_2 _ _ _ Hposl (Forall_nil_2 _))) as Hel.
    simpl in Hel. rewrite app_nil_r in Hel.
    pose proof (from_numpy_matrix_edges_snoc m0 row0) as Hsnoc.
    match type of Hel with
    | Z.of_nat (length ?R) = _ => destruct R as [|e es] eqn:Hes
    end; [simpl in Hel; lia|].
    assert (Nx.edges (Nx.from_numpy_matrix (m0 ++ [row0]))
              !! length (Nx.edges (Nx.from_numpy_matrix m0)) = Some e) as He.
    { rewrite Hsnoc. by rewrite list_lookup_middle. }
    pose proof (list_elem_of_lookup_2 _ _ _ He) as Hin.
    destruct (from_numpy_matrix_edge n _ e Hsq Hin) as (Hu & Hv & _).
    assert (Nx.src e = length m0) as Hsrc.
    { assert (e ∈ mjoin (imap (λ v a, replicate (Z.to_nat a)
                (Nx.Edge (length m0) v None)) row0)) as Hin'
        by (rewrite Hes; left).
      apply list_elem_of_join in Hin' as (l & Hin' & Hl).
      apply elem_of_lookup_imap in Hl as (v & a & -> & _).
      by apply elem_of_replicate in Hin' as [-> _]. }
    assert (label_of (Nx.from_numpy_matrix (m0 ++ [row0]))
              (length (Nx.edges (Nx.from_numpy_matrix m0))) e = None) as Hl.
    { apply eq_None_not_Some. rewrite label_of_is_Some.
      rewrite (hole_line_from_numpy_matrix n _ e Hsq Hin).
      rewrite bool_decide_eq_false_2 by lia.
      change (Nx.edges (Nx.from_numpy_matrix m0))
        with (mjoin (imap (λ u row, mjoin (imap (λ v a,
                replicate (Z.to_nat a) (Nx.Edge u v None)) row)) m0)).
      lia. }
    by rewrite (expression_of_undefined _ _ e Hg He Hl) in Hx.
  - intros Hn.
    destruct (expression_of_defined _ Hg) as (x & -> & _); [|by eauto].
    intros col e He. apply label_of_is_Some.
    apply lookup_lt_Some in He.
    pose proof (length_matrix_edges (λ u v, Nx.Edge u v None) m Hpos) as Hlen.
    rewrite (Zsum_rows_const 2 m Hrows) in Hlen.
    change (mjoin _) with (Nx.edges (Nx.from_numpy_matrix m)) in Hlen.
    destruct Hsq as [Hl _]. destruct (hole_line _ e); lia.
Qed.

(** X21. The expressions exist for the orders 1 to 5 only: for every
    matrix that [diagram_generation] returns at order [n], the script
    builds the graph (line 334) and gets an expression for it (lines
    441-509) exactly when [n] is between 1 and 5. At order 0 the generator
    returns the array of a list without lines, on which the call of
    [from_numpy_matrix] raises [ValueError]. From order 6 on the lines
    that leave the last vertex stand in columns from 10 on and go to an
    earlier vertex, for which [line_label_p] has no label. *)
Theorem mbpt_expressions_up_to_order_5 (n : nat) (out : list matrix)
    (m : matrix) :
  Adg.diagram_generation n = Some out → m ∈ out →
  is_Some (g ← Nx.from_numpy_matrix_checked m; Adg.expression_of g)
  ↔ (1 ≤ n ≤ 5)%nat.
Proof.
  intros Hout Hm.
  destruct (diagram_generation_sums n) as (out' & Hout' & Hall).
  assert (out' = out) as -> by congruence.
  destruct (Hall m Hm) as (_ & Hsq & _).
  unfold Nx.from_numpy_matrix_checked.
  destruct (decide (n = 0%nat)) as [->|Hn].
  - destruct Hsq as [Hlen _]. apply length_zero_iff_nil in Hlen as ->.
    rewrite bool_decide_eq_false_2 by (by intros [? _]).
    cbn [mbind option_bind]. split; [by intros [? ?]|lia].
  - rewrite bool_decide_eq_true_2.
    + cbn [mbind option_bind].
      rewrite (mbpt_expression_orders n out m) by (done || lia). lia.
    + destruct Hsq as [Hlen Hrows]. split.
      * intros ->. simpl in Hlen. lia.
      * by rewrite Hlen.
Qed.

Lemma mbpt_expressions_up_to_order_5_witness :
  is_Some (g ← Nx.from_numpy_matrix_checked [[0; 2]; [2; 0]];
           Adg.expression_of g)
  ↔ (1 ≤ 2 ≤ 5)%nat.
Proof.
  apply (mbpt_expressions_up_to_order_5 2 [[[0; 2]; [2; 0]]]);
    [by vm_compute|by left].
Defined.

(** ** Drawing instructions *)

Lemma draw_props_spec (test : Nx.edge → bool) (line : string → string)
    (dirs : list string) (props : list Nx.edge) (key : nat) (out : string) :
  (key + length (filter (λ e, test e = true) props) ≤ length dirs)%nat →
  ∃ out', Diag.draw_props test line dirs props (key, out)
          = Some ((key + length (filter (λ e, test e = true) props))%nat,
                  out').
Proof.
  unfold Diag.draw_props. revert key out.
  induction props as [|e props IH]; intros key out.
  - simpl. rewrite Nat.add_0_r. by eauto.
  - rewrite filter_cons. cbn [Py.for_each].
    destruct (decide (test e = true)) as [He|He].
    + rewrite He. simpl. intros Hle.
      destruct (lookup_lt_is_Some_2 dirs key) as [dir ->]; [lia|]. simpl.
      destruct (IH (S key) (out +:+ line dir)%string) as [out' ->]; [lia|].
      exists out'. do 2 f_equal. lia.
    + apply not_true_is_false in He. rewrite He. by apply IH.
Qed.

Lemma draw_props_raise (test : Nx.edge → bool) (line : string → string)
    (dirs : list string) (props : list Nx.edge) (key : nat) (out : string) :
  (key ≤ length dirs)%nat →
  (length dirs < key + length (filter (λ e, test e = true) props))%nat →
  Diag.draw_props test line dirs props (key, out) = None.
Proof.
  unfold Diag.draw_props. revert key out.
  induction props as [|e props IH]; intros key out Hkey.
  - simpl. lia.
  - rewrite filter_cons. cbn [Py.for_each].
    destruct (decide (test e = true)) as [He|He].
    + rewrite He. simpl. intros Hlt.
      destruct (dirs !! key) as [dir|] eqn:Hdir; simpl; [|done].
      apply lookup_lt_Some in Hdir. apply IH; lia.
    + apply not_true_is_false in He. rewrite He. by apply IH.
Qed.

Lemma props_dir_length (adjacent : bool) (n : nat) :
  length (Diag.props_dir adjacent n)
  = if bool_decide (n < 3)%nat then 2%nat
    else if bool_decide (n < 5)%nat then 4%nat else 6%nat.
Proof.
  unfold Diag.props_dir.
  destruct adjacent, (bool_decide (n `mod` 2 = 1)%nat);
    repeat case_bool_decide; try lia; reflexivity.
Qed.

Lemma props_between_no_loop g vert_i vert_j e :
  e ∈ Diag.props_between g vert_i vert_j → Nx.src e ≠ Nx.dst e.
Proof.
  unfold Diag.props_between. rewrite list_elem_of_filter. tauto.
Qed.

Lemma props_counts (props : list Nx.edge) :
  Forall (λ e, Nx.src e ≠ Nx.dst e) props →
  (length (filter (λ e, bool_decide (Nx.dst e < Nx.src e)%nat
                        && negb (Diag.is_anomalous e) = true) props)
   + (length (filter (λ e, bool_decide (Nx.src e < Nx.dst e)%nat
                           && negb (Diag.is_anomalous e) = true) props)
      + length (filter (λ e, Diag.is_anomalous e = true) props))
   = length props)%nat.
Proof.
  induction 1 as [|e props He _ IH]; [done|].
  rewrite !filter_cons.
  destruct (decide (bool_decide (Nx.dst e < Nx.src e)%nat
                    && negb (Diag.is_anomalous e) = true)) as [H1|H1],
    (decide (bool_decide (Nx.src e < Nx.dst e)%nat
             && negb (Diag.is_anomalous e) = true)) as [H2|H2],
    (decide (Diag.is_anomalous e = true)) as [H3|H3];
    simpl; try lia; exfalso;
    destruct (Diag.is_anomalous e); simpl in *;
    rewrite ?andb_true_r, ?andb_false_r in *;
    repeat case_bool_decide; try done; lia.
Qed.

Lemma draw_three (t1 t2 t3 : Nx.edge → bool) (l1 l2 l3 : string → string)
    (dirs : list string) (props : list Nx.edge) (out : string) :
  let c e := length (filter (λ x, e x = true) props) in
  ((c t1 + (c t2 + c t3) ≤ length dirs)%nat →
   ∃ s, (st ← Diag.draw_props t1 l1 dirs props (0%nat, out);
         st ← Diag.draw_props t2 l2 dirs props st;
         st ← Diag.draw_props t3 l3 dirs props st;
         Some (Py.Continue st.2)) = Some (Py.Continue s))
  ∧ ((length dirs < c t1 + (c t2 + c t3))%nat →
     (st ← Diag.draw_props t1 l1 dirs props (0%nat, out);
      st ← Diag.draw_props t2 l2 dirs props st;
      st ← Diag.draw_props t3 l3 dirs props st;
      Some (Py.Continue st.2)) = None).
Proof.
  intros c. unfold c. split.
  - intros Hle.
    destruct (draw_props_spec t1 l1 dirs props 0 out) as [o1 ->]; [lia|].
    simpl.
    destruct (draw_props_spec t2 l2 dirs props
                (length (filter (λ x, t1 x = true) props)) o1) as [o2 ->];
      [lia|]. simpl.
    destruct (draw_props_spec t3 l3 dirs props
                (length (filter (λ x, t1 x = true) props)
                 + length (filter (λ x, t2 x = true) props)) o2) as [o3 ->];
      [lia|]. simpl. by eauto.
  - intros Hlt.
    destruct (decide (length (filter (λ x, t1 x = true) props)
                      ≤ length dirs)%nat) as [H1|H1];
      [|by rewrite draw_props_raise by lia].
    destruct (draw_props_spec t1 l1 dirs props 0 out) as [o1 ->]; [lia|].
    simpl.
    destruct (decide (length (filter (λ x, t1 x = true) props)
                      + length (filter (λ x, t2 x = true) props)
                      ≤ length dirs)%nat) as [H2|H2];
      [|by rewrite draw_props_raise by lia].
    destruct (draw_props_spec t2 l2 dirs props
                (length (filter (λ x, t1 x = true) props)) o1) as [o2 ->];
      [lia|]. simpl.
    by rewrite draw_props_raise by lia.
Qed.

Lemma draw_propagators_defined g propa out :
  is_Some (Diag.draw_propagators g propa out)
  ↔ ∀ vert_i vert_j,
      vert_i ∈ Nx.nodes g → vert_j ∈ drop (vert_i + 1) (Nx.nodes g) →
      (length (Diag.props_between g vert_i vert_j) ≤ 6)%nat.
Proof.
  unfold Diag.draw_propagators. cbv zeta.
  rewrite (for_each_is_Some _ _
    (λ vert_i, Forall (λ vert_j,
       (length (Diag.props_between g vert_i vert_j) ≤ 6)%nat)
       (drop (vert_i + 1) (Nx.nodes g)))).
  - rewrite Forall_forall. setoid_rewrite Forall_forall.
    split; intros H;
      [intros vi vj Hi Hj; by apply H|intros vi Hi vj Hj; by apply H].
  - intros vert_i s Hok.
    assert (is_Some (Py.for_each (drop (vert_i + 1) (Nx.nodes g))
      (λ vert_j out0,
        st ← Diag.draw_props
               (λ prop, bool_decide (Nx.dst prop < Nx.src prop)%nat
                        && negb (Diag.is_anomalous prop))
               (λ dir, "\fmf{" +:+ propa +:+ dir +:+ "}{"
                       +:+ ("v" +:+ Np.fmt_d (Z.of_nat vert_j)) +:+ ","
                       +:+ ("v" +:+ Np.fmt_d (Z.of_nat vert_i)) +:+ "}"
                       +:+ Np.newline)%string
               (Diag.props_dir
                  (bool_decide (Z.of_nat vert_j - Z.of_nat vert_i = 1))
                  (length (Diag.props_between g vert_i vert_j)))
               (Diag.props_between g vert_i vert_j) (0%nat, out0);
        st ← Diag.draw_props
               (λ prop, bool_decide (Nx.src prop < Nx.dst prop)%nat
                        && negb (Diag.is_anomalous prop))
               (λ dir, "\fmf{" +:+ propa +:+ dir +:+ "}{"
                       +:+ ("v" +:+ Np.fmt_d (Z.of_nat vert_i)) +:+ ","
                       +:+ ("v" +:+ Np.fmt_d (Z.of_nat vert_j)) +:+ "}"
                       +:+ Np.newline)%string
               (Diag.props_dir
                  (bool_decide (Z.of_nat vert_j - Z.of_nat vert_i = 1))
                  (length (Diag.props_between g vert_i vert_j)))
               (Diag.props_between g vert_i vert_j) st;
        st ← Diag.draw_props Diag.is_anomalous
               (λ dir, "\fmf{prop_mm" +:+ dir +:+ "}{"
                       +:+ ("v" +:+ Np.fmt_d (Z.of_nat vert_i)) +:+ ","
                       +:+ ("v" +:+ Np.fmt_d (Z.of_nat vert_j)) +:+ "}"
                       +:+ Np.newline)%string
               (Diag.props_dir
                  (bool_decide (Z.of_nat vert_j - Z.of_nat vert_i = 1))
                  (length (Diag.props_between g vert_i vert_j)))
               (Diag.props_between g vert_i vert_j) st;
        Some (Py.Continue st.2)) s)) as [s' ->]; [|by simpl; eauto].
    rewrite (for_each_is_Some _ _
      (λ vert_j, (length (Diag.props_between g vert_i vert_j) ≤ 6)%nat));
      [done| | |apply _].
    + intros vert_j s' Hj. apply draw_three.
      rewrite props_counts, props_dir_length
        by (apply Forall_forall; intros e;
            apply props_between_no_loop).
      repeat case_bool_decide; lia.
    + intros vert_j s' Hj. apply draw_three.
      rewrite props_counts, props_dir_length
        by (apply Forall_forall; intros e;
            apply props_between_no_loop).
      repeat case_bool_decide; lia.
  - intros vert_i s Hok.
    apply not_Forall_Exists in Hok; [|apply _].
    apply Exists_exists in Hok as (vert_j & Hj & Hlen). simpl in Hlen.
    rewrite (for_each_raise _ _ _ vert_j); [done|done| |].
    + intros s'. apply draw_three.
      rewrite props_counts, props_dir_length
        by (apply Forall_forall; intros e;
            apply props_between_no_loop).
      repeat case_bool_decide; lia.
    + intros y t t'.
      destruct (Diag.draw_props _ _ _ _ (0%nat, t)) as [st1|]; simpl;
        [|done].
      destruct (Diag.draw_props _ _ _ _ st1) as [st2|]; simpl; [|done].
      by destruct (Diag.draw_props _ _ _ _ st2) as [st3|].
  - apply _.
Qed.

Lemma vertex_positions_defined g order :
  is_Some (Diag.vertex_positions g order)
  ↔ ∀ vert, (vert < order - 1)%nat → is_Some (Nx.operator g !! vert).
Proof.
  unfold Diag.vertex_positions. cbv zeta.
  assert (∀ (o : option string) (k : string → string),
    is_Some (o ≫= λ p, Some (k p)) ↔ is_Some o) as Hk.
  { intros [p|] k; simpl; [|done]. split; by eauto. }
  rewrite (Hk _ (λ p, _)).
  rewrite (for_each_is_Some _ _ (λ vert, is_Some (Nx.operator g !! vert))).
  - rewrite Forall_forall. unfold Py.range.
    split; intros H vert Hv; apply H; [apply elem_of_seq; lia|].
    apply elem_of_seq in Hv. lia.
  - intros vert s [op ->]. simpl. by eauto.
  - intros vert s Hnone. apply eq_None_not_Some in Hnone.
    by rewrite Hnone.
  - apply _.
Qed.

Lemma self_contraction_props (vert : nat) (props : list Nx.edge) (key : nat)
    (instructions : string) :
  let run :=
    Py.for_each props (λ prop '(key, instructions),
        a ← Nx.anomalous prop;
        if a : bool then
          let a_name :=
            ("a" +:+ Np.fmt_d (Z.of_nat vert)
             +:+ Np.fmt_d (Z.of_nat key))%string in
          pos ← ["15pt"; "-15pt"]%string !! key;
          Some (Py.Continue
            (S key,
             (instructions
              +:+ "\fmfv{}{" +:+ a_name +:+ "}" +:+ Np.newline
              +:+ "\fmffixed{(" +:+ pos +:+ ",0)}{v"
              +:+ Np.fmt_d (Z.of_nat vert) +:+ "," +:+ a_name +:+ "}"
              +:+ Np.newline
              +:+ "\fmf{half_prop,right}{" +:+ a_name +:+ ",v"
              +:+ Np.fmt_d (Z.of_nat vert) +:+ "}" +:+ Np.newline
              +:+ "\fmf{half_prop,left}{" +:+ a_name +:+ ",v"
              +:+ Np.fmt_d (Z.of_nat vert) +:+ "}" +:+ Np.newline)%string))
        else Some (Py.Continue (key, instructions)))
        (key, instructions) in
  (key ≤ 2)%nat →
  is_Some run
  ↔ Forall (λ e, is_Some (Nx.anomalous e)) props
    ∧ (key + length (filter (λ e, Nx.anomalous e = Some true) props)
       ≤ 2)%nat.
Proof.
  cbv zeta. revert key instructions.
  induction props as [|e props IH]; intros key instructions Hkey.
  - simpl. split; [intros _; split; [done|lia]|by eauto].
  - rewrite Forall_cons, filter_cons. cbn [Py.for_each].
    destruct (Nx.anomalous e) as [[|]|].
    + rewrite decide_True by done. cbn [mbind option_bind length].
      destruct (decide (key < 2)%nat) as [Hlt|Hlt].
      * destruct (lookup_lt_is_Some_2 ["15pt"; "-15pt"]%string key)
          as [pos ->]; [simpl; lia|]. cbn [mbind option_bind].
        rewrite IH by lia.
        split; [intros [H1 H2]|intros [[_ H1] H2]].
        -- split; [split; [by eexists|done]|simpl; lia].
        -- split; [done|simpl in H2; lia].
      * rewrite (lookup_ge_None_2 ["15pt"; "-15pt"]%string key)
          by (simpl; lia). cbn [mbind option_bind].
        split; [by intros [? ?]|]. intros [_ H2]. simpl in H2. lia.
    + rewrite decide_False by done. cbn [mbind option_bind].
      rewrite IH by done.
      split; [intros [H1 H2]|intros [[_ H1] H2]].
      * split; [split; [by eexists|done]|done].
      * by split.
    + cbn [mbind option_bind].
      split; [by intros [? ?]|]. by intros [[[? ?] _] _].
Qed.

Lemma self_contractions_spec g :
  (is_Some (Diag.self_contractions g)
   ↔ ∀ vert, vert ∈ Nx.nodes g → drawable_self_loops g vert)
  ∧ ((∀ vert, vert ∈ Nx.nodes g → self_loops g vert = []) →
     Diag.self_contractions g
     = (style ← Diag.propagator_style "half_prop";
        Some (style +:+ "\fmffreeze" +:+ Np.newline)%string)).
Proof.
  unfold Diag.self_contractions. cbv zeta.
  destruct (Diag.propagator_style "half_prop") as [style|] eqn:Hstyle;
    [|done].
  cbn [mbind option_bind].
  assert (∀ (o : option string) (k : string → string),
    is_Some (o ≫= λ p, Some (k p)) ↔ is_Some o) as Hk.
  { intros [p|] k; simpl; [|done]. split; by eauto. }
  split.
  - rewrite (Hk _ (λ p, _)).
    rewrite (for_each_is_Some _ _ (drawable_self_loops g)).
    + by rewrite Forall_forall.
    + intros vert s Hok. fold (self_loops g vert).
      apply (self_contraction_props vert (self_loops g vert) 0 s) in Hok
        as [[key s'] Hrun]; [|lia].
      cbv zeta in Hrun. rewrite Hrun. simpl. by eauto.
    + intros vert s Hok. fold (self_loops g vert).
      rewrite <-(self_contraction_props vert (self_loops g vert) 0 s) in Hok
        by lia.
      apply eq_None_not_Some in Hok. cbv zeta in Hok. by rewrite Hok.
    + intros vert. unfold drawable_self_loops. apply _.
  - intros Hnone.
    destruct (for_each_invariant (λ s, s = ("" +:+ style)%string)
      (Nx.nodes g)
      (λ vert instructions,
        '(key, instructions) ←
          Py.for_each (self_loops g vert) (λ prop '(key, instructions),
            a ← Nx.anomalous prop;
            if a : bool then
              let a_name :=
                ("a" +:+ Np.fmt_d (Z.of_nat vert)
                 +:+ Np.fmt_d (Z.of_nat key))%string in
              pos ← ["15pt"; "-15pt"]%string !! key;
              Some (Py.Continue
                (S key,
                 (instructions
                  +:+ "\fmfv{}{" +:+ a_name +:+ "}" +:+ Np.newline
                  +:+ "\fmffixed{(" +:+ pos +:+ ",0)}{v"
                  +:+ Np.fmt_d (Z.of_nat vert) +:+ "," +:+ a_name +:+ "}"
                  +:+ Np.newline
                  +:+ "\fmf{half_prop,right}{" +:+ a_name +:+ ",v"
                  +:+ Np.fmt_d (Z.of_nat vert) +:+ "}" +:+ Np.newline
                  +:+ "\fmf{half_prop,left}{" +:+ a_name +:+ ",v"
                  +:+ Np.fmt_d (Z.of_nat vert) +:+ "}" +:+ Np.newline)%string))
            else Some (Py.Continue (key, instructions)))
            (0%nat, instructions);
        Some (Py.Continue instructions)) ("" +:+ style)%string)
      as (s & Hrun & ->); [done| |].
    + intros vert s Hvert ->. rewrite (Hnone vert Hvert). simpl. by eauto.
    + unfold self_loops in Hrun. rewrite Hrun. done.
Qed.

(** X22. [self_contractions] writes the style [half_prop] and the closing
    [\fmffreeze] for every graph, also for one without self-loop: the test
    that guards them is on a list of one element. The function returns
    exactly when the self-loops of every node all carry the attribute
    ['anomalous'] and at most two of them are anomalous; a self-loop that
    is not anomalous is not drawn. *)
Theorem self_contractions_always_written (g : Nx.MultiDiGraph) :
  (is_Some (Diag.self_contractions g)
   ↔ ∀ vert, vert ∈ Nx.nodes g → drawable_self_loops g vert)
  ∧ (Forall (λ e, Nx.src e = Nx.dst e → Nx.anomalous e = Some false)
       (Nx.edges g) →
     ∃ style,
       Diag.propagator_style "half_prop" = Some style
       ∧ Diag.self_contractions g
         = Some (style +:+ "\fmffreeze" +:+ Np.newline)%string).
Proof.
  split; [apply self_contractions_spec|].
  intros Hloops.
  destruct (Diag.propagator_style "half_prop") as [style|] eqn:Hstyle;
    [|done].
  exists style. split; [done|].
  unfold Diag.self_contractions. rewrite Hstyle. cbv zeta.
  cbn [mbind option_bind].
  destruct (for_each_invariant (λ s, s = ("" +:+ style)%string)
    (Nx.nodes g)
    (λ vert instructions,
      '(key, instructions) ←
        Py.for_each (self_loops g vert) (λ prop '(key, instructions),
          a ← Nx.anomalous prop;
          if a : bool then
            pos ← ["15pt"; "-15pt"]%string !! key;
            Some (Py.Continue
              (S key,
               (instructions
                +:+ "\fmfv{}{"
                +:+ ("a" +:+ Np.fmt_d (Z.of_nat vert)
                     +:+ Np.fmt_d (Z.of_nat key)) +:+ "}" +:+ Np.newline
                +:+ "\fmffixed{(" +:+ pos +:+ ",0)}{v"
                +:+ Np.fmt_d (Z.of_nat vert) +:+ ","
                +:+ ("a" +:+ Np.fmt_d (Z.of_nat vert)
                     +:+ Np.fmt_d (Z.of_nat key)) +:+ "}"
                +:+ Np.newline
                +:+ "\fmf{half_prop,right}{"
                +:+ ("a" +:+ Np.fmt_d (Z.of_nat vert)
                     +:+ Np.fmt_d (Z.of_nat key)) +:+ ",v"
                +:+ Np.fmt_d (Z.of_nat vert) +:+ "}" +:+ Np.newline
                +:+ "\fmf{half_prop,left}{"
                +:+ ("a" +:+ Np.fmt_d (Z.of_nat vert)
                     +:+ Np.fmt_d (Z.of_nat key)) +:+ ",v"
                +:+ Np.fmt_d (Z.of_nat vert) +:+ "}" +:+ Np.newline)%string))
          else Some (Py.Continue (key, instructions)))
          (0%nat, instructions);
      Some (Py.Continue instructions)) ("" +:+ style)%string)
    as (s & Hrun & ->); [done| |].
  - intros vert s Hvert ->.
    assert (Forall (λ e, Nx.anomalous e = Some false) (self_loops g vert))
      as Hfalse.
    { apply Forall_forall. intros e [[He _] Hin]%list_elem_of_filter.
      rewrite Forall_forall in Hloops. by apply Hloops. }
    exists ("" +:+ style)%string. split; [|done].
    assert (∀ key, Py.for_each (self_loops g vert)
      (λ prop '(key, instructions),
          a ← Nx.anomalous prop;
          if a : bool then
            pos ← ["15pt"; "-15pt"]%string !! key;
            Some (Py.Continue
              (S key,
               (instructions
                +:+ "\fmfv{}{"
                +:+ ("a" +:+ Np.fmt_d (Z.of_nat vert)
                     +:+ Np.fmt_d (Z.of_nat key)) +:+ "}" +:+ Np.newline
                +:+ "\fmffixed{(" +:+ pos +:+ ",0)}{v"
                +:+ Np.fmt_d (Z.of_nat vert) +:+ ","
                +:+ ("a" +:+ Np.fmt_d (Z.of_nat vert)
                     +:+ Np.fmt_d (Z.of_nat key)) +:+ "}"
                +:+ Np.newline
                +:+ "\fmf{half_prop,right}{"
                +:+ ("a" +:+ Np.fmt_d (Z.of_nat vert)
                     +:+ Np.fmt_d (Z.of_nat key)) +:+ ",v"
                +:+ Np.fmt_d (Z.of_nat vert) +:+ "}" +:+ Np.newline
                +:+ "\fmf{half_prop,left}{"
                +:+ ("a" +:+ Np.fmt_d (Z.of_nat vert)
                     +:+ Np.fmt_d (Z.of_nat key)) +:+ ",v"
                +:+ Np.fmt_d (Z.of_nat vert) +:+ "}" +:+ Np.newline)%string))
          else Some (Py.Continue (key, instructions)))
      (key, ("" +:+ style)%string) = Some (key, ("" +:+ style)%string))
      as Hinner.
    { induction Hfalse as [|e props He _ IH]; intros key; [done|].
      cbn [Py.for_each]. rewrite He. cbn [mbind option_bind]. apply IH. }
    by rewrite Hinner.
  - unfold self_loops in Hrun. by rewrite Hrun.
Qed.

Lemma propagator_style_defined (prop_type : string) :
  prop_type ∈ ["half_prop"; "prop_pm"; "prop_mm"]%string →
  is_Some (Diag.propagator_style prop_type).
Proof.
  rewrite !elem_of_cons, elem_of_nil.
  intros [->|[->|[->|[]]]]; eexists; vm_compute; reflexivity.
Qed.

(** X23. [feynmf_generator] writes the whole file exactly when the theory is
    one of MBPT, BMBPT and PBMBPT, every vertex but the last one of the
    order carries the attribute ['operator'], for PBMBPT the
    self-contractions can be drawn, and no vertex shares more than six
    propagators with a vertex that follows it: the directions run out at
    the seventh, with an [IndexError]. *)
Theorem feynmf_generator_defined (g : Nx.MultiDiGraph)
    (theory_type diagram_name : string) :
  is_Some (Diag.feynmf_generator g theory_type diagram_name)
  ↔ theory_type ∈ ["MBPT"; "BMBPT"; "PBMBPT"]%string
    ∧ (∀ vert, (vert < Nx.number_of_nodes g - 1)%nat →
         is_Some (Nx.operator g !! vert))
    ∧ (theory_type = "PBMBPT"%string →
       ∀ vert, vert ∈ Nx.nodes g → drawable_self_loops g vert)
    ∧ ∀ vert_i vert_j,
        vert_i ∈ Nx.nodes g → vert_j ∈ drop (vert_i + 1) (Nx.nodes g) →
        (length (Diag.props_between g vert_i vert_j) ≤ 6)%nat.
Proof.
  assert (∀ out propa,
    is_Some (out ← Diag.draw_propagators g propa out;
             Some (out +:+ "\end{fmfgraph*}" +:+ Np.newline
                   +:+ "\end{fmffile}}" +:+ Np.newline)%string)
    ↔ ∀ vert_i vert_j,
        vert_i ∈ Nx.nodes g → vert_j ∈ drop (vert_i + 1) (Nx.nodes g) →
        (length (Diag.props_between g vert_i vert_j) ≤ 6)%nat) as Hdraw.
  { intros out propa. rewrite <-(draw_propagators_defined g propa out).
    destruct (Diag.draw_propagators g propa out); simpl; [|done].
    split; by eauto. }
  unfold Diag.feynmf_generator. cbv zeta.
  destruct (decide (theory_type = "MBPT"%string)) as [->|H1].
  { change (Py.index "MBPT"%string _) with (Some 0%nat).
    cbn [mbind option_bind lookup list_lookup].
    destruct (propagator_style_defined "half_prop") as [style ->];
      [by left|].
    cbn [mbind option_bind].
    rewrite bool_decide_eq_false_2 by done. cbn [mbind option_bind].
    rewrite <-(vertex_positions_defined g (Nx.number_of_nodes g)).
    destruct (Diag.vertex_positions g _) as [p|]; cbn [mbind option_bind].
    - rewrite Hdraw.
      split; [intros ?; split_and!; [by left|by eexists|done|done]|].
      by intros (_ & _ & _ & ?).
    - split; [by intros [? ?]|by intros (_ & [? ?] & _)]. }
  destruct (decide (theory_type = "BMBPT"%string)) as [->|H2].
  { change (Py.index "BMBPT"%string _) with (Some 1%nat).
    cbn [mbind option_bind lookup list_lookup].
    destruct (propagator_style_defined "prop_pm") as [style ->];
      [by right; left|].
    cbn [mbind option_bind].
    rewrite bool_decide_eq_false_2 by done. cbn [mbind option_bind].
    rewrite <-(vertex_positions_defined g (Nx.number_of_nodes g)).
    destruct (Diag.vertex_positions g _) as [p|]; cbn [mbind option_bind].
    - rewrite Hdraw.
      split; [intros ?; split_and!; [by right; left|by eexists|done|done]|].
      by intros (_ & _ & _ & ?).
    - split; [by intros [? ?]|by intros (_ & [? ?] & _)]. }
  destruct (decide (theory_type = "PBMBPT"%string)) as [->|H3].
  { change (Py.index "PBMBPT"%string _) with (Some 2%nat).
    cbn [mbind option_bind lookup list_lookup].
    destruct (propagator_style_defined "prop_pm") as [style ->];
      [by right; left|].
    cbn [mbind option_bind].
    rewrite bool_decide_eq_true_2 by done.
    destruct (propagator_style_defined "prop_mm") as [style' ->];
      [by do 2 right; left|].
    cbn [mbind option_bind].
    rewrite <-(proj1 (self_contractions_spec g)).
    rewrite <-(vertex_positions_defined g (Nx.number_of_nodes g)).
    destruct (Diag.vertex_positions g _) as [p|]; cbn [mbind option_bind].
    - destruct (Diag.self_contractions g) as [instructions|];
        cbn [mbind option_bind].
      + rewrite Hdraw.
        split; [intros ?; split_and!;
                  [by do 2 right; left|by eexists|by eexists|done]|].
        by intros (_ & _ & _ & ?).
      + split; [by intros [? ?]|]. intros (_ & _ & H & _).
        by destruct (H eq_refl).
    - split; [by intros [? ?]|by intros (_ & [? ?] & _)]. }
  assert (Py.index theory_type ["MBPT"; "BMBPT"; "PBMBPT"]%string = None)
    as ->.
  { unfold Py.index. simpl. by rewrite !decide_False by done. }
  split; [by intros [? ?]|].
  rewrite !elem_of_cons, elem_of_nil. intros ([|[|[|[]]]] & _); done.
Qed.

(** ** The drawing instructions of [methods.py] *)

Lemma string_app_empty_r (a : string) : (a +:+ "")%string = a.
Proof.
  induction a as [|c a IH]; [done|]. rewrite string_app_cons. by f_equal.
Qed.

Lemma foldl_lines {A} (f : A → string) (h : string → A → string)
    (l : list A) (out : string) :
  (∀ out k, h out k = (out +:+ f k)%string) →
  foldl h out l = (out +:+ foldr (λ k text, f k +:+ text) "" l)%string.
Proof.
  intros Hh. revert out.
  induction l as [|k l IH]; intros out; simpl.
  - by rewrite string_app_empty_r.
  - by rewrite IH, Hh, string_app_assoc.
Qed.

Lemma odd_mod (n : nat) : bool_decide (n `mod` 2 = 1)%nat = Nat.odd n.
Proof.
  pose proof (Nat.div_mod_eq n 2) as Hdiv.
  pose proof (Nat.mod_upper_bound n 2) as Hlt.
  destruct (Nat.odd n) eqn:Hodd.
  - apply bool_decide_eq_true_2. apply Nat.odd_spec in Hodd as [k ->]. lia.
  - apply bool_decide_eq_false_2. intros Hm.
    assert (Nat.odd n = true) as Ht
      by (apply Nat.odd_spec; exists (n / 2)%nat; lia).
    congruence.
Qed.

Lemma draw_pair_lines g propa vert_i vert_j out :
  Methods.draw_pair g propa vert_i vert_j out
  = (out +:+ pair_lines propa vert_i vert_j
       (pair_directions
          (bool_decide (Z.abs (Z.of_nat vert_i - Z.of_nat vert_j) = 1))
          (bool_decide (Nx.number_of_edges_between g vert_j vert_i = 1)%nat)
          (Nx.number_of_edges_between g vert_i vert_j)))%string.
Proof.
  unfold Methods.draw_pair, pair_directions. cbv zeta.
  rewrite odd_mod.
  set (n := Nx.number_of_edges_between g vert_i vert_j).
  set (adjacent := bool_decide (Z.abs _ = 1)).
  set (ends := ("}{v" +:+ _)%string).
  assert (∀ out k,
    ((if bool_decide (k = 6%nat) || bool_decide (k = 5%nat)
      then ((if bool_decide (k `mod` 2 = 1)%nat
             then (out +:+ "\fmf{" +:+ propa +:+ ",") +:+ "right="
             else (out +:+ "\fmf{" +:+ propa +:+ ",") +:+ "left=")
            +:+ "0.9")
      else if bool_decide (k = 4%nat) || bool_decide (k = 3%nat)
      then ((if bool_decide (k `mod` 2 = 1)%nat
             then (out +:+ "\fmf{" +:+ propa +:+ ",") +:+ "right="
             else (out +:+ "\fmf{" +:+ propa +:+ ",") +:+ "left=")
            +:+ "0.75")
      else if bool_decide (k = 2%nat) || bool_decide (k = 1%nat)
      then (if adjacent
            then (if bool_decide (k `mod` 2 = 1)%nat
                  then (out +:+ "\fmf{" +:+ propa +:+ ",") +:+ "right="
                  else (out +:+ "\fmf{" +:+ propa +:+ ",") +:+ "left=")
                 +:+ "0.5"
            else (if bool_decide (k `mod` 2 = 1)%nat
                  then (out +:+ "\fmf{" +:+ propa +:+ ",") +:+ "right="
                  else (out +:+ "\fmf{" +:+ propa +:+ ",") +:+ "left=")
                 +:+ "0.6")
      else (if bool_decide (k `mod` 2 = 1)%nat
            then (out +:+ "\fmf{" +:+ propa +:+ ",") +:+ "right="
            else (out +:+ "\fmf{" +:+ propa +:+ ",") +:+ "left="))
     +:+ ends)%string
    = (out +:+ "\fmf{" +:+ propa +:+ direction adjacent k +:+ ends)%string)
    as Hbody.
  { intros o k. unfold direction. rewrite odd_mod.
    set (X := (o +:+ "\fmf{" +:+ propa +:+ ",")%string).
    set (side := if Nat.odd k then "right="%string else "left="%string).
    assert ((if Nat.odd k then (X +:+ "right=")%string
             else (X +:+ "left=")%string) = (X +:+ side)%string) as ->
      by (unfold side; by destruct (Nat.odd k)).
    assert ((if bool_decide (k = 6%nat) || bool_decide (k = 5%nat)
             then (X +:+ side) +:+ "0.9"
             else if bool_decide (k = 4%nat) || bool_decide (k = 3%nat)
             then (X +:+ side) +:+ "0.75"
             else if bool_decide (k = 2%nat) || bool_decide (k = 1%nat)
             then (if adjacent then (X +:+ side) +:+ "0.5"
                   else (X +:+ side) +:+ "0.6")
             else X +:+ side)%string
            = ((X +:+ side) +:+ direction_value adjacent k)%string) as ->.
    { unfold direction_value.
      repeat case_bool_decide; cbn [orb]; try lia;
        try done; try (by destruct adjacent).
      by rewrite string_app_empty_r. }
    unfold X. by rewrite !string_app_assoc. }
  unfold Py.range_down.
  assert (∀ l : list nat,
    foldr (λ k text,
      ("\fmf{" +:+ propa +:+ direction adjacent k +:+ ends) +:+ text)%string
      ""%string l
    = pair_lines propa vert_i vert_j (direction adjacent <$> l)) as Hfold.
  { intros l. unfold pair_lines. rewrite foldr_fmap.
    apply foldr_ext; [|done|done].
    intros k text. unfold ends. by rewrite !string_app_assoc. }
  destruct (Nat.odd n && adjacent) eqn:Hodd.
  - replace (n - 1 + 1 - 1)%nat with (n - 1)%nat by lia.
    rewrite (foldl_lines
               (λ k, "\fmf{" +:+ propa +:+ direction adjacent k +:+ ends)%string)
      by exact Hbody.
    rewrite Hfold. unfold pair_lines at 2. cbn [foldr].
    fold (pair_lines propa vert_i vert_j
            (direction adjacent <$> reverse (seq 1 (n - 1)))).
    unfold ends.
    destruct (bool_decide (_ = 1%nat)); by rewrite !string_app_assoc.
  - replace (n + 1 - 1)%nat with n by lia.
    rewrite (foldl_lines
               (λ k, "\fmf{" +:+ propa +:+ direction adjacent k +:+ ends)%string)
      by exact Hbody.
    by rewrite Hfold.
Qed.

Lemma direction_right_open (adjacent : bool) (k : nat) :
  (1 ≤ k)%nat →
  direction adjacent k = ",right="%string ↔ (7 ≤ k)%nat ∧ Nat.odd k = true.
Proof.
  intros Hk. destruct (decide (k ≤ 6)%nat) as [Hle|Hgt].
  - assert (k = 1 ∨ k = 2 ∨ k = 3 ∨ k = 4 ∨ k = 5 ∨ k = 6)%nat as Hin by lia.
    split; [|lia]. intros Hdir. exfalso. revert Hdir.
    destruct adjacent;
      destruct Hin as [->|[->|[->|[->|[->| ->]]]]]; by vm_compute.
  - unfold direction, direction_value.
    rewrite !bool_decide_eq_false_2 by lia.
    destruct (Nat.odd k); split; try done; try lia.
Qed.

(** X24. The propagators of [feynmf_generator] in [methods.py], for the
    vertices [vert_i] and [vert_j]: one line is written for every
    propagator from [vert_i] to [vert_j], with the directions of
    [pair_directions]. A line with [right=] and no value after it is written
    exactly for 8 propagators or more, or 7 between vertices that are not
    consecutive. For an odd number of at least 3 propagators between
    consecutive vertices with exactly one propagator back, two lines carry
    the same direction [right=0.5]. *)
Theorem methods_pair_directions (g : Nx.MultiDiGraph) (propa : string)
    (vert_i vert_j : nat) (out : string) :
  let n := Nx.number_of_edges_between g vert_i vert_j in
  let adjacent :=
    bool_decide (Z.abs (Z.of_nat vert_i - Z.of_nat vert_j) = 1) in
  let back_one :=
    bool_decide (Nx.number_of_edges_between g vert_j vert_i = 1)%nat in
  let dirs := pair_directions adjacent back_one n in
  Methods.draw_pair g propa vert_i vert_j out
  = (out +:+ pair_lines propa vert_i vert_j dirs)%string
  ∧ length dirs = n
  ∧ (",right="%string ∈ dirs
     ↔ (8 ≤ n)%nat ∨ (n = 7%nat ∧ adjacent = false))
  ∧ (adjacent = true → back_one = true → Nat.odd n = true → (3 ≤ n)%nat →
     ¬ NoDup dirs).
Proof.
  intros n adjacent back_one dirs.
  split; [apply draw_pair_lines|].
  unfold dirs, pair_directions.
  assert (∀ m, ",right="%string ∈ direction adjacent <$> reverse (seq 1 m)
               ↔ (7 ≤ m)%nat) as Hopen.
  { intros m. rewrite list_elem_of_fmap. split.
    - intros (k & Hdir & Hk). rewrite elem_of_reverse, elem_of_seq in Hk.
      symmetry in Hdir.
      destruct (direction_right_open adjacent k) as [Hk7 _]; [lia|].
      destruct (Hk7 Hdir). lia.
    - intros Hm. exists 7%nat. split.
      + destruct (direction_right_open adjacent 7) as [_ H7]; [lia|].
        symmetry. apply H7. by split.
      + rewrite elem_of_reverse, elem_of_seq. lia. }
  destruct (Nat.odd n) eqn:Hodd, adjacent eqn:Hadj; cbn [andb].
  - assert (1 ≤ n)%nat as Hn.
    { destruct n as [|n']; [done|lia]. }
    split_and!.
    + cbn [length]. rewrite length_fmap, length_reverse, length_seq. lia.
    + rewrite elem_of_cons, Hopen. split.
      * intros [Hhead|?]; [by destruct back_one|]. left. lia.
      * intros [?|[_ ?]]; [|done]. right. lia.
    + intros _ -> _ Hn3. rewrite NoDup_cons. intros [Hnotin _].
      apply Hnotin. apply list_elem_of_fmap. exists 1%nat.
      split; [done|]. rewrite elem_of_reverse, elem_of_seq. lia.
  - split_and!.
    + by rewrite length_fmap, length_reverse, length_seq.
    + rewrite Hopen. split.
      * intros ?. destruct (decide (n = 7%nat)); [by right|left; lia].
      * intros [?|[? _]]; lia.
    + done.
  - split_and!.
    + by rewrite length_fmap, length_reverse, length_seq.
    + rewrite Hopen.
      assert (n ≠ 7%nat) by (intros Heq; by rewrite Heq in Hodd).
      split.
      * intros ?. left. lia.
      * intros [?|[? _]]; lia.
    + done.
  - split_and!.
    + by rewrite length_fmap, length_reverse, length_seq.
    + rewrite Hopen.
      assert (n ≠ 7%nat) by (intros Heq; by rewrite Heq in Hodd).
      split.
      * intros ?. left. lia.
      * intros [?|[? _]]; lia.
    + done.
Qed.

(** X25. [feynmf_generator] of [methods.py] writes the whole file exactly
    when the theory is one of MBPT, BMBPT and SCGF and every vertex but the
    last one of the order carries the attribute ['operator']; the number of
    the propagators never stops it. *)
Theorem methods_feynmf_generator_defined (g : Nx.MultiDiGraph)
    (theory_type diagram_name : string) :
  is_Some (Methods.feynmf_generator g theory_type diagram_name)
  ↔ theory_type ∈ ["MBPT"; "BMBPT"; "SCGF"]%string
    ∧ ∀ vert, (vert < Nx.number_of_nodes g - 1)%nat →
        is_Some (Nx.operator g !! vert).
Proof.
  assert (∀ (o : option string) (k : string → string),
    is_Some (o ≫= λ p, Some (k p)) ↔ is_Some o) as Hk.
  { intros [p|] k; simpl; [|done]. split; by eauto. }
  assert (∀ out,
    is_Some (Py.for_each (Py.range (Nx.number_of_nodes g - 1))
      (λ vert out,
        op ← Nx.operator g !! vert;
        Some (Py.Continue
          ((if op : bool
            then ((out +:+ "\fmf{phantom}{v" +:+ Np.fmt_d (Z.of_nat vert)
                   +:+ ",v" +:+ Np.fmt_d (Z.of_nat vert + 1) +:+ "}"
                   +:+ Np.newline)
                  +:+ "\fmfv{d.shape=square,d.filled=full,d.size=3thick")
            else ((out +:+ "\fmf{phantom}{v" +:+ Np.fmt_d (Z.of_nat vert)
                   +:+ ",v" +:+ Np.fmt_d (Z.of_nat vert + 1) +:+ "}"
                   +:+ Np.newline)
                  +:+ "\fmfv{d.shape=circle,d.filled=full,d.size=3thick"))
           +:+ "}{v" +:+ Np.fmt_d (Z.of_nat vert) +:+ "}" +:+ Np.newline)%string))
      out)
    ↔ ∀ vert, (vert < Nx.number_of_nodes g - 1)%nat →
        is_Some (Nx.operator g !! vert)) as Hpos.
  { intros out.
    rewrite (for_each_is_Some _ _ (λ vert, is_Some (Nx.operator g !! vert))).
    - rewrite Forall_forall. unfold Py.range.
      split; intros H vert Hv; apply H; [apply elem_of_seq; lia|].
      apply elem_of_seq in Hv. lia.
    - intros vert s [op ->]. simpl. by eauto.
    - intros vert s Hnone. apply eq_None_not_Some in Hnone.
      by rewrite Hnone.
    - apply _. }
  unfold Methods.feynmf_generator. cbv zeta.
  destruct (decide (theory_type = "MBPT"%string)) as [->|H1].
  { change (Py.index "MBPT"%string _) with (Some 0%nat).
    cbn [mbind option_bind lookup list_lookup].
    rewrite (Hk _ (λ p, _)), Hpos.
    split; [intros ?; split; [by left|done]|by intros [_ ?]]. }
  destruct (decide (theory_type = "BMBPT"%string)) as [->|H2].
  { change (Py.index "BMBPT"%string _) with (Some 1%nat).
    cbn [mbind option_bind lookup list_lookup].
    rewrite (Hk _ (λ p, _)), Hpos.
    split; [intros ?; split; [by right; left|done]|by intros [_ ?]]. }
  destruct (decide (theory_type = "SCGF"%string)) as [->|H3].
  { change (Py.index "SCGF"%string _) with (Some 2%nat).
    cbn [mbind option_bind lookup list_lookup].
    rewrite (Hk _ (λ p, _)), Hpos.
    split; [intros ?; split; [by do 2 right; left|done]|by intros [_ ?]]. }
  assert (Py.index theory_type ["MBPT"; "BMBPT"; "SCGF"]%string = None)
    as ->.
  { unfold Py.index. simpl. by rewrite !decide_False by done. }
  split; [by intros [? ?]|].
  rewrite !elem_of_cons, elem_of_nil. intros ([|[|[|[]]]] & _); done.
Qed.

(** ** The permutations of the time-structure diagrams *)

Lemma for_each_assign {V} (keys : list nat) (f : nat → option V)
    (cur : gmap nat V) :
  (∀ k, k ∈ keys → is_Some (f k)) →
  ∃ res,
    Py.for_each keys (λ k cur,
      v ← f k; Some (Py.Continue (<[k := v]> cur))) cur = Some res
    ∧ ∀ k, res !! k = if decide (k ∈ keys) then f k else cur !! k.
Proof.
  revert cur. induction keys as [|k0 keys IH]; intros cur Hf.
  - exists cur. split; [done|]. intros k.
    by rewrite decide_False by (by intros ?%elem_of_nil).
  - cbn [Py.for_each].
    destruct (Hf k0) as [v0 Hv0]; [by left|]. rewrite Hv0. simpl.
    destruct (IH (<[k0 := v0]> cur)) as (res & Hres & Hlook).
    { intros k Hk. apply Hf. by right. }
    exists res. split; [done|]. intros k. rewrite Hlook.
    destruct (decide (k ∈ keys)) as [Hin|Hin].
    + by rewrite decide_True by (by right).
    + destruct (decide (k = k0)) as [->|Hne].
      * rewrite decide_True by (by left). by rewrite lookup_insert_eq.
      * rewrite decide_False by (rewrite elem_of_cons; tauto).
        by rewrite lookup_insert_ne.
Qed.

Lemma permute_nodes_permuted (mapping perm : gmap nat nat) :
  maps_nodes mapping perm →
  Diag.permute_nodes mapping perm = Some (permuted mapping perm).
Proof.
  intros Hmaps. unfold Diag.permute_nodes. cbv zeta.
  destruct (for_each_assign (map_to_list perm).*1
              (λ node, mapping !! node ≫= (perm !!.)) perm)
    as (res & Hres & Hlook).
  { intros node Hnode. apply list_elem_of_fmap in Hnode as ([k v] & -> & Hkv).
    apply elem_of_map_to_list in Hkv. by apply (Hmaps k v). }
  assert (∀ (keys : list nat) (cur : gmap nat nat),
    Py.for_each keys (λ node (perm0 : gmap nat nat),
      image ← mapping !! node;
      value ← perm !! image;
      Some (Py.Continue (<[node := value]> perm0))) cur
    = Py.for_each keys (λ k (cur : gmap nat nat),
        v ← mapping !! k ≫= (perm !!.);
        Some (Py.Continue (<[k := v]> cur))) cur) as Hsame.
  { induction keys as [|k keys IH]; intros cur; [done|]. cbn [Py.for_each].
    destruct (mapping !! k) as [image|]; simpl; [|done].
    destruct (perm !! image) as [value|]; simpl; [|done]. apply IH. }
  rewrite Hsame, Hres. f_equal. apply map_eq. intros node.
  rewrite Hlook. unfold permuted. rewrite map_lookup_imap.
  destruct (perm !! node) as [v|] eqn:Hnode; simpl.
  - rewrite decide_True; [done|].
    apply list_elem_of_fmap. exists (node, v). split; [done|].
    by apply elem_of_map_to_list.
  - rewrite decide_False; [done|].
    intros ([k v] & -> & Hkv)%list_elem_of_fmap.
    apply elem_of_map_to_list in Hkv. simpl in Hnode. congruence.
Qed.

Lemma update_loop (mapping : gmap nat nat) (perms0 : gmap nat (gmap nat nat))
    (keys : list nat) (cur : gmap nat (gmap nat nat)) :
  NoDup keys →
  (∀ g, g ∈ keys → cur !! g = perms0 !! g) →
  (∀ g, g ∈ keys → ∃ p, perms0 !! g = Some p ∧ maps_nodes mapping p) →
  ∃ res,
    Py.for_each keys (λ graph_id perms,
      perm ← perms !! graph_id;
      perm ← Diag.permute_nodes mapping perm;
      Some (Py.Continue (<[graph_id := perm]> perms))) cur = Some res
    ∧ ∀ g, res !! g = if decide (g ∈ keys)
                      then permuted mapping <$> perms0 !! g else cur !! g.
Proof.
  revert cur. induction keys as [|g0 keys IH]; intros cur Hnd Hcur Hmaps.
  - exists cur. split; [done|]. intros g.
    by rewrite decide_False by (by intros ?%elem_of_nil).
  - apply NoDup_cons in Hnd as [Hg0 Hnd]. cbn [Py.for_each].
    destruct (Hmaps g0) as (p & Hp & Hmp); [by left|].
    rewrite (Hcur g0) by (by left). rewrite Hp. simpl.
    rewrite (permute_nodes_permuted mapping p Hmp). simpl.
    destruct (IH (<[g0 := permuted mapping p]> cur)) as (res & Hres & Hlook).
    + done.
    + intros g Hg. rewrite lookup_insert_ne by (by intros ->).
      apply Hcur. by right.
    + intros g Hg. apply Hmaps. by right.
    + exists res. split; [done|]. intros g. rewrite Hlook.
      destruct (decide (g ∈ keys)) as [Hin|Hin].
      * by rewrite decide_True by (by right).
      * destruct (decide (g = g0)) as [->|Hne].
        -- rewrite decide_True by (by left).
           by rewrite lookup_insert_eq, Hp.
        -- rewrite decide_False by (rewrite elem_of_cons; tauto).
           by rewrite lookup_insert_ne.
Qed.

(** X26. [update_permutations] composes every stored permutation with the
    mapping: when the stored permutations all have the nodes of the tagged
    one and the mapping sends these nodes to these nodes, every graph keeps
    its entry, and a node goes where the old permutation sent its image
    under the mapping. This holds as well when the mapping is the identity,
    for which nothing is edited. A tag without entry is a [KeyError]. *)
Theorem update_permutations_composes
    (comp_graph_perms : gmap nat (gmap nat nat)) (comp_graph_tag : nat)
    (mapping tagged : gmap nat nat) :
  comp_graph_perms !! comp_graph_tag = Some tagged →
  map_Forall (λ _ perm, dom perm = dom tagged) comp_graph_perms →
  maps_nodes mapping tagged →
  Diag.update_permutations comp_graph_perms comp_graph_tag mapping
  = Some (permuted mapping <$> comp_graph_perms)
  ∧ ∀ tag, comp_graph_perms !! tag = None →
      Diag.update_permutations comp_graph_perms tag mapping = None.
Proof.
  intros Htag Hdom Hmaps. split.
  2: { intros tag Hnone. unfold Diag.update_permutations.
       by rewrite Hnone. }
  unfold Diag.update_permutations. rewrite Htag. cbv zeta. simpl.
  case_bool_decide as Hid.
  - destruct (update_loop mapping comp_graph_perms
                (map_to_list comp_graph_perms).*1 comp_graph_perms)
      as (res & -> & Hlook).
    + apply NoDup_fst_map_to_list.
    + done.
    + intros g ([g' p] & -> & Hgp)%list_elem_of_fmap.
      apply elem_of_map_to_list in Hgp. exists p. split; [done|].
      pose proof (Hdom g' p Hgp) as Hd. simpl in Hd.
      intros node v Hnode.
      assert (is_Some (tagged !! node)) as [w Hw].
      { apply elem_of_dom. rewrite <-Hd. apply elem_of_dom. by eexists. }
      destruct (Hmaps node w Hw) as [x Hx].
      destruct (mapping !! node) as [image|]; simpl in *; [|done].
      apply elem_of_dom. rewrite Hd. apply elem_of_dom. by eexists.
    + f_equal. apply map_eq. intros g. rewrite Hlook, lookup_fmap.
      destruct (comp_graph_perms !! g) as [p|] eqn:Hg.
      * rewrite decide_True; [done|].
        apply list_elem_of_fmap. exists (g, p). split; [done|].
        by apply elem_of_map_to_list.
      * by destruct (decide _).
  - f_equal. apply map_eq. intros g.
    rewrite lookup_fmap.
    destruct (comp_graph_perms !! g) as [p|] eqn:Hg; [|done]. simpl.
    f_equal. apply map_eq. intros node. unfold permuted.
    rewrite map_lookup_imap.
    destruct (p !! node) as [v|] eqn:Hnode; [|done]. simpl.
    rewrite Hid, map_lookup_imap.
    pose proof (Hdom g p Hg) as Hd. simpl in Hd.
    assert (is_Some (tagged !! node)) as [w Hw].
    { apply elem_of_dom. rewrite <-Hd. apply elem_of_dom. by eexists. }
    rewrite Hw. simpl. done.
Qed.

Lemma update_permutations_composes_witness :
  Diag.update_permutations
    {[0%nat := {[0%nat := 0%nat; 1%nat := 1%nat]};
      1%nat := {[0%nat := 1%nat; 1%nat := 0%nat]}]} 0
    {[0%nat := 1%nat; 1%nat := 0%nat]}
  = Some (permuted {[0%nat := 1%nat; 1%nat := 0%nat]} <$>
            {[0%nat := {[0%nat := 0%nat; 1%nat := 1%nat]};
              1%nat := {[0%nat := 1%nat; 1%nat := 0%nat]}]}).
Proof.
  apply (update_permutations_composes _ 0 _
           {[0%nat := 0%nat; 1%nat := 1%nat]}).
  - reflexivity.
  - apply (bool_decide_unpack _). by vm_compute.
  - apply (bool_decide_unpack _). by vm_compute.
Defined.

(** ** The drawing instructions of the script *)

Lemma square_ext (n : nat) (a b : matrix) :
  square n a → square n b →
  (∀ u v, (u < n)%nat → (v < n)%nat → entry a u v = entry b u v) →
  a = b.
Proof.
  intros [Hla Hra] [Hlb Hrb] Hent. apply list_eq_same_length with n;
    [done|done|].
  intros u ra rb Hu Ha Hb.
  rewrite Forall_forall in Hra, Hrb.
  pose proof (Hra ra (list_elem_of_lookup_2 _ _ _ Ha)) as Hlra.
  pose proof (Hrb rb (list_elem_of_lookup_2 _ _ _ Hb)) as Hlrb.
  apply list_eq_same_length with n; [done|done|].
  intros v x y Hv Hx Hy.
  specialize (Hent u v Hu Hv). unfold entry, getitem2 in Hent.
  rewrite Ha, Hb in Hent. simpl in Hent. rewrite Hx, Hy in Hent. done.
Qed.

Lemma setitem2_entry (n : nat) (m : matrix) (i j : nat) (x : Z) :
  square n m → (i < n)%nat → (j < n)%nat →
  ∃ m', setitem2 m i j x = Some m' ∧ square n m'
    ∧ ∀ u v, entry m' u v
             = if bool_decide (u = i ∧ v = j) then x else entry m u v.
Proof.
  intros [Hlen Hrows] Hi Hj. unfold setitem2.
  destruct (lookup_lt_is_Some_2 m i) as [row Hrow]; [lia|].
  rewrite Hrow. simpl.
  assert (length row = n) as Hr.
  { rewrite Forall_forall in Hrows. apply Hrows.
    by eapply list_elem_of_lookup_2. }
  rewrite bool_decide_eq_true_2 by lia.
  eexists. split; [done|]. split.
  - split; [by rewrite length_insert|].
    apply Forall_insert; [done|]. by rewrite length_insert.
  - intros u v. unfold entry, getitem2.
    destruct (decide (u = i)) as [->|Hu].
    + rewrite list_lookup_insert_eq by lia. simpl.
      destruct (decide (v = j)) as [->|Hv].
      * rewrite list_lookup_insert_eq by lia.
        by rewrite bool_decide_eq_true_2.
      * rewrite list_lookup_insert_ne by done.
        rewrite bool_decide_eq_false_2 by tauto. by rewrite Hrow.
    + rewrite list_lookup_insert_ne by done.
      by rewrite bool_decide_eq_false_2 by tauto.
Qed.

Lemma fmt_d_digit (u : nat) :
  (u < 10)%nat →
  Np.fmt_d (Z.of_nat u) = String (ascii_of_nat (48 + u)) "".
Proof.
  intros Hu. do 10 (destruct u as [|u]; [by vm_compute|]). lia.
Qed.

Lemma int_char_digit (u : nat) :
  (u < 10)%nat → Py.int_char (ascii_of_nat (48 + u)) = Some (Z.of_nat u).
Proof.
  intros Hu. do 10 (destruct u as [|u]; [by vm_compute|]). lia.
Qed.

Lemma parse_loop (p_order : nat) (es : list Nx.edge) (m : matrix) :
  square p_order m → Forall (one_digit_edge p_order) es →
  ∃ m',
    Py.for_each
      ((λ e, Np.fmt_d (Z.of_nat (Nx.src e)) +:+ " "
             +:+ Np.fmt_d (Z.of_nat (Nx.dst e)))%string <$> es)
      (λ line oriented_adj_mat,
        c ← Py.getchar 0 line;
        i ← Py.int_char c;
        c ← Py.getchar 2 line;
        j ← Py.int_char c;
        x ← getitem2 oriented_adj_mat (Z.to_nat i) (Z.to_nat j);
        oriented_adj_mat ← setitem2 oriented_adj_mat (Z.to_nat i)
                             (Z.to_nat j) (x + 1);
        Some (Py.Continue oriented_adj_mat)) m = Some m'
    ∧ square p_order m'
    ∧ ∀ u v, entry m' u v
             = entry m u v
               + Z.of_nat (length (filter (λ e, Nx.src e = u ∧ Nx.dst e = v)
                                     es)).
Proof.
  intros Hm Hes. revert m Hm.
  induction Hes as [|e es (Hu & Hu10 & Hv & Hv10) _ IH]; intros m Hm.
  - exists m. split; [done|]. split; [done|]. intros u v. simpl. lia.
  - rewrite fmap_cons. cbn [Py.for_each].
    rewrite (fmt_d_digit _ Hu10), (fmt_d_digit _ Hv10).
    change (Py.getchar 0 (String (ascii_of_nat (48 + Nx.src e)) ""
                           +:+ " " +:+ String (ascii_of_nat (48 + Nx.dst e)) ""))
      with (Some (ascii_of_nat (48 + Nx.src e))).
    change (Py.getchar 2 (String (ascii_of_nat (48 + Nx.src e)) ""
                           +:+ " " +:+ String (ascii_of_nat (48 + Nx.dst e)) ""))
      with (Some (ascii_of_nat (48 + Nx.dst e))).
    cbn [mbind option_bind].
    rewrite (int_char_digit _ Hu10), (int_char_digit _ Hv10).
    cbn [mbind option_bind]. rewrite !Nat2Z.id.
    destruct (setitem2_entry p_order m (Nx.src e) (Nx.dst e)
                (entry m (Nx.src e) (Nx.dst e) + 1) Hm Hu Hv)
      as (m1 & Hset & Hm1 & Hent).
    assert (getitem2 m (Nx.src e) (Nx.dst e)
            = Some (entry m (Nx.src e) (Nx.dst e))) as ->.
    { destruct Hm as [Hlen Hrows]. unfold entry, getitem2.
      destruct (lookup_lt_is_Some_2 m (Nx.src e)) as [row Hrow]; [lia|].
      rewrite Hrow. simpl.
      assert (length row = p_order) as Hr.
      { rewrite Forall_forall in Hrows. apply Hrows.
        by eapply list_elem_of_lookup_2. }
      destruct (lookup_lt_is_Some_2 row (Nx.dst e)) as [x Hx]; [lia|].
      by rewrite Hx. }
    cbn [mbind option_bind]. rewrite Hset. cbn [mbind option_bind].
    destruct (IH m1 Hm1) as (m' & -> & Hm' & Hent').
    exists m'. split; [done|]. split; [done|].
    intros u v. rewrite Hent', Hent, filter_cons.
    case_bool_decide as Huv.
    + destruct Huv as [-> ->]. rewrite decide_True by done. simpl. lia.
    + rewrite decide_False by (intros [? ?]; apply Huv; by split). lia.
Qed.

Lemma fmt_d_two_digits (u : nat) :
  (10 ≤ u < 100)%nat →
  ∃ a b, Np.fmt_d (Z.of_nat u) = String a (String b "").
Proof.
  intros Hu.
  assert (Forall (λ u, String.length (Np.fmt_d (Z.of_nat u)) = 2%nat)
            (seq 10 90)) as Hall
    by (apply (bool_decide_unpack _); by vm_compute).
  rewrite Forall_forall in Hall.
  assert (String.length (Np.fmt_d (Z.of_nat u)) = 2%nat) as Hlen
    by (apply Hall, elem_of_seq; lia).
  destruct (Np.fmt_d (Z.of_nat u)) as [|a [|b [|c s]]]; try done.
  by eauto.
Qed.

(** X27. The matrix that [feynmf_generator] of the script reads back from the
    list of edges: when both ends of every edge are vertices with a name of
    one digit, it holds the number of edges for every pair of vertices, and
    is the adjacency matrix of a graph on the vertices [0 .. p_order-1]. An
    edge that leaves a vertex with a name of two digits stops the function
    with a [ValueError]: the third character of its line is the space. *)
Theorem edge_list_read_back (g : Nx.MultiDiGraph) (p_order : nat) :
  (Forall (one_digit_edge p_order) (Nx.edges g) →
   Adg.oriented_adj_mat g p_order = Some (edge_counts g p_order))
  ∧ (Nx.nodes g = seq 0 p_order →
     edge_counts g p_order = Nx.to_numpy_matrix g)
  ∧ ∀ e, e ∈ Nx.edges g → (10 ≤ Nx.src e < 100)%nat →
      Adg.oriented_adj_mat g p_order = None.
Proof.
  split_and!.
  - intros Hes. unfold Adg.oriented_adj_mat, Nx.generate_edgelist.
    cbv zeta.
    assert (square p_order (replicate p_order (replicate p_order 0)))
      as Hzero.
    { split; [by rewrite length_replicate|].
      apply Forall_replicate. by rewrite length_replicate. }
    destruct (parse_loop p_order (Nx.edges g) _ Hzero Hes)
      as (m' & -> & Hm' & Hent).
    f_equal. apply (square_ext p_order); [done| |].
    + unfold edge_counts. split; [by rewrite length_fmap, length_seq|].
      apply Forall_fmap, Forall_forall. intros u _. simpl.
      by rewrite length_fmap, length_seq.
    + intros u v Hu Hv. rewrite Hent.
      unfold entry at 1, getitem2.
      rewrite lookup_replicate_2 by done. simpl.
      rewrite lookup_replicate_2 by done. simpl.
      unfold edge_counts, entry, getitem2.
      rewrite list_lookup_fmap, lookup_seq_lt by done. simpl.
      rewrite list_lookup_fmap, lookup_seq_lt by done. simpl.
      done.
  - intros Hnodes. unfold edge_counts, Nx.to_numpy_matrix.
    by rewrite Hnodes.
  - intros e He Hsrc. unfold Adg.oriented_adj_mat, Nx.generate_edgelist.
    cbv zeta.
    apply (for_each_raise _ _ _
             (Np.fmt_d (Z.of_nat (Nx.src e)) +:+ " "
              +:+ Np.fmt_d (Z.of_nat (Nx.dst e)))%string).
    + apply list_elem_of_fmap. by exists e.
    + intros m. destruct (fmt_d_two_digits _ Hsrc) as (a & b & ->).
      change (Py.getchar 0 (String a (String b "") +:+ " "
                             +:+ Np.fmt_d (Z.of_nat (Nx.dst e))))
        with (Some a).
      change (Py.getchar 2 (String a (String b "") +:+ " "
                             +:+ Np.fmt_d (Z.of_nat (Nx.dst e))))
        with (Some " "%char).
      cbn [mbind option_bind]. by destruct (Py.int_char a).
    + intros line m m'.
      destruct (Py.getchar 0 line) as [c|]; simpl; [|done].
      destruct (Py.int_char c) as [i|]; simpl; [|done].
      destruct (Py.getchar 2 line) as [c'|]; simpl; [|done].
      destruct (Py.int_char c') as [j|]; simpl; [|done].
      destruct (getitem2 m _ _) as [x|]; simpl; [|done].
      by destruct (setitem2 m _ _ _).
Qed.

Lemma edge_list_read_back_witness :
  Adg.oriented_adj_mat (Nx.from_numpy_matrix [[0; 2]; [2; 0]]) 2
  = Some (edge_counts (Nx.from_numpy_matrix [[0; 2]; [2; 0]]) 2).
Proof.
  apply (edge_list_read_back (Nx.from_numpy_matrix [[0; 2]; [2; 0]]) 2).
  unfold one_digit_edge. simpl. repeat constructor; simpl; lia.
Defined.

(** X28. The lines that [feynmf_generator] of the script writes for [a_ij]
    propagators from the vertex [i] to the vertex [j]: one line for every
    propagator up to six propagators between consecutive vertices and up to
    five between other vertices, and five lines beyond. *)
Theorem pair_writes_count (prop : string) (i j : nat) (a_ij a_ji : Z) :
  0 ≤ a_ij →
  Z.of_nat (length (Adg.pair_writes prop i j a_ij a_ji))
  = if bool_decide (i = j) then 0
    else if bool_decide (Z.abs (Z.of_nat i - Z.of_nat j) = 1)
    then (if bool_decide (a_ij ≤ 6) then a_ij else 5)
    else Z.min a_ij 5.
Proof.
  intros Hpos. unfold Adg.pair_writes.
  repeat (case_bool_decide; cbn [andb app length]); lia.
Qed.

Lemma pair_writes_count_witness :
  Z.of_nat (length (Adg.pair_writes "prop_pm" 0 2 6 0)) = 5.
Proof. apply (pair_writes_count "prop_pm" 0 2 6 0). lia. Defined.

Lemma setitem2_square (n : nat) (m m' : matrix) (i j : nat) (x : Z) :
  square n m → setitem2 m i j x = Some m' → square n m'.
Proof.
  intros [Hlen Hrows] Hset. unfold setitem2 in Hset.
  destruct (m !! i) as [row|] eqn:Hrow; simpl in Hset; [|done].
  case_bool_decide; [|done]. injection Hset as <-.
  split; [by rewrite length_insert|].
  apply Forall_insert; [done|]. rewrite length_insert.
  rewrite Forall_forall in Hrows. apply Hrows.
  by eapply list_elem_of_lookup_2.
Qed.

Lemma oriented_adj_mat_square g p_order m :
  Adg.oriented_adj_mat g p_order = Some m → square p_order m.
Proof.
  unfold Adg.oriented_adj_mat. cbv zeta.
  assert (square p_order (replicate p_order (replicate p_order 0)))
    as Hzero.
  { split; [by rewrite length_replicate|].
    apply Forall_replicate. by rewrite length_replicate. }
  revert Hzero. generalize (replicate p_order (replicate p_order 0)).
  induction (Nx.generate_edgelist g) as [|line lines IH]; intros m0 Hm0.
  - simpl. by intros [= <-].
  - cbn [Py.for_each].
    destruct (Py.getchar 0 line) as [c|]; simpl; [|done].
    destruct (Py.int_char c) as [i|]; simpl; [|done].
    destruct (Py.getchar 2 line) as [c'|]; simpl; [|done].
    destruct (Py.int_char c') as [j|]; simpl; [|done].
    destruct (getitem2 m0 _ _) as [x|]; simpl; [|done].
    destruct (setitem2 m0 _ _ _) as [m1|] eqn:Hset; simpl; [|done].
    apply IH. by eapply setitem2_square.
Qed.

Lemma draw_lines_defined prop p_order m :
  square p_order m → is_Some (Adg.draw_lines prop p_order m).
Proof.
  intros [Hlen Hrows]. unfold Adg.draw_lines.
  assert (∀ i j, (i < p_order)%nat → (j < p_order)%nat →
            is_Some (getitem2 m i j)) as Hget.
  { intros i j Hi Hj. unfold getitem2.
    destruct (lookup_lt_is_Some_2 m i) as [row Hrow]; [lia|].
    rewrite Hrow. simpl. apply lookup_lt_is_Some_2.
    rewrite Forall_forall in Hrows. rewrite (Hrows row); [done|].
    by eapply list_elem_of_lookup_2. }
  destruct (for_each_invariant (λ _ : list string, True) (Py.range p_order)
    (λ i out,
      out ← Py.for_each (Py.range p_order) (λ j out,
        a_ij ← getitem2 m i j;
        a_ji ← getitem2 m j i;
        Some (Py.Continue (out ++ Adg.pair_writes prop i j a_ij a_ji))) out;
      Some (Py.Continue out)) []) as (out & -> & _); [done| |by eauto].
  intros i out Hi%elem_of_seq _.
  destruct (for_each_invariant (λ _ : list string, True) (Py.range p_order)
    (λ j out,
        a_ij ← getitem2 m i j;
        a_ji ← getitem2 m j i;
        Some (Py.Continue (out ++ Adg.pair_writes prop i j a_ij a_ji))) out)
    as (out' & -> & _); [done| |by simpl; eauto].
  intros j out' Hj%elem_of_seq _.
  destruct (Hget i j) as [a ->]; [lia|lia|].
  destruct (Hget j i) as [b ->]; [lia|lia|]. simpl. by eauto.
Qed.

(** X29. [feynmf_generator] of the script stops with an exception exactly
    when the theory is none of MBPT, BMBPT and SCGF, or when, from order 2
    on, the list of edges cannot be read back. Below order 2 it writes
    nothing to the file. *)
Theorem script_feynmf_generator_defined (norm : bool) (g : Nx.MultiDiGraph)
    (theory diag_name : string) :
  (is_Some (Adg.feynmf_generator norm g theory diag_name)
   ↔ theory ∈ ["MBPT"; "BMBPT"; "SCGF"]%string
     ∧ ((2 ≤ Nx.number_of_nodes g)%nat →
        is_Some (Adg.oriented_adj_mat g (Nx.number_of_nodes g))))
  ∧ ((Nx.number_of_nodes g < 2)%nat →
     theory ∈ ["MBPT"; "BMBPT"; "SCGF"]%string →
     Adg.feynmf_generator norm g theory diag_name = Some []).
Proof.
  unfold Adg.feynmf_generator. cbv zeta.
  assert (∀ prop begin_file end_file : string,
    (is_Some (if bool_decide (2 ≤ Nx.number_of_nodes g)%nat
              then
                oriented_adj_mat ←
                  Adg.oriented_adj_mat g (Nx.number_of_nodes g);
                lines ← Adg.draw_lines prop (Nx.number_of_nodes g)
                          oriented_adj_mat;
                Some (Adg.vertex_writes theory norm (Nx.number_of_nodes g)
                        begin_file ++ lines ++ [end_file])
              else Some [])
     ↔ ((2 ≤ Nx.number_of_nodes g)%nat →
        is_Some (Adg.oriented_adj_mat g (Nx.number_of_nodes g))))) as Hrest.
  { intros prop begin_file end_file. case_bool_decide as Hp.
    - destruct (Adg.oriented_adj_mat g _) as [m|] eqn:Hm; simpl.
      + destruct (draw_lines_defined prop _ m
                    (oriented_adj_mat_square g _ m Hm)) as [lines ->].
        simpl. split; [intros _ _; by eexists|intros _; by eexists].
      + split; [by intros [? ?]|]. intros H. by destruct (H Hp).
    - split; [intros _ ?; lia|intros _; by eexists]. }
  assert (∀ th_index prop_types,
    length prop_types = 3%nat → (th_index < 3)%nat →
    ∃ prop : string, prop_types !! th_index = Some prop) as Hprop.
  { intros i l Hl Hi. apply lookup_lt_is_Some_2. lia. }
  destruct (decide (theory ∈ ["MBPT"; "BMBPT"; "SCGF"]%string)) as [Hin|Hnin].
  - destruct (index_is_Some _ _ Hin) as (i & -> & Hi). cbn [mbind option_bind].
    destruct (Hprop i ["half_prop"; "prop_pm"; "double_arrow"]%string)
      as [prop ->]; [done|by apply lookup_lt_Some in Hi|].
    cbn [mbind option_bind]. split.
    + rewrite Hrest. split; [intros ?; by split|by intros [_ ?]].
    + intros Hlt _. by rewrite bool_decide_eq_false_2 by lia.
  - assert (Py.index theory ["MBPT"; "BMBPT"; "SCGF"]%string = None) as ->.
    { destruct (Py.index theory _) as [i|] eqn:Hi; [|done].
      apply index_Some in Hi as [Hi _].
      by apply list_elem_of_lookup_2 in Hi. }
    split; [|done]. split; [by intros [? ?]|by intros [? _]].
Qed.
